(** * OpenLogReplicator: a shallow embedding of the builder, memory and
      configuration code, and the properties proved about it.

    The file has two parts.  Part I translates the C++ functions
    (src/builder/Builder.h, src/builder/BuilderJson.h, src/common/Ctx.cpp,
    src/OpenLogReplicator.cpp, src/metadata/Checkpoint.cpp) into Rocq
    definitions, one module per component.  Part II states and proves the
    properties.

    Conventions.  Unsigned 64-bit values are integers of [Z] reduced with
    [wrap64] wherever the C++ arithmetic can wrap.  A [char] is an [ascii];
    [byte_of] gives its value as an unsigned byte.  A C++ exception is a value
    of [Exception]; a function that can throw returns a [Result].  Where a
    function can store past the end of an array or a buffer it allocated
    ([Ctx::initialize], [Builder::parseNumber]), that store is an outcome of
    its own, beside returning and throwing.  Constants and inline helpers
    declared in headers that are not part of the sources (Ctx.h, types.h,
    SysCol.h) are Section variables. *)

From Stdlib Require Import ZArith List String Ascii Bool Lia Btauto.
Import ListNotations.
Local Open Scope Z_scope.

(* ===================================================================== *)
(** * Part I.  The embedding                                              *)
(* ===================================================================== *)

(** ** Machine integers, characters, exceptions *)

Definition wrap64 (z : Z) : Z := z mod 18446744073709551616.

Definition byte_of (c : ascii) : Z := Z.of_N (N_of_ascii c).

Definition TAB : ascii := "009"%char.
Definition LF : ascii := "010"%char.
Definition CR : ascii := "013"%char.
Definition BS : ascii := "008"%char.
Definition FF : ascii := "012"%char.
Definition QUOTE : ascii := "034"%char.
Definition SLASH : ascii := "047"%char.
Definition BACKSLASH : ascii := "092"%char.

(** The exception classes of common/exception/. *)
Inductive ExClass : Type :=
| RuntimeException
| ConfigurationException
| DataException
| RedoLogException.

(** [msg] abbreviates the text the C++ code builds with std::to_string. *)
Record Exception : Type := mkException {
  exClass : ExClass;
  code : Z;
  msg : string
}.

Inductive Result (A : Type) : Type :=
| Ok (a : A)
| Throw (e : Exception).
Arguments Ok {A} a.
Arguments Throw {A} e.

Definition bind {A B : Type} (r : Result A) (k : A -> Result B) : Result B :=
  match r with
  | Ok a => k a
  | Throw e => Throw e
  end.

Declare Scope result_scope.
Delimit Scope result_scope with result.
Notation "x <- r ;; k" := (bind r (fun x => k))
  (at level 61, r at next level, right associativity) : result_scope.
Notation "r ;;; k" := (bind r (fun _ => k))
  (at level 61, right associativity) : result_scope.

Definition ExClass_eqb (a b : ExClass) : bool :=
  match a, b with
  | RuntimeException, RuntimeException => true
  | ConfigurationException, ConfigurationException => true
  | DataException, DataException => true
  | RedoLogException, RedoLogException => true
  | _, _ => false
  end.

(* --------------------------------------------------------------------- *)
(** ** Ctx::parseTimezone and Ctx::timezoneToString (common/Ctx.cpp)      *)
(* --------------------------------------------------------------------- *)

Module Timezone.

(** The chain of [if (strcmp(str, name) == 0) str = offset;] statements, in
    source order. *)
Definition aliases : list (string * string) :=
  [ ("Etc/GMT-14", "-14:00"); ("Etc/GMT-13", "-13:00"); ("Etc/GMT-12", "-12:00");
    ("Etc/GMT-11", "-11:00"); ("HST", "-10:00"); ("Etc/GMT-10", "-10:00");
    ("Etc/GMT-9", "-09:00"); ("PST", "-08:00"); ("PST8PDT", "-08:00");
    ("Etc/GMT-8", "-08:00"); ("MST", "-07:00"); ("MST7MDT", "-07:00");
    ("Etc/GMT-7", "-07:00"); ("CST", "-06:00"); ("CST6CDT", "-06:00");
    ("Etc/GMT-6", "-06:00"); ("EST", "-05:00"); ("EST5EDT", "-05:00");
    ("Etc/GMT-5", "-05:00"); ("Etc/GMT-4", "-04:00"); ("Etc/GMT-3", "-03:00");
    ("Etc/GMT-2", "-02:00"); ("Etc/GMT-1", "-01:00"); ("GMT", "+00:00");
    ("Etc/GMT", "+00:00"); ("Greenwich", "+00:00"); ("Etc/Greenwich", "+00:00");
    ("GMT0", "+00:00"); ("Etc/GMT0", "+00:00"); ("GMT+0", "+00:00");
    ("Etc/GMT-0", "+00:00"); ("GMT+0", "+00:00"); ("Etc/GMT+0", "+00:00");
    ("UTC", "+00:00"); ("Etc/UTC", "+00:00"); ("UCT", "+00:00");
    ("Etc/UCT", "+00:00"); ("Universal", "+00:00"); ("Etc/Universal", "+00:00");
    ("WET", "+00:00"); ("MET", "+01:00"); ("CET", "+01:00");
    ("Etc/GMT+1", "+01:00"); ("EET", "+02:00"); ("Etc/GMT+2", "+02:00");
    ("Etc/GMT+3", "+03:00"); ("Etc/GMT+4", "+04:00"); ("Etc/GMT+5", "+05:00");
    ("Etc/GMT+6", "+06:00"); ("Etc/GMT+7", "+07:00"); ("PRC", "+08:00");
    ("ROC", "+08:00"); ("Etc/GMT+8", "+08:00"); ("Etc/GMT+9", "+09:00");
    ("Etc/GMT+10", "+10:00"); ("Etc/GMT+11", "+11:00"); ("Etc/GMT+12", "+12:00")
  ]%string.

Definition resolveAlias (str : string) : string :=
  fold_left (fun s a => if String.eqb s (fst a) then snd a else s) aliases str.

(** [str[i]]; the terminating NUL is read at index [strlen(str)]. *)
Definition charAt (str : string) (i : nat) : Z :=
  match String.get i str with
  | Some c => byte_of c
  | None => 0
  end.

Definition isDigit (c : Z) : bool := (48 <=? c) && (c <=? 57).

(** The value assigned to [out] by the length-5 and length-6 branches, if
    the characters have the required shape. *)
Definition parseOffset (str : string) : option Z :=
  let len := Z.of_nat (String.length str) in
  let s := charAt str in
  if len =? 5 then
    if isDigit (s 1%nat) && (s 2%nat =? 58) && isDigit (s 3%nat) && isDigit (s 4%nat)
    then Some ((- (s 1%nat - 48)) * 3600 + (s 3%nat - 48) * 60 + (s 4%nat - 48))
    else None
  else if len =? 6 then
    if isDigit (s 1%nat) && isDigit (s 2%nat) && (s 3%nat =? 58)
       && isDigit (s 4%nat) && isDigit (s 5%nat)
    then Some ((- (s 1%nat - 48)) * 36000 + (s 2%nat - 48) * 3600
               + (s 4%nat - 48) * 60 + (s 5%nat - 48))
    else None
  else None.

(** [parseTimezone str out] is the returned flag and the final value of the
    reference parameter [out], whose initial value is [out0]. *)
Definition parseTimezone (str : string) (out0 : Z) : bool * Z :=
  let str := resolveAlias str in
  match parseOffset str with
  | None => (false, out0)
  | Some out =>
      if charAt str 0 =? 45 then (true, - out)
      else if negb (charAt str 0 =? 43) then (false, out)
      else (true, out)
  end.

Section Printing.

(** [Ctx::map10], an inline helper of Ctx.h. *)
Variable map10 : Z -> ascii.

Definition timezoneToString (tz : Z) : string :=
  let r0 := if tz <? 0 then "-"%char else "+"%char in
  let tz := if tz <? 0 then - tz else tz in
  let tz := Z.quot tz 60 in
  let r5 := map10 (Z.rem tz 10) in
  let tz := Z.quot tz 10 in
  let r4 := map10 (Z.rem tz 6) in
  let tz := Z.quot tz 6 in
  let r2 := map10 (Z.rem tz 10) in
  let tz := Z.quot tz 10 in
  let r1 := map10 (Z.rem tz 10) in
  String r0 (String r1 (String r2 (String ":"%char (String r4 (String r5 EmptyString))))).

End Printing.

End Timezone.

(* --------------------------------------------------------------------- *)
(** ** The JSON string escapers                                           *)
(**    Ctx::writeEscapeValue (common/Ctx.cpp) and                          *)
(**    BuilderJson::appendEscape, appendDec (builder/BuilderJson.h)        *)
(* --------------------------------------------------------------------- *)

Module Escape.

Section Escapers.

(** Whether plain [char] is a signed type is implementation-defined. *)
Variable char_is_signed : bool.
(** [Ctx::map16] and [Ctx::map10], inline helpers of Ctx.h. *)
Variable map16 : Z -> ascii.
Variable map10 : Z -> ascii.

(** The value of a [char] after integer promotion. *)
Definition charValue (c : ascii) : Z :=
  let b := byte_of c in
  if char_is_signed && (128 <=? b) then b - 256 else b.

(** One iteration of the loop of [Ctx::writeEscapeValue]: the characters
    sent to the stream for [*c_str]. *)
Definition writeEscapeChar (c : ascii) : list ascii :=
  if Ascii.eqb c TAB then [BACKSLASH; "t"%char]
  else if Ascii.eqb c CR then [BACKSLASH; "r"%char]
  else if Ascii.eqb c LF then [BACKSLASH; "n"%char]
  else if Ascii.eqb c BS then [BACKSLASH; "b"%char]
  else if Ascii.eqb c FF then [BACKSLASH; "f"%char]
  else if Ascii.eqb c QUOTE || Ascii.eqb c BACKSLASH then [BACKSLASH; c]
  else if charValue c <? 32 then
    [BACKSLASH; "u"%char; "0"%char; "0"%char;
     map16 (Z.land (Z.shiftr (charValue c) 4) 15);
     map16 (Z.land (charValue c) 15)]
  else [c].

Fixpoint writeEscapeValue (str : string) : list ascii :=
  match str with
  | EmptyString => []
  | String c rest => writeEscapeChar c ++ writeEscapeValue rest
  end.

(** [appendDec(value, size)]: [buffer[i] = map10(value % 10); value /= 10]
    for [i < size], then the buffer is appended from its last cell down. *)
Fixpoint appendDecBuffer (size : nat) (value : Z) : list ascii :=
  match size with
  | O => []
  | S n => map10 (value mod 10) :: appendDecBuffer n (value / 10)
  end.

Definition appendDec (value : Z) (size : nat) : list ascii :=
  rev (appendDecBuffer size value).

(** One iteration of the loop of [BuilderJson::appendEscape]: the
    characters handed to [append]. *)
Definition appendEscapeChar (c : ascii) : list ascii :=
  if Ascii.eqb c TAB then [BACKSLASH; "t"%char]
  else if Ascii.eqb c CR then [BACKSLASH; "r"%char]
  else if Ascii.eqb c LF then [BACKSLASH; "n"%char]
  else if Ascii.eqb c FF then [BACKSLASH; "f"%char]
  else if Ascii.eqb c BS then [BACKSLASH; "b"%char]
  else if byte_of c <? 32 then
    [BACKSLASH; "u"%char; "0"%char; "0"%char] ++ appendDec (wrap64 (charValue c)) 2
  else
    (if Ascii.eqb c QUOTE || Ascii.eqb c BACKSLASH || Ascii.eqb c SLASH
     then [BACKSLASH] else [])
    ++ [c].

Fixpoint appendEscape (str : string) : list ascii :=
  match str with
  | EmptyString => []
  | String c rest => appendEscapeChar c ++ appendEscape rest
  end.

(** The bytes on which the two escapers take the same branch: the five
    named control characters, the double quote, the backslash, and the
    printable 7-bit characters other than the slash. *)
Definition commonChar (c : ascii) : bool :=
  Ascii.eqb c TAB || Ascii.eqb c CR || Ascii.eqb c LF || Ascii.eqb c BS
  || Ascii.eqb c FF || Ascii.eqb c QUOTE || Ascii.eqb c BACKSLASH
  || ((32 <=? byte_of c) && (byte_of c <? 128) && negb (Ascii.eqb c SLASH)).

Fixpoint commonString (str : string) : bool :=
  match str with
  | EmptyString => true
  | String c rest => commonChar c && commonString rest
  end.

End Escapers.

End Escape.

(* --------------------------------------------------------------------- *)
(** ** Builder::parseNumber (builder/Builder.h)                           *)
(* --------------------------------------------------------------------- *)

Module Number.

Definition VALUE_BUFFER_MAX : Z := 4294967296.

Definition wrap8 (z : Z) : Z := z mod 256.

Section Decoder.

(** [Ctx::map10], an inline helper of Ctx.h. *)
Variable map10 : Z -> ascii.
(** The memory behind [const uint8_t* data]; the function also gives what a
    read past [size] would find. *)
Variable data : Z -> Byte.byte.

Definition byteAt (i : Z) : Z := Z.of_N (Byte.to_N (data i)).

(** [value = data[j] - 1] and [value = 101 - data[j]]: an [int] stored in
    a [uint64_t]. *)
Definition posPair (b : Z) : Z := wrap64 (b - 1).
Definition negPair (b : Z) : Z := wrap64 (101 - b).

Definition twoDigits (value : Z) : list ascii :=
  [map10 (value / 10); map10 (value mod 10)].

(** The part of the total after the first pair:
    [while (digits > 0) { if (j <= jMax) { two digits; ++j; } else { "00" } --digits; }].
    The positive and the negative branch have this loop with [posPair] and
    [negPair]. *)
Fixpoint integerLoop (pairOf : Z -> Z) (digits : nat) (j jMax : Z) (buf : list ascii)
  : Z * list ascii :=
  match digits with
  | O => (j, buf)
  | S d =>
      if j <=? jMax
      then integerLoop pairOf d (wrap64 (j + 1)) jMax (buf ++ twoDigits (pairOf (byteAt j)))
      else integerLoop pairOf d j jMax (buf ++ ["0"; "0"]%char)
  end.

(** [while (zeros > 0) { "00"; --zeros; }] *)
Fixpoint zerosLoop (zeros : nat) (buf : list ascii) : list ascii :=
  match zeros with
  | O => buf
  | S z => zerosLoop z (buf ++ ["0"; "0"]%char)
  end.

(** [while (j <= jMax - 1U) { two digits; ++j; }]; [fuel] bounds the number
    of iterations and is never what ends the loop (see
    [fractionLoop_exact]). *)
Fixpoint fractionLoop (pairOf : Z -> Z) (fuel : nat) (j jMax : Z) (buf : list ascii)
  : Z * list ascii :=
  match fuel with
  | O => (j, buf)
  | S f =>
      if j <=? wrap64 (jMax - 1)
      then fractionLoop pairOf f (wrap64 (j + 1)) jMax (buf ++ twoDigits (pairOf (byteAt j)))
      else (j, buf)
  end.

(** The block under the comment "Fraction part". *)
Definition fractionPart (pairOf : Z -> Z) (j jMax zeros : Z) (buf : list ascii)
  : list ascii :=
  if j <=? jMax then
    let buf := buf ++ ["."%char] in
    let buf := zerosLoop (Z.to_nat zeros) buf in
    let '(j, buf) := fractionLoop pairOf (Z.to_nat jMax) j jMax buf in
    let value := pairOf (byteAt j) in
    let buf := buf ++ [map10 (value / 10)] in
    if negb (value mod 10 =? 0) then buf ++ [map10 (value mod 10)] else buf
  else buf.

(** The first pair of the total, printed without a leading zero. *)
Definition leadingDigits (value : Z) : list ascii :=
  if value <? 10 then [map10 value] else twoDigits value.

(** [parseNumber(data, size, offset)] from [uint8_t digits = data[0]] on:
    the characters it passes to [valueBufferAppend], in the order of the
    calls, or the exception it throws.  No statement of [parseNumber] reads
    [valueBuffer], so the calls do not depend on where the characters go;
    [ValueBuffer.parseNumber] stores them in the allocation that
    [valueBufferPurge] and [valueBufferCheck] leave. *)
Definition parseNumberAppends (size : Z) : Result (list ascii) :=
  let digits := byteAt 0 in
  if digits =? 128 then Ok ["0"%char]
  else
    let j := 1 in
    let jMax := wrap64 (size - 1) in
    if (digits >? 128) && (jMax >=? 1) then
      if digits <=? 192 then
        let buf := ["0"%char] in
        let zeros := wrap64 (192 - digits) in
        Ok (fractionPart posPair j jMax zeros buf)
      else
        let digits := wrap8 (digits - 192) in
        let buf := leadingDigits (posPair (byteAt j)) in
        let j := wrap64 (j + 1) in
        let digits := wrap8 (digits - 1) in
        let '(j, buf) := integerLoop posPair (Z.to_nat digits) j jMax buf in
        Ok (fractionPart posPair j jMax 0 buf)
    else if (digits <? 128) && (jMax >=? 1) then
      let buf := ["-"%char] in
      let jMax := if byteAt jMax =? 102 then wrap64 (jMax - 1) else jMax in
      if digits >=? 63 then
        let buf := buf ++ ["0"%char] in
        let zeros := wrap64 (digits - 63) in
        Ok (fractionPart negPair j jMax zeros buf)
      else
        let digits := wrap8 (63 - digits) in
        let buf := buf ++ leadingDigits (negPair (byteAt j)) in
        let j := wrap64 (j + 1) in
        let digits := wrap8 (digits - 1) in
        let '(j, buf) := integerLoop negPair (Z.to_nat digits) j jMax buf in
        Ok (fractionPart negPair j jMax 0 buf)
    else
      Throw (mkException RedoLogException 50009 "error parsing numeric value").

(** *** The on-wire format as the specification words it *)

(** The bytes [data[j] .. data[j + n - 1]]. *)
Fixpoint bytesFrom (j : Z) (n : nat) : list Z :=
  match n with
  | O => []
  | S m => byteAt j :: bytesFrom (j + 1) m
  end.

(** "a trailing 0x66 byte is a terminator and stripped" *)
Definition stripTerminator (bs : list Z) : list Z :=
  if last bs 0 =? 102 then removelast bs else bs.

Definition zeroPairs (n : nat) : list ascii :=
  List.concat (repeat ["0"; "0"]%char n).

(** "trailing-zero trimming at the last fractional pair" *)
Definition lastPair (p : Z) : list ascii :=
  map10 (p / 10) :: (if p mod 10 =? 0 then [] else [map10 (p mod 10)]).

Fixpoint fractionPairs (ps : list Z) : list ascii :=
  match ps with
  | [] => []
  | [p] => lastPair p
  | p :: rest => twoDigits p ++ fractionPairs rest
  end.

(** The fraction: nothing when no pair is left, else the point, the zero
    pairs a non-positive exponent calls for, and the pairs. *)
Definition renderFraction (zeros : nat) (ps : list Z) : list ascii :=
  match ps with
  | [] => []
  | _ => "."%char :: zeroPairs zeros ++ fractionPairs ps
  end.

(** The total: [count] pairs, the first without a leading zero, "00" where
    the mantissa has run out. *)
Definition renderInteger (count : nat) (ps : list Z) : list ascii :=
  match firstn count ps with
  | [] => zeroPairs count
  | p :: rest =>
      leadingDigits p ++ flat_map twoDigits rest
      ++ zeroPairs (count - S (List.length rest))
  end.

(** A decimal with [count] pre-decimal pairs. *)
Definition renderDecimal (count : Z) (ps : list Z) : list ascii :=
  if count <=? 0
  then "0"%char :: renderFraction (Z.to_nat (- count)) ps
  else renderInteger (Z.to_nat count) ps
       ++ renderFraction 0 (skipn (Z.to_nat count) ps).

Definition decodeNumberSpec (size : Z) : Result (list ascii) :=
  let D := byteAt 0 in
  let mantissa := bytesFrom 1 (Z.to_nat (size - 1)) in
  if D =? 128 then Ok ["0"%char]
  else if (D >? 128) && (2 <=? size) then
    Ok (renderDecimal (D - 192) (map posPair mantissa))
  else if (D <? 128) && (2 <=? size) then
    Ok ("-"%char :: renderDecimal (63 - D) (map negPair (stripTerminator mantissa)))
  else
    Throw (mkException RedoLogException 50009 "error parsing numeric value").

(** The shape on which the negative branch reads the terminator as the
    first pair of the total. *)
Definition terminatorOnly (size : Z) : bool :=
  (byteAt 0 <? 63) && (size =? 2) && (byteAt 1 =? 102).

End Decoder.

(** A byte array given by its elements; reads past the end find 0. *)
Definition arrayOf (bs : list Byte.byte) (i : Z) : Byte.byte :=
  if i <? 0 then Byte.x00 else nth (Z.to_nat i) bs Byte.x00.

(** An array that starts with 0x81 and holds 0x02 everywhere else: the
    number 0.00...01 with 63 pairs of zeros after the point. *)
Definition tinyFraction (i : Z) : Byte.byte :=
  if i =? 0 then Byte.x81 else Byte.x02.

End Number.

(* --------------------------------------------------------------------- *)
(** ** Ctx::getMemoryChunk and Ctx::wontSwap (common/Ctx.cpp)             *)
(* --------------------------------------------------------------------- *)

Module Memory.

(** [Ctx::MEMORY], in the order of [Ctx::memoryModules]. *)
Inductive MEMORY : Type := BUILDER | PARSER | READER | TRANSACTIONS.

Definition MEMORY_eqb (a b : MEMORY) : bool :=
  match a, b with
  | BUILDER, BUILDER | PARSER, PARSER | READER, READER
  | TRANSACTIONS, TRANSACTIONS => true
  | _, _ => false
  end.

(** The fields of [Ctx] guarded by [memoryMtx], and [hardShutdown]. *)
Record Ctx : Type := mkCtx {
  memoryChunksMax : Z;
  memoryChunksAllocated : Z;
  memoryChunksFree : Z;
  memoryChunksHWM : Z;
  memoryModulesAllocated : MEMORY -> Z;
  memoryModulesHWM : MEMORY -> Z;
  memoryChunksReadBufferMin : Z;
  memoryChunksUnswapBufferMin : Z;
  memoryChunksWriteBufferMax : Z;
  memoryChunksWriteBufferMin : Z;
  outOfMemoryParser : bool;
  hardShutdown : bool
}.

Definition setOutOfMemoryParser (v : bool) (c : Ctx) : Ctx :=
  mkCtx (memoryChunksMax c) (memoryChunksAllocated c) (memoryChunksFree c)
        (memoryChunksHWM c) (memoryModulesAllocated c) (memoryModulesHWM c)
        (memoryChunksReadBufferMin c) (memoryChunksUnswapBufferMin c)
        (memoryChunksWriteBufferMax c) (memoryChunksWriteBufferMin c)
        v (hardShutdown c).

(** [++memoryChunksFree; ++memoryChunksAllocated;] and the high-water mark. *)
Definition addChunk (c : Ctx) : Ctx :=
  let allocated := wrap64 (memoryChunksAllocated c + 1) in
  mkCtx (memoryChunksMax c) allocated (wrap64 (memoryChunksFree c + 1))
        (if allocated >? memoryChunksHWM c then allocated else memoryChunksHWM c)
        (memoryModulesAllocated c) (memoryModulesHWM c)
        (memoryChunksReadBufferMin c) (memoryChunksUnswapBufferMin c)
        (memoryChunksWriteBufferMax c) (memoryChunksWriteBufferMin c)
        (outOfMemoryParser c) (hardShutdown c).

Definition update (f : MEMORY -> Z) (m : MEMORY) (v : Z) : MEMORY -> Z :=
  fun m' => if MEMORY_eqb m m' then v else f m'.

(** The statements after the loop: the chunk leaves the free stack and is
    charged to [module]. *)
Definition takeChunk (module : MEMORY) (c : Ctx) : Ctx :=
  let free := wrap64 (memoryChunksFree c - 1) in
  let allocatedModule := wrap64 (memoryModulesAllocated c module + 1) in
  mkCtx (memoryChunksMax c) (memoryChunksAllocated c) free (memoryChunksHWM c)
        (update (memoryModulesAllocated c) module allocatedModule)
        (if allocatedModule >? memoryModulesHWM c module
         then update (memoryModulesHWM c) module allocatedModule
         else memoryModulesHWM c)
        (memoryChunksReadBufferMin c) (memoryChunksUnswapBufferMin c)
        (memoryChunksWriteBufferMax c) (memoryChunksWriteBufferMin c)
        (if MEMORY_eqb module PARSER then false else outOfMemoryParser c)
        (hardShutdown c).

(** [reservedChunks] as the loop body computes it. *)
Definition reservedChunks (c : Ctx) (swap : bool) : Z :=
  let r := 0 in
  let r := if memoryModulesAllocated c READER <? memoryChunksReadBufferMin c
           then wrap64 (r + wrap64 (memoryChunksReadBufferMin c
                                    - memoryModulesAllocated c READER))
           else r in
  let r := if memoryModulesAllocated c BUILDER <? memoryChunksWriteBufferMin c
           then wrap64 (r + wrap64 (memoryChunksWriteBufferMin c
                                    - memoryModulesAllocated c BUILDER))
           else r in
  if negb swap then wrap64 (r + memoryChunksUnswapBufferMin c) else r.

(** How one pass through the body of [while (true)] ends. *)
Inductive LoopStep : Type :=
| Break (c : Ctx)                      (* break: a chunk is available *)
| Wait (c : Ctx)                       (* condOutOfMemory.wait(lck) *)
| ReturnNull (c : Ctx)                 (* return nullptr *)
| LoopThrow (e : Exception) (c : Ctx).

(** [allocOk] tells whether [aligned_alloc] returns a chunk. *)
Definition loopBody (module : MEMORY) (swap allocOk : bool) (c : Ctx) : LoopStep :=
  if MEMORY_eqb module READER
     && (memoryModulesAllocated c READER <? memoryChunksReadBufferMin c)
  then Break c
  else if MEMORY_eqb module BUILDER
          && (memoryModulesAllocated c BUILDER <? memoryChunksWriteBufferMin c)
  then Break c
  else
    let reserved := reservedChunks c swap in
    let mayGrow := negb (MEMORY_eqb module BUILDER)
                   || (memoryModulesAllocated c BUILDER <? memoryChunksWriteBufferMax c) in
    if mayGrow && (memoryChunksFree c >? reserved) then Break c
    else if mayGrow && (memoryChunksAllocated c <? memoryChunksMax c) then
      if allocOk then Break (addChunk c)
      else LoopThrow (mkException RuntimeException 10016 "couldn't allocate memory") c
    else
      let c := if MEMORY_eqb module PARSER then setOutOfMemoryParser true c else c in
      if hardShutdown c then ReturnNull c else Wait c.

(** What a call of [getMemoryChunk] does up to its first wait. *)
Inductive Outcome : Type :=
| Chunk (index : Z) (c : Ctx)          (* return memoryChunks[index] *)
| Suspended (c : Ctx)                  (* blocked on condOutOfMemory *)
| Null (c : Ctx)                       (* return nullptr *)
| Raised (e : Exception) (c : Ctx).

(** A thread woken from [Suspended] runs the loop body again on the state
    it finds. *)
Definition getMemoryChunk (module : MEMORY) (swap allocOk : bool) (c : Ctx) : Outcome :=
  match loopBody module swap allocOk c with
  | Break c =>
      let c := takeChunk module c in
      if hardShutdown c
      then Raised (mkException RuntimeException 10018 "shutdown during memory allocation") c
      else Chunk (memoryChunksFree c) c
  | Wait c => Suspended c
  | ReturnNull c => Null c
  | LoopThrow e c => Raised e c
  end.

Definition outOfMemory : Exception :=
  mkException RuntimeException 10017 "out of memory".

(** [hint] only writes to the log. *)
Definition wontSwap (c : Ctx) : Result Ctx :=
  if negb (outOfMemoryParser c) then Ok c
  else if memoryModulesAllocated c BUILDER >? memoryChunksWriteBufferMin c then Ok c
  else Throw outOfMemory.

(** A state for closed examples: every chunk allocated and in use, the
    builder at its minimum. *)
Definition exhausted (shutdown : bool) : Ctx :=
  mkCtx 64 64 0 64
        (fun m => match m with BUILDER => 4 | PARSER => 40 | READER => 4
                            | TRANSACTIONS => 16 end)
        (fun m => match m with BUILDER => 4 | PARSER => 40 | READER => 4
                            | TRANSACTIONS => 16 end)
        4 4 64 4 false shutdown.

End Memory.

(* --------------------------------------------------------------------- *)
(** ** The output queue of Builder (builder/Builder.h)                    *)
(**    builderRotate, builderShift, builderShiftFast, builderBegin,        *)
(**    builderCommit, append, flush                                        *)
(* --------------------------------------------------------------------- *)

Module Queue.

Definition BUFFER_START_UNDEFINED : Z := 18446744073709551615.
Definition SCN_COMMIT_VALUE : Z := 2.

(** [struct BuilderMsg].  A pointer into a data area is the id of the
    queue node and the offset in its data area.  [ptr] is not written by
    the functions below and is left out. *)
Record BuilderMsg : Type := mkMsg {
  m_id : Z;
  m_queueId : Z;
  m_size : Z;
  m_tagSize : Z;
  m_scn : Z;
  m_lwnScn : Z;
  m_lwnIdx : Z;
  m_data : Z * Z;
  m_sequence : Z;
  m_obj : Z;
  m_flags : Z
}.

(** The fields of a [BuilderMsg] that no statement has written yet. *)
Definition uninitMsg : BuilderMsg := mkMsg 0 0 0 0 0 0 0 (0, 0) 0 0 0.

(** [struct BuilderQueue].  The data area is its bytes ([q_data]) and the
    [BuilderMsg] objects laid in it, by the offset they start at
    ([q_msgs]); [next] is the successor in the list of nodes. *)
Record BuilderQueue : Type := mkQueue {
  q_id : Z;
  q_size : Z;
  q_start : Z;
  q_data : Z -> Z;
  q_msgs : Z -> option BuilderMsg
}.

Definition setSize (v : Z) (q : BuilderQueue) : BuilderQueue :=
  mkQueue (q_id q) v (q_start q) (q_data q) (q_msgs q).
Definition setStart (v : Z) (q : BuilderQueue) : BuilderQueue :=
  mkQueue (q_id q) (q_size q) v (q_data q) (q_msgs q).
Definition setByte (off c : Z) (q : BuilderQueue) : BuilderQueue :=
  mkQueue (q_id q) (q_size q) (q_start q)
          (fun i => if i =? off then c else q_data q i) (q_msgs q).
Definition setMsgAt (off : Z) (f : BuilderMsg -> BuilderMsg) (q : BuilderQueue)
  : BuilderQueue :=
  mkQueue (q_id q) (q_size q) (q_start q) (q_data q)
          (fun i => if i =? off
                    then Some (f (match q_msgs q off with
                                  | Some m => m
                                  | None => uninitMsg
                                  end))
                    else q_msgs q i).

(** The fields of [Builder] the queue functions use, [ctx->memoryChunksWriteBufferMax],
    and the number of [condNoWriterWork.notify_all()] calls made so far. *)
Record Builder : Type := mkBuilder {
  older : list BuilderQueue;       (* the nodes before lastBuilderQueue, oldest first *)
  lastBuilderQueue : BuilderQueue;
  buffersAllocated : Z;
  msg : option (Z * Z);            (* nullptr, or node id and offset *)
  messageSize : Z;
  messagePosition : Z;
  unconfirmedSize : Z;
  flushBuffer : Z;
  scnType : Z;
  commitScn : Z;
  lwnScn : Z;
  lwnIdx : Z;
  id : Z;
  memoryChunksWriteBufferMax : Z;
  notifications : Z
}.

Definition setQueues (o : list BuilderQueue) (l : BuilderQueue) (n : Z) (b : Builder) : Builder :=
  mkBuilder o l n (msg b) (messageSize b) (messagePosition b)
            (unconfirmedSize b) (flushBuffer b) (scnType b) (commitScn b) (lwnScn b)
            (lwnIdx b) (id b) (memoryChunksWriteBufferMax b) (notifications b).
Definition setLast (l : BuilderQueue) (b : Builder) : Builder :=
  setQueues (older b) l (buffersAllocated b) b.
Definition setMsg (v : option (Z * Z)) (b : Builder) : Builder :=
  mkBuilder (older b) (lastBuilderQueue b) (buffersAllocated b) v (messageSize b)
            (messagePosition b) (unconfirmedSize b) (flushBuffer b) (scnType b)
            (commitScn b) (lwnScn b) (lwnIdx b) (id b) (memoryChunksWriteBufferMax b)
            (notifications b).
Definition setMessageSize (v : Z) (b : Builder) : Builder :=
  mkBuilder (older b) (lastBuilderQueue b) (buffersAllocated b) (msg b) v
            (messagePosition b) (unconfirmedSize b) (flushBuffer b) (scnType b)
            (commitScn b) (lwnScn b) (lwnIdx b) (id b) (memoryChunksWriteBufferMax b)
            (notifications b).
Definition setMessagePosition (v : Z) (b : Builder) : Builder :=
  mkBuilder (older b) (lastBuilderQueue b) (buffersAllocated b) (msg b) (messageSize b)
            v (unconfirmedSize b) (flushBuffer b) (scnType b)
            (commitScn b) (lwnScn b) (lwnIdx b) (id b) (memoryChunksWriteBufferMax b)
            (notifications b).
Definition setUnconfirmedSize (v : Z) (b : Builder) : Builder :=
  mkBuilder (older b) (lastBuilderQueue b) (buffersAllocated b) (msg b) (messageSize b)
            (messagePosition b) v (flushBuffer b) (scnType b)
            (commitScn b) (lwnScn b) (lwnIdx b) (id b) (memoryChunksWriteBufferMax b)
            (notifications b).
Definition setLwnIdx (v : Z) (b : Builder) : Builder :=
  mkBuilder (older b) (lastBuilderQueue b) (buffersAllocated b) (msg b) (messageSize b)
            (messagePosition b) (unconfirmedSize b) (flushBuffer b) (scnType b)
            (commitScn b) (lwnScn b) v (id b) (memoryChunksWriteBufferMax b)
            (notifications b).
Definition setId (v : Z) (b : Builder) : Builder :=
  mkBuilder (older b) (lastBuilderQueue b) (buffersAllocated b) (msg b) (messageSize b)
            (messagePosition b) (unconfirmedSize b) (flushBuffer b) (scnType b)
            (commitScn b) (lwnScn b) (lwnIdx b) v (memoryChunksWriteBufferMax b)
            (notifications b).
Definition setNotifications (v : Z) (b : Builder) : Builder :=
  mkBuilder (older b) (lastBuilderQueue b) (buffersAllocated b) (msg b) (messageSize b)
            (messagePosition b) (unconfirmedSize b) (flushBuffer b) (scnType b)
            (commitScn b) (lwnScn b) (lwnIdx b) (id b) (memoryChunksWriteBufferMax b) v.

(** The node with id [qid]. *)
Definition findQueue (b : Builder) (qid : Z) : option BuilderQueue :=
  if q_id (lastBuilderQueue b) =? qid then Some (lastBuilderQueue b)
  else find (fun q => q_id q =? qid) (older b).

Definition updateQueue (qid : Z) (f : BuilderQueue -> BuilderQueue) (b : Builder) : Builder :=
  if q_id (lastBuilderQueue b) =? qid then setLast (f (lastBuilderQueue b)) b
  else setQueues (map (fun q => if q_id q =? qid then f q else q) (older b))
                 (lastBuilderQueue b) (buffersAllocated b) b.

(** [msg->field = value]; nothing is modelled for a null [msg]. *)
Definition writeMsg (f : BuilderMsg -> BuilderMsg) (b : Builder) : Builder :=
  match msg b with
  | Some (qid, off) => updateQueue qid (setMsgAt off f) b
  | None => b
  end.

(** The object [*msg]. *)
Definition readMsg (b : Builder) : option BuilderMsg :=
  match msg b with
  | Some (qid, off) =>
      match findQueue b qid with
      | Some q => q_msgs q off
      | None => None
      end
  | None => None
  end.

Definition withData (v : Z * Z) (m : BuilderMsg) : BuilderMsg :=
  mkMsg (m_id m) (m_queueId m) (m_size m) (m_tagSize m) (m_scn m) (m_lwnScn m)
        (m_lwnIdx m) v (m_sequence m) (m_obj m) (m_flags m).
Definition withQueueId (v : Z) (m : BuilderMsg) : BuilderMsg :=
  mkMsg (m_id m) v (m_size m) (m_tagSize m) (m_scn m) (m_lwnScn m)
        (m_lwnIdx m) (m_data m) (m_sequence m) (m_obj m) (m_flags m).
Definition withSize (v : Z) (m : BuilderMsg) : BuilderMsg :=
  mkMsg (m_id m) (m_queueId m) v (m_tagSize m) (m_scn m) (m_lwnScn m)
        (m_lwnIdx m) (m_data m) (m_sequence m) (m_obj m) (m_flags m).

Definition emptyCommit : Exception :=
  mkException RedoLogException 50058 "output buffer - commit of empty transaction".

Section Layout.

(** [sizeof(struct BuilderMsg)], [Builder::OUTPUT_BUFFER_DATA_SIZE] (the
    chunk size less [sizeof(struct BuilderQueue)]) and
    [Ctx::MEMORY_CHUNK_SIZE_MB]: they depend on types.h and Ctx.h. *)
Variable sizeof_BuilderMsg : Z.
Variable OUTPUT_BUFFER_DATA_SIZE : Z.
Variable MEMORY_CHUNK_SIZE_MB : Z.
(** What the bytes of a chunk obtained from [ctx->getMemoryChunk] hold. *)
Variable chunkBytes : Z -> Z.

Definition writeBufferLimit (b : Builder) : Z :=
  wrap64 (memoryChunksWriteBufferMax b * MEMORY_CHUNK_SIZE_MB * 1024 * 1024).

(** [messageSize + messagePosition < OUTPUT_BUFFER_DATA_SIZE] *)
Definition fitsOneBuffer (b : Builder) : bool :=
  wrap64 (messageSize b + messagePosition b) <? OUTPUT_BUFFER_DATA_SIZE.

(** [memcpy(nextBuffer->data, msg, messagePosition)] into a fresh node. *)
Definition copyMessage (src : option BuilderQueue) (moff len : Z) (nextId : Z)
  : BuilderQueue :=
  mkQueue nextId 0 0
    (fun i => if (0 <=? i) && (i <? len)
              then match src with
                   | Some q => q_data q (moff + i)
                   | None => chunkBytes i
                   end
              else chunkBytes i)
    (fun i => if (0 <=? i) && (i + sizeof_BuilderMsg <=? len)
              then match src with
                   | Some q => q_msgs q (moff + i)
                   | None => None
                   end
              else None).

(** [builderRotate(copy)] on the runs in which [ctx->getMemoryChunk] hands
    over a chunk: [Ok] is a rotation that returns, [Throw] the exception
    [builderRotate] itself raises.  The call can also throw
    RuntimeException 10016 or 10018, block on [condOutOfMemory] or return a
    null pointer ([Memory.getMemoryChunk]); nothing below describes a
    rotation after one of these. *)
Definition builderRotate (copy : bool) (b : Builder) : Result Builder :=
  if messageSize b >? writeBufferLimit b then
    Throw (mkException RedoLogException 10072 "writer buffer is too small to fit a message")
  else
    let lastQ := lastBuilderQueue b in
    let nextId := wrap64 (q_id lastQ + 1) in
    let allocated := wrap64 (buffersAllocated b + 1) in
    match msg b with
    | Some (mq, moff) =>
        if copy && fitsOneBuffer b then
          (* Message could potentially fit in one buffer *)
          let nextBuffer := copyMessage (findQueue b mq) moff (messagePosition b) nextId in
          let b := setQueues (older b ++ [lastQ]) nextBuffer allocated b in
          let b := setMsg (Some (nextId, 0)) b in
          Ok (writeMsg (withData (nextId, sizeof_BuilderMsg)) b)
        else
          let closed := setSize (wrap64 (q_size lastQ + messagePosition b)) lastQ in
          let nextBuffer := mkQueue nextId 0 BUFFER_START_UNDEFINED chunkBytes (fun _ => None) in
          let b := setMessageSize (wrap64 (messageSize b + messagePosition b)) b in
          let b := setMessagePosition 0 b in
          Ok (setQueues (older b ++ [closed]) nextBuffer allocated b)
    | None =>
        let closed := setSize (wrap64 (q_size lastQ + messagePosition b)) lastQ in
        let nextBuffer := mkQueue nextId 0 BUFFER_START_UNDEFINED chunkBytes (fun _ => None) in
        let b := setMessageSize (wrap64 (messageSize b + messagePosition b)) b in
        let b := setMessagePosition 0 b in
        Ok (setQueues (older b ++ [closed]) nextBuffer allocated b)
    end.

Definition builderShift (copy : bool) (b : Builder) : Result Builder :=
  let b := setMessagePosition (wrap64 (messagePosition b + 1)) b in
  if wrap64 (q_size (lastBuilderQueue b) + messagePosition b) >=? OUTPUT_BUFFER_DATA_SIZE
  then builderRotate copy b
  else Ok b.

Definition builderShiftFast (bytes : Z) (b : Builder) : Builder :=
  setMessagePosition (wrap64 (messagePosition b + bytes)) b.

Definition builderBegin (scn sequence obj flags : Z) (b : Builder) : Result Builder :=
  let b := setMessageSize 0 b in
  let b := setMessagePosition 0 b in
  let scn := if negb (Z.land (scnType b) SCN_COMMIT_VALUE =? 0) then commitScn b else scn in
  match
    (if wrap64 (wrap64 (q_size (lastBuilderQueue b) + messagePosition b) + sizeof_BuilderMsg)
        >=? OUTPUT_BUFFER_DATA_SIZE
     then builderRotate true b
     else Ok b)
  with
  | Throw e => Throw e
  | Ok b =>
      let lastQ := lastBuilderQueue b in
      let b := setMsg (Some (q_id lastQ, q_size lastQ)) b in
      let b := builderShiftFast sizeof_BuilderMsg b in
      let header (old : BuilderMsg) : BuilderMsg :=
        mkMsg (id b) (m_queueId old) 0 0 scn (lwnScn b) (lwnIdx b)
              (q_id lastQ, wrap64 (q_size lastQ + sizeof_BuilderMsg))
              sequence obj flags in
      let b := writeMsg header b in
      let b := setLwnIdx (lwnIdx b + 1) b in
      Ok (setId (wrap64 (id b + 1)) b)
  end.

Definition flush (b : Builder) : Builder :=
  setUnconfirmedSize 0 (setNotifications (notifications b + 1) b).

(** The padding [(8 - (messagePosition & 7)) & 7]. *)
Definition padding (pos : Z) : Z := Z.land (8 - Z.land pos 7) 7.

Definition builderCommit (b : Builder) : Result Builder :=
  let b := setMessageSize (wrap64 (messageSize b + messagePosition b)) b in
  if messageSize b =? sizeof_BuilderMsg then Throw emptyCommit
  else
    let b := writeMsg (withQueueId (q_id (lastBuilderQueue b))) b in
    let b := builderShiftFast (padding (messagePosition b)) b in
    let b := setUnconfirmedSize (wrap64 (unconfirmedSize b + messageSize b)) b in
    let b := writeMsg (withSize (wrap64 (messageSize b - sizeof_BuilderMsg))) b in
    let b := setMsg None b in
    let lastQ := lastBuilderQueue b in
    let lastQ := setSize (wrap64 (q_size lastQ + messagePosition b)) lastQ in
    let lastQ := if q_start lastQ =? BUFFER_START_UNDEFINED
                 then setStart (q_size lastQ) lastQ else lastQ in
    let b := setLast lastQ b in
    if (flushBuffer b =? 0) || (unconfirmedSize b >? flushBuffer b)
    then Ok (flush b)
    else Ok b.

(** [append(char character)] *)
Definition append (character : Z) (b : Builder) : Result Builder :=
  let lastQ := lastBuilderQueue b in
  let b := setLast (setByte (wrap64 (q_size lastQ + messagePosition b)) character lastQ) b in
  builderShift true b.

Fixpoint appendEach (str : list Z) (b : Builder) : Result Builder :=
  match str with
  | [] => Ok b
  | c :: rest =>
      match append c b with
      | Ok b => appendEach rest b
      | Throw e => Throw e
      end
  end.

(** [memcpy(lastBuilderQueue->data + lastBuilderQueue->size + messagePosition, str, size)] *)
Fixpoint storeBytes (off : Z) (str : list Z) (q : BuilderQueue) : BuilderQueue :=
  match str with
  | [] => q
  | c :: rest => storeBytes (off + 1) rest (setByte off c q)
  end.

(** [append(const char* str, uint64_t size)] with [size] the length of [str]. *)
Definition appendStr (str : list Z) (b : Builder) : Result Builder :=
  let size := Z.of_nat (List.length str) in
  let lastQ := lastBuilderQueue b in
  if wrap64 (wrap64 (q_size lastQ + messagePosition b) + size) <? OUTPUT_BUFFER_DATA_SIZE
  then
    let b := setLast (storeBytes (wrap64 (q_size lastQ + messagePosition b)) str lastQ) b in
    Ok (setMessagePosition (wrap64 (messagePosition b + size)) b)
  else appendEach str b.

(** *** The two outcomes of a rotation, as predicates on the states
    before and after *)

(** The current node is closed: its size absorbs the bytes written so far,
    and the fresh node carries no start yet. *)
Definition closedNode (b b' : Builder) : Prop :=
  q_start (lastBuilderQueue b') = BUFFER_START_UNDEFINED
  /\ older b' = older b
                ++ [setSize (wrap64 (q_size (lastBuilderQueue b) + messagePosition b))
                            (lastBuilderQueue b)]
  /\ messageSize b' = wrap64 (messageSize b + messagePosition b)
  /\ messagePosition b' = 0
  /\ msg b' = msg b.

(** The message in progress, which starts at offset [moff] of node [mq], is
    moved to the start of the fresh node; the current node is left as it
    is. *)
Definition movedMessage (b b' : Builder) (mq moff : Z) : Prop :=
  q_start (lastBuilderQueue b') = 0
  /\ older b' = older b ++ [lastBuilderQueue b]
  /\ messageSize b' = messageSize b
  /\ messagePosition b' = messagePosition b
  /\ msg b' = Some (q_id (lastBuilderQueue b'), 0)
  /\ forall src, findQueue b mq = Some src ->
       (forall i, 0 <= i < messagePosition b ->
                  q_data (lastBuilderQueue b') i = q_data src (moff + i))
       /\ (sizeof_BuilderMsg <= messagePosition b ->
           q_msgs (lastBuilderQueue b') 0
           = Some (withData (q_id (lastBuilderQueue b'), sizeof_BuilderMsg)
                            (match q_msgs src moff with
                             | Some m => m
                             | None => uninitMsg
                             end))).

(** The write position of the last node and the start of the message in
    progress are multiples of 8. *)
Definition aligned (b : Builder) : Prop :=
  q_size (lastBuilderQueue b) mod 8 = 0
  /\ forall qid off, msg b = Some (qid, off) -> off mod 8 = 0.

(** The calls the serializers make on the queue. *)
Inductive Op : Type :=
| OpBegin (scn sequence obj flags : Z)
| OpAppend (character : Z)
| OpAppendStr (str : list Z)
| OpCommit.

Definition step (op : Op) (b : Builder) : Result Builder :=
  match op with
  | OpBegin scn sequence obj flags => builderBegin scn sequence obj flags b
  | OpAppend c => append c b
  | OpAppendStr str => appendStr str b
  | OpCommit => builderCommit b
  end.

(** The states a sequence of calls goes through; an exception ends it. *)
Inductive Reaches (b0 : Builder) : Builder -> Prop :=
| ReachesHere : Reaches b0 b0
| ReachesStep (b b' : Builder) (op : Op) :
    Reaches b0 b -> step op b = Ok b' -> Reaches b0 b'.

Fixpoint run (ops : list Op) (b : Builder) : Result Builder :=
  match ops with
  | [] => Ok b
  | op :: rest =>
      match step op b with
      | Ok b => run rest b
      | Throw e => Throw e
      end
  end.

End Layout.

(** What a run leaves in view: the id and the start of the last node, the
    sizes of the nodes before it, [msg], [messageSize] and
    [messagePosition]; [None] after an exception. *)
Definition outline (r : Result Builder)
  : option (Z * Z * list Z * option (Z * Z) * Z * Z) :=
  match r with
  | Ok b => Some (q_id (lastBuilderQueue b), q_start (lastBuilderQueue b),
                  map q_size (older b), msg b, messageSize b, messagePosition b)
  | Throw _ => None
  end.

(** A builder with one empty node, for closed examples; [flush] is the
    value of [flushBuffer]. *)
Definition emptyBuilder (flush : Z) : Builder :=
  mkBuilder [] (mkQueue 0 0 0 (fun _ => 0) (fun _ => None)) 1 None 0 0 0 flush
            0 0 0 0 0 2048 0.

(** The state a sequence of calls leaves, started on [emptyBuilder] with
    an 88-byte header and 1 MiB chunks (40 bytes of which hold the node). *)
Definition stateAfter (ops : list Op) : Builder :=
  match run 88 1048536 1 (fun _ => 0) ops (emptyBuilder 1048576) with
  | Ok b => b
  | Throw _ => emptyBuilder 1048576
  end.

(** The state [builderRotate(true)] leaves when called in [stateAfter ops]. *)
Definition rotatedAfter (ops : list Op) : Builder :=
  match builderRotate 88 1048536 1 (fun _ => 0) true (stateAfter ops) with
  | Ok b => b
  | Throw _ => stateAfter ops
  end.

End Queue.

(* --------------------------------------------------------------------- *)
(** ** JSON documents and the accessors of Ctx (common/Ctx.cpp)           *)
(* --------------------------------------------------------------------- *)

Module Json.

(** A parsed rapidjson value.  [JNumber] is a number for which [IsInt64] or
    [IsUint64] holds; [JReal] is any other number. *)
#[local] Unset Elimination Schemes.
Inductive Value : Type :=
| JNull
| JBool (b : bool)
| JNumber (n : Z)
| JReal
| JString (s : string)
| JArray (items : list Value)
| JObject (members : list (string * Value)).
#[local] Set Elimination Schemes.

Definition members (v : Value) : list (string * Value) :=
  match v with
  | JObject ms => ms
  | _ => []
  end.

(** [value[field]], the first member of that name. *)
Fixpoint lookup (ms : list (string * Value)) (field : string) : option Value :=
  match ms with
  | [] => None
  | (name, v) :: rest => if String.eqb name field then Some v else lookup rest field
  end.

Definition HasMember (v : Value) (field : string) : bool :=
  match lookup (members v) field with
  | Some _ => true
  | None => false
  end.

Definition parseError (text : string) : Exception :=
  mkException DataException 20003 text.

(** [memcmp(name, prefix, 7) != 0] for the three "xdb-x.." prefixes. *)
Definition isXdbName (name : string) : bool :=
  let head := substring 0 7 name in
  String.eqb head "xdb-xnm" || String.eqb head "xdb-xpt" || String.eqb head "xdb-xqn".

Definition checkJsonFields (v : Value) (names : list string) : Result unit :=
  match find (fun m => negb (existsb (String.eqb (fst m)) names) && negb (isXdbName (fst m)))
             (members v) with
  | Some _ => Throw (parseError "parse error, attribute not expected")
  | None => Ok tt
  end.

Definition getJsonFieldU64 (v : Value) (field : string) : Result Z :=
  match lookup (members v) field with
  | None => Throw (parseError "parse error, field not found")
  | Some (JNumber n) =>
      if (0 <=? n) && (n <? 18446744073709551616) then Ok n
      else Throw (parseError "parse error, field is not an unsigned 64-bit number")
  | Some _ => Throw (parseError "parse error, field is not an unsigned 64-bit number")
  end.

Definition getJsonFieldS (maxLength : Z) (v : Value) (field : string) : Result string :=
  match lookup (members v) field with
  | None => Throw (parseError "parse error, field not found")
  | Some (JString s) =>
      if Z.of_nat (String.length s) >? maxLength
      then Throw (parseError "parse error, field is too long")
      else Ok s
  | Some _ => Throw (parseError "parse error, field is not a string")
  end.

Definition getJsonFieldO (v : Value) (field : string) : Result Value :=
  match lookup (members v) field with
  | None => Throw (parseError "parse error, field not found")
  | Some (JObject ms) => Ok (JObject ms)
  | Some _ => Throw (parseError "parse error, field is not an object")
  end.

Definition getJsonFieldA (v : Value) (field : string) : Result (list Value) :=
  match lookup (members v) field with
  | None => Throw (parseError "parse error, field not found")
  | Some (JArray items) => Ok items
  | Some _ => Throw (parseError "parse error, field is not an array")
  end.

(** The overloads that take an element of an array. *)
Definition elementO (item : Value) : Result Value :=
  match item with
  | JObject ms => Ok (JObject ms)
  | _ => Throw (parseError "parse error, field[num] is not an object")
  end.

End Json.

(* --------------------------------------------------------------------- *)
(** ** The memory section of OpenLogReplicator::run                       *)
(**    (OpenLogReplicator.cpp, the block under the comment MEMORY)         *)
(* --------------------------------------------------------------------- *)

Module MemoryConfig.

Import Json.

Local Open Scope result_scope.

(** The nine local variables the block sets. *)
Record Settings : Type := mkSettings {
  memoryMinMb : Z;
  memoryMaxMb : Z;
  memoryReadBufferMaxMb : Z;
  memoryReadBufferMinMb : Z;
  memorySwapMb : Z;
  memorySwapPath : string;
  memoryUnswapBufferMinMb : Z;
  memoryWriteBufferMaxMb : Z;
  memoryWriteBufferMinMb : Z
}.

(** The initial values: [memorySwapMb = memoryMaxMb * 3 / 4] and
    [memoryWriteBufferMaxMb = memoryMaxMb] with [memoryMaxMb = 2048]. *)
Definition defaults : Settings :=
  mkSettings 32 2048 128 4 1536 "." 4 2048 4.

Definition badJson (text : string) : Exception :=
  mkException ConfigurationException 30001 text.

Definition memoryNames : list string :=
  ["min-mb"; "max-mb"; "read-buffer-max-mb"; "read-buffer-min-mb"; "swap-mb";
   "swap-path"; "unswap-buffer-min-mb"; "write-buffer-max-mb";
   "write-buffer-min-mb"]%string.

Section Constants.

(** [Ctx::MEMORY_CHUNK_SIZE_MB], [Ctx::MEMORY_CHUNK_MIN_MB] and
    [Ctx::JSON_PARAMETER_LENGTH], declared in Ctx.h. *)
Variable MEMORY_CHUNK_SIZE_MB : Z.
Variable MEMORY_CHUNK_MIN_MB : Z.
Variable JSON_PARAMETER_LENGTH : Z.

(** [(x / Ctx::MEMORY_CHUNK_SIZE_MB) * Ctx::MEMORY_CHUNK_SIZE_MB] *)
Definition roundToChunk (x : Z) : Z :=
  wrap64 ((x / MEMORY_CHUNK_SIZE_MB) * MEMORY_CHUNK_SIZE_MB).

Definition readMin (memoryJson : Value) (c : Settings) : Result Settings :=
  if HasMember memoryJson "min-mb" then
    v <- getJsonFieldU64 memoryJson "min-mb" ;;
    let v := roundToChunk v in
    if v <? MEMORY_CHUNK_MIN_MB then Throw (badJson "invalid min-mb value")
    else Ok (mkSettings v (memoryMaxMb c) (memoryReadBufferMaxMb c)
               (memoryReadBufferMinMb c) (memorySwapMb c) (memorySwapPath c)
               (memoryUnswapBufferMinMb c) (memoryWriteBufferMaxMb c)
               (memoryWriteBufferMinMb c))
  else Ok c.

Definition readMax (memoryJson : Value) (c : Settings) : Result Settings :=
  if HasMember memoryJson "max-mb" then
    v <- getJsonFieldU64 memoryJson "max-mb" ;;
    let v := roundToChunk v in
    if v <? memoryMinMb c then Throw (badJson "invalid max-mb value")
    else
      let readMax := v / 8 in
      let readMax := if readMax >? 128 then 128 else readMax in
      let writeMax := if v >? 2048 then 2048 else v in
      Ok (mkSettings (memoryMinMb c) v readMax (memoryReadBufferMinMb c)
            (wrap64 (v * 3) / 4) (memorySwapPath c) (memoryUnswapBufferMinMb c)
            writeMax (memoryWriteBufferMinMb c))
  else Ok c.

Definition readUnswap (memoryJson : Value) (c : Settings) : Result Settings :=
  if HasMember memoryJson "unswap-buffer-min-mb" then
    v <- getJsonFieldU64 memoryJson "unswap-buffer-min-mb" ;;
    Ok (mkSettings (memoryMinMb c) (memoryMaxMb c) (memoryReadBufferMaxMb c)
          (memoryReadBufferMinMb c) (memorySwapMb c) (memorySwapPath c)
          (roundToChunk v) (memoryWriteBufferMaxMb c) (memoryWriteBufferMinMb c))
  else Ok c.

Definition readSwap (memoryJson : Value) (c : Settings) : Result Settings :=
  if HasMember memoryJson "swap-mb" then
    v <- getJsonFieldU64 memoryJson "swap-mb" ;;
    let v := roundToChunk v in
    if v >? wrap64 (memoryMaxMb c - 4) then Throw (badJson "invalid swap-mb value")
    else Ok (mkSettings (memoryMinMb c) (memoryMaxMb c) (memoryReadBufferMaxMb c)
               (memoryReadBufferMinMb c) v (memorySwapPath c)
               (memoryUnswapBufferMinMb c) (memoryWriteBufferMaxMb c)
               (memoryWriteBufferMinMb c))
  else Ok c.

Definition readReadMin (memoryJson : Value) (c : Settings) : Result Settings :=
  if HasMember memoryJson "read-buffer-min-mb" then
    v <- getJsonFieldU64 memoryJson "read-buffer-min-mb" ;;
    let v := roundToChunk v in
    if v >? memoryMaxMb c then Throw (badJson "invalid read-buffer-min-mb value")
    else if v <? 4 then Throw (badJson "invalid read-buffer-min-mb value")
    else Ok (mkSettings (memoryMinMb c) (memoryMaxMb c) (memoryReadBufferMaxMb c)
               v (memorySwapMb c) (memorySwapPath c)
               (memoryUnswapBufferMinMb c) (memoryWriteBufferMaxMb c)
               (memoryWriteBufferMinMb c))
  else Ok c.

Definition readReadMax (memoryJson : Value) (c : Settings) : Result Settings :=
  if HasMember memoryJson "read-buffer-max-mb" then
    v <- getJsonFieldU64 memoryJson "read-buffer-max-mb" ;;
    let v := roundToChunk v in
    if v >? memoryMaxMb c then Throw (badJson "invalid read-buffer-max-mb value")
    else if v <? memoryReadBufferMinMb c
    then Throw (badJson "invalid read-buffer-max-mb value")
    else Ok (mkSettings (memoryMinMb c) (memoryMaxMb c) v
               (memoryReadBufferMinMb c) (memorySwapMb c) (memorySwapPath c)
               (memoryUnswapBufferMinMb c) (memoryWriteBufferMaxMb c)
               (memoryWriteBufferMinMb c))
  else Ok c.

Definition readWriteMin (memoryJson : Value) (c : Settings) : Result Settings :=
  if HasMember memoryJson "write-buffer-min-mb" then
    v <- getJsonFieldU64 memoryJson "write-buffer-min-mb" ;;
    let v := roundToChunk v in
    if v >? memoryMaxMb c then Throw (badJson "invalid write-buffer-min-mb value")
    else if v <? 4 then Throw (badJson "invalid write-buffer-min-mb value")
    else Ok (mkSettings (memoryMinMb c) (memoryMaxMb c) (memoryReadBufferMaxMb c)
               (memoryReadBufferMinMb c) (memorySwapMb c) (memorySwapPath c)
               (memoryUnswapBufferMinMb c) (memoryWriteBufferMaxMb c) v)
  else Ok c.

Definition readWriteMax (memoryJson : Value) (c : Settings) : Result Settings :=
  if HasMember memoryJson "write-buffer-max-mb" then
    v <- getJsonFieldU64 memoryJson "write-buffer-max-mb" ;;
    let v := roundToChunk v in
    if v >? memoryMaxMb c then Throw (badJson "invalid write-buffer-max-mb value")
    else if v <? memoryWriteBufferMinMb c
    then Throw (badJson "invalid write-buffer-max-mb value")
    else Ok (mkSettings (memoryMinMb c) (memoryMaxMb c) (memoryReadBufferMaxMb c)
               (memoryReadBufferMinMb c) (memorySwapMb c) (memorySwapPath c)
               (memoryUnswapBufferMinMb c) v (memoryWriteBufferMinMb c))
  else Ok c.

Definition readSwapPath (memoryJson : Value) (c : Settings) : Result Settings :=
  if HasMember memoryJson "swap-path" && (memorySwapMb c >? 0) then
    v <- getJsonFieldS JSON_PARAMETER_LENGTH memoryJson "swap-path" ;;
    Ok (mkSettings (memoryMinMb c) (memoryMaxMb c) (memoryReadBufferMaxMb c)
          (memoryReadBufferMinMb c) (memorySwapMb c) v
          (memoryUnswapBufferMinMb c) (memoryWriteBufferMaxMb c)
          (memoryWriteBufferMinMb c))
  else Ok c.

(** The last check of the block. *)
Definition checkSum (c : Settings) : Result Settings :=
  if wrap64 (wrap64 (wrap64 (memoryUnswapBufferMinMb c + memoryReadBufferMinMb c)
                     + memoryWriteBufferMinMb c) + 4)
     >? memoryMaxMb c
  then Throw (badJson "unswap-buffer-min-mb + read-buffer-min-mb + write-buffer-min-mb + 4 is greater than max-mb")
  else Ok c.

(** The block [if (sourceJson.HasMember("memory")) { ... }] with the
    declarations before it; [checkTags] is
    [!ctx->isDisableChecksSet(Ctx::DISABLE_CHECKS::JSON_TAGS)]. *)
Definition memorySection (checkTags : bool) (sourceJson : Value) : Result Settings :=
  if HasMember sourceJson "memory" then
    memoryJson <- getJsonFieldO sourceJson "memory" ;;
    (if checkTags then checkJsonFields memoryJson memoryNames else Ok tt) ;;;
    c <- readMin memoryJson defaults ;;
    c <- readMax memoryJson c ;;
    c <- readUnswap memoryJson c ;;
    c <- readSwap memoryJson c ;;
    c <- readReadMin memoryJson c ;;
    c <- readReadMax memoryJson c ;;
    c <- readWriteMin memoryJson c ;;
    c <- readWriteMax memoryJson c ;;
    c <- readSwapPath memoryJson c ;;
    checkSum c
  else Ok defaults.

End Constants.

(** A source whose memory section gives only "min-mb". *)
Definition onlyMin (minMb : Z) : Value :=
  JObject [("memory"%string, JObject [("min-mb"%string, JNumber minMb)])].

End MemoryConfig.

(* --------------------------------------------------------------------- *)
(** ** BuilderJson::columnNull (builder/BuilderJson.h)                    *)
(* --------------------------------------------------------------------- *)

Module JsonColumn.

(** The fields of [DbColumn] (common/DbColumn.h) that [columnNull] reads. *)
Record DbColumn : Type := mkColumn {
  name : string;
  type : Z;
  hidden : bool;
  storedAsLob : bool;
  nested : bool;
  unused : bool;
  guard : bool
}.

(** [DbTable::columns], a vector of columns. *)
Record DbTable : Type := mkTable {
  columns : list DbColumn
}.

(** [table->columns[col]]; an index outside the vector has no meaning. *)
Definition columnAt (table : DbTable) (col : Z) : option DbColumn :=
  if col <? 0 then None else nth_error (columns table) (Z.to_nat col).

Inductive UNKNOWN_TYPE : Type := UNKNOWN_HIDE | UNKNOWN_SHOW.

(** The flags of [Ctx::REDO_FLAGS] that [columnNull] tests. *)
Inductive REDO_FLAGS : Type :=
| SHOW_GUARD_COLUMNS
| SHOW_NESTED_COLUMNS
| SHOW_HIDDEN_COLUMNS
| SHOW_UNUSED_COLUMNS.

(** The enumerators of [SysCol::COLTYPE] (common/table/SysCol.h) that
    [columnNull] names. *)
Record COLTYPE : Type := mkColtype {
  VARCHAR : Z;
  NUMBER : Z;
  DATE : Z;
  RAW : Z;
  CHAR : Z;
  FLOAT : Z;
  DOUBLE : Z;
  XMLTYPE : Z;
  JSON : Z;
  CLOB : Z;
  BLOB : Z;
  TIMESTAMP : Z;
  INTERVAL_YEAR_TO_MONTH : Z;
  INTERVAL_DAY_TO_SECOND : Z;
  UROWID : Z;
  TIMESTAMP_WITH_LOCAL_TZ : Z
}.

(** The state of [BuilderJson] that [columnNull] touches: the setting
    [unknownType], the flag [hasPreviousColumn], and the characters handed
    to [append] so far. *)
Record Writer : Type := mkWriter {
  unknownType : UNKNOWN_TYPE;
  hasPreviousColumn : bool;
  output : list ascii
}.

Section ColumnNull.

Variable T : COLTYPE.
(** [ctx->isFlagSet], which tests [ctx->flags] (Ctx.h). *)
Variable isFlagSet : REDO_FLAGS -> bool.
Variable char_is_signed : bool.
Variable map10 : Z -> ascii.
(** [std::to_string] on a column number. *)
Variable to_string : Z -> list ascii.

Definition appendChars (cs : list ascii) (w : Writer) : Writer :=
  mkWriter (unknownType w) (hasPreviousColumn w) (output w ++ cs).

(** The statements after the [UNKNOWN_HIDE] block. *)
Definition writeNull (table : option DbTable) (col : Z) (w : Writer) : option Writer :=
  let w := if hasPreviousColumn w then appendChars [","%char] w
           else mkWriter (unknownType w) true (output w) in
  let w := appendChars [QUOTE] w in
  match table with
  | Some t =>
      match columnAt t col with
      | Some column =>
          let w := appendChars (Escape.appendEscape char_is_signed map10 (name column)) w in
          Some (appendChars [QUOTE; ":"; "n"; "u"; "l"; "l"]%char w)
      | None => None
      end
  | None =>
      let w := appendChars (["C"; "O"; "L"; "_"]%char ++ to_string col) w in
      Some (appendChars [QUOTE; ":"; "n"; "u"; "l"; "l"]%char w)
  end.

(** The condition of the [if (typeNo != ... ) return;] statement. *)
Definition typeIsFiltered (typeNo : Z) (after : bool) : bool :=
  negb (typeNo =? VARCHAR T)
  && negb (typeNo =? NUMBER T)
  && negb (typeNo =? DATE T)
  && negb (typeNo =? RAW T)
  && negb (typeNo =? CHAR T)
  && negb (typeNo =? FLOAT T)
  && negb (typeNo =? DOUBLE T)
  && (negb (typeNo =? XMLTYPE T) || negb after)
  && (negb (typeNo =? JSON T) || negb after)
  && (negb (typeNo =? CLOB T) || negb after)
  && (negb (typeNo =? BLOB T) || negb after)
  && negb (typeNo =? TIMESTAMP T)
  && negb (typeNo =? INTERVAL_YEAR_TO_MONTH T)
  && negb (typeNo =? INTERVAL_DAY_TO_SECOND T)
  && negb (typeNo =? UROWID T)
  && negb (typeNo =? TIMESTAMP_WITH_LOCAL_TZ T).

(** [columnNull(table, col, after)]; [None] when [col] is not an index of
    [table->columns]. *)
Definition columnNull (table : option DbTable) (col : Z) (after : bool) (w : Writer)
  : option Writer :=
  match table, unknownType w with
  | Some t, UNKNOWN_HIDE =>
      match columnAt t col with
      | None => None
      | Some column =>
          if guard column && negb (isFlagSet SHOW_GUARD_COLUMNS) then Some w
          else if nested column && negb (isFlagSet SHOW_NESTED_COLUMNS) then Some w
          else if hidden column && negb (isFlagSet SHOW_HIDDEN_COLUMNS) then Some w
          else if unused column && negb (isFlagSet SHOW_UNUSED_COLUMNS) then Some w
          else if typeIsFiltered (type column) after then Some w
          else writeNull table col w
      end
  | _, _ => writeNull table col w
  end.

(** *** The rule as the specification words it *)

(** "char/varchar, number, date, raw, float, double, timestamp, the
    interval types, urowid, timestamp with local time zone, or a
    large-object/xml/json type when rendering the after image" *)
Definition allowedType (typeNo : Z) (after : bool) : bool :=
  (typeNo =? CHAR T) || (typeNo =? VARCHAR T) || (typeNo =? NUMBER T)
  || (typeNo =? DATE T) || (typeNo =? RAW T) || (typeNo =? FLOAT T)
  || (typeNo =? DOUBLE T) || (typeNo =? TIMESTAMP T)
  || (typeNo =? INTERVAL_YEAR_TO_MONTH T) || (typeNo =? INTERVAL_DAY_TO_SECOND T)
  || (typeNo =? UROWID T) || (typeNo =? TIMESTAMP_WITH_LOCAL_TZ T)
  || (after && ((typeNo =? CLOB T) || (typeNo =? BLOB T)
                || (typeNo =? XMLTYPE T) || (typeNo =? JSON T))).

(** "guard, nested, hidden, or unused columns without the corresponding
    SHOW flags" are not shown. *)
Definition shownByFlags (column : DbColumn) : bool :=
  (negb (guard column) || isFlagSet SHOW_GUARD_COLUMNS)
  && (negb (nested column) || isFlagSet SHOW_NESTED_COLUMNS)
  && (negb (hidden column) || isFlagSet SHOW_HIDDEN_COLUMNS)
  && (negb (unused column) || isFlagSet SHOW_UNUSED_COLUMNS).

(** The entry ["name":null], after a comma if a column precedes it. *)
Definition nullEntry (columnName : string) (w : Writer) : Writer :=
  mkWriter (unknownType w) true
    (output w
     ++ (if hasPreviousColumn w then [","%char] else [])
     ++ [QUOTE] ++ Escape.appendEscape char_is_signed map10 columnName
     ++ [QUOTE; ":"; "n"; "u"; "l"; "l"]%char).

End ColumnNull.

(** The type codes of the Oracle dictionary, for closed examples. *)
Definition oracleTypes : COLTYPE :=
  mkColtype 1 2 12 23 96 100 101 58 119 112 113 180 182 183 208 231.

End JsonColumn.

(* --------------------------------------------------------------------- *)
(** ** Reading the configuration file                                     *)
(**    Checkpoint::trackConfigFile, Checkpoint::updateConfigFile           *)
(**    (metadata/Checkpoint.cpp) and the start of OpenLogReplicator::run   *)
(**    (OpenLogReplicator.cpp)                                             *)
(* --------------------------------------------------------------------- *)

Module Reload.

Import Json.

(** The calls made on [metadata], [metadata->schema] and a schema element.
    Their bodies (Metadata.cpp, Schema.cpp, SchemaElement.cpp) are not part
    of the sources; the model records which calls are made, in order. *)
Inductive MetaCall : Type :=
| ResetElements
| AddElement (owner table : string) (options : Z)
| ParseKey (key separator : string)
| SetCondition (condition : string)
| ParseTag (tag separator : string)
| CommitElements
| PurgeMetadata
| TouchTables
| BuildMaps
| ResetTouched.

(** The calls that only prepare the new element list. *)
Definition staging (c : MetaCall) : bool :=
  match c with
  | ResetElements | AddElement _ _ _ | ParseKey _ _ | SetCondition _ | ParseTag _ _ => true
  | _ => false
  end.

(** The checkpoint thread's view: the fields of [Checkpoint], the lines
    written with [ctx->error] and [ctx->info], and the calls made on the
    metadata so far. *)
Record State : Type := mkState {
  configFileChange : Z;
  configFileBuffer : bool;             (* whether the buffer is allocated *)
  errors : list (Z * string);
  infos : list string;
  calls : list MetaCall
}.

(** What the file system and the parser answer during one call, and the
    settings of [ctx] and [metadata] the call reads. *)
Record Env : Type := mkEnv {
  statResult : option (Z * Z);         (* st_mtime and st_size, or failure *)
  openOk : bool;
  bytesRead : Z;
  document : option Value;             (* None: HasParseError() *)
  checkTags : bool;                    (* !isDisableChecksSet(JSON_TAGS) *)
  schemaless : bool;                   (* isFlagSet(SCHEMALESS) *)
  adaptiveSchema : bool;               (* isFlagSet(ADAPTIVE_SCHEMA) *)
  metadataUsers : list string          (* metadata->users *)
}.

(** Constants of headers that are not part of the sources, and the two
    methods of [SchemaElement] that may reject their argument. *)
Record Constants : Type := mkConstants {
  CONFIG_FILE_MAX_SIZE : Z;
  SCHEMA_VERSION : string;
  JSON_PARAMETER_LENGTH : Z;
  JSON_FORMAT_SEPARATOR_LENGTH : Z;
  JSON_KEY_LENGTH : Z;
  JSON_CONDITION_LENGTH : Z;
  JSON_TAG_LENGTH : Z;
  SysUser_NAME_LENGTH : Z;
  SysObj_NAME_LENGTH : Z;
  DEBUG_TABLE : Z;
  parseKey : string -> string -> option Exception;
  parseTag : string -> string -> option Exception
}.

(** A statement sequence that may throw: the result and the state it
    leaves, which an exception does not undo. *)
Definition M (A : Type) : Type := State -> Result A * State.

Definition ret {A : Type} (a : A) : M A := fun st => (Ok a, st).
Definition throw {A : Type} (e : Exception) : M A := fun st => (Throw e, st).
Definition lift {A : Type} (r : Result A) : M A := fun st => (r, st).
Definition mbind {A B : Type} (m : M A) (k : A -> M B) : M B :=
  fun st =>
    match m st with
    | (Ok a, st') => k a st'
    | (Throw e, st') => (Throw e, st')
    end.

Declare Scope reload_scope.
Delimit Scope reload_scope with reload.
Notation "x <-- m ;; k" := (mbind m (fun x => k))
  (at level 61, m at next level, right associativity) : reload_scope.
Notation "m ;;; k" := (mbind m (fun _ => k))
  (at level 61, right associativity) : reload_scope.
Local Open Scope reload_scope.

Definition metaCall (c : MetaCall) : M unit :=
  fun st => (Ok tt, mkState (configFileChange st) (configFileBuffer st) (errors st)
                            (infos st) (calls st ++ [c])).
Definition info (text : string) : M unit :=
  fun st => (Ok tt, mkState (configFileChange st) (configFileBuffer st) (errors st)
                            (infos st ++ [text]) (calls st)).
Definition setBuffer (allocated : bool) : M unit :=
  fun st => (Ok tt, mkState (configFileChange st) allocated (errors st)
                            (infos st) (calls st)).
Definition when (c : bool) (m : M unit) : M unit := if c then m else ret tt.
Definition failing (r : option Exception) : M unit :=
  match r with
  | Some e => throw e
  | None => ret tt
  end.

(** [ctx->error(ex.code, ex.msg)] *)
Definition logError (e : Exception) (st : State) : State :=
  mkState (configFileChange st) (configFileBuffer st)
          (errors st ++ [(code e, msg e)]) (infos st) (calls st).
Definition setChange (mtime : Z) (st : State) : State :=
  mkState mtime (configFileBuffer st) (errors st) (infos st) (calls st).

(** The statement sequence [m] writes no error line, keeps
    [configFileChange], and makes only staging calls on the metadata,
    whether it returns or throws. *)
Definition onlyStaging {A : Type} (m : M A) : Prop :=
  forall st r st',
    m st = (r, st') ->
    errors st' = errors st
    /\ configFileChange st' = configFileChange st
    /\ exists new, calls st' = calls st ++ new /\ forallb staging new = true.

(** The same for the states in which [m] throws. *)
Definition throwsStaged {A : Type} (m : M A) : Prop :=
  forall st e st',
    m st = (Throw e, st') ->
    errors st' = errors st
    /\ configFileChange st' = configFileChange st
    /\ exists new, calls st' = calls st ++ new /\ forallb staging new = true.

Definition documentNames : list string :=
  ["version"; "dump-path"; "dump-raw-data"; "dump-redo-log"; "log-level"; "trace";
   "source"; "target"]%string.
Definition sourceNames : list string :=
  ["alias"; "memory"; "name"; "reader"; "flags"; "state"; "debug";
   "transaction-max-mb"; "metrics"; "format"; "redo-read-sleep-us";
   "arch-read-sleep-us"; "arch-read-tries"; "redo-verify-delay-us";
   "refresh-interval-us"; "arch"; "filter"]%string.
Definition debugNames : list string :=
  ["stop-log-switches"; "stop-checkpoints"; "stop-transactions"; "owner"; "table"]%string.
Definition filterNames : list string :=
  ["table"; "skip-xid"; "separator"; "dump-xid"]%string.

Definition configError (code : Z) (text : string) : Exception :=
  mkException ConfigurationException code text.

Section Reloading.

Variable K : Constants.
Variable env : Env.

Definition checkFields (v : Value) (names : list string) : M unit :=
  when (checkTags env) (lift (checkJsonFields v names)).

(** The body of the loop over the "table" array; the result is the set
    [users] after the element. *)
Definition tableElement (separator : string) (users : list string) (item : Value)
  : M (list string) :=
  tableElementJson <-- lift (elementO item) ;;
  owner <-- lift (getJsonFieldS (SysUser_NAME_LENGTH K) tableElementJson "owner") ;;
  table <-- lift (getJsonFieldS (SysObj_NAME_LENGTH K) tableElementJson "table") ;;
  metaCall (AddElement owner table 0) ;;;
  when (HasMember tableElementJson "key")
       (key <-- lift (getJsonFieldS (JSON_KEY_LENGTH K) tableElementJson "key") ;;
        metaCall (ParseKey key separator) ;;;
        failing (parseKey K key separator)) ;;;
  when (HasMember tableElementJson "condition")
       (condition <-- lift (getJsonFieldS (JSON_CONDITION_LENGTH K) tableElementJson
                                          "condition") ;;
        metaCall (SetCondition condition)) ;;;
  when (HasMember tableElementJson "tag")
       (tag <-- lift (getJsonFieldS (JSON_TAG_LENGTH K) tableElementJson "tag") ;;
        metaCall (ParseTag tag separator) ;;;
        failing (parseTag K tag separator)) ;;;
  ret (owner :: users).

Fixpoint tableElements (separator : string) (users : list string) (items : list Value)
  : M (list string) :=
  match items with
  | [] => ret users
  | item :: rest =>
      users <-- tableElement separator users item ;;
      tableElements separator users rest
  end.

Definition inSet (user : string) (set : list string) : bool :=
  existsb (String.eqb user) set.

(** The two loops that compare [metadata->users] with [users]. *)
Definition checkUsers (users : list string) : M unit :=
  when (existsb (fun user => negb (inSet user users)) (metadataUsers env))
       (throw (configError 20007 "user is missing")) ;;;
  when (existsb (fun user => negb (inSet user (metadataUsers env))) users)
       (throw (configError 20007 "user is redundant")).

(** The "debug" block: the owner and the table of the debug stop, if any. *)
Definition debugSection (sourceJson : Value) : M (option (string * string)) :=
  if HasMember sourceJson "debug" then
    debugJson <-- lift (getJsonFieldO sourceJson "debug") ;;
    checkFields debugJson debugNames ;;;
    if negb (schemaless env)
       && (HasMember debugJson "owner" || HasMember debugJson "table")
    then
      debugOwner <-- lift (getJsonFieldS (SysUser_NAME_LENGTH K) debugJson "owner") ;;
      debugTable <-- lift (getJsonFieldS (SysObj_NAME_LENGTH K) debugJson "table") ;;
      info "will shutdown after committed DML" ;;;
      ret (Some (debugOwner, debugTable))
    else ret None
  else ret None.

(** The "filter" block. *)
Definition filterSection (sourceJson : Value) (users : list string) : M unit :=
  when (HasMember sourceJson "filter")
       (filterJson <-- lift (getJsonFieldO sourceJson "filter") ;;
        checkFields filterJson filterNames ;;;
        when (HasMember filterJson "table" && negb (schemaless env))
             (tableArrayJson <-- lift (getJsonFieldA filterJson "table") ;;
              separator <-- (if HasMember filterJson "separator"
                             then lift (getJsonFieldS (JSON_FORMAT_SEPARATOR_LENGTH K)
                                                      filterJson "separator")
                             else ret ","%string) ;;
              users <-- tableElements separator users tableArrayJson ;;
              checkUsers users)).

(** One turn of the loop over the "source" array. *)
Definition sourceElement (item : Value) : M unit :=
  sourceJson <-- lift (elementO item) ;;
  checkFields sourceJson sourceNames ;;;
  metaCall ResetElements ;;;
  debug <-- debugSection sourceJson ;;
  users <-- (match debug with
             | Some (debugOwner, debugTable) =>
                 metaCall (AddElement debugOwner debugTable (DEBUG_TABLE K)) ;;;
                 ret [debugOwner]
             | None => ret []
             end) ;;
  when (adaptiveSchema env) (metaCall (AddElement ".*" ".*" 0)) ;;;
  filterSection sourceJson users.

Fixpoint sourceElements (items : list Value) : M unit :=
  match items with
  | [] => ret tt
  | item :: rest => sourceElement item ;;; sourceElements rest
  end.

(** [updateConfigFile] up to the comment "Suspend transaction processing
    for the schema update". *)
Definition readFilters : M unit :=
  match document env with
  | None => throw (configError 20001 "parse error")
  | Some doc =>
      checkFields doc documentNames ;;;
      version <-- lift (getJsonFieldS (JSON_PARAMETER_LENGTH K) doc "version") ;;
      when (negb (String.eqb version (SCHEMA_VERSION K)))
           (throw (configError 30001 "bad JSON, invalid version value")) ;;;
      sourceArrayJson <-- lift (getJsonFieldA doc "source") ;;
      when (negb (Z.of_nat (List.length sourceArrayJson) =? 1))
           (throw (configError 30001 "bad JSON, invalid source value")) ;;;
      sourceElements sourceArrayJson
  end.

(** The block under that comment: no statement of it throws in the
    source. *)
Definition applyFilters : M unit :=
  info "scanning objects which match the configuration file" ;;;
  metaCall CommitElements ;;;
  metaCall PurgeMetadata ;;;
  metaCall TouchTables ;;;
  metaCall BuildMaps ;;;
  metaCall ResetTouched.

Definition updateConfigFile : M unit :=
  readFilters ;;; applyFilters.

(** The [try] block of [trackConfigFile]. *)
Definition reload (size : Z) : M unit :=
  when (negb (openOk env)) (throw (configError 10001 "open for read failed")) ;;;
  when ((size >? CONFIG_FILE_MAX_SIZE K) || (size =? 0))
       (throw (configError 10004 "wrong size")) ;;;
  setBuffer true ;;;
  when (negb (bytesRead env =? size)) (throw (configError 10005 "bytes read")) ;;;
  updateConfigFile ;;;
  setBuffer false.

(** The two [catch] clauses. *)
Definition caught (e : Exception) : bool :=
  match exClass e with
  | ConfigurationException | DataException => true
  | _ => false
  end.

(** [trackConfigFile]: the state on return, or the exception that leaves
    the function. *)
Definition trackConfigFile (st : State) : Result State :=
  match statResult env with
  | None => Throw (mkException RuntimeException 10003 "get metadata failed")
  | Some (mtime, size) =>
      if mtime =? configFileChange st then Ok st
      else
        match (info "config file changed, reloading" ;;; reload size) st with
        | (Ok _, st) => Ok (setChange mtime st)
        | (Throw e, st) =>
            if caught e then Ok (setChange mtime (logError e st)) else Throw e
        end
  end.

End Reloading.

(** Closed examples: a file whose "version" is not the expected one. *)
Definition sampleConstants : Constants :=
  mkConstants 1048576 "1.6.0" 256 128 4096 16384 15 128 128 1
              (fun _ _ => None) (fun _ _ => None).
Definition wrongVersion : Value :=
  JObject [("version"%string, JString "0.9.0"); ("source"%string, JArray [])].
Definition changedFile : Env :=
  mkEnv (Some (1700000100, 64)) true 64 (Some wrongVersion) true false false [].
Definition running : State :=
  mkState 1700000000 false [] [] [ResetElements; CommitElements].

End Reload.

Module Startup.

Import Json.
Local Open Scope result_scope.

(** What the file system and the parser answer while [run] reads the
    file. *)
Record Env : Type := mkEnv {
  openOk : bool;
  flockOk : bool;
  statResult : option Z;               (* st_size, or failure *)
  bytesRead : Z;
  document : option Value;             (* None: HasParseError() *)
  checkTags : bool                     (* !isDisableChecksSet(JSON_TAGS) *)
}.

(** The fields of [ctx] set before the loop over the sources. *)
Record Logging : Type := mkLogging {
  dumpRedoLog : Z;
  dumpPath : string;
  dumpRawData : Z;
  logLevel : Z;
  trace : Z
}.

Definition check (c : bool) (e : Exception) : Result unit :=
  if c then Throw e else Ok tt.

Section Run.

Variable CONFIG_FILE_MAX_SIZE : Z.
Variable SCHEMA_VERSION : string.
Variable JSON_PARAMETER_LENGTH : Z.
Variable MEMORY_CHUNK_SIZE_MB : Z.
Variable MEMORY_CHUNK_MIN_MB : Z.
(** The statements of [run] after the memory section, down to
    [return 0]. *)
Variable remainder : Logging -> Value -> MemoryConfig.Settings -> Result Z.

Definition badJson := MemoryConfig.badJson.

(** From [open] to the end of the memory section of the first source. *)
Definition readConfiguration (env : Env) (ctx : Logging)
  : Result (Logging * Value * MemoryConfig.Settings) :=
  check (negb (openOk env)) (mkException RuntimeException 10001 "open for read failed") ;;;
  check (negb (flockOk env)) (mkException RuntimeException 10002 "lock operation failed") ;;;
  size <- match statResult env with
          | Some size => Ok size
          | None => Throw (mkException RuntimeException 10003 "get metadata failed")
          end ;;
  check ((size >? CONFIG_FILE_MAX_SIZE) || (size =? 0))
        (mkException ConfigurationException 10004 "wrong size") ;;;
  check (negb (bytesRead env =? size)) (mkException RuntimeException 10005 "bytes read") ;;;
  doc <- match document env with
         | Some doc => Ok doc
         | None => Throw (mkException DataException 20001 "parse error")
         end ;;
  (if checkTags env then checkJsonFields doc Reload.documentNames else Ok tt) ;;;
  version <- getJsonFieldS JSON_PARAMETER_LENGTH doc "version" ;;
  check (negb (String.eqb version SCHEMA_VERSION))
        (badJson "bad JSON, invalid version value") ;;;
  ctx <- (if HasMember doc "dump-redo-log" then
            v <- getJsonFieldU64 doc "dump-redo-log" ;;
            check (v >? 2) (badJson "bad JSON, invalid dump-redo-log value") ;;;
            if v >? 0 then
              path <- (if HasMember doc "dump-path"
                       then getJsonFieldS JSON_PARAMETER_LENGTH doc "dump-path"
                       else Ok (dumpPath ctx)) ;;
              raw <- (if HasMember doc "dump-raw-data" then
                        r <- getJsonFieldU64 doc "dump-raw-data" ;;
                        check (r >? 1) (badJson "bad JSON, invalid dump-raw-data value") ;;;
                        Ok r
                      else Ok (dumpRawData ctx)) ;;
              Ok (mkLogging v path raw (logLevel ctx) (trace ctx))
            else Ok (mkLogging v (dumpPath ctx) (dumpRawData ctx) (logLevel ctx) (trace ctx))
          else Ok ctx) ;;
  ctx <- (if HasMember doc "log-level" then
            v <- getJsonFieldU64 doc "log-level" ;;
            check (v >? 4) (badJson "bad JSON, invalid log-level value") ;;;
            Ok (mkLogging (dumpRedoLog ctx) (dumpPath ctx) (dumpRawData ctx) v (trace ctx))
          else Ok ctx) ;;
  ctx <- (if HasMember doc "trace" then
            v <- getJsonFieldU64 doc "trace" ;;
            check (v >? 524287) (badJson "bad JSON, invalid trace value") ;;;
            Ok (mkLogging (dumpRedoLog ctx) (dumpPath ctx) (dumpRawData ctx) (logLevel ctx) v)
          else Ok ctx) ;;
  sourceArrayJson <- getJsonFieldA doc "source" ;;
  check (negb (Z.of_nat (List.length sourceArrayJson) =? 1))
        (badJson "bad JSON, invalid source value") ;;;
  sourceJson <- elementO (hd JNull sourceArrayJson) ;;
  (if checkTags env then checkJsonFields sourceJson Reload.sourceNames else Ok tt) ;;;
  alias <- getJsonFieldS JSON_PARAMETER_LENGTH sourceJson "alias" ;;
  memory <- MemoryConfig.memorySection MEMORY_CHUNK_SIZE_MB MEMORY_CHUNK_MIN_MB
              JSON_PARAMETER_LENGTH (checkTags env) sourceJson ;;
  Ok (ctx, sourceJson, memory).

(** [run]: there is no [try] in the function, so an exception of any
    statement leaves it. *)
Definition run (env : Env) (ctx : Logging) : Result Z :=
  cfg <- readConfiguration env ctx ;;
  let '(ctx, sourceJson, memory) := cfg in
  remainder ctx sourceJson memory.

End Run.

End Startup.

(* --------------------------------------------------------------------- *)
(** ** Decimal and hexadecimal rendering                                  *)
(**    BuilderJson::appendDec, appendSDec, appendHex16                     *)
(**    (builder/BuilderJson.h) and BuilderProtobuf::numToString            *)
(**    (builder/BuilderProtobuf.h)                                         *)
(* --------------------------------------------------------------------- *)

Module Render.

(** The number a list of digits denotes in base [base], most significant
    digit first. *)
Definition digitsValue (base : Z) (ds : list Z) : Z :=
  fold_left (fun acc d => base * acc + d) ds 0.

Definition isDigitOf (base : Z) (d : Z) : Prop := 0 <= d < base.

(** The cells [buffer[0] .. buffer[size - 1]] of
    [while (value > 0) { buffer[size++] = Ctx::map10(value % 10); value /= 10; }]
    before [map10] is applied: least significant digit first.  [fuel] is the
    number of cells of [buffer]. *)
Fixpoint decBuffer (fuel : nat) (value : Z) : list Z :=
  match fuel with
  | O => []
  | S f => if value >? 0 then (value mod 10) :: decBuffer f (value / 10) else []
  end.

Section Rendering.

(** [Ctx::map10] and [Ctx::map16], inline helpers of Ctx.h. *)
Variable map10 : Z -> ascii.
Variable map16 : Z -> ascii.

(** [appendDec(uint64_t value)]: the characters written, [buffer[size - 1]]
    first.  [char buffer[21]]. *)
Definition appendDec (value : Z) : list ascii :=
  if value =? 0 then ["0"%char]
  else rev (map map10 (decBuffer 21 value)).

(** [appendSDec(int64_t value)]; [char buffer[22]].  For the least
    [int64_t] the statement [value = -value] overflows, which C++ leaves
    undefined; the model negates in [Z]. *)
Definition appendSDec (value : Z) : list ascii :=
  if value =? 0 then ["0"%char]
  else if value <? 0 then
    rev (map map10 (decBuffer 21 (- value)) ++ ["-"%char])
  else rev (map map10 (decBuffer 21 value)).

(** The tail of [appendDec]: the characters go to the output queue by the
    memcpy branch or by [append(char)], as in [append(const char*, uint64_t)]. *)
Definition appendDecTo (sizeof_BuilderMsg OUTPUT_BUFFER_DATA_SIZE MEMORY_CHUNK_SIZE_MB : Z)
    (chunkBytes : Z -> Z) (value : Z) (b : Queue.Builder) : Result Queue.Builder :=
  Queue.appendStr sizeof_BuilderMsg OUTPUT_BUFFER_DATA_SIZE MEMORY_CHUNK_SIZE_MB chunkBytes
    (map byte_of (appendDec value)) b.

(** [(value >> shift) & 0xF] *)
Definition nibble (value shift : Z) : Z := Z.land (Z.shiftr value shift) 15.

(** [appendHex16(uint64_t value)], sixteen [append] calls. *)
Definition appendHex16 (value : Z) : list ascii :=
  [map16 (nibble value 60); map16 (nibble value 56); map16 (nibble value 52);
   map16 (nibble value 48); map16 (nibble value 44); map16 (nibble value 40);
   map16 (nibble value 36); map16 (nibble value 32); map16 (nibble value 28);
   map16 (nibble value 24); map16 (nibble value 20); map16 (nibble value 16);
   map16 (nibble value 12); map16 (nibble value 8); map16 (nibble value 4);
   map16 (nibble value 0)].

(** [appendHex8(uint32_t)], [appendHex4(uint16_t)], [appendHex3(uint16_t)]
    and [appendHex2(uint8_t)]. *)
Definition appendHex8 (value : Z) : list ascii :=
  [map16 (nibble value 28); map16 (nibble value 24); map16 (nibble value 20);
   map16 (nibble value 16); map16 (nibble value 12); map16 (nibble value 8);
   map16 (nibble value 4); map16 (nibble value 0)].
Definition appendHex4 (value : Z) : list ascii :=
  [map16 (nibble value 12); map16 (nibble value 8); map16 (nibble value 4);
   map16 (nibble value 0)].
Definition appendHex3 (value : Z) : list ascii :=
  [map16 (nibble value 8); map16 (nibble value 4); map16 (nibble value 0)].
Definition appendHex2 (value : Z) : list ascii :=
  [map16 (nibble value 4); map16 (nibble value 0)].

(** The loop of [BuilderProtobuf::numToString]:
    [for (i = 0; i < size; ++i) { buf[i] = map16((value >> j) & 0xF); j -= 4; }] *)
Fixpoint numToStringLoop (count : nat) (value j : Z) : list ascii :=
  match count with
  | O => []
  | S n => map16 (nibble value j) :: numToStringLoop n value (wrap64 (j - 4))
  end.

(** [numToString(value, buf, size)]: the characters [buf[0] .. buf[size - 1]]. *)
Definition numToString (value size : Z) : list ascii :=
  numToStringLoop (Z.to_nat size) value (wrap64 ((size - 1) * 4)).

End Rendering.

(** The digit characters, for closed examples. *)
Definition digitChar (d : Z) : ascii := ascii_of_nat (48 + Z.to_nat d).
Definition hexChar (d : Z) : ascii :=
  if d <? 10 then ascii_of_nat (48 + Z.to_nat d) else ascii_of_nat (87 + Z.to_nat d).

End Render.

(* --------------------------------------------------------------------- *)
(** ** The value buffer of Builder (builder/Builder.h)                    *)
(**    valueBufferCheck, valueBufferPurge, valueBufferAppend,              *)
(**    valueBufferAppendHex, parseRaw, parseNumber                         *)
(* --------------------------------------------------------------------- *)

Module ValueBuffer.

Definition VALUE_BUFFER_MIN : Z := 1048576.
Definition VALUE_BUFFER_MAX : Z := Number.VALUE_BUFFER_MAX.

(** [valueBuffer], [valueSize] and [valueBufferSize]: the characters
    [valueBuffer[0] .. valueBuffer[valueSize - 1]] and the size of the
    allocation. *)
Record Buffer : Type := mkBuffer {
  valueBuffer : list ascii;
  valueBufferSize : Z
}.

Definition valueSize (b : Buffer) : Z := Z.of_nat (List.length (valueBuffer b)).

Definition tooLong : Exception :=
  mkException RedoLogException 50012 "trying to allocate length for value".

(** [do { valueBufferSize <<= 1; } while (valueSize + size >= valueBufferSize);]
    [None] when [fuel] passes do not end the loop. *)
Fixpoint doubleUntil (fuel : nat) (need size : Z) : option Z :=
  match fuel with
  | O => None
  | S f =>
      let size := wrap64 (Z.shiftl size 1) in
      if need >=? size then doubleUntil f need size else Some size
  end.

(** [valueBufferCheck(size, offset)]; the new allocation receives the
    [valueSize] characters written so far. *)
Definition valueBufferCheck (size : Z) (b : Buffer) : option (Result Buffer) :=
  let need := wrap64 (valueSize b + size) in
  if need >? VALUE_BUFFER_MAX then Some (Throw tooLong)
  else if need <? valueBufferSize b then Some (Ok b)
  else
    match doubleUntil 64 need (valueBufferSize b) with
    | Some grown => Some (Ok (mkBuffer (valueBuffer b) grown))
    | None => None
    end.

Definition valueBufferPurge (b : Buffer) : Buffer :=
  if valueBufferSize b =? VALUE_BUFFER_MIN then mkBuffer [] (valueBufferSize b)
  else mkBuffer [] VALUE_BUFFER_MIN.

(** [valueBuffer[valueSize++] = value] *)
Definition valueBufferAppend (value : ascii) (b : Buffer) : Buffer :=
  mkBuffer (valueBuffer b ++ [value]) (valueBufferSize b).

Section Raw.

(** [Ctx::map16] and [Ctx::map16U], inline helpers of Ctx.h. *)
Variable map16 : Z -> ascii.
Variable map16U : Z -> ascii.
Variable data : Z -> Byte.byte.

Definition valueBufferAppendHex (value : Z) (b : Buffer) : option (Result Buffer) :=
  match valueBufferCheck 2 b with
  | Some (Ok b) =>
      let b := valueBufferAppend (map16 (Z.land (Z.shiftr value 4) 15)) b in
      Some (Ok (valueBufferAppend (map16 (Z.land value 15)) b))
  | other => other
  end.

(** The two characters [parseRaw] appends for one byte. *)
Definition rawPair (byte : Z) : list ascii :=
  [map16U (Z.shiftr byte 4); map16U (Z.land byte 15)].

(** [for (uint64_t j = 0; j < size; ++j) { ... }] from [j] on, [count]
    bytes being left. *)
Fixpoint rawLoop (count : nat) (j : Z) (b : Buffer) : Buffer :=
  match count with
  | O => b
  | S n =>
      let b := valueBufferAppend (map16U (Z.shiftr (Number.byteAt data j) 4)) b in
      let b := valueBufferAppend (map16U (Z.land (Number.byteAt data j) 15)) b in
      rawLoop n (j + 1) b
  end.

Definition parseRaw (size : Z) (b : Buffer) : option (Result Buffer) :=
  let b := valueBufferPurge b in
  match valueBufferCheck (wrap64 (size * 2)) b with
  | Some (Ok b) =>
      if size =? 0 then Some (Ok b)
      else Some (Ok (rawLoop (Z.to_nat size) 0 b))
  | other => other
  end.

End Raw.

(** How a call that appends to [valueBuffer] ends, and the buffer at that
    moment: it returns; it throws; or it reaches
    [valueBuffer[valueSize++] = value] with [valueSize == valueBufferSize],
    a store one cell past the allocation. *)
Inductive Outcome : Type :=
| Returns (b : Buffer)
| Throws (e : Exception)
| StoresPast (b : Buffer).

(** The calls [valueBufferAppend(c)] for the characters of [cs], in order.
    [valueBufferAppend] does not look at [valueBufferSize]: the store is
    inside the allocation when [valueSize < valueBufferSize]. *)
Fixpoint appendChars (cs : list ascii) (b : Buffer) : Outcome :=
  match cs with
  | [] => Returns b
  | c :: rest =>
      if valueSize b <? valueBufferSize b
      then appendChars rest (valueBufferAppend c b)
      else StoresPast b
  end.

Section Numbers.

Variable map10 : Z -> ascii.
Variable data : Z -> Byte.byte.

(** [parseNumber(data, size, offset)]: [valueBufferPurge()],
    [valueBufferCheck(size * 2 + 2, offset)], and then the appends of
    [Number.parseNumberAppends]. *)
Definition parseNumber (size : Z) (b : Buffer) : option Outcome :=
  let b := valueBufferPurge b in
  match valueBufferCheck (wrap64 (size * 2 + 2)) b with
  | Some (Ok b) =>
      match Number.parseNumberAppends map10 data size with
      | Ok cs => Some (appendChars cs b)
      | Throw e => Some (Throws e)
      end
  | Some (Throw e) => Some (Throws e)
  | None => None
  end.

End Numbers.

End ValueBuffer.

(* --------------------------------------------------------------------- *)
(** ** The pool of memory chunks (common/Ctx.cpp)                         *)
(**    Ctx::initialize, Ctx::freeMemoryChunk, Ctx::nothingToSwap,          *)
(**    Ctx::stopHard, Ctx::stopSoft                                        *)
(* --------------------------------------------------------------------- *)

Module Pool.

Import Memory.

(** [Memory.Ctx] with the other fields of [Ctx] that the functions of
    this module read or write. *)
Record Pool : Type := mkPool {
  ctx : Ctx;
  memoryChunksMin : Z;
  memoryChunksSwap : Z;
  memoryChunksReadBufferMax : Z;
  bufferSizeMax : Z;
  bufferSizeFree : Z;
  softShutdown : bool
}.

Definition setCtx (c : Ctx) (p : Pool) : Pool :=
  mkPool c (memoryChunksMin p) (memoryChunksSwap p) (memoryChunksReadBufferMax p)
         (bufferSizeMax p) (bufferSizeFree p) (softShutdown p).

(** The values the constructor [Ctx::Ctx] gives these fields. *)
Definition constructed : Pool :=
  mkPool (mkCtx 0 0 0 0 (fun _ => 0) (fun _ => 0) 0 0 0 0 false false)
         0 0 0 0 0 false.

(** The chunks in use: [memoryChunksAllocated - memoryChunksFree]. *)
Definition usedChunks (c : Ctx) : Z := memoryChunksAllocated c - memoryChunksFree c.

(** The free chunks are part of the allocated ones, these are at least
    [memoryChunksMin] and at most [memoryChunksMax], the size of the array
    [memoryChunks]. *)
Definition poolInvariant (p : Pool) : Prop :=
  0 <= memoryChunksFree (ctx p) <= memoryChunksAllocated (ctx p)
  /\ memoryChunksMin p <= memoryChunksAllocated (ctx p)
  /\ memoryChunksAllocated (ctx p) <= memoryChunksMax (ctx p)
  /\ memoryChunksMax (ctx p) < 18446744073709551616.

(** The two tests at the head of the loop of [getMemoryChunk]: the reader
    or the builder asks for a chunk of its reserved minimum. *)
Definition takesReserved (module : MEMORY) (c : Ctx) : bool :=
  (MEMORY_eqb module READER
   && (memoryModulesAllocated c READER <? memoryChunksReadBufferMin c))
  || (MEMORY_eqb module BUILDER
      && (memoryModulesAllocated c BUILDER <? memoryChunksWriteBufferMin c)).

Definition unknownBlock : Exception :=
  mkException RuntimeException 50001 "trying to free unknown memory block".

(** [freeMemoryChunk(t, module, chunk)]: the pool on return and whether the
    chunk goes back to the operating system ([free(chunk)]). *)
Definition freeMemoryChunk (module : MEMORY) (p : Pool) : Result (Pool * bool) :=
  let c := ctx p in
  if memoryChunksFree c =? memoryChunksAllocated c then Throw unknownBlock
  else
    (* Keep memoryChunksMin reserved *)
    let release := memoryChunksFree c >=? memoryChunksMin p in
    let allocated := if release then wrap64 (memoryChunksAllocated c - 1)
                     else memoryChunksAllocated c in
    let free := if release then memoryChunksFree c
                else wrap64 (memoryChunksFree c + 1) in
    let allocatedModule := wrap64 (memoryModulesAllocated c module - 1) in
    Ok (setCtx (mkCtx (memoryChunksMax c) allocated free (memoryChunksHWM c)
                      (update (memoryModulesAllocated c) module allocatedModule)
                      (memoryModulesHWM c)
                      (memoryChunksReadBufferMin c) (memoryChunksUnswapBufferMin c)
                      (memoryChunksWriteBufferMax c) (memoryChunksWriteBufferMin c)
                      (outOfMemoryParser c) (hardShutdown c)) p,
        release).

Definition nothingToSwap (p : Pool) : bool :=
  (memoryChunksSwap p =? 0)
  || (wrap64 (memoryChunksAllocated (ctx p) - memoryChunksFree (ctx p))
      <? memoryChunksSwap p).

Definition setShutdown (hard soft : bool) (p : Pool) : Pool :=
  let c := ctx p in
  mkPool (mkCtx (memoryChunksMax c) (memoryChunksAllocated c) (memoryChunksFree c)
                (memoryChunksHWM c) (memoryModulesAllocated c) (memoryModulesHWM c)
                (memoryChunksReadBufferMin c) (memoryChunksUnswapBufferMin c)
                (memoryChunksWriteBufferMax c) (memoryChunksWriteBufferMin c)
                (outOfMemoryParser c) hard)
         (memoryChunksMin p) (memoryChunksSwap p) (memoryChunksReadBufferMax p)
         (bufferSizeMax p) (bufferSizeFree p) soft.

(** [stopHard] and [stopSoft]; the notifications of the condition
    variables wake the waiting threads. *)
Definition stopHard (p : Pool) : Pool :=
  if hardShutdown (ctx p) then p else setShutdown true true p.

Definition stopSoft (p : Pool) : Pool :=
  if softShutdown p then p else setShutdown (hardShutdown (ctx p)) true p.

Section Initialize.

(** [Ctx::MEMORY_CHUNK_SIZE_MB], declared in Ctx.h. *)
Variable MEMORY_CHUNK_SIZE_MB : Z.
(** Whether the call of [aligned_alloc] for [memoryChunks[i]] returns a
    chunk. *)
Variable allocOk : Z -> bool.

Definition allocationFailed : Exception :=
  mkException RuntimeException 10016 "couldn't allocate memory for: memory chunks#2".

(** How the loop over [memoryChunks] ends: [i] reaches [memoryChunksMin];
    [aligned_alloc] returns a null pointer; or the store to
    [memoryChunks[i]] falls past the [memoryChunksMax] cells of
    [new uint8_t*[memoryChunksMax]]. *)
Inductive LoopEnd : Type :=
| Completed (c : Ctx)
| AllocationFails (c : Ctx)
| PastArray (i : Z) (c : Ctx).

(** [for (uint64_t i = 0; i < memoryChunksMin; ++i) { ... }] from [i] on,
    [count] turns being left.  The result of [aligned_alloc] is stored in
    [memoryChunks[i]] before it is tested. *)
Fixpoint allocateChunks (count : nat) (i : Z) (c : Ctx) : LoopEnd :=
  match count with
  | O => Completed c
  | S n =>
      if memoryChunksMax c <=? i then PastArray i c
      else if allocOk i then
        allocateChunks n (i + 1)
          (mkCtx (memoryChunksMax c) (wrap64 (memoryChunksAllocated c + 1))
                 (wrap64 (memoryChunksFree c + 1)) (memoryChunksHWM c)
                 (memoryModulesAllocated c) (memoryModulesHWM c)
                 (memoryChunksReadBufferMin c) (memoryChunksUnswapBufferMin c)
                 (memoryChunksWriteBufferMax c) (memoryChunksWriteBufferMin c)
                 (outOfMemoryParser c) (hardShutdown c))
      else AllocationFails c
  end.

(** How a call of [initialize] ends, and the pool at that moment: it
    returns, it throws, or it stores a pointer in [memoryChunks[index]]
    with [index] past the end of the array. *)
Inductive Initialized : Type :=
| Returns (p : Pool)
| Throws (e : Exception) (p : Pool)
| StoresPast (index : Z) (p : Pool).

(** [Ctx::initialize]. *)
Definition initialize
    (memoryMinMb memoryMaxMb memoryReadBufferMaxMb memoryReadBufferMinMb memorySwapMb
     memoryUnswapBufferMinMb memoryWriteBufferMaxMb memoryWriteBufferMinMb : Z)
    (p : Pool) : Initialized :=
  let c := ctx p in
  let chunksMin := memoryMinMb / MEMORY_CHUNK_SIZE_MB in
  let c := mkCtx (memoryMaxMb / MEMORY_CHUNK_SIZE_MB)
                 (memoryChunksAllocated c) (memoryChunksFree c) (memoryChunksHWM c)
                 (memoryModulesAllocated c) (memoryModulesHWM c)
                 (memoryReadBufferMinMb / MEMORY_CHUNK_SIZE_MB)
                 (memoryUnswapBufferMinMb / MEMORY_CHUNK_SIZE_MB)
                 (memoryWriteBufferMaxMb / MEMORY_CHUNK_SIZE_MB)
                 (memoryWriteBufferMinMb / MEMORY_CHUNK_SIZE_MB)
                 (outOfMemoryParser c) (hardShutdown c) in
  let p := mkPool c chunksMin (memorySwapMb / MEMORY_CHUNK_SIZE_MB)
                  (memoryReadBufferMaxMb / MEMORY_CHUNK_SIZE_MB)
                  (wrap64 (memoryReadBufferMaxMb * 1024 * 1024))
                  (memoryReadBufferMaxMb / MEMORY_CHUNK_SIZE_MB)
                  (softShutdown p) in
  match allocateChunks (Z.to_nat chunksMin) 0 c with
  | PastArray i c => StoresPast i (setCtx c p)
  | AllocationFails c => Throws allocationFailed (setCtx c p)
  | Completed c =>
      Returns
        (setCtx (mkCtx (memoryChunksMax c) (memoryChunksAllocated c) (memoryChunksFree c)
                       chunksMin
                       (memoryModulesAllocated c) (memoryModulesHWM c)
                       (memoryChunksReadBufferMin c) (memoryChunksUnswapBufferMin c)
                       (memoryChunksWriteBufferMax c) (memoryChunksWriteBufferMin c)
                       (outOfMemoryParser c) (hardShutdown c)) p)
  end.

(** The call in [OpenLogReplicator::run], on the values of the memory
    section. *)
Definition initializeFrom (s : MemoryConfig.Settings) (p : Pool) : Initialized :=
  initialize (MemoryConfig.memoryMinMb s) (MemoryConfig.memoryMaxMb s)
             (MemoryConfig.memoryReadBufferMaxMb s) (MemoryConfig.memoryReadBufferMinMb s)
             (MemoryConfig.memorySwapMb s) (MemoryConfig.memoryUnswapBufferMinMb s)
             (MemoryConfig.memoryWriteBufferMaxMb s) (MemoryConfig.memoryWriteBufferMinMb s)
             p.

End Initialize.

(** A pool for closed examples: 8 chunks allocated of at most 64, 3 of
    them free, 4 kept as the minimum. *)
Definition sample : Pool :=
  mkPool (mkCtx 64 8 3 8
                (fun m => match m with BUILDER => 1 | PARSER => 2 | READER => 1
                                    | TRANSACTIONS => 1 end)
                (fun m => match m with BUILDER => 2 | PARSER => 3 | READER => 1
                                    | TRANSACTIONS => 2 end)
                1 1 16 1 false false)
         4 48 8 134217728 8 false.

End Pool.

(* --------------------------------------------------------------------- *)
(** ** What the memory section hands to Ctx::initialize                   *)
(* --------------------------------------------------------------------- *)

Module MemoryRules.

Import MemoryConfig.

(** The five values of the memory section that its last check and
    [Ctx::initialize] relate: the minimum, the maximum, and the three
    buffer minima. *)
Definition core (c : Settings) : Z * Z * Z * Z * Z :=
  (memoryMinMb c, memoryMaxMb c, memoryUnswapBufferMinMb c,
   memoryReadBufferMinMb c, memoryWriteBufferMinMb c).

(** The object under "memory", or an empty object when the source has
    none. *)
Definition memoryObject (sourceJson : Json.Value) : Json.Value :=
  match Json.lookup (Json.members sourceJson) "memory" with
  | Some v => v
  | None => Json.JObject []
  end.

(** A source whose memory section gives "min-mb" and "max-mb". *)
Definition minAndMax (minMb maxMb : Z) : Json.Value :=
  Json.JObject [("memory"%string,
                 Json.JObject [("min-mb"%string, Json.JNumber minMb);
                               ("max-mb"%string, Json.JNumber maxMb)])].

End MemoryRules.

(* --------------------------------------------------------------------- *)
(** ** Ctx::checkNameCase (common/Ctx.cpp)                                *)
(* --------------------------------------------------------------------- *)

Module NameCase.

Definition tooLong : Exception :=
  mkException DataException 20004 "identifier is too long".

Section CheckNameCase.

(** [islower] of <cctype>, which depends on the locale. *)
Variable islower : Z -> bool.

(** The loop [while (name[num] != 0) { ... ++num; }] on the memory
    from [name + num] on.  The memory is a string; a NUL character in it,
    or its end, is the terminator. *)
Fixpoint checkFrom (memory : string) (num : Z) : Result bool :=
  match memory with
  | EmptyString => Ok true
  | String c rest =>
      if byte_of c =? 0 then Ok true
      else if islower (byte_of c) then Ok false
      else if num =? 1024 then Throw tooLong
      else checkFrom rest (wrap64 (num + 1))
  end.

Definition checkNameCase (name : string) : Result bool := checkFrom name 0.

End CheckNameCase.

(** The characters of a C string: those before the first NUL. *)
Fixpoint cString (memory : string) : list Z :=
  match memory with
  | EmptyString => []
  | String c rest => if byte_of c =? 0 then [] else byte_of c :: cString rest
  end.

(** [islower] in the "C" locale. *)
Definition islowerC (c : Z) : bool := (97 <=? c) && (c <=? 122).

End NameCase.

(* --------------------------------------------------------------------- *)
(** ** The offsets "+HH:MM" and "-HH:MM"                                   *)
(* --------------------------------------------------------------------- *)

Module TimezoneForms.

(** The string [sign a b : c d] for four decimal digits. *)
Definition offsetString (sign : ascii) (a b c d : Z) : string :=
  String sign
    (String (Render.digitChar a)
       (String (Render.digitChar b)
          (String ":"%char
             (String (Render.digitChar c)
                (String (Render.digitChar d) EmptyString))))).

(** [parseTimezone] accepts [s] and [timezoneToString] prints [s] again. *)
Definition roundTrips (s : string) : bool :=
  fst (Timezone.parseTimezone s 0)
  && String.eqb (Timezone.timezoneToString Render.digitChar
                   (snd (Timezone.parseTimezone s 0))) s.

(** A whole number of hours below ten, other than "-00:00". *)
Definition wholeHour (sign : ascii) (a b c d : Z) : bool :=
  (a =? 0) && (c =? 0) && (d =? 0) && (negb (Ascii.eqb sign "-") || (1 <=? b)).

Definition decimalDigits : list Z := [0; 1; 2; 3; 4; 5; 6; 7; 8; 9].

End TimezoneForms.

(* --------------------------------------------------------------------- *)
(** ** The text of a JSON string, to read what the escapers emit          *)
(* --------------------------------------------------------------------- *)

Module EscapeForms.

(** The characters that may follow a backslash, [u] apart. *)
Definition isShortEscape (e : ascii) : bool :=
  Ascii.eqb e QUOTE || Ascii.eqb e BACKSLASH || Ascii.eqb e SLASH
  || Ascii.eqb e "b" || Ascii.eqb e "f" || Ascii.eqb e "n" || Ascii.eqb e "r"
  || Ascii.eqb e "t".

Definition isHexDigit (c : ascii) : bool :=
  let b := byte_of c in
  ((48 <=? b) && (b <=? 57)) || ((97 <=? b) && (b <=? 102)) || ((65 <=? b) && (b <=? 70)).

(** The characters between the quotes of a JSON string: a character from
    0x20 up other than the quote and the backslash, or a backslash followed
    by a short escape or by [u] and four hexadecimal digits. *)
Fixpoint jsonBody (cs : list ascii) : bool :=
  match cs with
  | [] => true
  | c :: rest =>
      if Ascii.eqb c BACKSLASH then
        match rest with
        | [] => false
        | e :: rest1 =>
            if isShortEscape e then jsonBody rest1
            else if Ascii.eqb e "u" then
              match rest1 with
              | h1 :: h2 :: h3 :: h4 :: rest2 =>
                  isHexDigit h1 && isHexDigit h2 && isHexDigit h3 && isHexDigit h4
                  && jsonBody rest2
              | _ => false
              end
            else false
        end
      else (32 <=? byte_of c) && negb (Ascii.eqb c QUOTE) && jsonBody rest
  end.

(** The first index from [k], among [count], that [table] sends to [ch]. *)
Fixpoint unmapFrom (table : Z -> ascii) (count : nat) (k : Z) (ch : ascii) : Z :=
  match count with
  | O => 0
  | S n => if Ascii.eqb (table k) ch then k else unmapFrom table n (k + 1) ch
  end.

(** Reads back one character from the front of an escaped text whose
    [\u00] escapes hold two digits of [table] in base [base]. *)
Definition readToken (base : Z) (table : Z -> ascii) (cs : list ascii)
  : option (ascii * list ascii) :=
  match cs with
  | [] => None
  | c :: rest =>
      if Ascii.eqb c BACKSLASH then
        match rest with
        | [] => None
        | e :: rest1 =>
            if Ascii.eqb e "t" then Some (TAB, rest1)
            else if Ascii.eqb e "r" then Some (CR, rest1)
            else if Ascii.eqb e "n" then Some (LF, rest1)
            else if Ascii.eqb e "b" then Some (BS, rest1)
            else if Ascii.eqb e "f" then Some (FF, rest1)
            else if Ascii.eqb e "u" then
              match rest1 with
              | _ :: _ :: h :: l :: rest2 =>
                  let hi := unmapFrom table (Z.to_nat base) 0 h in
                  let lo := unmapFrom table (Z.to_nat base) 0 l in
                  Some (ascii_of_N (Z.to_N ((base * hi + lo) mod 256)), rest2)
              | _ => None
              end
            else Some (e, rest1)
        end
      else Some (c, rest)
  end.

End EscapeForms.

(* --------------------------------------------------------------------- *)
(** ** The message in progress, seen from the queue                       *)
(* --------------------------------------------------------------------- *)

Module QueueForms.

Import Queue.

(** The message in progress lies in a node of the list. *)
Definition placed (b : Builder) : Prop :=
  exists qid off q, msg b = Some (qid, off) /\ findQueue b qid = Some q.

(** The [BuilderMsg] at offset [off] of the node [qid]. *)
Definition msgAt (b : Builder) (qid off : Z) : option BuilderMsg :=
  match findQueue b qid with
  | Some q => q_msgs q off
  | None => None
  end.

(** Between two messages: the last node is filled up to a multiple of 8
    that is at most the size [dataSize] of its data area. *)
Definition between (dataSize : Z) (b : Builder) : Prop :=
  0 <= q_size (lastBuilderQueue b) <= dataSize
  /\ q_size (lastBuilderQueue b) mod 8 = 0.

(** While a message is written: the place of the next byte,
    [lastBuilderQueue->size + messagePosition], lies in the data area of
    the last node; [limit] is the value of [writeBufferLimit]. *)
Definition inProgress (dataSize limit : Z) (b : Builder) : Prop :=
  0 <= q_size (lastBuilderQueue b)
  /\ q_size (lastBuilderQueue b) mod 8 = 0
  /\ 0 <= messagePosition b
  /\ q_size (lastBuilderQueue b) + messagePosition b < dataSize
  /\ 0 <= messageSize b <= limit + dataSize.

End QueueForms.

(* --------------------------------------------------------------------- *)
(** ** The calls of a reload that goes through                            *)
(* --------------------------------------------------------------------- *)

Module ReloadForms.

Import Json Reload.

(** The calls that add to the element list or complete an element. *)
Definition elementCall (c : MetaCall) : bool :=
  match c with
  | AddElement _ _ _ | ParseKey _ _ | SetCondition _ | ParseTag _ _ => true
  | _ => false
  end.

(** The calls of the block that suspends transaction processing. *)
Definition applied : list MetaCall :=
  [CommitElements; PurgeMetadata; TouchTables; BuildMaps; ResetTouched].

(** The statement sequence [m] writes no error line, keeps
    [configFileChange] and [configFileBuffer], and makes only calls that
    satisfy [P] on the metadata, whether it returns or throws. *)
Definition emits {A : Type} (P : MetaCall -> bool) (m : M A) : Prop :=
  forall st r st',
    m st = (r, st') ->
    errors st' = errors st
    /\ configFileChange st' = configFileChange st
    /\ configFileBuffer st' = configFileBuffer st
    /\ exists new, calls st' = calls st ++ new /\ forallb P new = true.

(** Closed examples: a file with one table of the user the metadata holds. *)
Definition oneTable : Value :=
  JObject
    [("version"%string, JString "1.6.0");
     ("source"%string,
      JArray
        [JObject
           [("filter"%string,
             JObject
               [("table"%string,
                 JArray [JObject [("owner"%string, JString "APP");
                                  ("table"%string, JString "ORDERS");
                                  ("key"%string, JString "ID")]])])]])].
Definition editedFile : Env :=
  mkEnv (Some (1700000100, 64)) true 64 (Some oneTable) true false false ["APP"%string].

(** The state [trackConfigFile] leaves on [editedFile], started on [running]. *)
Definition reloaded : State :=
  match trackConfigFile sampleConstants editedFile running with
  | Ok st => st
  | Throw _ => running
  end.

End ReloadForms.

(* --------------------------------------------------------------------- *)
(** ** OpenLogReplicator::mainProcessMapping (OpenLogReplicator.cpp)      *)
(* --------------------------------------------------------------------- *)

Module PathMapping.

Import Json.
Local Open Scope result_scope.

(** [Ctx::getJsonFieldS(fileName, maxLength, value, field, num)], the
    overload that takes the element [value[num]] of an array. *)
Definition elementS (maxLength : Z) (item : Value) : Result string :=
  match item with
  | JString s =>
      if Z.of_nat (String.length s) >? maxLength
      then Throw (parseError "parse error, field[num] is too long")
      else Ok s
  | _ => Throw (parseError "parse error, field[num] is not a string")
  end.

Definition oddMapping : Exception :=
  mkException ConfigurationException 30001
    "bad JSON, invalid path-mapping value, expected: even number of elements".

Section Mapping.

(** [Ctx::MAX_PATH_LENGTH], a constant of Ctx.h. *)
Variable MAX_PATH_LENGTH : Z.

(** The loop [for (k = 0; k < Size() / 2; ++k)], [count] turns from [k]
    on; [mappings] are the calls of [replicator->addPathMapping] made so
    far.  The indices [k * 2] and [k * 2 + 1] are below [Size()] in every
    turn; [JNull] stands for an element outside the array, which is not
    read. *)
Fixpoint mappingLoop (items : list Value) (count k : nat) (mappings : list (string * string))
  : Result (list (string * string)) :=
  match count with
  | O => Ok mappings
  | S n =>
      sourceMapping <- elementS MAX_PATH_LENGTH (nth (k * 2) items JNull) ;;
      targetMapping <- elementS MAX_PATH_LENGTH (nth (k * 2 + 1) items JNull) ;;
      mappingLoop items n (S k) (mappings ++ [(sourceMapping, targetMapping)])
  end.

(** The calls of [addPathMapping] the function makes, in order. *)
Definition mainProcessMapping (readerJson : Value) : Result (list (string * string)) :=
  if HasMember readerJson "path-mapping" then
    pathMappingArrayJson <- getJsonFieldA readerJson "path-mapping" ;;
    if negb (Z.of_nat (List.length pathMappingArrayJson) mod 2 =? 0)
    then Throw oddMapping
    else mappingLoop pathMappingArrayJson (Nat.div (List.length pathMappingArrayJson) 2) 0 []
  else Ok [].

End Mapping.

(** The elements a list of mappings was read from. *)
Definition flatten (mappings : list (string * string)) : list Value :=
  flat_map (fun p => [JString (fst p); JString (snd p)]) mappings.

Definition twoMappings : Value :=
  JObject [("path-mapping"%string,
            JArray [JString "/db/fra"; JString "/opt/fra";
                    JString "/db/redo"; JString "/opt/redo"])].

End PathMapping.

(* --------------------------------------------------------------------- *)
(** ** The column values of a row                                         *)
(**    Builder::valueSet, Builder::valuesRelease (builder/Builder.h)       *)
(* --------------------------------------------------------------------- *)

Module Values.

Inductive VALUE_TYPE : Type := BEFORE | AFTER | BEFORE_SUPP | AFTER_SUPP.

Definition VALUE_TYPE_eqb (a b : VALUE_TYPE) : bool :=
  match a, b with
  | BEFORE, BEFORE | AFTER, AFTER | BEFORE_SUPP, BEFORE_SUPP | AFTER_SUPP, AFTER_SUPP => true
  | _, _ => false
  end.

(** The fields of [Builder] the two functions use.  A pointer is an
    address, 0 for [nullptr]; [dmlLines] counts the lines [valueSet] hands
    to [ctx->info]. *)
Record Values : Type := mkValues {
  valuesSet : Z -> Z;
  valuesMerge : Z -> Z;
  sizes : Z -> VALUE_TYPE -> Z;
  values : Z -> VALUE_TYPE -> Z;
  sizesPart : Z -> Z -> VALUE_TYPE -> Z;
  valuesPart : Z -> Z -> VALUE_TYPE -> Z;
  valuesMax : Z;
  mergesMax : Z;
  compressedBefore : bool;
  compressedAfter : bool;
  dmlLines : Z
}.

Definition setWord (f : Z -> Z) (base word : Z) : Z -> Z :=
  fun b => if b =? base then word else f b.
Definition setCell (f : Z -> VALUE_TYPE -> Z) (column : Z) (type : VALUE_TYPE) (x : Z)
  : Z -> VALUE_TYPE -> Z :=
  fun c t => if (c =? column) && VALUE_TYPE_eqb t type then x else f c t.
Definition setPart (f : Z -> Z -> VALUE_TYPE -> Z) (part column : Z) (type : VALUE_TYPE)
    (x : Z) : Z -> Z -> VALUE_TYPE -> Z :=
  fun p c t => if (p =? part) && (c =? column) && VALUE_TYPE_eqb t type then x else f p c t.

(** [valuesSet[base] &= ~mask] and the four [values[column][...] = nullptr]. *)
Definition clearColumn (base mask column : Z) (v : Values) : Values :=
  mkValues (setWord (valuesSet v) base (Z.land (valuesSet v base) (wrap64 (Z.lnot mask))))
           (valuesMerge v) (sizes v)
           (setCell (setCell (setCell (setCell (values v) column BEFORE 0)
                                      column BEFORE_SUPP 0) column AFTER 0)
                    column AFTER_SUPP 0)
           (sizesPart v) (valuesPart v) (valuesMax v) (mergesMax v)
           (compressedBefore v) (compressedAfter v) (dmlLines v).

(** The loop [for (mask = 1; mask != 0; mask <<= 1, ++column)] of
    [valuesRelease], from the values [mask] and [column] on.  [mask] takes
    the 64 powers of two and then 0, so 65 tests of [mask != 0] end it. *)
Fixpoint releaseMasks (fuel : nat) (base mask column : Z) (v : Values) : Values :=
  match fuel with
  | O => v
  | S n =>
      if mask =? 0 then v
      else if valuesSet v base <? mask then v
      else if Z.land (valuesSet v base) mask =? 0
           then releaseMasks n base (wrap64 (Z.shiftl mask 1)) (column + 1) v
           else releaseMasks n base (wrap64 (Z.shiftl mask 1)) (column + 1)
                  (clearColumn base mask column v)
  end.

(** The loop [for (base = 0; base <= baseMax; ++base)], [count] turns from
    [base] on. *)
Fixpoint releaseBases (base : Z) (v : Values) (count : nat) : Values :=
  match count with
  | O => v
  | S n => releaseBases (base + 1) (releaseMasks 65 base 1 (wrap64 (Z.shiftl base 6)) v) n
  end.

(** [valuesRelease()].  The arrays [merges[i]] it deletes are not
    modelled; [column], of type [typeCol], is taken not to wrap. *)
Definition valuesRelease (v : Values) : Values :=
  let baseMax := Z.shiftr (valuesMax v) 6 in
  let v := releaseBases 0 v (Z.to_nat (baseMax + 1)) in
  mkValues (valuesSet v) (valuesMerge v) (sizes v) (values v) (sizesPart v) (valuesPart v)
           0 0 false false (dmlLines v).

Section ValueSet.

(** [RedoLogRecord::FB_P] and [RedoLogRecord::FB_N], constants of a header
    that is not part of the sources, and [ctx->trace & Ctx::TRACE::DML]. *)
Variable FB_P : Z.
Variable FB_N : Z.
Variable traceDml : bool.

Definition markMerge (base mask : Z) (f : Z -> Z) : Z -> Z :=
  if Z.land (f base) mask =? 0 then setWord f base (Z.lor (f base) mask) else f.

(** [valueSet(type, column, data, size, fb, dump)], [column] a 16-bit
    unsigned number.  The cases of the [switch] are tried in the order of
    the source. *)
Definition valueSet (type : VALUE_TYPE) (column data size fb : Z) (dump : bool) (v : Values)
  : Values :=
  let lines := if traceDml || dump then dmlLines v + 1 else dmlLines v in
  let base := Z.shiftr column 6 in
  let mask := wrap64 (Z.shiftl 1 (Z.land column 63)) in
  let set := if Z.land (valuesSet v base) mask =? 0
             then setWord (valuesSet v) base (Z.lor (valuesSet v base) mask)
             else valuesSet v in
  let max := if column >=? valuesMax v then column + 1 else valuesMax v in
  let kind := Z.land fb (Z.lor FB_P FB_N) in
  if kind =? 0 then
    mkValues set (valuesMerge v) (setCell (sizes v) column type size)
             (setCell (values v) column type data) (sizesPart v) (valuesPart v)
             max (mergesMax v) (compressedBefore v) (compressedAfter v) lines
  else if kind =? FB_N then
    mkValues set (markMerge base mask (valuesMerge v)) (sizes v) (values v)
             (setPart (sizesPart v) 0 column type size)
             (setPart (valuesPart v) 0 column type data)
             max (mergesMax v) (compressedBefore v) (compressedAfter v) lines
  else if kind =? Z.lor FB_P FB_N then
    mkValues set (markMerge base mask (valuesMerge v)) (sizes v) (values v)
             (setPart (sizesPart v) 1 column type size)
             (setPart (valuesPart v) 1 column type data)
             max (mergesMax v) (compressedBefore v) (compressedAfter v) lines
  else if kind =? FB_P then
    mkValues set (markMerge base mask (valuesMerge v)) (sizes v) (values v)
             (setPart (sizesPart v) 2 column type size)
             (setPart (valuesPart v) 2 column type data)
             max (mergesMax v) (compressedBefore v) (compressedAfter v) lines
  else
    mkValues set (valuesMerge v) (sizes v) (values v) (sizesPart v) (valuesPart v)
             max (mergesMax v) (compressedBefore v) (compressedAfter v) lines.

End ValueSet.

(** The bit of [column] in [valuesSet]. *)
Definition marked (v : Values) (column : Z) : bool :=
  Z.testbit (valuesSet v (Z.shiftr column 6)) (Z.land column 63).

(** The words of [valuesSet] and [valuesMax] are 64-bit numbers, and every
    marked column is below [valuesMax]. *)
Definition wellFormed (v : Values) : Prop :=
  (forall base, 0 <= valuesSet v base < 18446744073709551616)
  /\ 0 <= valuesMax v < 18446744073709551616
  /\ forall column, 0 <= column -> marked v column = true -> column < valuesMax v.

(** What neither the release of the values nor the marking of a column
    changes. *)
Definition untouched (v v' : Values) : Prop :=
  valuesMerge v' = valuesMerge v
  /\ sizes v' = sizes v
  /\ sizesPart v' = sizesPart v
  /\ valuesPart v' = valuesPart v
  /\ dmlLines v' = dmlLines v.

(** A state with no column marked. *)
Definition released : Values :=
  mkValues (fun _ => 0) (fun _ => 0) (fun _ _ => 0) (fun _ _ => 0)
           (fun _ _ _ => 0) (fun _ _ _ => 0) 0 0 false false 0.

End Values.

(* ===================================================================== *)
(** * Part II.  Properties                                                *)
(* ===================================================================== *)

(** [lia] reads [/] and [mod] through their defining equations. *)
Ltac Zify.zify_post_hook ::= Z.div_mod_to_equations.

Section TimezoneFacts.

Import Timezone.

Variable map10 : Z -> ascii.

(** The offsets the parser computes for the six-character form: the tens
    digit of the hour enters negated, and the two minute digits are
    weighted 60 and 1. *)
Lemma parseOffset_six (h1 h2 m1 m2 : ascii) (sign : ascii) :
  isDigit (byte_of h1) = true -> isDigit (byte_of h2) = true ->
  isDigit (byte_of m1) = true -> isDigit (byte_of m2) = true ->
  parseOffset (String sign (String h1 (String h2 (String ":"%char
                 (String m1 (String m2 EmptyString))))))
  = Some ((- (byte_of h1 - 48)) * 36000 + (byte_of h2 - 48) * 3600
          + (byte_of m1 - 48) * 60 + (byte_of m2 - 48)).
Proof.
  intros H1 H2 H3 H4. unfold parseOffset. cbn [String.length Z.of_nat].
  change (Z.of_nat 6 =? 5) with false. change (Z.of_nat 6 =? 6) with true.
  cbv beta iota zeta.
  unfold charAt. cbn [String.get Nat.eqb].
  rewrite H1, H2, H3, H4. reflexivity.
Qed.

(** C9 (code defect).  The round trip parse-then-print is not the identity
    on well-formed offsets.  For "+10:00" the parser returns -36000 seconds
    and the printer yields a string that starts with '-'; for "+05:30" the
    parser returns 18180 seconds (5 h 3 min) and the printer yields the
    digits 0 5 : 0 3. *)
Theorem timezone_roundtrip_breaks :
  parseTimezone "+10:00" 0 = (true, -36000) /\
  timezoneToString map10 (-36000)
  = String "-"%char (String (map10 1) (String (map10 0) (String ":"%char
      (String (map10 0) (String (map10 0) EmptyString))))) /\
  String.eqb (timezoneToString map10 (snd (parseTimezone "+10:00" 0))) "+10:00" = false /\
  parseTimezone "+05:30" 0 = (true, 18180) /\
  timezoneToString map10 18180
  = String "+"%char (String (map10 0) (String (map10 5) (String ":"%char
      (String (map10 0) (String (map10 3) EmptyString))))).
Proof.
  repeat split; reflexivity.
Qed.

End TimezoneFacts.

Section EscapeFacts.

Import Escape.

Lemma commonChar_same_output (sgn : bool) (map16 map10 : Z -> ascii) (c : ascii) :
  commonChar c = true ->
  writeEscapeChar sgn map16 c = appendEscapeChar sgn map10 c.
Proof.
  destruct sgn;
    destruct c as [[] [] [] [] [] [] [] []];
    intro H; try discriminate H; reflexivity.
Qed.

(** C10 (amended).  On every string made of the five named control
    characters, the double quote, the backslash and the printable 7-bit
    characters other than the slash, the two escapers emit the same
    characters, whatever the signedness of [char] and the digit tables. *)
Theorem escapers_agree_on_common (sgn : bool) (map16 map10 : Z -> ascii) (str : string) :
  commonString str = true ->
  writeEscapeValue sgn map16 str = appendEscape sgn map10 str.
Proof.
  induction str as [| c rest IH]; intro H.
  - reflexivity.
  - cbn [commonString] in H. apply andb_true_iff in H. destruct H as [Hc Hr].
    cbn [writeEscapeValue appendEscape].
    rewrite (commonChar_same_output sgn map16 map10 c Hc), (IH Hr).
    reflexivity.
Qed.

Lemma escapers_agree_on_common_witness :
  writeEscapeValue true (fun _ => "0"%char)
    (String "a"%char (String QUOTE (String TAB (String BACKSLASH EmptyString))))
  = appendEscape true (fun _ => "0"%char)
    (String "a"%char (String QUOTE (String TAB (String BACKSLASH EmptyString)))).
Proof.
  apply (escapers_agree_on_common true (fun _ => "0"%char) (fun _ => "0"%char)).
  reflexivity.
Defined.

(** C10 (counterexample).  On the one-character string "/" the stream
    escaper emits the slash alone and the builder escaper emits a backslash
    and the slash. *)
Lemma escapers_differ_on_slash :
  (forall sgn map16, writeEscapeValue sgn map16 "/" = [SLASH]) /\
  (forall sgn map10, appendEscape sgn map10 "/" = [BACKSLASH; SLASH]).
Proof.
  split; intros [] ?; reflexivity.
Qed.

(** The two escapers also differ on control bytes without a short form:
    the stream escaper prints two hexadecimal digits, the builder escaper
    two decimal digits. *)
Example escapers_on_unit_separator (sgn : bool) (map16 map10 : Z -> ascii) :
  writeEscapeValue sgn map16 (String "031"%char EmptyString)
  = [BACKSLASH; "u"; "0"; "0"; map16 1; map16 15]%char /\
  appendEscape sgn map10 (String "031"%char EmptyString)
  = [BACKSLASH; "u"; "0"; "0"; map10 3; map10 1]%char.
Proof.
  destruct sgn; split; reflexivity.
Qed.

End EscapeFacts.

Section NumberFacts.

Import Number.

Variable map10 : Z -> ascii.

Example parseNumberAppends_123 :
  parseNumberAppends map10 (arrayOf [Byte.xc2; Byte.x02; Byte.x18]) 3
  = Ok [map10 1; map10 2; map10 3].
Proof. reflexivity. Qed.

Example parseNumberAppends_neg_1_5 :
  parseNumberAppends map10 (arrayOf [Byte.x3e; Byte.x64; Byte.x33; Byte.x66]) 4
  = Ok ["-"%char; map10 1; "."%char; map10 5].
Proof. reflexivity. Qed.

Example parseNumberAppends_0_001 :
  parseNumberAppends map10 (arrayOf [Byte.xbf; Byte.x0b]) 2
  = Ok ["0"; "."; "0"; "0"; map10 1]%char.
Proof. reflexivity. Qed.

Variable data : Z -> Byte.byte.

Local Abbreviation byteAt := (Number.byteAt data).
Local Abbreviation bytesFrom := (Number.bytesFrom data).
Local Abbreviation twoDigits := (Number.twoDigits map10).

Lemma wrap64_small (z : Z) : 0 <= z < 18446744073709551616 -> wrap64 z = z.
Proof. intro H. unfold wrap64. apply Z.mod_small. exact H. Qed.

Lemma byteAt_range (i : Z) : 0 <= byteAt i < 256.
Proof.
  unfold Number.byteAt. pose proof (Byte.to_N_bounded (data i)) as H. lia.
Qed.

Lemma zeroPairs_S (n : nat) : zeroPairs (S n) = ["0"; "0"]%char ++ zeroPairs n.
Proof. reflexivity. Qed.

Lemma zerosLoop_spec (n : nat) : forall buf, zerosLoop n buf = buf ++ zeroPairs n.
Proof.
  induction n as [| n IH]; intro buf.
  - cbn. now rewrite app_nil_r.
  - cbn [zerosLoop]. rewrite IH, zeroPairs_S, <- app_assoc. reflexivity.
Qed.

Lemma bytesFrom_snoc (n : nat) : forall j,
  bytesFrom j (S n) = bytesFrom j n ++ [byteAt (j + Z.of_nat n)].
Proof.
  induction n as [| n IH]; intro j.
  - cbn. now rewrite Z.add_0_r.
  - change (bytesFrom j (S (S n))) with (byteAt j :: bytesFrom (j + 1) (S n)).
    rewrite IH. cbn [Number.bytesFrom app].
    replace (j + Z.of_nat (S n)) with (j + 1 + Z.of_nat n) by lia. reflexivity.
Qed.

Lemma bytesFrom_length (n : nat) : forall j, List.length (bytesFrom j n) = n.
Proof. induction n as [| n IH]; intro j; cbn; [reflexivity | now rewrite IH]. Qed.

Lemma bytesFrom_skipn (k : nat) : forall n j,
  skipn k (bytesFrom j n) = bytesFrom (j + Z.of_nat (Nat.min k n)) (n - k).
Proof.
  induction k as [| k IH]; intros n j.
  - cbn. rewrite Z.add_0_r, Nat.sub_0_r. reflexivity.
  - destruct n as [| n].
    + cbn. reflexivity.
    + cbn [Number.bytesFrom skipn Nat.sub Nat.min]. rewrite IH. f_equal. lia.
Qed.

Lemma fractionPairs_snoc (ps : list Z) (p : Z) :
  fractionPairs map10 (ps ++ [p]) = flat_map twoDigits ps ++ lastPair map10 p.
Proof.
  induction ps as [| a ps IH].
  - reflexivity.
  - destruct ps as [| b ps].
    + reflexivity.
    + change (fractionPairs map10 ((a :: b :: ps) ++ [p]))
        with (twoDigits a ++ fractionPairs map10 ((b :: ps) ++ [p])).
      rewrite IH. cbn [flat_map]. now rewrite <- app_assoc.
Qed.

(** The fraction loop stops at [jMax] by its own condition, for every
    [fuel] that covers the remaining bytes. *)
Lemma fractionLoop_exact (pairOf : Z -> Z) (n : nat) : forall fuel j buf,
  (n <= fuel)%nat -> 1 <= j -> j + Z.of_nat n < 18446744073709551616 ->
  fractionLoop map10 data pairOf fuel j (j + Z.of_nat n) buf
  = (j + Z.of_nat n, buf ++ flat_map twoDigits (map pairOf (bytesFrom j n))).
Proof.
  induction n as [| n IH]; intros fuel j buf Hf Hj Hw.
  - cbn [Z.of_nat]. rewrite Z.add_0_r. cbn [Number.bytesFrom map flat_map].
    rewrite app_nil_r. destruct fuel as [| f]; [reflexivity |].
    cbn [fractionLoop]. rewrite wrap64_small by lia.
    destruct (Z.leb_spec j (j - 1)); [lia | reflexivity].
  - destruct fuel as [| f]; [lia |].
    cbn [fractionLoop]. rewrite !wrap64_small by lia.
    destruct (Z.leb_spec j (j + Z.of_nat (S n) - 1)); [| lia].
    replace (j + Z.of_nat (S n)) with ((j + 1) + Z.of_nat n) by lia.
    rewrite IH by lia.
    cbn [Number.bytesFrom map flat_map]. now rewrite <- app_assoc.
Qed.

Lemma fractionPart_spec (pairOf : Z -> Z) (j jMax zeros : Z) (buf : list ascii) :
  1 <= j -> jMax < 18446744073709551616 ->
  fractionPart map10 data pairOf j jMax zeros buf
  = buf ++ renderFraction map10 (Z.to_nat zeros)
             (map pairOf (bytesFrom j (Z.to_nat (jMax - j + 1)))).
Proof.
  intros Hj Hw. unfold fractionPart.
  destruct (Z.leb_spec j jMax) as [Hle | Hgt].
  - replace (Z.to_nat (jMax - j + 1)) with (S (Z.to_nat (jMax - j))) by lia.
    rewrite bytesFrom_snoc, map_app. cbn [map].
    rewrite Z2Nat.id by lia. replace (j + (jMax - j)) with jMax by lia.
    rewrite zerosLoop_spec.
    replace jMax with (j + Z.of_nat (Z.to_nat (jMax - j))) at 2 by lia.
    rewrite fractionLoop_exact by lia.
    replace (j + Z.of_nat (Z.to_nat (jMax - j))) with jMax by lia.
    set (ps := map pairOf (bytesFrom j (Z.to_nat (jMax - j)))).
    set (p := pairOf (byteAt jMax)).
    assert (Hr : renderFraction map10 (Z.to_nat zeros) (ps ++ [p])
                 = "."%char :: zeroPairs (Z.to_nat zeros)
                   ++ flat_map twoDigits ps ++ lastPair map10 p).
    { unfold renderFraction. rewrite fractionPairs_snoc.
      destruct ps; reflexivity. }
    rewrite Hr. unfold lastPair.
    destruct (p mod 10 =? 0); cbn [negb];
      repeat rewrite <- app_assoc; reflexivity.
  - replace (Z.to_nat (jMax - j + 1)) with 0%nat by lia.
    cbn. now rewrite app_nil_r.
Qed.

Lemma integerLoop_spec (pairOf : Z -> Z) (jMax : Z) (d : nat) : forall j buf,
  1 <= j <= jMax + 1 -> jMax + 1 < 18446744073709551616 ->
  integerLoop map10 data pairOf d j jMax buf
  = (j + Z.of_nat (Nat.min d (Z.to_nat (jMax - j + 1))),
     buf ++ flat_map twoDigits
              (map pairOf (firstn d (bytesFrom j (Z.to_nat (jMax - j + 1)))))
         ++ zeroPairs (d - Z.to_nat (jMax - j + 1))).
Proof.
  induction d as [| d IH]; intros j buf Hj Hw.
  - cbn. rewrite Z.add_0_r, app_nil_r. reflexivity.
  - cbn [integerLoop].
    destruct (Z.leb_spec j jMax) as [Hle | Hgt].
    + rewrite wrap64_small by lia. rewrite IH by lia.
      replace (Z.to_nat (jMax - j + 1)) with (S (Z.to_nat (jMax - (j + 1) + 1))) by lia.
      cbn [Number.bytesFrom firstn map flat_map Nat.min Nat.sub].
      rewrite <- !app_assoc. f_equal. lia.
    + rewrite IH by lia.
      replace (Z.to_nat (jMax - j + 1)) with 0%nat by lia.
      cbn [Number.bytesFrom firstn map flat_map Nat.min Nat.sub app].
      rewrite firstn_nil. cbn [map flat_map app].
      rewrite Nat.min_0_r, Nat.sub_0_r, zeroPairs_S, <- app_assoc.
      reflexivity.
Qed.

(** The total and the fraction after it, as the code computes them from
    the first pair on, are the decimal with [c >= 1] pre-decimal pairs. *)
Lemma total_block {R : Type} (K : list ascii -> R)
      (pairOf : Z -> Z) (pre : list ascii) (jMax c : Z) :
  1 <= jMax -> jMax + 1 < 18446744073709551616 -> 1 <= c ->
  (let '(j, buf) :=
     integerLoop map10 data pairOf (Z.to_nat (c - 1)) 2 jMax
       (pre ++ leadingDigits map10 (pairOf (byteAt 1))) in
   K (fractionPart map10 data pairOf j jMax 0 buf))
  = K (pre ++ renderDecimal map10 c (map pairOf (bytesFrom 1 (Z.to_nat jMax)))).
Proof.
  intros Hj Hw Hc. f_equal.
  rewrite integerLoop_spec by lia.
  rewrite fractionPart_spec by lia.
  unfold renderDecimal. destruct (Z.leb_spec c 0); [lia |].
  set (k := Z.to_nat (c - 1)).
  set (n2 := Z.to_nat (jMax - 2 + 1)).
  replace (Z.to_nat c) with (S k) by lia.
  replace (Z.to_nat jMax) with (S n2) by lia.
  cbn [Number.bytesFrom map skipn]. change (1 + 1) with 2.
  unfold renderInteger. cbn [firstn].
  rewrite firstn_map, skipn_map, bytesFrom_skipn.
  rewrite length_map, length_firstn, bytesFrom_length.
  replace (S k - S (Nat.min k n2))%nat with (k - n2)%nat by lia.
  replace (Z.to_nat (jMax - (2 + Z.of_nat (Nat.min k n2)) + 1)) with (n2 - k)%nat by lia.
  change (Z.to_nat 0) with 0%nat.
  repeat rewrite <- app_assoc. reflexivity.
Qed.

Lemma stripTerminator_bytes (jMax : Z) :
  1 <= jMax ->
  stripTerminator (bytesFrom 1 (Z.to_nat jMax))
  = bytesFrom 1 (Z.to_nat (if byteAt jMax =? 102 then jMax - 1 else jMax)).
Proof.
  intro Hj. unfold stripTerminator.
  assert (E : bytesFrom 1 (Z.to_nat jMax)
              = bytesFrom 1 (Z.to_nat (jMax - 1)) ++ [byteAt jMax]).
  { replace (Z.to_nat jMax) with (S (Z.to_nat (jMax - 1))) by lia.
    rewrite bytesFrom_snoc.
    replace (1 + Z.of_nat (Z.to_nat (jMax - 1))) with jMax by lia.
    reflexivity. }
  rewrite E, last_last, removelast_last.
  destruct (byteAt jMax =? 102); [reflexivity | now rewrite E].
Qed.

(** The characters [parseNumber] appends are those of the on-wire format
    as the specification words it, for every array of at least one byte
    other than a first byte below 0x3F followed by the terminator 0x66
    alone. *)
Lemma parseNumberAppends_format (size : Z) :
  1 <= size ->
  size * 2 + 2 <= VALUE_BUFFER_MAX ->
  terminatorOnly data size = false ->
  parseNumberAppends map10 data size = decodeNumberSpec map10 data size.
Proof.
  unfold VALUE_BUFFER_MAX. intros Hs Hmax Hedge.
  unfold parseNumberAppends, decodeNumberSpec.
  rewrite !wrap64_small by lia.
  pose proof (byteAt_range 0) as HD.
  destruct (Z.eqb_spec (byteAt 0) 128) as [| Hne]; [reflexivity |].
  replace (size - 1 >=? 1) with (2 <=? size)
    by (destruct (Z.leb_spec 2 size), (Z.geb_spec (size - 1) 1); lia || reflexivity).
  destruct (Z.leb_spec 2 size) as [H2 | H2].
  - rewrite !andb_true_r.
    destruct (Z.gtb_spec (byteAt 0) 128) as [Hpos | Hnpos].
    + (* positive *)
      destruct (Z.leb_spec (byteAt 0) 192) as [Hfrac | Hint].
      * rewrite wrap64_small by lia. rewrite fractionPart_spec by lia.
        unfold renderDecimal. destruct (Z.leb_spec (byteAt 0 - 192) 0); [| lia].
        replace (- (byteAt 0 - 192)) with (192 - byteAt 0) by lia.
        replace (size - 1 - 1 + 1) with (size - 1) by lia.
        reflexivity.
      * unfold wrap8. rewrite wrap64_small by lia. change (1 + 1) with 2.
        replace (((byteAt 0 - 192) mod 256 - 1) mod 256)
          with (byteAt 0 - 192 - 1) by lia.
        apply (total_block Ok posPair [] (size - 1) (byteAt 0 - 192)); lia.
    + (* negative *)
      destruct (Z.ltb_spec (byteAt 0) 128) as [Hneg | ]; [| lia].
      rewrite stripTerminator_bytes by lia.
      rewrite (wrap64_small (size - 1 - 1)) by lia.
      set (jMax := if byteAt (size - 1) =? 102 then size - 1 - 1 else size - 1).
      assert (HjMax : 0 <= jMax <= size - 1)
        by (subst jMax; destruct (byteAt (size - 1) =? 102); lia).
      destruct (Z.geb_spec (byteAt 0) 63) as [Hfrac | Hint].
      * rewrite (wrap64_small (byteAt 0 - 63)) by lia.
        rewrite fractionPart_spec by lia.
        unfold renderDecimal. destruct (Z.leb_spec (63 - byteAt 0) 0); [| lia].
        replace (- (63 - byteAt 0)) with (byteAt 0 - 63) by lia.
        replace (jMax - 1 + 1) with jMax by lia.
        reflexivity.
      * unfold wrap8. rewrite wrap64_small by lia. change (1 + 1) with 2.
        replace (((63 - byteAt 0) mod 256 - 1) mod 256)
          with (63 - byteAt 0 - 1) by lia.
        assert (Hone : 1 <= jMax).
        { unfold terminatorOnly in Hedge. subst jMax.
          destruct (Z.ltb_spec (byteAt 0) 63); [| lia].
          destruct (Z.eqb_spec size 2) as [E2 | ];
            [| destruct (byteAt (size - 1) =? 102); lia].
          rewrite E2 in *. change (2 - 1) with 1 in *.
          cbn [andb] in Hedge. rewrite Hedge. lia. }
        apply (total_block Ok negPair ["-"%char] jMax (63 - byteAt 0)); lia.
  - rewrite !andb_false_r. reflexivity.
Qed.

Example decodeNumberSpec_123 :
  decodeNumberSpec map10 (arrayOf [Byte.xc2; Byte.x02; Byte.x18]) 3
  = Ok [map10 1; map10 2; map10 3].
Proof. reflexivity. Qed.

(** On a first byte below 0x3F followed by the terminator alone, the
    terminator is read as the first pair of the total: 101 - 0x66 wraps to
    2^64 - 1, and [map10] is applied to 1844674407370955161 and to 5. *)
Example parseNumberAppends_terminator_only :
  parseNumberAppends map10 (arrayOf [Byte.x3e; Byte.x66]) 2
  = Ok ["-"%char; map10 1844674407370955161; map10 5].
Proof. reflexivity. Qed.

End NumberFacts.

Section MemoryFacts.

Import Memory.

Lemma wontSwap_throws_iff (c : Ctx) :
  wontSwap c = Throw outOfMemory
  <-> outOfMemoryParser c = true
      /\ memoryModulesAllocated c BUILDER <= memoryChunksWriteBufferMin c.
Proof.
  unfold wontSwap.
  destruct (outOfMemoryParser c); cbn [negb].
  - destruct (Z.gtb_spec (memoryModulesAllocated c BUILDER) (memoryChunksWriteBufferMin c)).
    + split; [discriminate | lia].
    + split; [intros _; split; [reflexivity | lia] | reflexivity].
  - split; [discriminate | intros [H _]; discriminate H].
Qed.

Lemma wontSwap_returns_unchanged (c : Ctx) (r : Ctx) :
  wontSwap c = Ok r -> r = c.
Proof.
  unfold wontSwap.
  destruct (negb (outOfMemoryParser c)); [congruence |].
  destruct (_ >? _); [congruence | discriminate].
Qed.

(** C2 (amended).  When the loop of [getMemoryChunk] finds no chunk for the
    parser (the free chunks do not exceed [reservedChunks], which counts
    the unswap reserve only for [swap = false], and the allocated chunks
    have reached [memoryChunksMax]), it sets [outOfMemoryParser] and changes
    nothing else; the caller then waits on [condOutOfMemory], unless
    [hardShutdown] is set, in which case the call returns a null pointer.
    [wontSwap] throws RuntimeException 10017 exactly when the flag is set
    and the builder's allocation is at most [memoryChunksWriteBufferMin];
    whenever it returns, the state is the one it was called in. *)
Theorem parser_out_of_memory (c : Ctx) (swap allocOk : bool) :
  memoryChunksFree c <= reservedChunks c swap ->
  memoryChunksMax c <= memoryChunksAllocated c ->
  getMemoryChunk PARSER swap allocOk c
  = (if hardShutdown c
     then Null (setOutOfMemoryParser true c)
     else Suspended (setOutOfMemoryParser true c))
  /\ (wontSwap (setOutOfMemoryParser true c) = Throw outOfMemory
      <-> memoryModulesAllocated c BUILDER <= memoryChunksWriteBufferMin c)
  /\ (forall s, wontSwap s = Throw outOfMemory
                <-> outOfMemoryParser s = true
                    /\ memoryModulesAllocated s BUILDER <= memoryChunksWriteBufferMin s)
  /\ (forall s r, wontSwap s = Ok r -> r = s)
  /\ (forall s, exists r, wontSwap s = r /\ (r = Ok s \/ r = Throw outOfMemory)).
Proof.
  intros Hfree Hmax. split; [| split; [| split; [| split]]].
  - unfold getMemoryChunk, loopBody. cbn [MEMORY_eqb andb negb orb].
    destruct (Z.gtb_spec (memoryChunksFree c) (reservedChunks c swap)); [lia |].
    destruct (Z.ltb_spec (memoryChunksAllocated c) (memoryChunksMax c)); [lia |].
    cbn [setOutOfMemoryParser hardShutdown].
    destruct (hardShutdown c); reflexivity.
  - rewrite wontSwap_throws_iff. cbn [setOutOfMemoryParser outOfMemoryParser
      memoryModulesAllocated memoryChunksWriteBufferMin]. tauto.
  - apply wontSwap_throws_iff.
  - apply wontSwap_returns_unchanged.
  - intro s. eexists; split; [reflexivity |]. unfold wontSwap.
    destruct (negb _); [now left |]. destruct (_ >? _); [now left | now right].
Qed.

Lemma parser_out_of_memory_witness :
  getMemoryChunk PARSER false true (exhausted false)
  = Suspended (setOutOfMemoryParser true (exhausted false))
  /\ wontSwap (setOutOfMemoryParser true (exhausted false)) = Throw outOfMemory.
Proof.
  pose proof (parser_out_of_memory (exhausted false) false true) as H.
  assert (H1 : memoryChunksFree (exhausted false) <= reservedChunks (exhausted false) false)
    by (vm_compute; discriminate).
  assert (H2 : memoryChunksMax (exhausted false) <= memoryChunksAllocated (exhausted false))
    by (vm_compute; discriminate).
  destruct (H H1 H2) as [Hget [Hthrow _]].
  split.
  - exact Hget.
  - apply (proj2 Hthrow). vm_compute. discriminate.
Defined.

(** C2 (counterexample).  With [hardShutdown] set, a parser request that
    finds no chunk sets the flag and returns a null pointer: the caller
    does not wait. *)
Lemma parser_request_during_shutdown :
  getMemoryChunk PARSER false true (exhausted true)
  = Null (setOutOfMemoryParser true (exhausted true))
  /\ memoryChunksFree (exhausted true) = 0
  /\ memoryChunksAllocated (exhausted true) = memoryChunksMax (exhausted true).
Proof.
  split; [reflexivity | split; reflexivity].
Qed.

End MemoryFacts.

Section QueueFacts.

Import Queue.

Variable sizeof_BuilderMsg : Z.
Variable OUTPUT_BUFFER_DATA_SIZE : Z.
Variable MEMORY_CHUNK_SIZE_MB : Z.
Variable chunkBytes : Z -> Z.

Local Abbreviation builderRotate :=
  (Queue.builderRotate sizeof_BuilderMsg OUTPUT_BUFFER_DATA_SIZE MEMORY_CHUNK_SIZE_MB chunkBytes).
Local Abbreviation builderShift :=
  (Queue.builderShift sizeof_BuilderMsg OUTPUT_BUFFER_DATA_SIZE MEMORY_CHUNK_SIZE_MB chunkBytes).
Local Abbreviation builderBegin :=
  (Queue.builderBegin sizeof_BuilderMsg OUTPUT_BUFFER_DATA_SIZE MEMORY_CHUNK_SIZE_MB chunkBytes).
Local Abbreviation builderCommit := (Queue.builderCommit sizeof_BuilderMsg).
Local Abbreviation append :=
  (Queue.append sizeof_BuilderMsg OUTPUT_BUFFER_DATA_SIZE MEMORY_CHUNK_SIZE_MB chunkBytes).
Local Abbreviation appendEach :=
  (Queue.appendEach sizeof_BuilderMsg OUTPUT_BUFFER_DATA_SIZE MEMORY_CHUNK_SIZE_MB chunkBytes).
Local Abbreviation appendStr :=
  (Queue.appendStr sizeof_BuilderMsg OUTPUT_BUFFER_DATA_SIZE MEMORY_CHUNK_SIZE_MB chunkBytes).
Local Abbreviation step :=
  (Queue.step sizeof_BuilderMsg OUTPUT_BUFFER_DATA_SIZE MEMORY_CHUNK_SIZE_MB chunkBytes).
Local Abbreviation Reaches :=
  (Queue.Reaches sizeof_BuilderMsg OUTPUT_BUFFER_DATA_SIZE MEMORY_CHUNK_SIZE_MB chunkBytes).

(** *** What a write through [msg] leaves alone *)

Ltac writeMsg_cases b :=
  unfold writeMsg, updateQueue;
  destruct (msg b) as [[? ?] |] eqn:?;
  [ destruct (q_id (lastBuilderQueue b) =? _) | ];
  first [ reflexivity | cbn; congruence ].

Lemma writeMsg_last_id f b :
  q_id (lastBuilderQueue (writeMsg f b)) = q_id (lastBuilderQueue b).
Proof. writeMsg_cases b. Qed.
Lemma writeMsg_last_size f b :
  q_size (lastBuilderQueue (writeMsg f b)) = q_size (lastBuilderQueue b).
Proof. writeMsg_cases b. Qed.
Lemma writeMsg_last_start f b :
  q_start (lastBuilderQueue (writeMsg f b)) = q_start (lastBuilderQueue b).
Proof. writeMsg_cases b. Qed.
Lemma writeMsg_msg f b : msg (writeMsg f b) = msg b.
Proof. writeMsg_cases b. Qed.
Lemma writeMsg_messageSize f b : messageSize (writeMsg f b) = messageSize b.
Proof. writeMsg_cases b. Qed.
Lemma writeMsg_messagePosition f b : messagePosition (writeMsg f b) = messagePosition b.
Proof. writeMsg_cases b. Qed.
Lemma writeMsg_unconfirmedSize f b : unconfirmedSize (writeMsg f b) = unconfirmedSize b.
Proof. writeMsg_cases b. Qed.
Lemma writeMsg_flushBuffer f b : flushBuffer (writeMsg f b) = flushBuffer b.
Proof. writeMsg_cases b. Qed.
Lemma writeMsg_notifications f b : notifications (writeMsg f b) = notifications b.
Proof. writeMsg_cases b. Qed.
Lemma writeMsg_memoryChunksWriteBufferMax f b :
  memoryChunksWriteBufferMax (writeMsg f b) = memoryChunksWriteBufferMax b.
Proof. writeMsg_cases b. Qed.

Create Rewrite HintDb queue.
#[local] Hint Rewrite writeMsg_last_id writeMsg_last_size writeMsg_last_start
  writeMsg_msg writeMsg_messageSize writeMsg_messagePosition
  writeMsg_unconfirmedSize writeMsg_flushBuffer writeMsg_notifications
  writeMsg_memoryChunksWriteBufferMax : queue.

(** Projections of the setters and of [writeMsg], pushed to the state the
    update started from. *)
Ltac queue_simpl :=
  repeat (cbn [older lastBuilderQueue buffersAllocated msg messageSize messagePosition
                 unconfirmedSize flushBuffer scnType commitScn lwnScn lwnIdx id
                 memoryChunksWriteBufferMax notifications
                 setQueues setLast setMsg setMessageSize setMessagePosition
                 setUnconfirmedSize setLwnIdx setId setNotifications
                 builderShiftFast flush
                 q_id q_size q_start q_data q_msgs setSize setStart setByte setMsgAt];
          autorewrite with queue).

Lemma padding_aligns (pos : Z) : (pos + padding pos) mod 8 = 0.
Proof.
  unfold padding. change 7 with (Z.ones 3).
  rewrite !Z.land_ones by lia. change (2 ^ 3) with 8. lia.
Qed.

Lemma wrap64_mod8 (z : Z) : wrap64 z mod 8 = z mod 8.
Proof. unfold wrap64. lia. Qed.

(** C3 (amended).  [builderCommit] either throws RedoLogException 50058 (the
    message is a bare header) or returns, and then [flush] has been invoked
    (one more notification of [condNoWriterWork], [unconfirmedSize] reset to
    0) if and only if [flushBuffer == 0] or the accumulated
    [unconfirmedSize] is strictly greater than [flushBuffer]; otherwise no
    notification is made and [unconfirmedSize] keeps the accumulated
    value. *)
Theorem builderCommit_flush_policy (b : Builder) :
  match builderCommit b with
  | Throw e =>
      e = emptyCommit /\ wrap64 (messageSize b + messagePosition b) = sizeof_BuilderMsg
  | Ok b' =>
      let total := wrap64 (unconfirmedSize b + wrap64 (messageSize b + messagePosition b)) in
      flushBuffer b' = flushBuffer b /\
      if (flushBuffer b =? 0) || (total >? flushBuffer b)
      then notifications b' = notifications b + 1 /\ unconfirmedSize b' = 0
      else notifications b' = notifications b /\ unconfirmedSize b' = total
  end.
Proof.
  unfold Queue.builderCommit.
  cbn [messageSize setMessageSize].
  destruct (Z.eqb_spec (wrap64 (messageSize b + messagePosition b)) sizeof_BuilderMsg)
    as [E | NE].
  - split; [reflexivity | exact E].
  - cbv zeta.
    match goal with
    | |- context [if ?c then Ok (flush ?x) else Ok ?x] =>
        assert (Hc : c = ((flushBuffer b =? 0)
                          || (wrap64 (unconfirmedSize b
                                      + wrap64 (messageSize b + messagePosition b))
                              >? flushBuffer b)))
          by (queue_simpl; reflexivity);
        rewrite Hc; clear Hc;
        destruct ((flushBuffer b =? 0)
                  || (wrap64 (unconfirmedSize b
                              + wrap64 (messageSize b + messagePosition b))
                      >? flushBuffer b))
    end; queue_simpl; repeat split; reflexivity.
Qed.

(** C3 (counterexample).  With [flushBuffer = 100], a message of 88 header
    bytes and 12 payload bytes is committed: [unconfirmedSize] becomes
    exactly 100 and the consumer is not signalled. *)
Lemma commit_at_flushBuffer_is_silent :
  exists b,
    Queue.run 88 1048536 1 (fun _ => 0)
      [OpBegin 1000 1 101 0; OpAppendStr [1; 2; 3; 4; 5; 6; 7; 8; 9; 10; 11; 12]; OpCommit]
      (emptyBuilder 100) = Ok b
    /\ unconfirmedSize b = 100 /\ flushBuffer b = 100 /\ notifications b = 0.
Proof.
  eexists. split; [vm_compute; reflexivity | repeat split].
Qed.

Local Abbreviation closedNode := (Queue.closedNode).
Local Abbreviation movedMessage := (Queue.movedMessage sizeof_BuilderMsg).
Local Abbreviation fitsOneBuffer := (Queue.fitsOneBuffer OUTPUT_BUFFER_DATA_SIZE).
Local Abbreviation writeBufferLimit := (Queue.writeBufferLimit MEMORY_CHUNK_SIZE_MB).

Lemma builderRotate_closed (b : Builder) :
  closedNode b
    (setQueues
       (older b ++ [setSize (wrap64 (q_size (lastBuilderQueue b) + messagePosition b))
                            (lastBuilderQueue b)])
       (mkQueue (wrap64 (q_id (lastBuilderQueue b) + 1)) 0 BUFFER_START_UNDEFINED
                chunkBytes (fun _ => None))
       (wrap64 (buffersAllocated b + 1))
       (setMessagePosition 0
          (setMessageSize (wrap64 (messageSize b + messagePosition b)) b))).
Proof.
  unfold Queue.closedNode. queue_simpl. repeat split; reflexivity.
Qed.



(** *** Alignment *)

Lemma builderRotate_aligned (copy : bool) (b b' : Builder) :
  builderRotate copy b = Ok b' ->
  (forall qid off, msg b = Some (qid, off) -> off mod 8 = 0) ->
  aligned b'.
Proof.
  unfold Queue.builderRotate, aligned.
  destruct (messageSize b >? writeBufferLimit b); [discriminate |].
  destruct (msg b) as [[mq moff] |] eqn:Em.
  - destruct (copy && fitsOneBuffer b); cbv zeta; intros H Hm;
      injection H as <-; queue_simpl.
    + unfold Queue.copyMessage. cbn [q_size]. split; [reflexivity |].
      intros qid off E. injection E as _ <-. reflexivity.
    + split; [reflexivity |]. rewrite Em. exact Hm.
  - cbv zeta. intros H Hm. injection H as <-. queue_simpl.
    split; [reflexivity |]. rewrite Em. exact Hm.
Qed.

Lemma builderShift_aligned (copy : bool) (b b' : Builder) :
  builderShift copy b = Ok b' -> aligned b -> aligned b'.
Proof.
  unfold Queue.builderShift. cbv zeta. queue_simpl.
  destruct (_ >=? _).
  - intros H [_ Hm]. apply (builderRotate_aligned _ _ _ H). exact Hm.
  - intros H Ha. injection H as <-. exact Ha.
Qed.

Lemma append_aligned (c : Z) (b b' : Builder) :
  append c b = Ok b' -> aligned b -> aligned b'.
Proof.
  unfold Queue.append. cbv zeta. intros H Ha.
  apply (builderShift_aligned _ _ _ H). exact Ha.
Qed.

Lemma appendEach_aligned (str : list Z) : forall b b',
  appendEach str b = Ok b' -> aligned b -> aligned b'.
Proof.
  induction str as [| c rest IH]; intros b b' H Ha.
  - injection H as <-. exact Ha.
  - cbn [Queue.appendEach] in H.
    destruct (append c b) as [b1 |] eqn:E1; [| discriminate].
    apply (IH b1 b' H). apply (append_aligned c b b1 E1 Ha).
Qed.

Lemma storeBytes_frame (str : list Z) : forall off q,
  q_id (storeBytes off str q) = q_id q
  /\ q_size (storeBytes off str q) = q_size q
  /\ q_start (storeBytes off str q) = q_start q
  /\ q_msgs (storeBytes off str q) = q_msgs q.
Proof.
  induction str as [| c rest IH]; intros off q.
  - repeat split.
  - cbn [storeBytes]. destruct (IH (off + 1) (setByte off c q)) as (H1 & H2 & H3 & H4).
    rewrite H1, H2, H3, H4. repeat split.
Qed.

Lemma appendStr_aligned (str : list Z) (b b' : Builder) :
  appendStr str b = Ok b' -> aligned b -> aligned b'.
Proof.
  unfold Queue.appendStr. cbv zeta.
  destruct (_ <? _).
  - intros H [Hs Hm]. injection H as <-. unfold aligned. queue_simpl.
    destruct (storeBytes_frame str
                (wrap64 (q_size (lastBuilderQueue b) + messagePosition b))
                (lastBuilderQueue b)) as (_ & -> & _).
    split; assumption.
  - apply appendEach_aligned.
Qed.

Lemma builderBegin_aligned (scn sequence obj flags : Z) (b b' : Builder) :
  builderBegin scn sequence obj flags b = Ok b' ->
  q_size (lastBuilderQueue b) mod 8 = 0 ->
  aligned b'
  /\ msg b' = Some (q_id (lastBuilderQueue b'), q_size (lastBuilderQueue b'))
  /\ messagePosition b' = wrap64 sizeof_BuilderMsg.
Proof.
  unfold Queue.builderBegin. cbv zeta. queue_simpl.
  set (b0 := setMessagePosition 0 (setMessageSize 0 b)).
  intros H Hs.
  assert (Hr : exists b1,
             (if wrap64 (wrap64 (q_size (lastBuilderQueue b) + 0) + sizeof_BuilderMsg)
                 >=? OUTPUT_BUFFER_DATA_SIZE
              then builderRotate true b0 else Ok b0) = Ok b1
             /\ q_size (lastBuilderQueue b1) mod 8 = 0
             /\ messagePosition b1 = 0).
  { destruct (_ >=? _).
    - destruct (builderRotate true b0) as [b1 |] eqn:E1; [| discriminate].
      exists b1. split; [reflexivity |].
      pose proof E1 as E2. unfold Queue.builderRotate in E2.
      destruct (messageSize b0 >? writeBufferLimit b0); [discriminate |].
      destruct (msg b0) as [[mq moff] |]; [destruct (true && fitsOneBuffer b0) |];
        cbv zeta in E2; injection E2 as <-; queue_simpl;
        try (unfold Queue.copyMessage; cbn [q_size]); split; reflexivity.
    - exists b0. split; [reflexivity |]. subst b0. queue_simpl. split; [exact Hs | reflexivity]. }
  destruct Hr as (b1 & E1 & Hs1 & Hp1). rewrite E1 in H.
  injection H as <-. unfold aligned. queue_simpl.
  rewrite Hp1. cbn [Z.add].
  repeat split; try assumption.
  intros qid off E. injection E as _ <-. exact Hs1.
Qed.

Lemma builderCommit_aligned (b b' : Builder) :
  builderCommit b = Ok b' ->
  q_size (lastBuilderQueue b) mod 8 = 0 ->
  aligned b'
  /\ messagePosition b' = wrap64 (messagePosition b + padding (messagePosition b))
  /\ messagePosition b' mod 8 = 0.
Proof.
  unfold Queue.builderCommit. cbv zeta.
  destruct (messageSize _ =? sizeof_BuilderMsg); [discriminate |].
  queue_simpl. intros H Hs.
  pose proof (padding_aligns (messagePosition b)) as Hp.
  assert (Hq : wrap64 (q_size (lastBuilderQueue b)
                       + wrap64 (messagePosition b + padding (messagePosition b)))
               mod 8 = 0)
    by (rewrite wrap64_mod8; unfold wrap64; lia).
  assert (Hw : wrap64 (messagePosition b + padding (messagePosition b)) mod 8 = 0)
    by (rewrite wrap64_mod8; exact Hp).
  destruct (q_start (lastBuilderQueue b) =? BUFFER_START_UNDEFINED);
    queue_simpl; destruct (_ || _); injection H as <-;
    unfold aligned; queue_simpl; repeat split; try assumption; discriminate.
Qed.

Lemma step_aligned (op : Op) (b b' : Builder) :
  step op b = Ok b' -> aligned b -> aligned b'.
Proof.
  destruct op as [scn sequence obj flags | c | str |]; cbn [Queue.step]; intros H Ha.
  - exact (proj1 (builderBegin_aligned _ _ _ _ _ _ H (proj1 Ha))).
  - exact (append_aligned _ _ _ H Ha).
  - exact (appendStr_aligned _ _ _ H Ha).
  - exact (proj1 (builderCommit_aligned _ _ H (proj1 Ha))).
Qed.

Lemma run_reaches (ops : list Op) : forall b0 b b',
  Reaches b0 b ->
  Queue.run sizeof_BuilderMsg OUTPUT_BUFFER_DATA_SIZE MEMORY_CHUNK_SIZE_MB chunkBytes ops b
  = Ok b' ->
  Reaches b0 b'.
Proof.
  induction ops as [| op rest IH]; intros b0 b b' Hr H.
  - injection H as <-. exact Hr.
  - cbn [Queue.run] in H.
    destruct (step op b) as [b1 |] eqn:E1; [| discriminate].
    apply (IH b0 b1 b'); [| exact H].
    exact (Queue.ReachesStep _ _ _ _ b0 b b1 op Hr E1).
Qed.

(** C8.  From a state whose write position and message start are multiples
    of 8, every state reached by a sequence of [builderBegin], [append] and
    [builderCommit] calls has them multiples of 8; [builderBegin] places the
    header at the write position of the last node, an offset that is a
    multiple of 8, and [builderCommit] advances [messagePosition] by
    [(8 - (messagePosition & 7)) & 7] to a multiple of 8. *)
Theorem message_headers_aligned (b0 b : Builder) :
  aligned b0 ->
  Reaches b0 b ->
  aligned b
  /\ (forall scn sequence obj flags b',
        builderBegin scn sequence obj flags b = Ok b' ->
        exists off,
          msg b' = Some (q_id (lastBuilderQueue b'), off)
          /\ off = q_size (lastBuilderQueue b')
          /\ off mod 8 = 0)
  /\ (forall b',
        builderCommit b = Ok b' ->
        messagePosition b' = wrap64 (messagePosition b + padding (messagePosition b))
        /\ messagePosition b' mod 8 = 0
        /\ q_size (lastBuilderQueue b') mod 8 = 0).
Proof.
  intros H0 Hr.
  assert (Ha : aligned b).
  { induction Hr as [| b1 b2 op _ IH Hstep]; [exact H0 |].
    exact (step_aligned op b1 b2 Hstep IH). }
  split; [exact Ha | split].
  - intros scn sequence obj flags b' Hb.
    destruct (builderBegin_aligned _ _ _ _ _ _ Hb (proj1 Ha)) as (Ha' & Hm & _).
    exists (q_size (lastBuilderQueue b')). repeat split; [exact Hm | exact (proj1 Ha')].
  - intros b' Hc.
    destruct (builderCommit_aligned _ _ Hc (proj1 Ha)) as (Ha' & Hp & Hp8).
    repeat split; [exact Hp | exact Hp8 | exact (proj1 Ha')].
Qed.

End QueueFacts.


(** The rotation of the witness moves the message: the 89 bytes written so
    far go to node 1, whose start is 0. *)
Example rotatedAfter_moves_message :
  Queue.outline
    (Queue.builderRotate 88 1048536 1 (fun _ => 0) true
       (Queue.stateAfter [Queue.OpBegin 7 1 42 0; Queue.OpAppend 104]))
  = Some (1, 0, [0], Some (1, 0), 0, 89).
Proof. vm_compute. reflexivity. Qed.

Lemma message_headers_aligned_witness :
  Queue.aligned
    (Queue.stateAfter [Queue.OpBegin 1000 1 101 0; Queue.OpAppendStr [1; 2; 3];
                       Queue.OpCommit])
  /\ (forall scn sequence obj flags b',
        Queue.builderBegin 88 1048536 1 (fun _ => 0) scn sequence obj flags
          (Queue.stateAfter [Queue.OpBegin 1000 1 101 0; Queue.OpAppendStr [1; 2; 3];
                             Queue.OpCommit]) = Ok b' ->
        exists off,
          Queue.msg b' = Some (Queue.q_id (Queue.lastBuilderQueue b'), off)
          /\ off = Queue.q_size (Queue.lastBuilderQueue b')
          /\ off mod 8 = 0)
  /\ (forall b',
        Queue.builderCommit 88
          (Queue.stateAfter [Queue.OpBegin 1000 1 101 0; Queue.OpAppendStr [1; 2; 3];
                             Queue.OpCommit]) = Ok b' ->
        Queue.messagePosition b'
        = wrap64 (Queue.messagePosition
                    (Queue.stateAfter [Queue.OpBegin 1000 1 101 0;
                                       Queue.OpAppendStr [1; 2; 3]; Queue.OpCommit])
                  + Queue.padding
                      (Queue.messagePosition
                         (Queue.stateAfter [Queue.OpBegin 1000 1 101 0;
                                            Queue.OpAppendStr [1; 2; 3];
                                            Queue.OpCommit])))
        /\ Queue.messagePosition b' mod 8 = 0
        /\ Queue.q_size (Queue.lastBuilderQueue b') mod 8 = 0).
Proof.
  apply (message_headers_aligned 88 1048536 1 (fun _ => 0) (Queue.emptyBuilder 1048576)).
  - split; [reflexivity | discriminate].
  - apply (run_reaches 88 1048536 1 (fun _ => 0)
             [Queue.OpBegin 1000 1 101 0; Queue.OpAppendStr [1; 2; 3]; Queue.OpCommit]
             (Queue.emptyBuilder 1048576) (Queue.emptyBuilder 1048576)).
    + apply Queue.ReachesHere.
    + vm_compute. reflexivity.
Defined.

Example second_header_offset :
  Queue.outline
    (Queue.run 88 1048536 1 (fun _ => 0)
       [Queue.OpBegin 1000 1 101 0; Queue.OpAppendStr [1; 2; 3]; Queue.OpCommit;
        Queue.OpBegin 1001 1 101 0]
       (Queue.emptyBuilder 1048576))
  = Some (0, 0, [], Some (0, 96), 0, 88).
Proof. vm_compute. reflexivity. Qed.

Section MemoryConfigFacts.

Import Json MemoryConfig.

Example memorySection_onlyMin_4096 :
  memorySection 1 32 256 true (onlyMin 4096)
  = Ok (mkSettings 4096 2048 128 4 1536 "." 4 2048 4).
Proof. reflexivity. Qed.

Example memorySection_max_below_min :
  memorySection 1 32 256 true
    (JObject [("memory"%string,
               JObject [("min-mb"%string, JNumber 4096); ("max-mb"%string, JNumber 2048)])])
  = Throw (badJson "invalid max-mb value").
Proof. reflexivity. Qed.

(** C5 (code defect).  A memory section that gives "min-mb" alone, with a
    value above the default "max-mb" of 2048, is accepted: the comparison of
    "max-mb" with "min-mb" stands in the branch that reads "max-mb" and is
    not made when that key is absent. *)
Theorem memory_min_above_default_max
    (MEMORY_CHUNK_SIZE_MB MEMORY_CHUNK_MIN_MB JSON_PARAMETER_LENGTH minMb : Z)
    (checkTags : bool) :
  0 < MEMORY_CHUNK_SIZE_MB ->
  0 <= minMb < 18446744073709551616 ->
  MEMORY_CHUNK_MIN_MB <= (minMb / MEMORY_CHUNK_SIZE_MB) * MEMORY_CHUNK_SIZE_MB ->
  2048 < (minMb / MEMORY_CHUNK_SIZE_MB) * MEMORY_CHUNK_SIZE_MB ->
  exists c,
    memorySection MEMORY_CHUNK_SIZE_MB MEMORY_CHUNK_MIN_MB JSON_PARAMETER_LENGTH
      checkTags (onlyMin minMb) = Ok c
    /\ memoryMinMb c = (minMb / MEMORY_CHUNK_SIZE_MB) * MEMORY_CHUNK_SIZE_MB
    /\ memoryMaxMb c = 2048
    /\ memoryMaxMb c < memoryMinMb c.
Proof.
  intros HS Hm Hmin Hbig.
  assert (Hround : roundToChunk MEMORY_CHUNK_SIZE_MB minMb
                   = (minMb / MEMORY_CHUNK_SIZE_MB) * MEMORY_CHUNK_SIZE_MB).
  { unfold roundToChunk. apply wrap64_small.
    pose proof (Z.mul_div_le minMb MEMORY_CHUNK_SIZE_MB HS).
    assert (0 <= minMb / MEMORY_CHUNK_SIZE_MB) by (apply Z.div_pos; lia).
    nia. }
  eexists. split.
  - unfold memorySection, onlyMin. cbn [HasMember members lookup String.eqb Ascii.eqb Bool.eqb].
    cbn [getJsonFieldO members lookup String.eqb Ascii.eqb Bool.eqb bind].
    replace (checkJsonFields _ memoryNames) with (Ok tt) by reflexivity.
    destruct checkTags; cbn [bind];
      unfold readMin; cbn [HasMember members lookup String.eqb Ascii.eqb Bool.eqb
                             getJsonFieldU64 bind];
      (destruct (Z.leb_spec 0 minMb); [| lia]);
      (destruct (Z.ltb_spec minMb 18446744073709551616); [| lia]);
      cbn [andb bind]; rewrite Hround;
      (destruct (Z.ltb_spec (minMb / MEMORY_CHUNK_SIZE_MB * MEMORY_CHUNK_SIZE_MB)
                            MEMORY_CHUNK_MIN_MB); [lia |]);
      reflexivity.
  - cbn [memoryMinMb memoryMaxMb]. repeat split. exact Hbig.
Qed.

Lemma memory_min_above_default_max_witness :
  exists c,
    memorySection 1 32 256 true (onlyMin 4096) = Ok c
    /\ memoryMinMb c = (4096 / 1) * 1
    /\ memoryMaxMb c = 2048
    /\ memoryMaxMb c < memoryMinMb c.
Proof.
  apply (memory_min_above_default_max 1 32 256 4096 true); lia.
Defined.

End MemoryConfigFacts.

Section JsonColumnFacts.

Import JsonColumn.

Variable T : COLTYPE.
Variable isFlagSet : REDO_FLAGS -> bool.
Variable char_is_signed : bool.
Variable map10 : Z -> ascii.
Variable to_string : Z -> list ascii.

Lemma typeIsFiltered_allowedType (typeNo : Z) (after : bool) :
  typeIsFiltered T typeNo after = negb (allowedType T typeNo after).
Proof.
  unfold typeIsFiltered, allowedType. btauto.
Qed.

(** C7.  With [unknownType = UNKNOWN_HIDE] and a known table,
    [columnNull] leaves the writer as it is (nothing is emitted) unless the
    column passes the guard/nested/hidden/unused flags and its type is one
    of the allowed set; in that case it emits the entry ["name":null],
    after a comma when a column precedes it. *)
Theorem columnNull_hide (table : DbTable) (col : Z) (after : bool)
    (w : Writer) (column : DbColumn) :
  unknownType w = UNKNOWN_HIDE ->
  columnAt table col = Some column ->
  columnNull T isFlagSet char_is_signed map10 to_string (Some table) col after w
  = Some (if shownByFlags isFlagSet column && allowedType T (type column) after
          then nullEntry char_is_signed map10 (name column) w
          else w).
Proof.
  intros Hhide Hcol. unfold columnNull. rewrite Hhide, Hcol.
  rewrite typeIsFiltered_allowedType. unfold shownByFlags.
  destruct (guard column), (isFlagSet SHOW_GUARD_COLUMNS); cbn [negb andb orb];
    try reflexivity;
    (destruct (nested column), (isFlagSet SHOW_NESTED_COLUMNS); cbn [negb andb orb];
     try reflexivity;
     (destruct (hidden column), (isFlagSet SHOW_HIDDEN_COLUMNS); cbn [negb andb orb];
      try reflexivity;
      (destruct (unused column), (isFlagSet SHOW_UNUSED_COLUMNS); cbn [negb andb orb];
       try reflexivity;
       (destruct (allowedType T (type column) after); cbn [negb]; try reflexivity;
        unfold writeNull, nullEntry, appendChars; rewrite Hcol;
        destruct (hasPreviousColumn w); cbn [output hasPreviousColumn unknownType];
        repeat rewrite <- app_assoc; reflexivity)))).
Qed.

End JsonColumnFacts.

Lemma columnNull_hide_witness :
  JsonColumn.columnNull JsonColumn.oracleTypes (fun _ => false) true (fun _ => "0"%char)
    (fun _ => []) (Some (JsonColumn.mkTable
                           [JsonColumn.mkColumn "ID" 2 false false false false false;
                            JsonColumn.mkColumn "DOC" 112 false false false false false]))
    1 false (JsonColumn.mkWriter JsonColumn.UNKNOWN_HIDE true ["{"%char])
  = Some (JsonColumn.mkWriter JsonColumn.UNKNOWN_HIDE true ["{"%char]).
Proof.
  apply (columnNull_hide JsonColumn.oracleTypes (fun _ => false) true (fun _ => "0"%char)
           (fun _ => [])
           (JsonColumn.mkTable
              [JsonColumn.mkColumn "ID" 2 false false false false false;
               JsonColumn.mkColumn "DOC" 112 false false false false false])
           1 false (JsonColumn.mkWriter JsonColumn.UNKNOWN_HIDE true ["{"%char])
           (JsonColumn.mkColumn "DOC" 112 false false false false false)).
  - reflexivity.
  - reflexivity.
Defined.

Example columnNull_number_column :
  JsonColumn.columnNull JsonColumn.oracleTypes (fun _ => false) true (fun _ => "0"%char)
    (fun _ => []) (Some (JsonColumn.mkTable
                           [JsonColumn.mkColumn "ID" 2 false false false false false]))
    0 false (JsonColumn.mkWriter JsonColumn.UNKNOWN_HIDE false ["{"%char])
  = Some (JsonColumn.mkWriter JsonColumn.UNKNOWN_HIDE true
            ["{"; QUOTE; "I"; "D"; QUOTE; ":"; "n"; "u"; "l"; "l"]%char).
Proof. reflexivity. Qed.

Section ReloadFacts.

Import Json Reload.
Local Open Scope reload_scope.

Variable K : Constants.
Variable env : Env.

(** *** A small program logic for [onlyStaging] *)

Lemma onlyStaging_here (st : State) :
  errors st = errors st
  /\ configFileChange st = configFileChange st
  /\ exists new, calls st = calls st ++ new /\ forallb staging new = true.
Proof.
  repeat split. exists []. split; [now rewrite app_nil_r | reflexivity].
Qed.

Lemma onlyStaging_ret {A : Type} (a : A) : onlyStaging (ret a).
Proof. intros st r st' H. injection H as _ <-. apply onlyStaging_here. Qed.

Lemma onlyStaging_throw {A : Type} (e : Exception) : onlyStaging (@throw A e).
Proof. intros st r st' H. injection H as _ <-. apply onlyStaging_here. Qed.

Lemma onlyStaging_lift {A : Type} (x : Result A) : onlyStaging (lift x).
Proof. intros st r st' H. injection H as _ <-. apply onlyStaging_here. Qed.

Lemma onlyStaging_info (text : string) : onlyStaging (info text).
Proof.
  intros st r st' H. injection H as _ <-. cbn [errors configFileChange calls].
  repeat split. exists []. split; [now rewrite app_nil_r | reflexivity].
Qed.

Lemma onlyStaging_metaCall (c : MetaCall) :
  staging c = true -> onlyStaging (metaCall c).
Proof.
  intros Hc st r st' H. injection H as _ <-. cbn [errors configFileChange calls].
  repeat split. exists [c]. split; [reflexivity |]. cbn. now rewrite Hc.
Qed.

Lemma onlyStaging_mbind {A B : Type} (m : M A) (k : A -> M B) :
  onlyStaging m -> (forall a, onlyStaging (k a)) -> onlyStaging (mbind m k).
Proof.
  intros Hm Hk st r st' H. unfold mbind in H.
  destruct (m st) as [[a | e] st1] eqn:E1.
  - destruct (Hm _ _ _ E1) as (He1 & Hc1 & new1 & Hn1 & Hs1).
    destruct (Hk a _ _ _ H) as (He2 & Hc2 & new2 & Hn2 & Hs2).
    split; [congruence | split; [congruence |]].
    exists (new1 ++ new2). split.
    + rewrite Hn2, Hn1, app_assoc. reflexivity.
    + rewrite forallb_app, Hs1, Hs2. reflexivity.
  - injection H as <- <-. exact (Hm _ _ _ E1).
Qed.

Lemma onlyStaging_when (c : bool) (m : M unit) :
  onlyStaging m -> onlyStaging (when c m).
Proof. destruct c; [trivial | intros _; apply onlyStaging_ret]. Qed.

Lemma onlyStaging_failing (r : option Exception) : onlyStaging (failing r).
Proof. destruct r; [apply onlyStaging_throw | apply onlyStaging_ret]. Qed.

Ltac staged :=
  repeat first
    [ apply onlyStaging_ret
    | apply onlyStaging_throw
    | apply onlyStaging_lift
    | apply onlyStaging_info
    | apply onlyStaging_failing
    | apply onlyStaging_metaCall; reflexivity
    | apply onlyStaging_when
    | apply onlyStaging_mbind; [| intro]
    | match goal with
      | |- onlyStaging (if ?c then _ else _) => destruct c
      | |- onlyStaging (match ?x with _ => _ end) => destruct x
      end ].

Lemma onlyStaging_tableElements (separator : string) (items : list Value) :
  forall users, onlyStaging (tableElements K separator users items).
Proof.
  induction items as [| item rest IH]; intro users; cbn [tableElements].
  - staged.
  - apply onlyStaging_mbind; [| intro; apply IH].
    unfold tableElement. staged.
Qed.

Lemma onlyStaging_sourceElements (items : list Value) :
  onlyStaging (sourceElements K env items).
Proof.
  induction items as [| item rest IH]; cbn [sourceElements].
  - staged.
  - apply onlyStaging_mbind; [| intro; exact IH].
    unfold sourceElement, debugSection, filterSection, checkFields, checkUsers.
    staged; apply onlyStaging_tableElements.
Qed.

Lemma onlyStaging_readFilters : onlyStaging (readFilters K env).
Proof.
  unfold readFilters, checkFields. staged. apply onlyStaging_sourceElements.
Qed.

Lemma onlyStaging_setBuffer (allocated : bool) : onlyStaging (setBuffer allocated).
Proof.
  intros st r st' H. injection H as _ <-. cbn [errors configFileChange calls].
  repeat split. exists []. split; [now rewrite app_nil_r | reflexivity].
Qed.

Lemma throwsStaged_mbind {A B : Type} (m : M A) (k : A -> M B) :
  onlyStaging m -> (forall a, throwsStaged (k a)) -> throwsStaged (mbind m k).
Proof.
  intros Hm Hk st e st' H. unfold mbind in H.
  destruct (m st) as [[a | e1] st1] eqn:E1.
  - destruct (Hm _ _ _ E1) as (He1 & Hc1 & new1 & Hn1 & Hs1).
    destruct (Hk a _ _ _ H) as (He2 & Hc2 & new2 & Hn2 & Hs2).
    split; [congruence | split; [congruence |]].
    exists (new1 ++ new2). split.
    + rewrite Hn2, Hn1, app_assoc. reflexivity.
    + rewrite forallb_app, Hs1, Hs2. reflexivity.
  - injection H as <- <-. exact (Hm _ _ _ E1).
Qed.

(** An exception of [updateConfigFile] comes from the part before the
    commit block. *)
Lemma throwsStaged_updateConfigFile (k : M unit) :
  (forall st, exists st', k st = (Ok tt, st')) ->
  throwsStaged (updateConfigFile K env ;;; k).
Proof.
  intros Hk st e st' H. unfold updateConfigFile, mbind in H.
  destruct (readFilters K env st) as [[[] | e1] st1] eqn:E1.
  - exfalso. unfold applyFilters, mbind, info, metaCall in H. cbn in H.
    match type of H with
    | k ?s = _ => destruct (Hk s) as [s' Hs']; rewrite Hs' in H
    end.
    discriminate.
  - injection H as <- <-. exact (onlyStaging_readFilters _ _ _ E1).
Qed.

Lemma throwsStaged_reload (size : Z) :
  throwsStaged (info "config file changed, reloading" ;;; reload K env size).
Proof.
  unfold reload.
  repeat (apply throwsStaged_mbind;
          [ first [ apply onlyStaging_info | apply onlyStaging_setBuffer
                  | apply onlyStaging_when; apply onlyStaging_throw ]
          | intro ]).
  apply throwsStaged_updateConfigFile.
  intro st. eexists. reflexivity.
Qed.

(** C6.  At run time: when the [try] block of [trackConfigFile] raises an
    exception of class ConfigurationException or DataException, the
    function returns normally; the exception's code and message have been
    passed to [ctx->error], [configFileChange] holds the new modification
    time, and the metadata has received staging calls only, no
    [commitElements]: the elements committed earlier stay in force.  At
    startup: [run] has no handler, so an exception raised while it reads
    the configuration, or by any later statement, is the result of
    [run]. *)
Theorem reload_error_is_logged (st st1 : State) (mtime size : Z) (e : Exception) :
  statResult env = Some (mtime, size) ->
  (mtime =? configFileChange st) = false ->
  (info "config file changed, reloading" ;;; reload K env size) st = (Throw e, st1) ->
  caught e = true ->
  trackConfigFile K env st = Ok (setChange mtime (logError e st1))
  /\ errors (setChange mtime (logError e st1)) = errors st ++ [(code e, msg e)]
  /\ configFileChange (setChange mtime (logError e st1)) = mtime
  /\ (exists new,
        calls (setChange mtime (logError e st1)) = calls st ++ new
        /\ forallb staging new = true)
  /\ (forall maxSize version len chunkMb chunkMinMb remainder senv ctx e',
        Startup.readConfiguration maxSize version len chunkMb chunkMinMb senv ctx = Throw e' ->
        Startup.run maxSize version len chunkMb chunkMinMb remainder senv ctx = Throw e')
  /\ (forall maxSize version len chunkMb chunkMinMb remainder senv ctx c s m e',
        Startup.readConfiguration maxSize version len chunkMb chunkMinMb senv ctx
        = Ok (c, s, m) ->
        remainder c s m = Throw e' ->
        Startup.run maxSize version len chunkMb chunkMinMb remainder senv ctx = Throw e').
Proof.
  intros Hstat Hchanged Hthrow Hcaught.
  destruct (throwsStaged_reload size st e st1 Hthrow) as (Herr & _ & new & Hnew & Hst).
  split; [| split; [| split; [| split; [| split]]]].
  - unfold trackConfigFile. rewrite Hstat, Hchanged, Hthrow, Hcaught. reflexivity.
  - cbn [setChange logError errors]. rewrite Herr. reflexivity.
  - reflexivity.
  - exists new. cbn [setChange logError calls]. split; assumption.
  - intros maxSize version len chunkMb chunkMinMb remainder senv ctx e' H.
    unfold Startup.run. rewrite H. reflexivity.
  - intros maxSize version len chunkMb chunkMinMb remainder senv ctx c s m e' H Hr.
    unfold Startup.run. rewrite H. cbn [bind]. exact Hr.
Qed.

End ReloadFacts.

Lemma reload_error_is_logged_witness :
  Reload.trackConfigFile Reload.sampleConstants Reload.changedFile Reload.running
  = Ok (Reload.mkState 1700000100 true
          [(30001, "bad JSON, invalid version value"%string)]
          ["config file changed, reloading"%string]
          [Reload.ResetElements; Reload.CommitElements]).
Proof.
  exact (proj1 (reload_error_is_logged Reload.sampleConstants Reload.changedFile
                  Reload.running
                  (Reload.mkState 1700000000 true []
                     ["config file changed, reloading"%string]
                     [Reload.ResetElements; Reload.CommitElements])
                  1700000100 64
                  (Reload.configError 30001 "bad JSON, invalid version value")
                  eq_refl eq_refl eq_refl eq_refl)).
Defined.

(** The [stat] call stands before the [try] block: its failure is a
    RuntimeException and leaves [trackConfigFile]. *)
Example trackConfigFile_stat_failure (K : Reload.Constants) (st : Reload.State) :
  Reload.trackConfigFile K
    (Reload.mkEnv None true 64 (Some Reload.wrongVersion) true false false []) st
  = Throw (mkException RuntimeException 10003 "get metadata failed").
Proof. reflexivity. Qed.

Example startup_wrong_version (remainder : Startup.Logging -> Json.Value ->
                                           MemoryConfig.Settings -> Result Z) :
  Startup.run 1048576 "1.6.0" 256 1 32 remainder
    (Startup.mkEnv true true (Some 64) 64 (Some Reload.wrongVersion) true)
    (Startup.mkLogging 0 "." 0 3 0)
  = Throw (MemoryConfig.badJson "bad JSON, invalid version value").
Proof. reflexivity. Qed.

(* --------------------------------------------------------------------- *)
(** ** Decimal and hexadecimal rendering                                  *)
(* --------------------------------------------------------------------- *)

Section RenderFacts.

Import Render.

Variable map10 : Z -> ascii.

Lemma digitsValue_rev (base : Z) (ds : list Z) :
  digitsValue base (rev ds) = fold_right (fun d acc => base * acc + d) 0 ds.
Proof.
  unfold digitsValue. rewrite <- (rev_involutive ds) at 2.
  rewrite fold_left_rev_right. reflexivity.
Qed.

Lemma decBuffer_value (fuel : nat) : forall value,
  0 <= value < 10 ^ Z.of_nat fuel ->
  fold_right (fun d acc => 10 * acc + d) 0 (decBuffer fuel value) = value.
Proof.
  induction fuel as [| f IH]; intros value Hv.
  - cbn in Hv. cbn. lia.
  - cbn [decBuffer]. destruct (Z.gtb_spec value 0) as [Hpos | Hzero].
    + cbn [fold_right]. rewrite IH.
      * lia.
      * rewrite Nat2Z.inj_succ, Z.pow_succ_r in Hv by lia. lia.
    + cbn. lia.
Qed.

Lemma decBuffer_digits (fuel : nat) : forall value,
  Forall (isDigitOf 10) (decBuffer fuel value).
Proof.
  induction fuel as [| f IH]; intros value; cbn [decBuffer].
  - constructor.
  - destruct (value >? 0); constructor; [unfold isDigitOf; lia | apply IH].
Qed.

Lemma decBuffer_length (fuel : nat) : forall value (n : nat),
  0 <= value < 10 ^ Z.of_nat n ->
  (List.length (decBuffer fuel value) <= n)%nat.
Proof.
  induction fuel as [| f IH]; intros value n Hv; cbn [decBuffer].
  - cbn. lia.
  - destruct (Z.gtb_spec value 0) as [Hpos | Hzero]; [| cbn; lia].
    destruct n as [| m].
    + cbn in Hv. lia.
    + cbn [List.length]. apply le_n_S. apply IH.
      rewrite Nat2Z.inj_succ, Z.pow_succ_r in Hv by lia. lia.
Qed.

Lemma decBuffer_last (fuel : nat) : forall value,
  0 < value < 10 ^ Z.of_nat fuel ->
  0 < last (decBuffer fuel value) 1.
Proof.
  induction fuel as [| f IH]; intros value Hv.
  - cbn in Hv. lia.
  - cbn [decBuffer]. destruct (Z.gtb_spec value 0) as [Hpos | Hzero]; [| lia].
    rewrite Nat2Z.inj_succ, Z.pow_succ_r in Hv by lia.
    destruct (Z.eq_dec (value / 10) 0) as [Hq | Hq].
    + rewrite Hq. destruct f; cbn; lia.
    + assert (Hrest : 0 < value / 10 < 10 ^ Z.of_nat f) by lia.
      specialize (IH _ Hrest).
      destruct (decBuffer f (value / 10)) as [| d ds] eqn:E.
      * destruct f; cbn in E; [cbn in Hrest; lia |].
        destruct (Z.gtb_spec (value / 10) 0); [discriminate | lia].
      * exact IH.
Qed.

Lemma hd_rev (ds : list Z) (d : Z) : hd d (rev ds) = last ds d.
Proof.
  induction ds as [| x xs _] using rev_ind; [reflexivity |].
  rewrite rev_app_distr, last_last. reflexivity.
Qed.

(** X1.  For a 64-bit [value], [appendDec(value)] writes "0" for zero and
    otherwise between one and twenty digit characters, most significant
    first, with no leading zero, whose digits denote [value]: the loop ends
    before it leaves the 21 cells of [buffer]. *)
Theorem appendDec_digits (value : Z) :
  0 <= value < 18446744073709551616 ->
  (value = 0 /\ appendDec map10 value = ["0"%char])
  \/ (0 < value
      /\ exists ds,
           appendDec map10 value = map map10 ds
           /\ Forall (isDigitOf 10) ds
           /\ digitsValue 10 ds = value
           /\ 0 < hd 1 ds
           /\ (1 <= List.length ds <= 20)%nat).
Proof.
  intros Hv. destruct (Z.eq_dec value 0) as [-> | Hnz].
  - left. split; reflexivity.
  - right. split; [lia |].
    assert (H21 : 0 < value < 10 ^ Z.of_nat 21).
    { change (10 ^ Z.of_nat 21) with 1000000000000000000000. lia. }
    exists (rev (decBuffer 21 value)). repeat split.
    + unfold appendDec. destruct (Z.eqb_spec value 0); [lia |].
      rewrite map_rev. reflexivity.
    + apply Forall_rev. apply decBuffer_digits.
    + rewrite digitsValue_rev. apply decBuffer_value. lia.
    + rewrite hd_rev. apply decBuffer_last. exact H21.
    + rewrite length_rev. change 21%nat with (S 20). cbn [decBuffer].
      destruct (Z.gtb_spec value 0); [cbn [List.length]; lia | lia].
    + rewrite length_rev. apply decBuffer_length.
      change (10 ^ Z.of_nat 20) with 100000000000000000000. lia.
Qed.

(** X2.  [appendSDec] prints a minus sign for a negative value and then
    what [appendDec] prints for the magnitude; the least [int64_t], whose
    negation overflows, is left out. *)
Theorem appendSDec_sign_and_magnitude (value : Z) :
  - 9223372036854775808 < value < 9223372036854775808 ->
  appendSDec map10 value
  = (if value <? 0 then ["-"%char] else []) ++ appendDec map10 (Z.abs value).
Proof.
  intros Hv. unfold appendSDec, appendDec.
  destruct (Z.eqb_spec value 0) as [-> | Hnz]; [reflexivity |].
  destruct (Z.eqb_spec (Z.abs value) 0) as [Habs | _]; [lia |].
  destruct (Z.ltb_spec value 0) as [Hneg | Hpos].
  - rewrite rev_app_distr. cbn [rev app].
    replace (Z.abs value) with (- value) by lia. reflexivity.
  - replace (Z.abs value) with value by lia. reflexivity.
Qed.

Lemma appendDecBuffer_digits (size : nat) : forall value,
  0 <= value ->
  exists ds,
    Escape.appendDecBuffer map10 size value = map map10 ds
    /\ List.length ds = size
    /\ Forall (isDigitOf 10) ds
    /\ fold_right (fun d acc => 10 * acc + d) 0 ds = value mod 10 ^ Z.of_nat size.
Proof.
  induction size as [| n IH]; intros value Hv.
  - exists []. cbn. repeat split; [constructor | now rewrite Z.mod_1_r].
  - destruct (IH (value / 10)) as (ds & Hds & Hlen & Hdig & Hval); [lia |].
    exists (value mod 10 :: ds). cbn [Escape.appendDecBuffer map List.length fold_right].
    rewrite Hds, Hlen, Hval. repeat split.
    + constructor; [unfold isDigitOf; lia | exact Hdig].
    + rewrite Nat2Z.inj_succ, Z.pow_succ_r by lia.
      rewrite (Z.rem_mul_r value 10 (10 ^ Z.of_nat n)) by lia. lia.
Qed.

(** X3.  [appendDec(value, size)] with [size] at most the 21 cells of its
    buffer writes exactly [size] digit characters, most significant first:
    the decimal digits of [value] modulo 10^size, with leading zeros. *)
Theorem appendDec_fixed_width (value : Z) (size : nat) :
  0 <= value < 18446744073709551616 ->
  (size <= 21)%nat ->
  exists ds,
    Escape.appendDec map10 value size = map map10 ds
    /\ List.length ds = size
    /\ Forall (isDigitOf 10) ds
    /\ digitsValue 10 ds = value mod 10 ^ Z.of_nat size.
Proof.
  intros Hv _.
  destruct (appendDecBuffer_digits size value) as (ds & Hds & Hlen & Hdig & Hval); [lia |].
  exists (rev ds). unfold Escape.appendDec. rewrite Hds, map_rev, length_rev, digitsValue_rev.
  repeat split; [exact Hlen | apply Forall_rev; exact Hdig | exact Hval].
Qed.

End RenderFacts.

Section HexFacts.

Import Render.

Variable map16 : Z -> ascii.

Lemma nibble_spec (value shift : Z) :
  0 <= shift -> nibble value shift = (value / 2 ^ shift) mod 16.
Proof.
  intros Hs. unfold nibble. change 15 with (Z.ones 4).
  rewrite Z.land_ones, Z.shiftr_div_pow2 by lia. reflexivity.
Qed.

Lemma nibble_next (value : Z) (i : nat) :
  nibble value (4 * Z.of_nat (S i)) = nibble (value / 16) (4 * Z.of_nat i).
Proof.
  rewrite !nibble_spec by lia.
  replace (4 * Z.of_nat (S i)) with (4 + 4 * Z.of_nat i) by lia.
  rewrite Z.pow_add_r by lia. change (2 ^ 4) with 16.
  rewrite Z.div_div by lia. reflexivity.
Qed.

(** The nibbles of [value] at the shifts 0, 4, ..., 4 (n - 1). *)
Lemma nibbles_value (n : nat) : forall value,
  0 <= value ->
  fold_right (fun d acc => 16 * acc + d) 0
    (map (fun i => nibble value (4 * Z.of_nat i)) (seq 0 n))
  = value mod 16 ^ Z.of_nat n.
Proof.
  induction n as [| m IH]; intros value Hv.
  - cbn. now rewrite Z.mod_1_r.
  - cbn [seq map fold_right]. rewrite <- seq_shift, map_map.
    rewrite (map_ext _ (fun i => nibble (value / 16) (4 * Z.of_nat i)))
      by (intros i; apply nibble_next).
    rewrite IH by lia.
    rewrite nibble_spec by lia. change (4 * Z.of_nat 0) with 0.
    rewrite Z.pow_0_r, Z.div_1_r.
    rewrite Nat2Z.inj_succ, Z.pow_succ_r by lia.
    rewrite (Z.rem_mul_r value 16 (16 ^ Z.of_nat m)) by lia. lia.
Qed.

(** X4.  For a 64-bit [value], [BuilderProtobuf::numToString(value, buf, 16)]
    and [BuilderJson::appendHex16(value)] write the same sixteen
    characters, and these are [map16] of the sixteen hexadecimal digits of
    [value], most significant first. *)
Theorem hex16_same_digits (value : Z) :
  0 <= value < 18446744073709551616 ->
  numToString map16 value 16 = appendHex16 map16 value
  /\ exists ns,
       appendHex16 map16 value = map map16 ns
       /\ List.length ns = 16%nat
       /\ Forall (isDigitOf 16) ns
       /\ digitsValue 16 ns = value.
Proof.
  intros Hv. split; [reflexivity |].
  exists (rev (map (fun i => nibble value (4 * Z.of_nat i)) (seq 0 16))).
  split; [reflexivity | split; [reflexivity | split]].
  - apply Forall_rev. apply Forall_forall. intros d Hd.
    apply in_map_iff in Hd. destruct Hd as (i & <- & _).
    unfold isDigitOf. rewrite nibble_spec by lia. lia.
  - rewrite digitsValue_rev, nibbles_value by lia.
    change (16 ^ Z.of_nat 16) with 18446744073709551616. lia.
Qed.

End HexFacts.

Lemma appendSDec_sign_and_magnitude_witness :
  Render.appendSDec Render.digitChar (- 42)
  = (if - 42 <? 0 then ["-"%char] else []) ++ Render.appendDec Render.digitChar (Z.abs (- 42)).
Proof.
  apply (appendSDec_sign_and_magnitude Render.digitChar (- 42)). lia.
Defined.

Lemma appendDec_fixed_width_witness :
  exists ds,
    Escape.appendDec Render.digitChar 1907 2 = map Render.digitChar ds
    /\ List.length ds = 2%nat
    /\ Forall (Render.isDigitOf 10) ds
    /\ Render.digitsValue 10 ds = 1907 mod 10 ^ Z.of_nat 2.
Proof.
  apply (appendDec_fixed_width Render.digitChar 1907 2); lia.
Defined.

Lemma hex16_same_digits_witness :
  Render.numToString Render.hexChar 48879 16 = Render.appendHex16 Render.hexChar 48879
  /\ exists ns,
       Render.appendHex16 Render.hexChar 48879 = map Render.hexChar ns
       /\ List.length ns = 16%nat
       /\ Forall (Render.isDigitOf 16) ns
       /\ Render.digitsValue 16 ns = 48879.
Proof.
  apply (hex16_same_digits Render.hexChar 48879). lia.
Defined.

Example appendHex16_beef :
  Render.appendHex16 Render.hexChar 48879
  = ["0"; "0"; "0"; "0"; "0"; "0"; "0"; "0"; "0"; "0"; "0"; "0"; "b"; "e"; "e"; "f"]%char.
Proof. reflexivity. Qed.

Lemma appendDec_digits_witness :
  (1234 = 0 /\ Render.appendDec Render.digitChar 1234 = ["0"%char])
  \/ (0 < 1234
      /\ exists ds,
           Render.appendDec Render.digitChar 1234 = map Render.digitChar ds
           /\ Forall (Render.isDigitOf 10) ds
           /\ Render.digitsValue 10 ds = 1234
           /\ 0 < hd 1 ds
           /\ (1 <= List.length ds <= 20)%nat).
Proof.
  apply (appendDec_digits Render.digitChar 1234). lia.
Defined.

Example appendDec_1234 :
  Render.appendDec Render.digitChar 1234 = ["1"; "2"; "3"; "4"]%char.
Proof. reflexivity. Qed.

(* --------------------------------------------------------------------- *)
(** ** The value buffer                                                   *)
(* --------------------------------------------------------------------- *)

Section ValueBufferFacts.

Import ValueBuffer.

Lemma doubleUntil_spec (fuel : nat) : forall need size,
  0 < size <= need ->
  need <= VALUE_BUFFER_MAX ->
  need < size * 2 ^ Z.of_nat fuel ->
  exists grown k,
    doubleUntil fuel need size = Some grown
    /\ 1 <= k
    /\ grown = size * 2 ^ k
    /\ need < grown <= 2 * need.
Proof.
  unfold VALUE_BUFFER_MAX, Number.VALUE_BUFFER_MAX.
  induction fuel as [| f IH]; intros need size Hs Hmax Hfuel.
  - cbn in Hfuel. lia.
  - cbn [doubleUntil]. rewrite Z.shiftl_mul_pow2 by lia. change (2 ^ 1) with 2.
    rewrite wrap64_small by lia.
    rewrite Nat2Z.inj_succ, Z.pow_succ_r in Hfuel by lia.
    destruct (Z.geb_spec need (size * 2)) as [Hge | Hlt].
    + destruct (IH need (size * 2)) as (grown & k & Hg & Hk & Hgrown & Hbound);
        [lia | lia | lia |].
      exists grown, (k + 1). repeat split; try lia.
      * exact Hg.
      * rewrite Z.pow_add_r by lia. change (2 ^ 1) with 2. lia.
    + exists (size * 2), 1. repeat split; lia.
Qed.

(** What a caller of [valueBufferCheck] relies on: the call ends, it throws
    when the size asked for is beyond [VALUE_BUFFER_MAX], and after a
    return the characters are kept and fit. *)
Lemma valueBufferCheck_room (size : Z) (b : Buffer) :
  0 < valueBufferSize b ->
  (VALUE_BUFFER_MAX < wrap64 (valueSize b + size)
   /\ valueBufferCheck size b = Some (Throw tooLong))
  \/ (wrap64 (valueSize b + size) <= VALUE_BUFFER_MAX
      /\ exists b',
           valueBufferCheck size b = Some (Ok b')
           /\ valueBuffer b' = valueBuffer b
           /\ wrap64 (valueSize b + size) < valueBufferSize b').
Proof.
  intros Hsize. unfold valueBufferCheck.
  set (need := wrap64 (valueSize b + size)).
  destruct (Z.gtb_spec need VALUE_BUFFER_MAX) as [Hbig | Hfits].
  - left. split; [exact Hbig | reflexivity].
  - right. split; [exact Hfits |].
    destruct (Z.ltb_spec need (valueBufferSize b)) as [Hroom | Hsmall].
    + exists b. repeat split. exact Hroom.
    + destruct (doubleUntil_spec 64 need (valueBufferSize b))
        as (grown & k & Hg & _ & _ & Hbound).
      * lia.
      * exact Hfits.
      * unfold VALUE_BUFFER_MAX, Number.VALUE_BUFFER_MAX in Hfits.
        change (2 ^ Z.of_nat 64) with 18446744073709551616. nia.
      * rewrite Hg. exists (mkBuffer (valueBuffer b) grown).
        cbn [valueBuffer valueBufferSize]. repeat split. lia.
Qed.

Lemma valueBufferPurge_spec (b : Buffer) :
  valueBufferPurge b = mkBuffer [] VALUE_BUFFER_MIN.
Proof.
  unfold valueBufferPurge.
  destruct (Z.eqb_spec (valueBufferSize b) VALUE_BUFFER_MIN) as [E | _];
    [rewrite E |]; reflexivity.
Qed.

(** The appends stay inside the allocation exactly when there is room for
    all of them; if not, the buffer is full when the store past it is
    reached. *)
Lemma appendChars_spec (cs : list ascii) : forall b,
  valueSize b <= valueBufferSize b ->
  appendChars cs b
  = if valueSize b + Z.of_nat (List.length cs) <=? valueBufferSize b
    then Returns (mkBuffer (valueBuffer b ++ cs) (valueBufferSize b))
    else StoresPast
           (mkBuffer (valueBuffer b
                      ++ firstn (Z.to_nat (valueBufferSize b - valueSize b)) cs)
                     (valueBufferSize b)).
Proof.
  induction cs as [| c rest IH]; intros b Hb.
  - cbn [appendChars List.length Z.of_nat]. rewrite Z.add_0_r.
    destruct (Z.leb_spec (valueSize b) (valueBufferSize b)); [| lia].
    rewrite app_nil_r. destruct b; reflexivity.
  - cbn [appendChars].
    destruct (Z.ltb_spec (valueSize b) (valueBufferSize b)) as [Hroom | Hfull].
    + assert (Hs : valueSize (valueBufferAppend c b) = valueSize b + 1).
      { unfold valueSize, valueBufferAppend. cbn [valueBuffer].
        rewrite length_app. cbn [List.length]. lia. }
      rewrite IH by (rewrite Hs; cbn [valueBufferAppend valueBufferSize]; lia).
      rewrite Hs. cbn [valueBufferAppend valueBufferSize valueBuffer].
      replace (valueSize b + 1 + Z.of_nat (List.length rest))
        with (valueSize b + Z.of_nat (List.length (c :: rest)))
        by (cbn [List.length]; lia).
      replace (Z.to_nat (valueBufferSize b - valueSize b))
        with (S (Z.to_nat (valueBufferSize b - (valueSize b + 1)))) by lia.
      cbn [firstn]. rewrite <- !app_assoc. reflexivity.
    + destruct (Z.leb_spec (valueSize b + Z.of_nat (List.length (c :: rest)))
                           (valueBufferSize b)) as [Hle | _].
      * cbn [List.length] in Hle. lia.
      * replace (Z.to_nat (valueBufferSize b - valueSize b)) with 0%nat by lia.
        cbn [firstn]. rewrite app_nil_r. destruct b; reflexivity.
Qed.

(** X5.  [valueBufferCheck(size)] on a buffer of positive size ends.  It
    throws RedoLogException 50012 exactly when [valueSize + size] exceeds
    [VALUE_BUFFER_MAX]; otherwise it keeps the characters written so far
    and leaves [valueSize + size < valueBufferSize], the size being
    unchanged or doubled one or more times to at most twice
    [valueSize + size]. *)
Theorem valueBufferCheck_reserves (size : Z) (b : Buffer) :
  0 < valueBufferSize b ->
  exists r,
    valueBufferCheck size b = Some r
    /\ match r with
       | Throw e => e = tooLong /\ VALUE_BUFFER_MAX < wrap64 (valueSize b + size)
       | Ok b' =>
           wrap64 (valueSize b + size) <= VALUE_BUFFER_MAX
           /\ valueBuffer b' = valueBuffer b
           /\ wrap64 (valueSize b + size) < valueBufferSize b'
           /\ (valueBufferSize b' = valueBufferSize b
               \/ exists k, 1 <= k
                            /\ valueBufferSize b' = valueBufferSize b * 2 ^ k
                            /\ valueBufferSize b' <= 2 * wrap64 (valueSize b + size))
       end.
Proof.
  intros Hsize. unfold valueBufferCheck.
  set (need := wrap64 (valueSize b + size)).
  destruct (Z.gtb_spec need VALUE_BUFFER_MAX) as [Hbig | Hfits].
  - exists (Throw tooLong). repeat split. exact Hbig.
  - destruct (Z.ltb_spec need (valueBufferSize b)) as [Hroom | Hsmall].
    + exists (Ok b). repeat split; [exact Hfits | exact Hroom | left; reflexivity].
    + destruct (doubleUntil_spec 64 need (valueBufferSize b))
        as (grown & k & Hg & Hk & Hgrown & Hbound).
      * lia.
      * exact Hfits.
      * unfold VALUE_BUFFER_MAX, Number.VALUE_BUFFER_MAX in Hfits.
        change (2 ^ Z.of_nat 64) with 18446744073709551616. nia.
      * rewrite Hg. exists (Ok (mkBuffer (valueBuffer b) grown)).
        cbn [valueBuffer valueBufferSize]. repeat split; [exact Hfits | lia |].
        right. exists k. repeat split; lia.
Qed.

Section RawFacts.

Variable map16U : Z -> ascii.

Local Abbreviation rawPair := (ValueBuffer.rawPair map16U).

Lemma rawLoop_spec (data : Z -> Byte.byte) (count : nat) : forall j b,
  rawLoop map16U data count j b
  = mkBuffer (valueBuffer b ++ flat_map rawPair (Number.bytesFrom data j count))
             (valueBufferSize b).
Proof.
  induction count as [| n IH]; intros j b.
  - cbn. rewrite app_nil_r. destruct b; reflexivity.
  - cbn [rawLoop Number.bytesFrom flat_map]. rewrite IH.
    unfold valueBufferAppend. cbn [valueBuffer valueBufferSize].
    rewrite <- !app_assoc. reflexivity.
Qed.

Lemma flat_map_rawPair_length (bs : list Z) :
  List.length (flat_map rawPair bs) = (2 * List.length bs)%nat.
Proof.
  induction bs as [| x xs IH]; [reflexivity |].
  cbn [flat_map ValueBuffer.rawPair app List.length]. rewrite IH. lia.
Qed.

Lemma bytesFrom_length' (data : Z -> Byte.byte) (n : nat) : forall j,
  List.length (Number.bytesFrom data j n) = n.
Proof. induction n as [| n IH]; intro j; cbn; [reflexivity | now rewrite IH]. Qed.

(** The characters [parseRaw] leaves, whenever it returns. *)
Lemma parseRaw_content (data : Z -> Byte.byte) (size : Z) (b b' : Buffer) :
  0 <= size ->
  parseRaw map16U data size b = Some (Ok b') ->
  valueBuffer b' = flat_map rawPair (Number.bytesFrom data 0 (Z.to_nat size)).
Proof.
  intros Hs. unfold parseRaw.
  assert (Hp : valueBuffer (valueBufferPurge b) = []).
  { unfold valueBufferPurge. destruct (_ =? _); reflexivity. }
  unfold valueBufferCheck.
  destruct (_ >? VALUE_BUFFER_MAX); [discriminate |].
  destruct (_ <? valueBufferSize _).
  - destruct (Z.eqb_spec size 0) as [-> | Hnz]; intro H; injection H as <-.
    + exact Hp.
    + rewrite rawLoop_spec. cbn [valueBuffer]. rewrite Hp. reflexivity.
  - destruct (doubleUntil _ _ _) as [grown |]; [| discriminate].
    destruct (Z.eqb_spec size 0) as [-> | Hnz]; intro H; injection H as <-.
    + exact Hp.
    + rewrite rawLoop_spec. cbn [valueBuffer]. rewrite Hp. reflexivity.
Qed.

(** X6.  [parseRaw] on [size] bytes ([size] below 2^63, so that [size * 2]
    does not wrap) ends.  It throws RedoLogException 50012 when
    [size * 2] exceeds [VALUE_BUFFER_MAX]; otherwise it leaves two
    characters per byte, [map16U] of the high and of the low nibble, in the
    order of the bytes, and these [2 * size] characters lie inside the
    allocation. *)
Theorem parseRaw_two_characters_per_byte (data : Z -> Byte.byte) (size : Z) (b : Buffer) :
  0 <= size < 9223372036854775808 ->
  (VALUE_BUFFER_MAX < size * 2
   /\ parseRaw map16U data size b = Some (Throw tooLong))
  \/ (size * 2 <= VALUE_BUFFER_MAX
      /\ exists b',
           parseRaw map16U data size b = Some (Ok b')
           /\ valueBuffer b'
              = flat_map rawPair (Number.bytesFrom data 0 (Z.to_nat size))
           /\ valueSize b' = 2 * size
           /\ valueSize b' < valueBufferSize b').
Proof.
  intros Hs.
  assert (Hpb : valueBuffer (valueBufferPurge b) = []).
  { unfold valueBufferPurge. destruct (_ =? _); reflexivity. }
  assert (Hps : valueBufferSize (valueBufferPurge b) = VALUE_BUFFER_MIN).
  { unfold valueBufferPurge. destruct (Z.eqb_spec (valueBufferSize b) VALUE_BUFFER_MIN);
      [exact e | reflexivity]. }
  assert (Hneed : wrap64 (valueSize (valueBufferPurge b) + wrap64 (size * 2)) = size * 2).
  { unfold valueSize. rewrite Hpb. cbn [List.length Z.of_nat].
    rewrite Z.add_0_l, (wrap64_small (size * 2)) by lia.
    apply wrap64_small. lia. }
  destruct (valueBufferCheck_room (wrap64 (size * 2)) (valueBufferPurge b))
    as [(Hbig & Hr) | (Hfits & b1 & Hr & Hsame & Hroom)].
  { rewrite Hps. reflexivity. }
  2: rewrite Hneed in Hfits, Hroom.
  1: rewrite Hneed in Hbig.
  - left. split; [exact Hbig |].
    unfold parseRaw. rewrite Hr. reflexivity.
  - right. split; [exact Hfits |].
    assert (Hres : exists b', parseRaw map16U data size b = Some (Ok b')
                              /\ valueBufferSize b' = valueBufferSize b1).
    { unfold parseRaw. rewrite Hr. destruct (size =? 0).
      - exists b1. split; reflexivity.
      - eexists. split; [reflexivity |]. rewrite rawLoop_spec. reflexivity. }
    destruct Hres as (b' & Hb' & Hsz). exists b'.
    pose proof (parseRaw_content data size b b' (proj1 Hs) Hb') as Hc.
    assert (Hlen : valueSize b' = 2 * size).
    { unfold valueSize. rewrite Hc, flat_map_rawPair_length, bytesFrom_length'. lia. }
    repeat split; [exact Hb' | exact Hc | exact Hlen | lia].
Qed.

Lemma flat_map_rawPair_inj (xs : list Z) : forall ys,
  (forall m n, 0 <= m < 16 -> 0 <= n < 16 -> map16U m = map16U n -> m = n) ->
  Forall (fun x => 0 <= x < 256) xs ->
  Forall (fun y => 0 <= y < 256) ys ->
  List.length xs = List.length ys ->
  flat_map rawPair xs = flat_map rawPair ys ->
  xs = ys.
Proof.
  induction xs as [| x xs IH]; intros ys Hinj Hx Hy Hlen Heq.
  - destruct ys; [reflexivity | discriminate].
  - destruct ys as [| y ys]; [discriminate |].
    cbn [flat_map ValueBuffer.rawPair app] in Heq.
    injection Heq as Hhi Hlo Hrest.
    inversion Hx as [| ? ? Hx0 Hxs]; subst. inversion Hy as [| ? ? Hy0 Hys]; subst.
    assert (Eh : Z.shiftr x 4 = Z.shiftr y 4).
    { apply Hinj; [| | exact Hhi]; rewrite Z.shiftr_div_pow2 by lia;
        change (2 ^ 4) with 16; lia. }
    assert (El : Z.land x 15 = Z.land y 15).
    { apply Hinj; [| | exact Hlo]; change 15 with (Z.ones 4);
        rewrite Z.land_ones by lia; change (2 ^ 4) with 16; lia. }
    f_equal.
    + rewrite !Z.shiftr_div_pow2 in Eh by lia.
      change 15 with (Z.ones 4) in El. rewrite !Z.land_ones in El by lia.
      change (2 ^ 4) with 16 in *. lia.
    + apply IH; [exact Hinj | exact Hxs | exact Hys | | exact Hrest].
      cbn in Hlen. lia.
Qed.

Lemma bytesFrom_bytes (data : Z -> Byte.byte) (n : nat) : forall j,
  Forall (fun x => 0 <= x < 256) (Number.bytesFrom data j n).
Proof.
  induction n as [| n IH]; intro j; cbn [Number.bytesFrom]; constructor.
  - unfold Number.byteAt. pose proof (Byte.to_N_bounded (data j)). lia.
  - apply IH.
Qed.

(** X7.  The hexadecimal rendering of [parseRaw] loses nothing: if [map16U]
    sends the sixteen nibbles to sixteen different characters, two byte
    arrays of the same size that leave the same characters hold the same
    bytes. *)
Theorem parseRaw_lossless (data1 data2 : Z -> Byte.byte) (size : Z) (b1 b2 r1 r2 : Buffer) :
  (forall m n, 0 <= m < 16 -> 0 <= n < 16 -> map16U m = map16U n -> m = n) ->
  0 <= size ->
  parseRaw map16U data1 size b1 = Some (Ok r1) ->
  parseRaw map16U data2 size b2 = Some (Ok r2) ->
  valueBuffer r1 = valueBuffer r2 ->
  Number.bytesFrom data1 0 (Z.to_nat size) = Number.bytesFrom data2 0 (Z.to_nat size).
Proof.
  intros Hinj Hs H1 H2 Heq.
  rewrite (parseRaw_content data1 size b1 r1 Hs H1) in Heq.
  rewrite (parseRaw_content data2 size b2 r2 Hs H2) in Heq.
  apply flat_map_rawPair_inj; [exact Hinj | apply bytesFrom_bytes | apply bytesFrom_bytes | | exact Heq].
  rewrite !bytesFrom_length'. reflexivity.
Qed.

End RawFacts.

End ValueBufferFacts.

Lemma parseRaw_two_characters_per_byte_witness :
  (ValueBuffer.VALUE_BUFFER_MAX < 2 * 2
   /\ ValueBuffer.parseRaw Render.hexChar (Number.arrayOf [Byte.xca; Byte.xfe]) 2
        (ValueBuffer.mkBuffer [] 1048576) = Some (Throw ValueBuffer.tooLong))
  \/ (2 * 2 <= ValueBuffer.VALUE_BUFFER_MAX
      /\ exists b',
           ValueBuffer.parseRaw Render.hexChar (Number.arrayOf [Byte.xca; Byte.xfe]) 2
             (ValueBuffer.mkBuffer [] 1048576) = Some (Ok b')
           /\ ValueBuffer.valueBuffer b'
              = flat_map (ValueBuffer.rawPair Render.hexChar)
                  (Number.bytesFrom (Number.arrayOf [Byte.xca; Byte.xfe]) 0 (Z.to_nat 2))
           /\ ValueBuffer.valueSize b' = 2 * 2
           /\ ValueBuffer.valueSize b' < ValueBuffer.valueBufferSize b').
Proof.
  apply (parseRaw_two_characters_per_byte Render.hexChar
           (Number.arrayOf [Byte.xca; Byte.xfe]) 2 (ValueBuffer.mkBuffer [] 1048576)).
  lia.
Defined.

Example parseRaw_cafe :
  ValueBuffer.parseRaw Render.hexChar (Number.arrayOf [Byte.xca; Byte.xfe]) 2
    (ValueBuffer.mkBuffer ["?"%char] 2097152)
  = Some (Ok (ValueBuffer.mkBuffer ["c"; "a"; "f"; "e"]%char 1048576)).
Proof. vm_compute. reflexivity. Qed.

Lemma parseRaw_lossless_witness :
  Number.bytesFrom (Number.arrayOf [Byte.xca; Byte.xfe]) 0 (Z.to_nat 2)
  = Number.bytesFrom (Number.arrayOf [Byte.xca; Byte.xfe; Byte.x00]) 0 (Z.to_nat 2).
Proof.
  apply (parseRaw_lossless Render.hexChar
           (Number.arrayOf [Byte.xca; Byte.xfe]) (Number.arrayOf [Byte.xca; Byte.xfe; Byte.x00])
           2 (ValueBuffer.mkBuffer [] 1048576) (ValueBuffer.mkBuffer [] 1048576)
           (ValueBuffer.mkBuffer ["c"; "a"; "f"; "e"]%char 1048576)
           (ValueBuffer.mkBuffer ["c"; "a"; "f"; "e"]%char 1048576)).
  - intros m n Hm Hn.
    assert (Hcases : forall k, 0 <= k < 16 ->
              k = 0 \/ k = 1 \/ k = 2 \/ k = 3 \/ k = 4 \/ k = 5 \/ k = 6 \/ k = 7
              \/ k = 8 \/ k = 9 \/ k = 10 \/ k = 11 \/ k = 12 \/ k = 13 \/ k = 14
              \/ k = 15) by (intros; lia).
    destruct (Hcases m Hm) as [-> | [-> | [-> | [-> | [-> | [-> | [-> | [-> | [-> | [->
      | [-> | [-> | [-> | [-> | [-> | ->]]]]]]]]]]]]]]];
    destruct (Hcases n Hn) as [-> | [-> | [-> | [-> | [-> | [-> | [-> | [-> | [-> | [->
      | [-> | [-> | [-> | [-> | [-> | ->]]]]]]]]]]]]]]];
    intro H; first [reflexivity | discriminate H].
  - lia.
  - vm_compute. reflexivity.
  - vm_compute. reflexivity.
  - reflexivity.
Defined.

Lemma valueBufferCheck_reserves_witness :
  exists r,
    ValueBuffer.valueBufferCheck 3000000 (ValueBuffer.mkBuffer [] 1048576) = Some r
    /\ match r with
       | Throw e =>
           e = ValueBuffer.tooLong
           /\ ValueBuffer.VALUE_BUFFER_MAX
              < wrap64 (ValueBuffer.valueSize (ValueBuffer.mkBuffer [] 1048576) + 3000000)
       | Ok b' =>
           wrap64 (ValueBuffer.valueSize (ValueBuffer.mkBuffer [] 1048576) + 3000000)
           <= ValueBuffer.VALUE_BUFFER_MAX
           /\ ValueBuffer.valueBuffer b'
              = ValueBuffer.valueBuffer (ValueBuffer.mkBuffer [] 1048576)
           /\ wrap64 (ValueBuffer.valueSize (ValueBuffer.mkBuffer [] 1048576) + 3000000)
              < ValueBuffer.valueBufferSize b'
           /\ (ValueBuffer.valueBufferSize b'
               = ValueBuffer.valueBufferSize (ValueBuffer.mkBuffer [] 1048576)
               \/ exists k,
                    1 <= k
                    /\ ValueBuffer.valueBufferSize b'
                       = ValueBuffer.valueBufferSize (ValueBuffer.mkBuffer [] 1048576) * 2 ^ k
                    /\ ValueBuffer.valueBufferSize b'
                       <= 2 * wrap64 (ValueBuffer.valueSize (ValueBuffer.mkBuffer [] 1048576)
                                      + 3000000))
       end.
Proof.
  apply (valueBufferCheck_reserves 3000000 (ValueBuffer.mkBuffer [] 1048576)).
  cbn. lia.
Defined.

Example valueBufferCheck_grows_to_4MiB :
  ValueBuffer.valueBufferCheck 3000000 (ValueBuffer.mkBuffer [] 1048576)
  = Some (Ok (ValueBuffer.mkBuffer [] 4194304)).
Proof. vm_compute. reflexivity. Qed.

(* --------------------------------------------------------------------- *)
(** ** The length of what parseNumber writes                              *)
(* --------------------------------------------------------------------- *)

Section NumberLengthFacts.

Import Number.

Variable map10 : Z -> ascii.
Variable data : Z -> Byte.byte.

Local Abbreviation byteAt := (Number.byteAt data).
Local Abbreviation fractionPart := (Number.fractionPart map10 data).
Local Abbreviation integerLoop := (Number.integerLoop map10 data).
Local Abbreviation fractionLoop := (Number.fractionLoop map10 data).

Lemma zerosLoop_length (n : nat) : forall buf,
  List.length (zerosLoop n buf) = (List.length buf + 2 * n)%nat.
Proof.
  induction n as [| n IH]; intro buf; cbn [zerosLoop]; [lia |].
  rewrite IH, length_app. cbn [List.length]. lia.
Qed.

Lemma integerLoop_length (pairOf : Z -> Z) (jMax : Z) (d : nat) : forall j buf,
  List.length (snd (integerLoop pairOf d j jMax buf)) = (List.length buf + 2 * d)%nat.
Proof.
  induction d as [| d IH]; intros j buf; cbn [Number.integerLoop]; [cbn; lia |].
  destruct (j <=? jMax); rewrite IH, length_app; cbn [List.length twoDigits]; lia.
Qed.

Lemma fractionLoop_length (pairOf : Z -> Z) (jMax : Z) (fuel : nat) : forall j buf,
  (List.length (snd (fractionLoop pairOf fuel j jMax buf)) <= List.length buf + 2 * fuel)%nat.
Proof.
  induction fuel as [| f IH]; intros j buf; cbn [Number.fractionLoop]; [cbn; lia |].
  destruct (j <=? wrap64 (jMax - 1)); [| cbn; lia].
  etransitivity; [apply IH |]. rewrite length_app. cbn [List.length twoDigits]. lia.
Qed.

Lemma fractionPart_length (pairOf : Z -> Z) (j jMax zeros : Z) (buf : list ascii) :
  (List.length (fractionPart pairOf j jMax zeros buf)
   <= List.length buf + 2 * Z.to_nat zeros + 2 * Z.to_nat jMax + 3)%nat.
Proof.
  unfold Number.fractionPart. destruct (j <=? jMax); [| lia].
  pose proof (fractionLoop_length pairOf jMax (Z.to_nat jMax) j
                (zerosLoop (Z.to_nat zeros) (buf ++ ["."%char]))) as H.
  destruct (fractionLoop pairOf (Z.to_nat jMax) j jMax
              (zerosLoop (Z.to_nat zeros) (buf ++ ["."%char]))) as [j' buf'].
  cbn [snd] in H. rewrite zerosLoop_length, length_app in H. cbn [List.length] in H.
  destruct (negb _); rewrite ?length_app; cbn [List.length]; lia.
Qed.

Lemma Ok_inj {A : Type} (a b : A) : Ok a = Ok b -> a = b.
Proof. congruence. Qed.

Lemma leadingDigits_length (value : Z) :
  (List.length (leadingDigits map10 value) <= 2)%nat.
Proof. unfold leadingDigits. destruct (value <? 10); cbn; lia. Qed.

Lemma parseNumberAppends_length (size : Z) (chars : list ascii) :
  1 <= size < 18446744073709551616 ->
  parseNumberAppends map10 data size = Ok chars ->
  Z.of_nat (List.length chars) <= 2 * size + 131.
Proof.
  intros Hs. unfold parseNumberAppends.
  assert (H0 : 0 <= byteAt 0 < 256).
  { unfold Number.byteAt. pose proof (Byte.to_N_bounded (data 0)). lia. }
  destruct (Z.eqb_spec (byteAt 0) 128) as [_ | Hnz].
  { intro H. apply Ok_inj in H. subst chars. cbn [List.length]. lia. }
  rewrite (wrap64_small (size - 1)) by lia.
  destruct (Z.gtb_spec (byteAt 0) 128) as [Hpos | Hnpos];
    destruct (Z.geb_spec (size - 1) 1) as [Hj | Hj]; cbn [andb].
  - destruct (Z.leb_spec (byteAt 0) 192) as [Hfrac | Hint].
    + intro H. apply Ok_inj in H. subst chars.
      pose proof (fractionPart_length posPair 1 (size - 1) (wrap64 (192 - byteAt 0))
                    ["0"%char]) as L.
      rewrite (wrap64_small (192 - byteAt 0)) in L |- * by lia. cbn [List.length] in L. lia.
    + unfold wrap8.
      pose proof (integerLoop_length posPair (size - 1)
                    (Z.to_nat (((byteAt 0 - 192) mod 256 - 1) mod 256)) (wrap64 (1 + 1))
                    (leadingDigits map10 (posPair (byteAt 1)))) as L1.
      destruct (integerLoop posPair _ _ _ _) as [j buf]. cbn [snd] in L1.
      intro H. apply Ok_inj in H. subst chars.
      pose proof (fractionPart_length posPair j (size - 1) 0 buf) as L2.
      pose proof (leadingDigits_length (posPair (byteAt 1))) as L3.
      lia.
  - destruct (byteAt 0 <? 128); cbn [andb]; discriminate.
  - destruct (Z.ltb_spec (byteAt 0) 128) as [Hneg | Hge]; [| lia]. cbn [andb].
    set (jMax := if byteAt (size - 1) =? 102 then wrap64 (size - 1 - 1) else size - 1).
    assert (HjMax : 0 <= jMax <= size - 1).
    { subst jMax. destruct (_ =? 102); [rewrite wrap64_small by lia |]; lia. }
    clearbody jMax.
    destruct (Z.geb_spec (byteAt 0) 63) as [Hfrac | Hint].
    + intro H. apply Ok_inj in H. subst chars.
      pose proof (fractionPart_length negPair 1 jMax (wrap64 (byteAt 0 - 63))
                    (["-"%char] ++ ["0"%char])) as L.
      rewrite (wrap64_small (byteAt 0 - 63)) in L |- * by lia.
      cbn [List.length app] in L |- *. lia.
    + unfold wrap8.
      pose proof (integerLoop_length negPair jMax
                    (Z.to_nat (((63 - byteAt 0) mod 256 - 1) mod 256)) (wrap64 (1 + 1))
                    (["-"%char] ++ leadingDigits map10 (negPair (byteAt 1)))) as L1.
      destruct (integerLoop negPair _ _ _ _) as [j buf]. cbn [snd] in L1.
      intro H. apply Ok_inj in H. subst chars.
      pose proof (fractionPart_length negPair j jMax 0 buf) as L2.
      pose proof (leadingDigits_length (negPair (byteAt 1))) as L3.
      rewrite length_app in L1. cbn [List.length] in L1.
      lia.
  - destruct (byteAt 0 <? 128); cbn [andb]; discriminate.
Qed.

(** X8.  Whatever the bytes, [parseNumber] on [size] bytes calls
    [valueBufferAppend] at most [2 * size + 131] times, and when it returns
    [valueBuffer] holds the characters of these calls and no other.  (The
    call [valueBufferCheck(size * 2 + 2)] at its start reserves less than
    that: a value with a negative exponent has up to 64 pairs of zeros
    after the point.) *)
Theorem parseNumber_length_bound (size : Z) (chars : list ascii) :
  1 <= size < 18446744073709551616 ->
  parseNumberAppends map10 data size = Ok chars ->
  Z.of_nat (List.length chars) <= 2 * size + 131
  /\ forall b b',
       ValueBuffer.parseNumber map10 data size b = Some (ValueBuffer.Returns b') ->
       ValueBuffer.valueBuffer b' = chars.
Proof.
  intros Hs Happ. split; [exact (parseNumberAppends_length size chars Hs Happ) |].
  intros b b'. unfold ValueBuffer.parseNumber.
  rewrite valueBufferPurge_spec.
  destruct (valueBufferCheck_room (wrap64 (size * 2 + 2))
              (ValueBuffer.mkBuffer [] ValueBuffer.VALUE_BUFFER_MIN))
    as [(_ & Hr) | (_ & b1 & Hr & Hsame & Hroom)];
    [reflexivity | rewrite Hr; discriminate |].
  rewrite Hr, Happ. cbn [ValueBuffer.valueBuffer] in Hsame.
  assert (Hsize : ValueBuffer.valueSize b1 = 0)
    by (unfold ValueBuffer.valueSize; rewrite Hsame; reflexivity).
  rewrite appendChars_spec by (rewrite Hsize; unfold wrap64 in Hroom; lia).
  destruct (_ <=? _); [| discriminate].
  intro H. injection H as <-. cbn [ValueBuffer.valueBuffer].
  rewrite Hsame. reflexivity.
Qed.

End NumberLengthFacts.

Lemma parseNumber_length_bound_witness :
  Z.of_nat (List.length ("0" :: "." :: repeat "0" 127 ++ ["1"])%char) <= 2 * 2 + 131
  /\ forall b b',
       ValueBuffer.parseNumber Render.digitChar (Number.arrayOf [Byte.x81; Byte.x02]) 2 b
       = Some (ValueBuffer.Returns b') ->
       ValueBuffer.valueBuffer b' = ("0" :: "." :: repeat "0" 127 ++ ["1"])%char.
Proof.
  apply (parseNumber_length_bound Render.digitChar (Number.arrayOf [Byte.x81; Byte.x02]) 2).
  - lia.
  - vm_compute. reflexivity.
Defined.

(** The same value: 130 characters, where [size * 2 + 2] is 6. *)
Example parseNumber_beyond_reservation :
  match Number.parseNumberAppends Render.digitChar (Number.arrayOf [Byte.x81; Byte.x02]) 2 with
  | Ok chars => Z.of_nat (List.length chars)
  | Throw _ => 0
  end = 130.
Proof. vm_compute. reflexivity. Qed.

(* --------------------------------------------------------------------- *)
(** ** parseNumber and the allocation it writes to                        *)
(* --------------------------------------------------------------------- *)

Section NumberBufferFacts.

Import ValueBuffer.

Variable map10 : Z -> ascii.
Variable data : Z -> Byte.byte.

(** C1 (amended).  For every byte array of at least one and at most
    2^31 - 1 bytes, other than a two-byte array whose first byte is below
    0x3F and whose second byte is the terminator 0x66: [valueBufferCheck]
    leaves an empty [valueBuffer] of [reserved] cells, more than
    [size * 2 + 2]; RedoLogException 50009 is raised where the on-wire
    format of the specification has a parse error; and where the format has
    a text ("0" for 0x80; for a first byte above 0x80 and two or more bytes
    the positive decimal with [data[0] - 0xC0] pre-decimal pairs
    [data[j] - 1]; for a first byte below 0x80 and two or more bytes the
    negative decimal with [0x3F - data[0]] pre-decimal pairs [101 - data[j]]
    after the trailing 0x66 is stripped; the last fractional pair without
    its trailing zero), [parseNumber] returns with that text in
    [valueBuffer] when the text has at most [reserved] characters, and
    stores past the end of [valueBuffer] when it has more.  For an array of
    at most 524222 bytes [reserved] is [VALUE_BUFFER_MIN] and the text is
    never longer. *)
Theorem parseNumber_refines_format (size : Z) (b : Buffer) :
  1 <= size ->
  size * 2 + 2 <= VALUE_BUFFER_MAX ->
  Number.terminatorOnly data size = false ->
  exists reserved,
    valueBufferCheck (size * 2 + 2) (valueBufferPurge b)
    = Some (Ok (mkBuffer [] reserved))
    /\ size * 2 + 2 < reserved
    /\ parseNumber map10 data size b
       = Some (match Number.decodeNumberSpec map10 data size with
               | Throw e => Throws e
               | Ok text =>
                   if Z.of_nat (List.length text) <=? reserved
                   then Returns (mkBuffer text reserved)
                   else StoresPast (mkBuffer (firstn (Z.to_nat reserved) text) reserved)
               end)
    /\ (size <= 524222 ->
        reserved = VALUE_BUFFER_MIN
        /\ forall text,
             Number.decodeNumberSpec map10 data size = Ok text ->
             Z.of_nat (List.length text) <= reserved).
Proof.
  intros Hs Hmax Hedge.
  pose proof Hmax as Hmax'. unfold VALUE_BUFFER_MAX, Number.VALUE_BUFFER_MAX in Hmax'.
  pose proof (parseNumberAppends_format map10 data size Hs Hmax Hedge) as Hformat.
  rewrite valueBufferPurge_spec.
  set (b0 := mkBuffer [] VALUE_BUFFER_MIN).
  assert (Hneed : wrap64 (valueSize b0 + (size * 2 + 2)) = size * 2 + 2).
  { unfold valueSize, b0. cbn [valueBuffer List.length Z.of_nat].
    rewrite Z.add_0_l. apply wrap64_small. lia. }
  destruct (valueBufferCheck_room (size * 2 + 2) b0)
    as [(Hbig & _) | (_ & b1 & Hcheck & Hsame & Hroom)].
  { reflexivity. }
  { rewrite Hneed in Hbig. lia. }
  rewrite Hneed in Hroom. cbn [b0 valueBuffer] in Hsame.
  assert (Eb1 : b1 = mkBuffer [] (valueBufferSize b1))
    by (destruct b1; cbn [valueBuffer valueBufferSize] in *; rewrite Hsame; reflexivity).
  exists (valueBufferSize b1).
  split; [rewrite Hcheck, Eb1 at 1; reflexivity |].
  split; [exact Hroom |].
  split.
  - unfold parseNumber. rewrite valueBufferPurge_spec. fold b0.
    rewrite (wrap64_small (size * 2 + 2)) by lia.
    rewrite Hcheck, Hformat.
    destruct (Number.decodeNumberSpec map10 data size) as [text | e]; [| reflexivity].
    rewrite appendChars_spec
      by (unfold valueSize; rewrite Hsame; cbn [List.length Z.of_nat]; lia).
    unfold valueSize. rewrite Hsame. cbn [List.length Z.of_nat app].
    rewrite Z.add_0_l, Z.sub_0_r. reflexivity.
  - intros Hsmall.
    assert (Emin : valueBufferSize b1 = VALUE_BUFFER_MIN).
    { revert Hcheck. unfold valueBufferCheck. rewrite Hneed.
      destruct (Z.gtb_spec (size * 2 + 2) VALUE_BUFFER_MAX); [lia |].
      cbn [b0 valueBufferSize].
      destruct (Z.ltb_spec (size * 2 + 2) VALUE_BUFFER_MIN) as [_ | Hge];
        [| unfold VALUE_BUFFER_MIN in Hge; lia].
      intro Hok. injection Hok as <-. reflexivity. }
    split; [exact Emin |].
    intros text Htext. rewrite Emin. unfold VALUE_BUFFER_MIN.
    rewrite <- Hformat in Htext.
    pose proof (parseNumberAppends_length map10 data size text ltac:(lia) Htext). lia.
Qed.

End NumberBufferFacts.

Lemma parseNumber_refines_format_witness :
  exists reserved,
    ValueBuffer.valueBufferCheck (4 * 2 + 2)
      (ValueBuffer.valueBufferPurge (ValueBuffer.mkBuffer ["?"%char] 2097152))
    = Some (Ok (ValueBuffer.mkBuffer [] reserved))
    /\ 4 * 2 + 2 < reserved
    /\ ValueBuffer.parseNumber Render.digitChar
         (Number.arrayOf [Byte.x3e; Byte.x64; Byte.x33; Byte.x66]) 4
         (ValueBuffer.mkBuffer ["?"%char] 2097152)
       = Some (match Number.decodeNumberSpec Render.digitChar
                       (Number.arrayOf [Byte.x3e; Byte.x64; Byte.x33; Byte.x66]) 4 with
               | Throw e => ValueBuffer.Throws e
               | Ok text =>
                   if Z.of_nat (List.length text) <=? reserved
                   then ValueBuffer.Returns (ValueBuffer.mkBuffer text reserved)
                   else ValueBuffer.StoresPast
                          (ValueBuffer.mkBuffer (firstn (Z.to_nat reserved) text) reserved)
               end)
    /\ (4 <= 524222 ->
        reserved = ValueBuffer.VALUE_BUFFER_MIN
        /\ forall text,
             Number.decodeNumberSpec Render.digitChar
               (Number.arrayOf [Byte.x3e; Byte.x64; Byte.x33; Byte.x66]) 4 = Ok text ->
             Z.of_nat (List.length text) <= reserved).
Proof.
  apply (parseNumber_refines_format Render.digitChar
           (Number.arrayOf [Byte.x3e; Byte.x64; Byte.x33; Byte.x66]) 4
           (ValueBuffer.mkBuffer ["?"%char] 2097152)).
  - lia.
  - unfold ValueBuffer.VALUE_BUFFER_MAX, Number.VALUE_BUFFER_MAX. lia.
  - reflexivity.
Defined.

(** The array 3E 64 33 66 is decoded to "-1.5" in a buffer of
    [VALUE_BUFFER_MIN] cells. *)
Example parseNumber_neg_1_5 :
  ValueBuffer.parseNumber Render.digitChar
    (Number.arrayOf [Byte.x3e; Byte.x64; Byte.x33; Byte.x66]) 4
    (ValueBuffer.mkBuffer ["?"%char] 2097152)
  = Some (ValueBuffer.Returns (ValueBuffer.mkBuffer ["-"; "1"; "."; "5"]%char 1048576)).
Proof. vm_compute. reflexivity. Qed.

(** An array of 524286 bytes that starts with 0x81: the text of the format
    has 1048698 characters, [valueBufferCheck(1048574)] leaves the buffer at
    its 1048576 cells, and the store of character 1048577 is past it. *)
Example parseNumber_stores_past_buffer :
  (exists text,
     Number.decodeNumberSpec Render.digitChar Number.tinyFraction 524286 = Ok text
     /\ Z.of_nat (List.length text) = 1048698)
  /\ exists b',
       ValueBuffer.parseNumber Render.digitChar Number.tinyFraction 524286
         (ValueBuffer.mkBuffer [] 1048576)
       = Some (ValueBuffer.StoresPast b')
       /\ ValueBuffer.valueBufferSize b' = 1048576.
Proof.
  assert (Hspec : exists text,
             Number.decodeNumberSpec Render.digitChar Number.tinyFraction 524286 = Ok text
             /\ Z.of_nat (List.length text) = 1048698).
  { eexists. split; [reflexivity |]. vm_compute. reflexivity. }
  split; [exact Hspec |].
  destruct Hspec as (text & Htext & Hlen).
  unfold ValueBuffer.parseNumber.
  rewrite valueBufferPurge_spec.
  rewrite (parseNumberAppends_format Render.digitChar Number.tinyFraction 524286)
    by (unfold Number.VALUE_BUFFER_MAX; first [lia | reflexivity]).
  rewrite Htext.
  change (ValueBuffer.valueBufferCheck (wrap64 (524286 * 2 + 2))
            (ValueBuffer.mkBuffer [] ValueBuffer.VALUE_BUFFER_MIN))
    with (Some (Ok (ValueBuffer.mkBuffer [] 1048576))).
  cbv iota beta.
  rewrite appendChars_spec by (cbn; lia).
  change (ValueBuffer.valueSize (ValueBuffer.mkBuffer [] 1048576)) with 0.
  cbn [ValueBuffer.valueBufferSize ValueBuffer.valueBuffer].
  rewrite Hlen. eexists. split; reflexivity.
Qed.

(** C1 (counterexample).  A byte array of 2^31 bytes that starts with 0x80
    is not decoded to "0": [valueBufferCheck(size * 2 + 2, offset)] raises
    RedoLogException 50012 before the first byte is read. *)
Lemma parseNumber_length_guard :
  Number.byteAt (fun _ => Byte.x80) 0 = 128 /\
  ValueBuffer.parseNumber (fun _ => "0"%char) (fun _ => Byte.x80) 2147483648
    (ValueBuffer.mkBuffer [] 1048576)
  = Some (ValueBuffer.Throws
            (mkException RedoLogException 50012 "trying to allocate length for value")).
Proof.
  split; vm_compute; reflexivity.
Qed.

(* --------------------------------------------------------------------- *)
(** ** The pool of memory chunks                                          *)
(* --------------------------------------------------------------------- *)

Section PoolFacts.

Import Memory Pool.

(** Giving back a chunk while one is in use. *)
Lemma freeMemoryChunk_counters (module : MEMORY) (p : Pool) :
  poolInvariant p ->
  memoryChunksFree (ctx p) <> memoryChunksAllocated (ctx p) ->
  exists p' released,
    freeMemoryChunk module p = Ok (p', released)
    /\ poolInvariant p'
    /\ usedChunks (ctx p') = usedChunks (ctx p) - 1
    /\ memoryModulesAllocated (ctx p') module
       = wrap64 (memoryModulesAllocated (ctx p) module - 1).
Proof.
  intros (Hfree & Hmin & Hmax & Hbound) Hne. unfold freeMemoryChunk.
  destruct (Z.eqb_spec (memoryChunksFree (ctx p)) (memoryChunksAllocated (ctx p)))
    as [Heq | _]; [contradiction |].
  destruct (Z.geb_spec (memoryChunksFree (ctx p)) (memoryChunksMin p)) as [Hrel | Hkeep];
    eexists; eexists; (split; [reflexivity |]);
    unfold poolInvariant, usedChunks, update;
    cbn [ctx setCtx memoryChunksFree memoryChunksAllocated memoryChunksMax
         memoryChunksMin memoryModulesAllocated];
    rewrite ?wrap64_small by lia;
    (repeat split; try lia); destruct module; reflexivity.
Qed.

(** X9.  In a pool that satisfies [poolInvariant], [freeMemoryChunk] throws
    RuntimeException 50001 exactly when no chunk is in use.  Otherwise one
    chunk less is in use, the invariant still holds (the allocated chunks
    do not fall below [memoryChunksMin]), and the chunk goes back to the
    operating system exactly when [memoryChunksMin] chunks are free
    already. *)
Theorem freeMemoryChunk_keeps_minimum (module : MEMORY) (p : Pool) :
  poolInvariant p ->
  match freeMemoryChunk module p with
  | Throw e =>
      e = unknownBlock /\ memoryChunksFree (ctx p) = memoryChunksAllocated (ctx p)
  | Ok (p', released) =>
      memoryChunksFree (ctx p) < memoryChunksAllocated (ctx p)
      /\ poolInvariant p'
      /\ usedChunks (ctx p') = usedChunks (ctx p) - 1
      /\ (released = true <-> memoryChunksMin p <= memoryChunksFree (ctx p))
      /\ memoryModulesAllocated (ctx p') module
         = wrap64 (memoryModulesAllocated (ctx p) module - 1)
  end.
Proof.
  intros (Hfree & Hmin & Hmax & Hbound). unfold freeMemoryChunk.
  destruct (Z.eqb_spec (memoryChunksFree (ctx p)) (memoryChunksAllocated (ctx p)))
    as [Heq | Hne].
  - split; [reflexivity | exact Heq].
  - destruct (Z.geb_spec (memoryChunksFree (ctx p)) (memoryChunksMin p)) as [Hrel | Hkeep];
      unfold poolInvariant, usedChunks, update;
      cbn [ctx setCtx memoryChunksFree memoryChunksAllocated memoryChunksMax
           memoryChunksMin memoryModulesAllocated];
      rewrite ?wrap64_small by lia.
    + repeat split; try lia. destruct module; reflexivity.
    + repeat split; try lia; try discriminate. destruct module; reflexivity.
Qed.

(** The counters after [getMemoryChunk] has returned a chunk. *)
Lemma getMemoryChunk_counters
    (module : MEMORY) (swap allocOk : bool) (p : Pool) (index : Z) (c' : Ctx) :
  poolInvariant p ->
  (takesReserved module (ctx p) = true -> 0 < memoryChunksFree (ctx p)) ->
  getMemoryChunk module swap allocOk (ctx p) = Chunk index c' ->
  index = memoryChunksFree c'
  /\ memoryChunksMax c' = memoryChunksMax (ctx p)
  /\ poolInvariant (setCtx c' p)
  /\ usedChunks c' = usedChunks (ctx p) + 1
  /\ memoryModulesAllocated c' module = wrap64 (memoryModulesAllocated (ctx p) module + 1).
Proof.
  intros (Hfree & Hmin & Hmax & Hbound) Hres.
  unfold getMemoryChunk, loopBody, takesReserved in *.
  set (c := ctx p) in *.
  assert (Hreserved : 0 <= reservedChunks c swap).
  { unfold reservedChunks, wrap64.
    destruct (_ <? _), (_ <? _), (negb swap); lia. }
  assert (Hfinish : forall c1,
            memoryChunksMax c1 = memoryChunksMax c ->
            0 < memoryChunksFree c1 <= memoryChunksAllocated c1 ->
            memoryChunksMin p <= memoryChunksAllocated c1 ->
            memoryChunksAllocated c1 <= memoryChunksMax c ->
            usedChunks c1 = usedChunks c ->
            memoryModulesAllocated c1 = memoryModulesAllocated c ->
            (if hardShutdown (takeChunk module c1)
             then Raised (mkException RuntimeException 10018
                            "shutdown during memory allocation") (takeChunk module c1)
             else Chunk (memoryChunksFree (takeChunk module c1)) (takeChunk module c1))
            = Chunk index c' ->
            index = memoryChunksFree c'
            /\ memoryChunksMax c' = memoryChunksMax c
            /\ poolInvariant (setCtx c' p)
            /\ usedChunks c' = usedChunks c + 1
            /\ memoryModulesAllocated c' module
               = wrap64 (memoryModulesAllocated c module + 1)).
  { intros c1 Emax Hf Hm Hx Hu Hmod.
    destruct (hardShutdown (takeChunk module c1)); [discriminate |].
    intro H. injection H as <- <-.
    unfold poolInvariant, usedChunks, takeChunk, update in *.
    cbn [ctx setCtx memoryChunksFree memoryChunksAllocated memoryChunksMax
         memoryChunksMin memoryModulesAllocated].
    rewrite ?wrap64_small by lia. rewrite Hmod.
    repeat split; try lia. destruct module; reflexivity. }
  destruct (MEMORY_eqb module READER
            && (memoryModulesAllocated c READER <? memoryChunksReadBufferMin c)) eqn:ER.
  { intro H. specialize (Hres eq_refl).
    apply (Hfinish c); try reflexivity; try lia; exact H. }
  destruct (MEMORY_eqb module BUILDER
            && (memoryModulesAllocated c BUILDER <? memoryChunksWriteBufferMin c)) eqn:EB.
  { intro H. rewrite orb_true_r in Hres. specialize (Hres eq_refl).
    apply (Hfinish c); try reflexivity; try lia; exact H. }
  destruct (negb (MEMORY_eqb module BUILDER)
            || (memoryModulesAllocated c BUILDER <? memoryChunksWriteBufferMax c));
    cbn [andb].
  - destruct (Z.gtb_spec (memoryChunksFree c) (reservedChunks c swap)) as [Hgt | Hle].
    + intro H. apply (Hfinish c); try reflexivity; try lia; exact H.
    + destruct (Z.ltb_spec (memoryChunksAllocated c) (memoryChunksMax c)) as [Hroom | Hfull].
      * destruct allocOk; [| discriminate].
        intro H. apply (Hfinish (addChunk c)); [reflexivity | | | | | reflexivity | exact H];
          unfold addChunk, usedChunks;
          cbn [memoryChunksFree memoryChunksAllocated];
          rewrite ?wrap64_small by lia; lia.
      * destruct (hardShutdown _); discriminate.
  - destruct (hardShutdown _); discriminate.
Qed.

(** X10.  In a pool that satisfies [poolInvariant], a call of
    [getMemoryChunk] that returns a chunk returns [memoryChunks[index]] with
    [index] inside the array of [memoryChunksMax] cells, keeps the
    invariant and leaves one chunk more in use.  A request for a reserved
    chunk of the reader or the builder does not look at the number of free
    chunks, so that case needs one to be free. *)
Theorem getMemoryChunk_index_in_bounds
    (module : MEMORY) (swap allocOk : bool) (p : Pool) (index : Z) (c' : Ctx) :
  poolInvariant p ->
  (takesReserved module (ctx p) = true -> 0 < memoryChunksFree (ctx p)) ->
  getMemoryChunk module swap allocOk (ctx p) = Chunk index c' ->
  0 <= index < memoryChunksMax (ctx p)
  /\ index = memoryChunksFree c'
  /\ poolInvariant (setCtx c' p)
  /\ usedChunks c' = usedChunks (ctx p) + 1
  /\ memoryModulesAllocated c' module = wrap64 (memoryModulesAllocated (ctx p) module + 1).
Proof.
  intros Hinv Hres Hget.
  destruct (getMemoryChunk_counters module swap allocOk p index c' Hinv Hres Hget)
    as (Hidx & Hmaxeq & Hinv' & Hused & Hmod).
  split; [| split; [exact Hidx | split; [exact Hinv' | split; [exact Hused | exact Hmod]]]].
  destruct Hinv as (Hf & _). destruct Hinv' as (Hf' & _ & Hx' & _).
  cbn [ctx setCtx] in Hf', Hx'. unfold usedChunks in Hused. lia.
Qed.

(** X11.  Taking a chunk and giving it back leaves no trace in the
    counters: after [getMemoryChunk] returns a chunk for [module],
    [freeMemoryChunk] for the same module does not throw, and the chunks in
    use and the chunks charged to the module are what they were. *)
Theorem get_then_free_restores
    (module : MEMORY) (swap allocOk : bool) (p : Pool) (index : Z) (c' : Ctx) :
  poolInvariant p ->
  (takesReserved module (ctx p) = true -> 0 < memoryChunksFree (ctx p)) ->
  0 <= memoryModulesAllocated (ctx p) module < 18446744073709551616 ->
  getMemoryChunk module swap allocOk (ctx p) = Chunk index c' ->
  exists p'' released,
    freeMemoryChunk module (setCtx c' p) = Ok (p'', released)
    /\ poolInvariant p''
    /\ usedChunks (ctx p'') = usedChunks (ctx p)
    /\ memoryModulesAllocated (ctx p'') module = memoryModulesAllocated (ctx p) module.
Proof.
  intros Hinv Hres Hmod Hget.
  destruct (getMemoryChunk_counters module swap allocOk p index c' Hinv Hres Hget)
    as (_ & _ & Hinv' & Hused & Hcount).
  destruct (freeMemoryChunk_counters module (setCtx c' p) Hinv')
    as (p'' & released & Hfree & Hinv'' & Hused'' & Hcount'').
  { cbn [ctx setCtx]. unfold usedChunks in Hused. destruct Hinv as (? & _). lia. }
  exists p'', released. cbn [ctx setCtx] in *.
  split; [exact Hfree | split; [exact Hinv'' | split; [lia |]]].
  rewrite Hcount'', Hcount. unfold wrap64. lia.
Qed.

(** X12.  After [stopHard], no call of [getMemoryChunk] obtains a chunk and
    none blocks on the condition variable: the call returns a null
    pointer or throws. *)
Theorem getMemoryChunk_after_stopHard (module : MEMORY) (swap allocOk : bool) (p : Pool) :
  hardShutdown (ctx (stopHard p)) = true
  /\ stopHard (stopHard p) = stopHard p
  /\ match getMemoryChunk module swap allocOk (ctx (stopHard p)) with
     | Chunk _ _ | Suspended _ => False
     | Null _ | Raised _ _ => True
     end.
Proof.
  assert (Hhard : hardShutdown (ctx (stopHard p)) = true).
  { unfold stopHard. destruct (hardShutdown (ctx p)) eqn:E; [exact E | reflexivity]. }
  split; [exact Hhard | split].
  - unfold stopHard at 1. rewrite Hhard. reflexivity.
  - set (c := ctx (stopHard p)) in *. unfold getMemoryChunk, loopBody.
    assert (Htake : forall c1, hardShutdown c1 = true ->
                               hardShutdown (takeChunk module c1) = true)
      by (intros c1 H1; exact H1).
    repeat match goal with
           | |- context [if ?b then _ else _] =>
               lazymatch b with
               | hardShutdown _ => fail
               | _ => destruct b
               end
           end;
      cbn [hardShutdown setOutOfMemoryParser addChunk takeChunk];
      rewrite ?Hhard; exact I.
Qed.

Section InitializeFacts.

Variable MEMORY_CHUNK_SIZE_MB : Z.
Variable allocOk : Z -> bool.

Lemma allocateChunks_all (count : nat) : forall i c,
  (forall k, i <= k < i + Z.of_nat count -> allocOk k = true) ->
  0 <= i ->
  i + Z.of_nat count <= memoryChunksMax c ->
  0 <= memoryChunksFree c ->
  0 <= memoryChunksAllocated c ->
  memoryChunksFree c + Z.of_nat count < 18446744073709551616 ->
  memoryChunksAllocated c + Z.of_nat count < 18446744073709551616 ->
  exists c',
    allocateChunks allocOk count i c = Completed c'
    /\ memoryChunksFree c' = memoryChunksFree c + Z.of_nat count
    /\ memoryChunksAllocated c' = memoryChunksAllocated c + Z.of_nat count
    /\ memoryChunksMax c' = memoryChunksMax c.
Proof.
  induction count as [| n IH]; intros i c Hok Hi Hin Hf Ha Hfb Hab.
  - exists c. cbn. repeat split; lia.
  - cbn [allocateChunks].
    destruct (Z.leb_spec (memoryChunksMax c) i) as [Hpast | _]; [lia |].
    rewrite (Hok i) by lia.
    match goal with
    | |- context [allocateChunks allocOk n (i + 1) ?c1] => set (c1' := c1)
    end.
    assert (Hf1 : memoryChunksFree c1' = memoryChunksFree c + 1)
      by (subst c1'; cbn [memoryChunksFree]; apply wrap64_small; lia).
    assert (Ha1 : memoryChunksAllocated c1' = memoryChunksAllocated c + 1)
      by (subst c1'; cbn [memoryChunksAllocated]; apply wrap64_small; lia).
    assert (Hm1 : memoryChunksMax c1' = memoryChunksMax c) by reflexivity.
    clearbody c1'.
    destruct (IH (i + 1) c1') as (c' & Hrun & Hfree & Halloc & Hmax); try lia.
    + intros k Hk. apply Hok. lia.
    + exists c'. rewrite Hrun. repeat split; lia.
Qed.

(** With more turns left than cells, the loop fills the array and then
    stores past it. *)
Lemma allocateChunks_past (count : nat) : forall i c,
  (forall k, i <= k < memoryChunksMax c -> allocOk k = true) ->
  0 <= i <= memoryChunksMax c ->
  memoryChunksMax c < i + Z.of_nat count ->
  0 <= memoryChunksFree c ->
  0 <= memoryChunksAllocated c ->
  memoryChunksFree c + Z.of_nat count < 18446744073709551616 ->
  memoryChunksAllocated c + Z.of_nat count < 18446744073709551616 ->
  exists c',
    allocateChunks allocOk count i c = PastArray (memoryChunksMax c) c'
    /\ memoryChunksFree c' = memoryChunksFree c + (memoryChunksMax c - i)
    /\ memoryChunksAllocated c' = memoryChunksAllocated c + (memoryChunksMax c - i)
    /\ memoryChunksMax c' = memoryChunksMax c.
Proof.
  induction count as [| n IH]; intros i c Hok Hi Hin Hf Ha Hfb Hab.
  - cbn [Z.of_nat] in Hin. lia.
  - cbn [allocateChunks].
    destruct (Z.leb_spec (memoryChunksMax c) i) as [Hpast | Hinside].
    + assert (E : i = memoryChunksMax c) by lia. rewrite E.
      exists c. repeat split; lia.
    + rewrite (Hok i) by lia.
      match goal with
      | |- context [allocateChunks allocOk n (i + 1) ?c1] => set (c1' := c1)
      end.
      assert (Hf1 : memoryChunksFree c1' = memoryChunksFree c + 1)
        by (subst c1'; cbn [memoryChunksFree]; apply wrap64_small; lia).
      assert (Ha1 : memoryChunksAllocated c1' = memoryChunksAllocated c + 1)
        by (subst c1'; cbn [memoryChunksAllocated]; apply wrap64_small; lia).
      assert (Hm1 : memoryChunksMax c1' = memoryChunksMax c) by reflexivity.
      clearbody c1'.
      destruct (IH (i + 1) c1') as (c' & Hrun & Hfree & Halloc & Hmax); try lia.
      * intros k Hk. apply Hok. lia.
      * exists c'. rewrite Hrun, Hm1. repeat split; lia.
Qed.

Lemma chunks_range (mb : Z) :
  0 < MEMORY_CHUNK_SIZE_MB ->
  0 <= mb < 18446744073709551616 ->
  0 <= mb / MEMORY_CHUNK_SIZE_MB < 18446744073709551616.
Proof.
  intros HS Hmb. split; [apply Z.div_pos; lia |].
  apply Z.le_lt_trans with mb; [| lia]. apply Z.div_le_upper_bound; nia.
Qed.

(** What [Ctx::initialize] leaves when the minimum is at most the maximum
    and every allocation succeeds. *)
Lemma initialize_counters
    (memoryMinMb memoryMaxMb memoryReadBufferMaxMb memoryReadBufferMinMb memorySwapMb
     memoryUnswapBufferMinMb memoryWriteBufferMaxMb memoryWriteBufferMinMb : Z) :
  0 < MEMORY_CHUNK_SIZE_MB ->
  0 <= memoryMinMb < 18446744073709551616 ->
  0 <= memoryMaxMb < 18446744073709551616 ->
  memoryMinMb / MEMORY_CHUNK_SIZE_MB <= memoryMaxMb / MEMORY_CHUNK_SIZE_MB ->
  (forall k, 0 <= k < memoryMinMb / MEMORY_CHUNK_SIZE_MB -> allocOk k = true) ->
  exists p,
    initialize MEMORY_CHUNK_SIZE_MB allocOk memoryMinMb memoryMaxMb memoryReadBufferMaxMb
      memoryReadBufferMinMb memorySwapMb memoryUnswapBufferMinMb memoryWriteBufferMaxMb
      memoryWriteBufferMinMb constructed = Returns p
    /\ memoryChunksMin p = memoryMinMb / MEMORY_CHUNK_SIZE_MB
    /\ memoryChunksMax (ctx p) = memoryMaxMb / MEMORY_CHUNK_SIZE_MB
    /\ memoryChunksAllocated (ctx p) = memoryChunksMin p
    /\ memoryChunksFree (ctx p) = memoryChunksMin p
    /\ memoryChunksHWM (ctx p) = memoryChunksMin p
    /\ 0 <= memoryChunksMin p
    /\ memoryChunksMax (ctx p) < 18446744073709551616.
Proof.
  intros HS Hmin Hmax Hle Hok. unfold initialize. cbn [ctx constructed].
  pose proof (chunks_range memoryMinMb HS Hmin) as Hq.
  pose proof (chunks_range memoryMaxMb HS Hmax) as Hqmax.
  cbn [memoryChunksAllocated memoryChunksFree memoryChunksHWM memoryModulesAllocated
       memoryModulesHWM outOfMemoryParser hardShutdown softShutdown].
  match goal with
  | |- context [allocateChunks allocOk ?n 0 ?c1] => set (c1' := c1)
  end.
  destruct (allocateChunks_all (Z.to_nat (memoryMinMb / MEMORY_CHUNK_SIZE_MB)) 0 c1')
    as (c' & Hrun & Hfree & Halloc & Hm);
    try (subst c1'; cbn [memoryChunksFree memoryChunksAllocated memoryChunksMax];
         rewrite ?Z2Nat.id by lia; lia).
  - intros k Hk. apply Hok. lia.
  - subst c1'.
    cbn [memoryChunksFree memoryChunksAllocated memoryChunksMax] in Hfree, Halloc, Hm.
    rewrite Z2Nat.id in Hfree, Halloc by lia.
    eexists. rewrite Hrun. split; [reflexivity |].
    cbn [ctx setCtx memoryChunksMin memoryChunksFree memoryChunksAllocated
         memoryChunksMax memoryChunksHWM].
    rewrite Hfree, Halloc, Hm.
    repeat split; lia.
Qed.

(** X13.  Called on the freshly constructed [Ctx] with every allocation
    succeeding, [Ctx::initialize] returns exactly when
    [memoryMinMb / MEMORY_CHUNK_SIZE_MB] is at most
    [memoryMaxMb / MEMORY_CHUNK_SIZE_MB], the number of cells of
    [memoryChunks].  It has then allocated the first number of chunks, all
    of them free, and what it leaves satisfies [poolInvariant].  Otherwise
    it fills the array and then stores the next chunk in
    [memoryChunks[memoryChunksMax]], one cell past the array. *)
Theorem initialize_establishes_pool
    (memoryMinMb memoryMaxMb memoryReadBufferMaxMb memoryReadBufferMinMb memorySwapMb
     memoryUnswapBufferMinMb memoryWriteBufferMaxMb memoryWriteBufferMinMb : Z) :
  0 < MEMORY_CHUNK_SIZE_MB ->
  0 <= memoryMinMb < 18446744073709551616 ->
  0 <= memoryMaxMb < 18446744073709551616 ->
  (forall k, 0 <= k < memoryMinMb / MEMORY_CHUNK_SIZE_MB -> allocOk k = true) ->
  if memoryMinMb / MEMORY_CHUNK_SIZE_MB <=? memoryMaxMb / MEMORY_CHUNK_SIZE_MB
  then
    exists p,
      initialize MEMORY_CHUNK_SIZE_MB allocOk memoryMinMb memoryMaxMb memoryReadBufferMaxMb
        memoryReadBufferMinMb memorySwapMb memoryUnswapBufferMinMb memoryWriteBufferMaxMb
        memoryWriteBufferMinMb constructed = Returns p
      /\ memoryChunksMin p = memoryMinMb / MEMORY_CHUNK_SIZE_MB
      /\ memoryChunksMax (ctx p) = memoryMaxMb / MEMORY_CHUNK_SIZE_MB
      /\ memoryChunksAllocated (ctx p) = memoryChunksMin p
      /\ memoryChunksFree (ctx p) = memoryChunksMin p
      /\ memoryChunksHWM (ctx p) = memoryChunksMin p
      /\ poolInvariant p
  else
    exists p,
      initialize MEMORY_CHUNK_SIZE_MB allocOk memoryMinMb memoryMaxMb memoryReadBufferMaxMb
        memoryReadBufferMinMb memorySwapMb memoryUnswapBufferMinMb memoryWriteBufferMaxMb
        memoryWriteBufferMinMb constructed
      = StoresPast (memoryMaxMb / MEMORY_CHUNK_SIZE_MB) p
      /\ memoryChunksMax (ctx p) = memoryMaxMb / MEMORY_CHUNK_SIZE_MB
      /\ memoryChunksAllocated (ctx p) = memoryMaxMb / MEMORY_CHUNK_SIZE_MB
      /\ memoryChunksFree (ctx p) = memoryMaxMb / MEMORY_CHUNK_SIZE_MB.
Proof.
  intros HS Hmin Hmax Hok.
  pose proof (chunks_range memoryMinMb HS Hmin) as Hq.
  pose proof (chunks_range memoryMaxMb HS Hmax) as Hqmax.
  destruct (Z.leb_spec (memoryMinMb / MEMORY_CHUNK_SIZE_MB)
                       (memoryMaxMb / MEMORY_CHUNK_SIZE_MB)) as [Hle | Hgt].
  - destruct (initialize_counters memoryMinMb memoryMaxMb memoryReadBufferMaxMb
                memoryReadBufferMinMb memorySwapMb memoryUnswapBufferMinMb
                memoryWriteBufferMaxMb memoryWriteBufferMinMb HS Hmin Hmax Hle Hok)
      as (p & Hp & Emin & Emax & Ealloc & Efree & Ehwm & Hpos & Hbound).
    exists p. repeat (split; [assumption |]).
    unfold poolInvariant. rewrite Efree, Ealloc, Emax. rewrite Emin in *. lia.
  - unfold initialize. cbn [ctx constructed].
    cbn [memoryChunksAllocated memoryChunksFree memoryChunksHWM memoryModulesAllocated
         memoryModulesHWM outOfMemoryParser hardShutdown softShutdown].
    match goal with
    | |- context [allocateChunks allocOk ?n 0 ?c1] => set (c1' := c1)
    end.
    destruct (allocateChunks_past (Z.to_nat (memoryMinMb / MEMORY_CHUNK_SIZE_MB)) 0 c1')
      as (c' & Hrun & Hfree & Halloc & Hm);
      try (subst c1'; cbn [memoryChunksFree memoryChunksAllocated memoryChunksMax];
           rewrite ?Z2Nat.id by lia; lia).
    + intros k Hk. apply Hok. subst c1'. cbn [memoryChunksMax] in Hk. lia.
    + subst c1'.
      cbn [memoryChunksFree memoryChunksAllocated memoryChunksMax] in Hrun, Hfree, Halloc, Hm.
      eexists. rewrite Hrun. split; [reflexivity |].
      cbn [ctx setCtx memoryChunksFree memoryChunksAllocated memoryChunksMax].
      rewrite Hfree, Halloc, Hm. repeat split; lia.
Qed.

End InitializeFacts.

End PoolFacts.

Lemma freeMemoryChunk_keeps_minimum_witness :
  match Pool.freeMemoryChunk Memory.PARSER Pool.sample with
  | Throw e =>
      e = Pool.unknownBlock
      /\ Memory.memoryChunksFree (Pool.ctx Pool.sample)
         = Memory.memoryChunksAllocated (Pool.ctx Pool.sample)
  | Ok (p', released) =>
      Memory.memoryChunksFree (Pool.ctx Pool.sample)
      < Memory.memoryChunksAllocated (Pool.ctx Pool.sample)
      /\ Pool.poolInvariant p'
      /\ Pool.usedChunks (Pool.ctx p') = Pool.usedChunks (Pool.ctx Pool.sample) - 1
      /\ (released = true
          <-> Pool.memoryChunksMin Pool.sample
              <= Memory.memoryChunksFree (Pool.ctx Pool.sample))
      /\ Memory.memoryModulesAllocated (Pool.ctx p') Memory.PARSER
         = wrap64 (Memory.memoryModulesAllocated (Pool.ctx Pool.sample) Memory.PARSER - 1)
  end.
Proof.
  apply (freeMemoryChunk_keeps_minimum Memory.PARSER Pool.sample).
  unfold Pool.poolInvariant. cbn. lia.
Defined.

Example freeMemoryChunk_sample :
  match Pool.freeMemoryChunk Memory.PARSER Pool.sample with
  | Ok (p', released) =>
      (Memory.memoryChunksAllocated (Pool.ctx p'), Memory.memoryChunksFree (Pool.ctx p'),
       released)
  | Throw _ => (0, 0, false)
  end = (8, 4, false).
Proof. reflexivity. Qed.

Lemma getMemoryChunk_index_in_bounds_witness :
  0 <= 2 < Memory.memoryChunksMax (Pool.ctx Pool.sample)
  /\ 2 = Memory.memoryChunksFree (Memory.takeChunk Memory.PARSER (Pool.ctx Pool.sample))
  /\ Pool.poolInvariant
       (Pool.setCtx (Memory.takeChunk Memory.PARSER (Pool.ctx Pool.sample)) Pool.sample)
  /\ Pool.usedChunks (Memory.takeChunk Memory.PARSER (Pool.ctx Pool.sample))
     = Pool.usedChunks (Pool.ctx Pool.sample) + 1
  /\ Memory.memoryModulesAllocated
       (Memory.takeChunk Memory.PARSER (Pool.ctx Pool.sample)) Memory.PARSER
     = wrap64 (Memory.memoryModulesAllocated (Pool.ctx Pool.sample) Memory.PARSER + 1).
Proof.
  apply (getMemoryChunk_index_in_bounds Memory.PARSER true true Pool.sample 2
           (Memory.takeChunk Memory.PARSER (Pool.ctx Pool.sample))).
  - unfold Pool.poolInvariant. cbn. lia.
  - intros _. cbn. lia.
  - reflexivity.
Defined.

Lemma get_then_free_restores_witness :
  exists p'' released,
    Pool.freeMemoryChunk Memory.PARSER
      (Pool.setCtx (Memory.takeChunk Memory.PARSER (Pool.ctx Pool.sample)) Pool.sample)
    = Ok (p'', released)
    /\ Pool.poolInvariant p''
    /\ Pool.usedChunks (Pool.ctx p'') = Pool.usedChunks (Pool.ctx Pool.sample)
    /\ Memory.memoryModulesAllocated (Pool.ctx p'') Memory.PARSER
       = Memory.memoryModulesAllocated (Pool.ctx Pool.sample) Memory.PARSER.
Proof.
  apply (get_then_free_restores Memory.PARSER true true Pool.sample 2
           (Memory.takeChunk Memory.PARSER (Pool.ctx Pool.sample))).
  - unfold Pool.poolInvariant. cbn. lia.
  - intros _. cbn. lia.
  - cbn. lia.
  - reflexivity.
Defined.

Lemma initialize_establishes_pool_witness :
  exists p,
    Pool.initialize 1 (fun _ => true) 32 2048 128 4 1536 4 2048 4 Pool.constructed
    = Pool.Returns p
    /\ Pool.memoryChunksMin p = 32 / 1
    /\ Memory.memoryChunksMax (Pool.ctx p) = 2048 / 1
    /\ Memory.memoryChunksAllocated (Pool.ctx p) = Pool.memoryChunksMin p
    /\ Memory.memoryChunksFree (Pool.ctx p) = Pool.memoryChunksMin p
    /\ Memory.memoryChunksHWM (Pool.ctx p) = Pool.memoryChunksMin p
    /\ Pool.poolInvariant p.
Proof.
  apply (initialize_establishes_pool 1 (fun _ => true) 32 2048 128 4 1536 4 2048 4);
    first [lia | reflexivity].
Defined.

(** A minimum of 4096 MB with the maximum left at 2048 MB, in chunks of
    1 MB: after 2048 chunks the next one is stored in [memoryChunks[2048]],
    past the 2048 cells of the array. *)
Example initialize_minimum_above_maximum :
  match Pool.initialize 1 (fun _ => true) 4096 2048 128 4 1536 4 2048 4 Pool.constructed with
  | Pool.StoresPast index p =>
      Some (index, Memory.memoryChunksMax (Pool.ctx p),
            Memory.memoryChunksAllocated (Pool.ctx p))
  | _ => None
  end = Some (2048, 2048, 2048).
Proof. vm_compute. reflexivity. Qed.

(* --------------------------------------------------------------------- *)
(** ** What the memory section guarantees                                 *)
(* --------------------------------------------------------------------- *)

Section MemoryRulesFacts.

Import Json MemoryConfig MemoryRules.

Variable MEMORY_CHUNK_SIZE_MB : Z.
Variable MEMORY_CHUNK_MIN_MB : Z.
Variable JSON_PARAMETER_LENGTH : Z.

Local Abbreviation roundToChunk := (MemoryConfig.roundToChunk MEMORY_CHUNK_SIZE_MB).
Local Abbreviation readMin := (MemoryConfig.readMin MEMORY_CHUNK_SIZE_MB MEMORY_CHUNK_MIN_MB).
Local Abbreviation readMax := (MemoryConfig.readMax MEMORY_CHUNK_SIZE_MB).
Local Abbreviation readUnswap := (MemoryConfig.readUnswap MEMORY_CHUNK_SIZE_MB).
Local Abbreviation readSwap := (MemoryConfig.readSwap MEMORY_CHUNK_SIZE_MB).
Local Abbreviation readReadMin := (MemoryConfig.readReadMin MEMORY_CHUNK_SIZE_MB).
Local Abbreviation readReadMax := (MemoryConfig.readReadMax MEMORY_CHUNK_SIZE_MB).
Local Abbreviation readWriteMin := (MemoryConfig.readWriteMin MEMORY_CHUNK_SIZE_MB).
Local Abbreviation readWriteMax := (MemoryConfig.readWriteMax MEMORY_CHUNK_SIZE_MB).
Local Abbreviation readSwapPath := (MemoryConfig.readSwapPath JSON_PARAMETER_LENGTH).
Local Abbreviation memorySection :=
  (MemoryConfig.memorySection MEMORY_CHUNK_SIZE_MB MEMORY_CHUNK_MIN_MB JSON_PARAMETER_LENGTH).

Lemma roundToChunk_range (x : Z) : 0 <= roundToChunk x < 18446744073709551616.
Proof. unfold MemoryConfig.roundToChunk, wrap64. lia. Qed.

(** A reader of one key: without the key the settings are returned as
    they are; with it, the value read passes the guards of the reader. *)
Ltac reader H :=
  match type of H with
  | context [HasMember ?j ?k] => destruct (HasMember j k) eqn:?
  end;
  [ match type of H with
    | context [getJsonFieldU64 ?j ?k] => destruct (getJsonFieldU64 j k) eqn:?
    | context [getJsonFieldS ?n ?j ?k] => destruct (getJsonFieldS n j k) eqn:?
    end; cbn [bind] in H; [| discriminate H]
  | ].

Lemma readMin_core (j : Value) (c c' : Settings) :
  readMin j c = Ok c' ->
  0 <= memoryMinMb c < 18446744073709551616 ->
  0 <= memoryMinMb c' < 18446744073709551616
  /\ (memoryMaxMb c', memoryUnswapBufferMinMb c', memoryReadBufferMinMb c',
      memoryWriteBufferMinMb c')
     = (memoryMaxMb c, memoryUnswapBufferMinMb c, memoryReadBufferMinMb c,
        memoryWriteBufferMinMb c).
Proof.
  unfold MemoryConfig.readMin. intros H Hr. reader H.
  - destruct (_ <? MEMORY_CHUNK_MIN_MB); [discriminate |].
    apply Ok_inj in H. subst c'. cbn. split; [apply roundToChunk_range | reflexivity].
  - apply Ok_inj in H. subst c'. split; [exact Hr | reflexivity].
Qed.

Lemma readMax_core (j : Value) (c c' : Settings) :
  readMax j c = Ok c' ->
  0 <= memoryMaxMb c < 18446744073709551616 ->
  0 <= memoryMaxMb c' < 18446744073709551616
  /\ (HasMember j "max-mb" = true -> memoryMinMb c <= memoryMaxMb c')
  /\ (memoryMinMb c', memoryUnswapBufferMinMb c', memoryReadBufferMinMb c',
      memoryWriteBufferMinMb c')
     = (memoryMinMb c, memoryUnswapBufferMinMb c, memoryReadBufferMinMb c,
        memoryWriteBufferMinMb c).
Proof.
  unfold MemoryConfig.readMax. intros H Hr. reader H.
  - destruct (Z.ltb_spec (roundToChunk a) (memoryMinMb c)); [discriminate |].
    apply Ok_inj in H. subst c'. cbn.
    split; [apply roundToChunk_range | split; [intros _; lia | reflexivity]].
  - apply Ok_inj in H. subst c'.
    split; [exact Hr | split; [discriminate | reflexivity]].
Qed.

Lemma readUnswap_core (j : Value) (c c' : Settings) :
  readUnswap j c = Ok c' ->
  0 <= memoryUnswapBufferMinMb c < 18446744073709551616 ->
  0 <= memoryUnswapBufferMinMb c' < 18446744073709551616
  /\ (memoryMinMb c', memoryMaxMb c', memoryReadBufferMinMb c',
      memoryWriteBufferMinMb c')
     = (memoryMinMb c, memoryMaxMb c, memoryReadBufferMinMb c,
        memoryWriteBufferMinMb c).
Proof.
  unfold MemoryConfig.readUnswap. intros H Hr. reader H.
  - apply Ok_inj in H. subst c'. cbn. split; [apply roundToChunk_range | reflexivity].
  - apply Ok_inj in H. subst c'. split; [exact Hr | reflexivity].
Qed.

Lemma readSwap_core (j : Value) (c c' : Settings) :
  readSwap j c = Ok c' -> core c' = core c.
Proof.
  unfold MemoryConfig.readSwap. intros H. reader H.
  - destruct (_ >? _); [discriminate |]. apply Ok_inj in H. subst c'. reflexivity.
  - apply Ok_inj in H. subst c'. reflexivity.
Qed.

Lemma readReadMin_core (j : Value) (c c' : Settings) :
  readReadMin j c = Ok c' ->
  (memoryReadBufferMinMb c' = memoryReadBufferMinMb c
   \/ 4 <= memoryReadBufferMinMb c' <= memoryMaxMb c)
  /\ (memoryMinMb c', memoryMaxMb c', memoryUnswapBufferMinMb c',
      memoryWriteBufferMinMb c')
     = (memoryMinMb c, memoryMaxMb c, memoryUnswapBufferMinMb c,
        memoryWriteBufferMinMb c).
Proof.
  unfold MemoryConfig.readReadMin. intros H. reader H.
  - destruct (Z.gtb_spec (roundToChunk a) (memoryMaxMb c)); [discriminate |].
    destruct (Z.ltb_spec (roundToChunk a) 4); [discriminate |].
    apply Ok_inj in H. subst c'. cbn. split; [right; lia | reflexivity].
  - apply Ok_inj in H. subst c'. split; [left; reflexivity | reflexivity].
Qed.

Lemma readReadMax_core (j : Value) (c c' : Settings) :
  readReadMax j c = Ok c' -> core c' = core c.
Proof.
  unfold MemoryConfig.readReadMax. intros H. reader H.
  - destruct (_ >? _); [discriminate |]. destruct (_ <? _); [discriminate |].
    apply Ok_inj in H. subst c'. reflexivity.
  - apply Ok_inj in H. subst c'. reflexivity.
Qed.

Lemma readWriteMin_core (j : Value) (c c' : Settings) :
  readWriteMin j c = Ok c' ->
  (memoryWriteBufferMinMb c' = memoryWriteBufferMinMb c
   \/ 4 <= memoryWriteBufferMinMb c' <= memoryMaxMb c)
  /\ (memoryMinMb c', memoryMaxMb c', memoryUnswapBufferMinMb c',
      memoryReadBufferMinMb c')
     = (memoryMinMb c, memoryMaxMb c, memoryUnswapBufferMinMb c,
        memoryReadBufferMinMb c).
Proof.
  unfold MemoryConfig.readWriteMin. intros H. reader H.
  - destruct (Z.gtb_spec (roundToChunk a) (memoryMaxMb c)); [discriminate |].
    destruct (Z.ltb_spec (roundToChunk a) 4); [discriminate |].
    apply Ok_inj in H. subst c'. cbn. split; [right; lia | reflexivity].
  - apply Ok_inj in H. subst c'. split; [left; reflexivity | reflexivity].
Qed.

Lemma readWriteMax_core (j : Value) (c c' : Settings) :
  readWriteMax j c = Ok c' -> core c' = core c.
Proof.
  unfold MemoryConfig.readWriteMax. intros H. reader H.
  - destruct (_ >? _); [discriminate |]. destruct (_ <? _); [discriminate |].
    apply Ok_inj in H. subst c'. reflexivity.
  - apply Ok_inj in H. subst c'. reflexivity.
Qed.

Lemma readSwapPath_core (j : Value) (c c' : Settings) :
  readSwapPath j c = Ok c' -> core c' = core c.
Proof.
  unfold MemoryConfig.readSwapPath. intros H.
  destruct (HasMember j "swap-path" && (memorySwapMb c >? 0)).
  - destruct (getJsonFieldS _ _ _); cbn [bind] in H; [| discriminate].
    apply Ok_inj in H. subst c'. reflexivity.
  - apply Ok_inj in H. subst c'. reflexivity.
Qed.

Lemma bind_Ok {A B : Type} (r : Result A) (k : A -> Result B) (b : B) :
  bind r k = Ok b -> exists a, r = Ok a /\ k a = Ok b.
Proof. destruct r as [a | e]; [intro H; exists a; auto | discriminate]. Qed.

(** What an accepted memory section has gone through. *)
Lemma memorySection_accepted (checkTags : bool) (sourceJson : Value) (c : Settings) :
  memorySection checkTags sourceJson = Ok c ->
  0 <= memoryMinMb c < 18446744073709551616
  /\ 0 <= memoryMaxMb c < 18446744073709551616
  /\ 0 <= memoryUnswapBufferMinMb c < 18446744073709551616
  /\ (HasMember (memoryObject sourceJson) "max-mb" = true -> memoryMinMb c <= memoryMaxMb c)
  /\ (memoryReadBufferMinMb c = 4 \/ 4 <= memoryReadBufferMinMb c <= memoryMaxMb c)
  /\ (memoryWriteBufferMinMb c = 4 \/ 4 <= memoryWriteBufferMinMb c <= memoryMaxMb c)
  /\ wrap64 (wrap64 (wrap64 (memoryUnswapBufferMinMb c + memoryReadBufferMinMb c)
                     + memoryWriteBufferMinMb c) + 4) <= memoryMaxMb c.
Proof.
  unfold MemoryConfig.memorySection, memoryObject, HasMember at 1.
  destruct (lookup (members sourceJson) "memory") as [m |] eqn:Em.
  2:{ intro H. apply Ok_inj in H. subst c. cbn.
      repeat split; try lia; try discriminate; left; reflexivity. }
  intro H.
  apply bind_Ok in H. destruct H as (memoryJson & Hj & H).
  assert (memoryJson = m).
  { unfold getJsonFieldO in Hj. rewrite Em in Hj.
    destruct m; try discriminate. apply Ok_inj in Hj. symmetry. exact Hj. }
  subst memoryJson.
  apply bind_Ok in H. destruct H as (_ & _ & H).
  apply bind_Ok in H. destruct H as (c1 & H1 & H).
  apply bind_Ok in H. destruct H as (c2 & H2 & H).
  apply bind_Ok in H. destruct H as (c3 & H3 & H).
  apply bind_Ok in H. destruct H as (c4 & H4 & H).
  apply bind_Ok in H. destruct H as (c5 & H5 & H).
  apply bind_Ok in H. destruct H as (c6 & H6 & H).
  apply bind_Ok in H. destruct H as (c7 & H7 & H).
  apply bind_Ok in H. destruct H as (c8 & H8 & H).
  apply bind_Ok in H. destruct H as (c9 & H9 & H).
  unfold checkSum in H.
  destruct (Z.gtb_spec
              (wrap64 (wrap64 (wrap64 (memoryUnswapBufferMinMb c9 + memoryReadBufferMinMb c9)
                               + memoryWriteBufferMinMb c9) + 4))
              (memoryMaxMb c9)) as [| Hsum]; [discriminate |].
  apply Ok_inj in H. subst c9.
  apply readMin_core in H1; [| cbn; lia]. destruct H1 as (R1 & E1).
  apply readMax_core in H2; [| injection E1 as -> _ _ _; cbn; lia].
  destruct H2 as (R2 & M2 & E2).
  apply readUnswap_core in H3; [| injection E2 as _ -> _ _; injection E1 as _ -> _ _; cbn; lia].
  destruct H3 as (R3 & E3).
  apply readSwap_core in H4. apply readReadMin_core in H5. destruct H5 as (R5 & E5).
  apply readReadMax_core in H6. apply readWriteMin_core in H7. destruct H7 as (R7 & E7).
  apply readWriteMax_core in H8. apply readSwapPath_core in H9.
  unfold core in *. cbn [defaults memoryMinMb memoryMaxMb memoryUnswapBufferMinMb
                         memoryReadBufferMinMb memoryWriteBufferMinMb] in *.
  injection E1 as E1a E1b E1c E1d. injection E2 as E2a E2b E2c E2d.
  injection E3 as E3a E3b E3c E3d. injection H4 as E4a E4b E4c E4d E4e.
  injection E5 as E5a E5b E5c E5d. injection H6 as E6a E6b E6c E6d E6e.
  injection E7 as E7a E7b E7c E7d. injection H8 as E8a E8b E8c E8d E8e.
  injection H9 as E9a E9b E9c E9d E9e.
  repeat split; lia.
Qed.

(** X14.  In an accepted memory section the read and the write buffer
    minimum are at least 4, and, when [max-mb] and
    [unswap-buffer-min-mb] are below 2^62 (so that the 64-bit sum does not
    wrap), [unswap-buffer-min-mb + read-buffer-min-mb + write-buffer-min-mb + 4]
    is at most [max-mb]. *)
Theorem memorySection_sum_rule (checkTags : bool) (sourceJson : Value) (c : Settings) :
  memorySection checkTags sourceJson = Ok c ->
  memoryMaxMb c < 4611686018427387904 ->
  memoryUnswapBufferMinMb c < 4611686018427387904 ->
  4 <= memoryReadBufferMinMb c
  /\ 4 <= memoryWriteBufferMinMb c
  /\ memoryUnswapBufferMinMb c + memoryReadBufferMinMb c + memoryWriteBufferMinMb c + 4
     <= memoryMaxMb c.
Proof.
  intros H Hmax Hunswap.
  destruct (memorySection_accepted checkTags sourceJson c H)
    as (_ & Rmax & Ru & _ & Rr & Rw & Hsum).
  assert (Hr : 4 <= memoryReadBufferMinMb c < 4611686018427387904) by lia.
  assert (Hw : 4 <= memoryWriteBufferMinMb c < 4611686018427387904) by lia.
  rewrite (wrap64_small (memoryUnswapBufferMinMb c + memoryReadBufferMinMb c)) in Hsum by lia.
  rewrite (wrap64_small (memoryUnswapBufferMinMb c + memoryReadBufferMinMb c
                         + memoryWriteBufferMinMb c)) in Hsum by lia.
  rewrite wrap64_small in Hsum by lia.
  lia.
Qed.

(** X15.  A memory section that gives "max-mb" and is accepted has
    [min-mb <= max-mb], and [Ctx::initialize], called on its values with
    every allocation succeeding, leaves a pool that satisfies
    [poolInvariant]: [memoryChunksMin] chunks, all free, in an array of
    [memoryChunksMax] cells. *)
Theorem accepted_memory_initializes_pool
    (checkTags : bool) (sourceJson : Value) (c : Settings) (allocOk : Z -> bool) :
  0 < MEMORY_CHUNK_SIZE_MB ->
  HasMember (memoryObject sourceJson) "max-mb" = true ->
  memorySection checkTags sourceJson = Ok c ->
  (forall k, allocOk k = true) ->
  memoryMinMb c <= memoryMaxMb c
  /\ exists p,
       Pool.initializeFrom MEMORY_CHUNK_SIZE_MB allocOk c Pool.constructed = Pool.Returns p
       /\ Pool.poolInvariant p
       /\ Memory.memoryChunksFree (Pool.ctx p) = memoryMinMb c / MEMORY_CHUNK_SIZE_MB
       /\ Memory.memoryChunksMax (Pool.ctx p) = memoryMaxMb c / MEMORY_CHUNK_SIZE_MB.
Proof.
  intros HS Hm H Hok.
  destruct (memorySection_accepted checkTags sourceJson c H)
    as (Rmin & Rmax & _ & Hle & _).
  specialize (Hle Hm). split; [exact Hle |].
  assert (Hchunks : memoryMinMb c / MEMORY_CHUNK_SIZE_MB
                    <= memoryMaxMb c / MEMORY_CHUNK_SIZE_MB)
    by (apply Z.div_le_mono; lia).
  destruct (initialize_counters MEMORY_CHUNK_SIZE_MB allocOk
              (memoryMinMb c) (memoryMaxMb c) (memoryReadBufferMaxMb c)
              (memoryReadBufferMinMb c) (memorySwapMb c) (memoryUnswapBufferMinMb c)
              (memoryWriteBufferMaxMb c) (memoryWriteBufferMinMb c) HS Rmin Rmax Hchunks)
    as (p & Hp & Hmin & Hmaxc & Halloc & Hfree & _ & Hpos & Hbound).
  { intros k _. apply Hok. }
  exists p. unfold Pool.initializeFrom.
  split; [exact Hp | split; [| split]].
  - unfold Pool.poolInvariant. rewrite Hfree, Halloc, Hmaxc. rewrite Hmin in *.
    lia.
  - rewrite Hfree. exact Hmin.
  - exact Hmaxc.
Qed.

End MemoryRulesFacts.

Lemma memorySection_sum_rule_witness :
  4 <= MemoryConfig.memoryReadBufferMinMb (MemoryConfig.mkSettings 64 1024 128 4 768 "." 4 1024 4)
  /\ 4 <= MemoryConfig.memoryWriteBufferMinMb
            (MemoryConfig.mkSettings 64 1024 128 4 768 "." 4 1024 4)
  /\ MemoryConfig.memoryUnswapBufferMinMb (MemoryConfig.mkSettings 64 1024 128 4 768 "." 4 1024 4)
     + MemoryConfig.memoryReadBufferMinMb (MemoryConfig.mkSettings 64 1024 128 4 768 "." 4 1024 4)
     + MemoryConfig.memoryWriteBufferMinMb (MemoryConfig.mkSettings 64 1024 128 4 768 "." 4 1024 4)
     + 4
     <= MemoryConfig.memoryMaxMb (MemoryConfig.mkSettings 64 1024 128 4 768 "." 4 1024 4).
Proof.
  apply (memorySection_sum_rule 1 32 256 true (MemoryRules.minAndMax 64 1024)
           (MemoryConfig.mkSettings 64 1024 128 4 768 "." 4 1024 4)).
  - reflexivity.
  - cbn. lia.
  - cbn. lia.
Defined.

Lemma accepted_memory_initializes_pool_witness :
  MemoryConfig.memoryMinMb (MemoryConfig.mkSettings 64 1024 128 4 768 "." 4 1024 4)
  <= MemoryConfig.memoryMaxMb (MemoryConfig.mkSettings 64 1024 128 4 768 "." 4 1024 4)
  /\ exists p,
       Pool.initializeFrom 1 (fun _ => true)
         (MemoryConfig.mkSettings 64 1024 128 4 768 "." 4 1024 4) Pool.constructed
       = Pool.Returns p
       /\ Pool.poolInvariant p
       /\ Memory.memoryChunksFree (Pool.ctx p)
          = MemoryConfig.memoryMinMb (MemoryConfig.mkSettings 64 1024 128 4 768 "." 4 1024 4) / 1
       /\ Memory.memoryChunksMax (Pool.ctx p)
          = MemoryConfig.memoryMaxMb (MemoryConfig.mkSettings 64 1024 128 4 768 "." 4 1024 4) / 1.
Proof.
  apply (accepted_memory_initializes_pool 1 32 256 true (MemoryRules.minAndMax 64 1024)
           (MemoryConfig.mkSettings 64 1024 128 4 768 "." 4 1024 4) (fun _ => true)).
  - lia.
  - reflexivity.
  - reflexivity.
  - reflexivity.
Defined.

(* --------------------------------------------------------------------- *)
(** ** Ctx::checkNameCase                                                 *)
(* --------------------------------------------------------------------- *)

Section NameCaseFacts.

Import NameCase.

Variable islower : Z -> bool.

Lemma checkFrom_spec (memory : string) : forall num,
  0 <= num <= 1024 ->
  checkFrom islower memory num
  = if existsb islower (firstn (Z.to_nat (1025 - num)) (cString memory)) then Ok false
    else if 1024 - num <? Z.of_nat (List.length (cString memory)) then Throw tooLong
    else Ok true.
Proof.
  induction memory as [| c rest IH]; intros num Hnum.
  - cbn [checkFrom cString]. rewrite firstn_nil. cbn [existsb List.length Z.of_nat].
    destruct (Z.ltb_spec (1024 - num) 0); [lia | reflexivity].
  - cbn [checkFrom cString]. destruct (Z.eqb_spec (byte_of c) 0) as [Hnul | Hchar].
    + rewrite firstn_nil. cbn [existsb List.length Z.of_nat].
      destruct (Z.ltb_spec (1024 - num) 0); [lia | reflexivity].
    + replace (Z.to_nat (1025 - num)) with (S (Z.to_nat (1024 - num))) by lia.
      cbn [firstn existsb List.length].
      destruct (islower (byte_of c)); cbn [orb]; [reflexivity |].
      destruct (Z.eqb_spec num 1024) as [-> | Hless].
      * cbn [Z.sub Z.to_nat firstn existsb Z.opp Z.add Z.pos_sub].
        change (Z.to_nat (1024 - 1024)) with 0%nat. cbn [firstn existsb].
        destruct (Z.ltb_spec (1024 - 1024) (Z.of_nat (S (List.length (cString rest)))));
          [reflexivity | lia].
      * rewrite wrap64_small by lia. rewrite IH by lia.
        replace (1025 - (num + 1)) with (1024 - num) by lia.
        destruct (existsb islower _); [reflexivity |].
        destruct (Z.ltb_spec (1024 - (num + 1)) (Z.of_nat (List.length (cString rest))));
          destruct (Z.ltb_spec (1024 - num) (Z.of_nat (S (List.length (cString rest)))));
          first [reflexivity | lia].
Qed.

(** X16.  [checkNameCase] returns false when one of the first 1025
    characters of the name is a lower-case letter; otherwise it throws
    DataException 20004 when the name has more than 1024 characters, and
    returns true when it has at most 1024. *)
Theorem checkNameCase_cases (name : string) :
  checkNameCase islower name
  = if existsb islower (firstn 1025 (cString name)) then Ok false
    else if 1024 <? Z.of_nat (List.length (cString name)) then Throw tooLong
    else Ok true.
Proof.
  unfold checkNameCase. rewrite checkFrom_spec by lia. reflexivity.
Qed.

End NameCaseFacts.

Example checkNameCase_upper :
  NameCase.checkNameCase NameCase.islowerC "SCOTT" = Ok true.
Proof. reflexivity. Qed.

Example checkNameCase_mixed :
  NameCase.checkNameCase NameCase.islowerC "Scott" = Ok false.
Proof. reflexivity. Qed.

(* --------------------------------------------------------------------- *)
(** ** Where the round trip of a timezone offset holds                    *)
(* --------------------------------------------------------------------- *)

Section TimezoneDomainFacts.

Import Timezone TimezoneForms.

Variable map10 : Z -> ascii.
Hypothesis map10_digits : forall k, 0 <= k <= 9 -> map10 k = Render.digitChar k.

Lemma timezoneToString_digits (tz : Z) :
  timezoneToString map10 tz = timezoneToString Render.digitChar tz.
Proof.
  unfold timezoneToString.
  set (t0 := if tz <? 0 then - tz else tz).
  assert (H0 : 0 <= t0) by (subst t0; destruct (Z.ltb_spec tz 0); lia).
  assert (H1 : 0 <= Z.quot t0 60) by (apply Z.quot_pos; lia).
  assert (H2 : 0 <= Z.quot (Z.quot t0 60) 10) by (apply Z.quot_pos; lia).
  assert (H3 : 0 <= Z.quot (Z.quot (Z.quot t0 60) 10) 6) by (apply Z.quot_pos; lia).
  assert (H4 : 0 <= Z.quot (Z.quot (Z.quot (Z.quot t0 60) 10) 6) 10)
    by (apply Z.quot_pos; lia).
  rewrite (map10_digits (Z.rem (Z.quot t0 60) 10))
    by (pose proof (Z.rem_bound_pos (Z.quot t0 60) 10); lia).
  rewrite (map10_digits (Z.rem (Z.quot (Z.quot t0 60) 10) 6))
    by (pose proof (Z.rem_bound_pos (Z.quot (Z.quot t0 60) 10) 6); lia).
  rewrite (map10_digits (Z.rem (Z.quot (Z.quot (Z.quot t0 60) 10) 6) 10))
    by (pose proof (Z.rem_bound_pos (Z.quot (Z.quot (Z.quot t0 60) 10) 6) 10); lia).
  rewrite (map10_digits (Z.rem (Z.quot (Z.quot (Z.quot (Z.quot t0 60) 10) 6) 10) 10))
    by (pose proof (Z.rem_bound_pos (Z.quot (Z.quot (Z.quot (Z.quot t0 60) 10) 6) 10) 10);
        lia).
  reflexivity.
Qed.

Lemma parseTimezone_accepts (s : string) (out0 : Z) :
  fst (parseTimezone s out0) = fst (parseTimezone s 0)
  /\ (fst (parseTimezone s 0) = true -> snd (parseTimezone s out0) = snd (parseTimezone s 0)).
Proof.
  unfold parseTimezone. destruct (parseOffset (resolveAlias s)) as [out |].
  - destruct (_ =? 45); [split; reflexivity |].
    destruct (negb _); split; reflexivity.
  - split; [reflexivity | discriminate].
Qed.

Lemma roundTripTable_true :
  forallb (fun sign =>
    forallb (fun a =>
      forallb (fun b =>
        forallb (fun c =>
          forallb (fun d =>
            Bool.eqb (roundTrips (offsetString sign a b c d)) (wholeHour sign a b c d))
            decimalDigits) decimalDigits) decimalDigits) decimalDigits)
    ["+"; "-"]%char = true.
Proof. vm_compute. reflexivity. Qed.

Lemma decimalDigits_In (k : Z) : 0 <= k <= 9 -> In k decimalDigits.
Proof.
  intros H. unfold decimalDigits. cbn [In].
  assert (k = 0 \/ k = 1 \/ k = 2 \/ k = 3 \/ k = 4 \/ k = 5 \/ k = 6 \/ k = 7
          \/ k = 8 \/ k = 9) by lia.
  intuition auto.
Qed.

Lemma forallb_In {A : Type} (f : A -> bool) (l : list A) (x : A) :
  forallb f l = true -> In x l -> f x = true.
Proof. intros H Hin. rewrite forallb_forall in H. exact (H x Hin). Qed.

Lemma roundTrips_wholeHour (sign : ascii) (a b c d : Z) :
  sign = "+"%char \/ sign = "-"%char ->
  In a decimalDigits -> In b decimalDigits -> In c decimalDigits -> In d decimalDigits ->
  roundTrips (offsetString sign a b c d) = wholeHour sign a b c d.
Proof.
  intros Hsign Ha Hb Hc Hd.
  assert (Hs : In sign ["+"; "-"]%char)
    by (destruct Hsign as [-> | ->]; [left | right; left]; reflexivity).
  apply Bool.eqb_prop.
  exact (forallb_In _ _ d
           (forallb_In _ _ c
              (forallb_In _ _ b
                 (forallb_In _ _ a
                    (forallb_In _ _ sign roundTripTable_true Hs) Ha) Hb) Hc) Hd).
Qed.

(** X17.  Among the offsets [sign HH:MM] (a sign and four decimal digits),
    [parseTimezone] followed by [timezoneToString] gives the string back
    exactly for the whole hours below ten other than "-00:00": the tens
    digit of the hour, and both digits of the minute, must be 0. *)
Theorem timezone_roundtrip_domain (sign : ascii) (a b c d out0 : Z) :
  sign = "+"%char \/ sign = "-"%char ->
  0 <= a <= 9 -> 0 <= b <= 9 -> 0 <= c <= 9 -> 0 <= d <= 9 ->
  (fst (parseTimezone (offsetString sign a b c d) out0) = true
   /\ timezoneToString map10 (snd (parseTimezone (offsetString sign a b c d) out0))
      = offsetString sign a b c d)
  <-> (a = 0 /\ c = 0 /\ d = 0 /\ (sign = "-"%char -> 1 <= b)).
Proof.
  intros Hsign Ha Hb Hc Hd.
  pose proof (roundTrips_wholeHour sign a b c d Hsign (decimalDigits_In a Ha)
                (decimalDigits_In b Hb) (decimalDigits_In c Hc) (decimalDigits_In d Hd)) as T.
  set (s := offsetString sign a b c d) in *. clearbody s.
  destruct (parseTimezone_accepts s out0) as (Efst & Esnd).
  rewrite timezoneToString_digits, Efst.
  assert (Hw : wholeHour sign a b c d = true
               <-> (a = 0 /\ c = 0 /\ d = 0 /\ (sign = "-"%char -> 1 <= b))).
  { unfold wholeHour. rewrite !andb_true_iff, orb_true_iff, negb_true_iff.
    rewrite !Z.eqb_eq, Z.leb_le.
    destruct Hsign as [-> | ->]; cbn [Ascii.eqb Bool.eqb]; intuition (try discriminate; auto). }
  rewrite <- Hw, <- T. unfold roundTrips. rewrite andb_true_iff, String.eqb_eq.
  split.
  - intros (Hok & Hprint). rewrite (Esnd Hok) in Hprint. split; assumption.
  - intros (Hok & Hprint). rewrite (Esnd Hok). split; assumption.
Qed.

End TimezoneDomainFacts.

Lemma timezone_roundtrip_domain_witness :
  (fst (Timezone.parseTimezone (TimezoneForms.offsetString "+" 0 5 0 0) 0) = true
   /\ Timezone.timezoneToString Render.digitChar
        (snd (Timezone.parseTimezone (TimezoneForms.offsetString "+" 0 5 0 0) 0))
      = TimezoneForms.offsetString "+" 0 5 0 0)
  <-> (0 = 0 /\ 0 = 0 /\ 0 = 0 /\ ("+"%char = "-"%char -> 1 <= 5)).
Proof.
  apply (timezone_roundtrip_domain Render.digitChar (fun k _ => eq_refl) "+"%char 0 5 0 0 0);
    first [lia | left; reflexivity].
Defined.

Example timezone_roundtrip_plus_five :
  TimezoneForms.roundTrips "+05:00" = true.
Proof. vm_compute. reflexivity. Qed.

(* --------------------------------------------------------------------- *)
(** ** What the escapers emit                                             *)
(* --------------------------------------------------------------------- *)

Section EscapeTextFacts.

Import Escape EscapeForms.

Variable char_is_signed : bool.

Lemma byte_of_range (c : ascii) : 0 <= byte_of c < 256.
Proof.
  unfold byte_of. destruct c as [[] [] [] [] [] [] [] []]; vm_compute; split; congruence.
Qed.

Lemma byte_of_inj (c1 c2 : ascii) : byte_of c1 = byte_of c2 -> c1 = c2.
Proof.
  unfold byte_of. intro H. apply N2Z.inj in H.
  rewrite <- (ascii_N_embedding c1), <- (ascii_N_embedding c2), H. reflexivity.
Qed.

Lemma ascii_of_byte_of (c : ascii) : ascii_of_N (Z.to_N (byte_of c)) = c.
Proof. unfold byte_of. rewrite N2Z.id. apply ascii_N_embedding. Qed.

Lemma land_15_range (v : Z) : 0 <= Z.land v 15 <= 15.
Proof.
  assert (E : Z.land v 15 = v mod 16)
    by (change 15 with (Z.ones 4); rewrite Z.land_ones by lia; reflexivity).
  rewrite E. lia.
Qed.

Lemma nibbles_of_char (v : Z) :
  16 * Z.land (Z.shiftr v 4) 15 + Z.land v 15 = v mod 256.
Proof.
  change 15 with (Z.ones 4). rewrite !Z.land_ones by lia.
  rewrite Z.shiftr_div_pow2 by lia. change (2 ^ 4) with 16. lia.
Qed.

Lemma charValue_byte (c : ascii) :
  charValue char_is_signed c mod 256 = byte_of c
  /\ (32 <= charValue char_is_signed c -> 32 <= byte_of c)
  /\ (byte_of c < 32 -> charValue char_is_signed c = byte_of c).
Proof.
  pose proof (byte_of_range c) as Hb. unfold charValue.
  destruct (char_is_signed && (128 <=? byte_of c)) eqn:E.
  - apply andb_true_iff in E. destruct E as (_ & E). apply Z.leb_le in E. lia.
  - lia.
Qed.

Lemma unmapFrom_from (table : Z -> ascii) (count : nat) : forall j k,
  (forall m n, 0 <= m < j + Z.of_nat count -> 0 <= n < j + Z.of_nat count ->
               table m = table n -> m = n) ->
  0 <= j <= k -> k < j + Z.of_nat count ->
  unmapFrom table count j (table k) = k.
Proof.
  induction count as [| n IH]; intros j k Hinj Hj Hk.
  - lia.
  - cbn [unmapFrom]. destruct (Ascii.eqb_spec (table j) (table k)) as [E | NE].
    + apply Hinj; [lia | lia | exact E].
    + assert (j <> k) by (intros ->; apply NE; reflexivity).
      apply IH; [| lia | lia].
      intros m n' Hm Hn. apply Hinj; lia.
Qed.

Lemma unmapFrom_table (table : Z -> ascii) (N k : Z) :
  (forall m n, 0 <= m < N -> 0 <= n < N -> table m = table n -> m = n) ->
  0 <= k < N ->
  unmapFrom table (Z.to_nat N) 0 (table k) = k.
Proof.
  intros Hinj Hk. apply unmapFrom_from; [| lia | lia].
  intros m n Hm Hn. apply Hinj; lia.
Qed.

Section StreamEscaper.

Variable map16 : Z -> ascii.

Local Abbreviation writeEscapeChar := (Escape.writeEscapeChar char_is_signed map16).
Local Abbreviation writeEscapeValue := (Escape.writeEscapeValue char_is_signed map16).

Lemma writeEscapeChar_json (c : ascii) (rest : list ascii) :
  (forall k, 0 <= k <= 15 -> isHexDigit (map16 k) = true) ->
  jsonBody (writeEscapeChar c ++ rest) = jsonBody rest.
Proof.
  intros Hhex. unfold Escape.writeEscapeChar.
  destruct (Ascii.eqb_spec c TAB) as [-> | nT]; [reflexivity |].
  destruct (Ascii.eqb_spec c CR) as [-> | nR]; [reflexivity |].
  destruct (Ascii.eqb_spec c LF) as [-> | nL]; [reflexivity |].
  destruct (Ascii.eqb_spec c BS) as [-> | nB]; [reflexivity |].
  destruct (Ascii.eqb_spec c FF) as [-> | nF]; [reflexivity |].
  destruct (Ascii.eqb_spec c QUOTE) as [-> | nQ]; [reflexivity |].
  destruct (Ascii.eqb_spec c BACKSLASH) as [-> | nS]; [reflexivity |].
  cbn [orb].
  destruct (Z.ltb_spec (charValue char_is_signed c) 32) as [Hlow | Hhigh].
  - cbn [app jsonBody].
    change (Ascii.eqb BACKSLASH BACKSLASH) with true.
    change (isShortEscape "u") with false.
    change (Ascii.eqb "u" "u") with true.
    change (isHexDigit "0") with true.
    cbv iota. cbn [andb].
    rewrite !Hhex by apply land_15_range. reflexivity.
  - cbn [app jsonBody].
    destruct (Ascii.eqb_spec c BACKSLASH) as [E | _]; [contradiction |].
    destruct (Ascii.eqb_spec c QUOTE) as [E | _]; [contradiction |].
    destruct (charValue_byte c) as (_ & Hge & _).
    destruct (Z.leb_spec 32 (byte_of c)); [reflexivity | lia].
Qed.

Lemma writeEscapeChar_read (c : ascii) (rest : list ascii) :
  (forall m n, 0 <= m < 16 -> 0 <= n < 16 -> map16 m = map16 n -> m = n) ->
  readToken 16 map16 (writeEscapeChar c ++ rest) = Some (c, rest).
Proof.
  intros Hinj. unfold Escape.writeEscapeChar.
  destruct (Ascii.eqb_spec c TAB) as [-> | nT]; [reflexivity |].
  destruct (Ascii.eqb_spec c CR) as [-> | nR]; [reflexivity |].
  destruct (Ascii.eqb_spec c LF) as [-> | nL]; [reflexivity |].
  destruct (Ascii.eqb_spec c BS) as [-> | nB]; [reflexivity |].
  destruct (Ascii.eqb_spec c FF) as [-> | nF]; [reflexivity |].
  destruct (Ascii.eqb_spec c QUOTE) as [-> | nQ]; [reflexivity |].
  destruct (Ascii.eqb_spec c BACKSLASH) as [-> | nS]; [reflexivity |].
  cbn [orb].
  destruct (Z.ltb_spec (charValue char_is_signed c) 32) as [Hlow | Hhigh].
  - cbn [app readToken].
    change (Ascii.eqb BACKSLASH BACKSLASH) with true.
    change (Ascii.eqb "u" "t") with false. change (Ascii.eqb "u" "r") with false.
    change (Ascii.eqb "u" "n") with false. change (Ascii.eqb "u" "b") with false.
    change (Ascii.eqb "u" "f") with false. change (Ascii.eqb "u" "u") with true.
    cbv iota.
    rewrite !(unmapFrom_table map16 16) by (try exact Hinj; pose proof (land_15_range (charValue char_is_signed c)); pose proof (land_15_range (Z.shiftr (charValue char_is_signed c) 4)); lia).
    rewrite nibbles_of_char, Z.mod_mod by lia.
    destruct (charValue_byte c) as (-> & _). rewrite ascii_of_byte_of. reflexivity.
  - cbn [app readToken].
    destruct (Ascii.eqb_spec c BACKSLASH) as [E | _]; [contradiction | reflexivity].
Qed.

Lemma writeEscapeChar_nonempty (c : ascii) : writeEscapeChar c <> [].
Proof.
  unfold Escape.writeEscapeChar.
  repeat match goal with
         | |- context [if ?b then _ else _] => destruct b
         end; discriminate.
Qed.

Lemma writeEscapeValue_json (str : string) :
  (forall k, 0 <= k <= 15 -> isHexDigit (map16 k) = true) ->
  jsonBody (writeEscapeValue str) = true.
Proof.
  intros Hhex. induction str as [| c rest IH]; [reflexivity |].
  cbn [Escape.writeEscapeValue]. rewrite writeEscapeChar_json by exact Hhex. exact IH.
Qed.

Lemma writeEscapeValue_inj (s1 : string) : forall s2,
  (forall m n, 0 <= m < 16 -> 0 <= n < 16 -> map16 m = map16 n -> m = n) ->
  writeEscapeValue s1 = writeEscapeValue s2 -> s1 = s2.
Proof.
  induction s1 as [| c1 r1 IH]; intros s2 Hinj H; destruct s2 as [| c2 r2].
  - reflexivity.
  - cbn [Escape.writeEscapeValue] in H. symmetry in H.
    apply app_eq_nil in H. destruct H as (H & _).
    destruct (writeEscapeChar_nonempty c2 H).
  - cbn [Escape.writeEscapeValue] in H.
    apply app_eq_nil in H. destruct H as (H & _).
    destruct (writeEscapeChar_nonempty c1 H).
  - cbn [Escape.writeEscapeValue] in H.
    apply (f_equal (readToken 16 map16)) in H.
    rewrite !writeEscapeChar_read in H by exact Hinj.
    injection H as Hc Hr. rewrite Hc, (IH r2 Hinj Hr). reflexivity.
Qed.

End StreamEscaper.

Section BuilderEscaper.

Variable map10 : Z -> ascii.

Local Abbreviation appendEscapeChar := (Escape.appendEscapeChar char_is_signed map10).
Local Abbreviation appendEscape := (Escape.appendEscape char_is_signed map10).

Lemma appendEscapeChar_digits (c : ascii) :
  byte_of c < 32 ->
  Escape.appendDec map10 (wrap64 (charValue char_is_signed c)) 2
  = [map10 (byte_of c / 10 mod 10); map10 (byte_of c mod 10)].
Proof.
  intros Hlow. destruct (charValue_byte c) as (_ & _ & Hv). rewrite (Hv Hlow).
  pose proof (byte_of_range c) as Hb.
  unfold wrap64. rewrite Z.mod_small by lia. reflexivity.
Qed.

Lemma appendEscapeChar_json (c : ascii) (rest : list ascii) :
  (forall k, 0 <= k <= 9 -> isHexDigit (map10 k) = true) ->
  jsonBody (appendEscapeChar c ++ rest) = jsonBody rest.
Proof.
  intros Hdig. unfold Escape.appendEscapeChar.
  destruct (Ascii.eqb_spec c TAB) as [-> | nT]; [reflexivity |].
  destruct (Ascii.eqb_spec c CR) as [-> | nR]; [reflexivity |].
  destruct (Ascii.eqb_spec c LF) as [-> | nL]; [reflexivity |].
  destruct (Ascii.eqb_spec c FF) as [-> | nF]; [reflexivity |].
  destruct (Ascii.eqb_spec c BS) as [-> | nB]; [reflexivity |].
  destruct (Z.ltb_spec (byte_of c) 32) as [Hlow | Hhigh].
  - rewrite appendEscapeChar_digits by exact Hlow.
    cbn [app jsonBody].
    change (Ascii.eqb BACKSLASH BACKSLASH) with true.
    change (isShortEscape "u") with false.
    change (Ascii.eqb "u" "u") with true.
    change (isHexDigit "0") with true.
    cbv iota. cbn [andb].
    rewrite !Hdig by lia. reflexivity.
  - destruct (Ascii.eqb_spec c QUOTE) as [-> | nQ]; [reflexivity |].
    destruct (Ascii.eqb_spec c BACKSLASH) as [-> | nS]; [reflexivity |].
    destruct (Ascii.eqb_spec c SLASH) as [-> | nL']; [reflexivity |].
    cbn [orb app jsonBody].
    destruct (Ascii.eqb_spec c BACKSLASH) as [E | _]; [contradiction |].
    destruct (Ascii.eqb_spec c QUOTE) as [E | _]; [contradiction |].
    destruct (Z.leb_spec 32 (byte_of c)); [reflexivity | lia].
Qed.

Lemma appendEscapeChar_read (c : ascii) (rest : list ascii) :
  (forall m n, 0 <= m < 10 -> 0 <= n < 10 -> map10 m = map10 n -> m = n) ->
  readToken 10 map10 (appendEscapeChar c ++ rest) = Some (c, rest).
Proof.
  intros Hinj. unfold Escape.appendEscapeChar.
  destruct (Ascii.eqb_spec c TAB) as [-> | nT]; [reflexivity |].
  destruct (Ascii.eqb_spec c CR) as [-> | nR]; [reflexivity |].
  destruct (Ascii.eqb_spec c LF) as [-> | nL]; [reflexivity |].
  destruct (Ascii.eqb_spec c FF) as [-> | nF]; [reflexivity |].
  destruct (Ascii.eqb_spec c BS) as [-> | nB]; [reflexivity |].
  destruct (Z.ltb_spec (byte_of c) 32) as [Hlow | Hhigh].
  - rewrite appendEscapeChar_digits by exact Hlow.
    pose proof (byte_of_range c) as Hb.
    cbn [app readToken].
    change (Ascii.eqb BACKSLASH BACKSLASH) with true.
    change (Ascii.eqb "u" "t") with false. change (Ascii.eqb "u" "r") with false.
    change (Ascii.eqb "u" "n") with false. change (Ascii.eqb "u" "b") with false.
    change (Ascii.eqb "u" "f") with false. change (Ascii.eqb "u" "u") with true.
    cbv iota.
    rewrite !(unmapFrom_table map10 10) by (try exact Hinj; lia).
    replace ((10 * (byte_of c / 10 mod 10) + byte_of c mod 10) mod 256)
      with (byte_of c) by lia.
    rewrite ascii_of_byte_of. reflexivity.
  - destruct (Ascii.eqb_spec c QUOTE) as [-> | nQ]; [reflexivity |].
    destruct (Ascii.eqb_spec c BACKSLASH) as [-> | nS]; [reflexivity |].
    destruct (Ascii.eqb_spec c SLASH) as [-> | nL']; [reflexivity |].
    cbn [orb app readToken].
    destruct (Ascii.eqb_spec c BACKSLASH) as [E | _]; [contradiction | reflexivity].
Qed.

Lemma appendEscapeChar_nonempty (c : ascii) : appendEscapeChar c <> [].
Proof.
  unfold Escape.appendEscapeChar.
  repeat match goal with
         | |- context [if ?b then _ else _] => destruct b
         end; discriminate.
Qed.

Lemma appendEscape_json (str : string) :
  (forall k, 0 <= k <= 9 -> isHexDigit (map10 k) = true) ->
  jsonBody (appendEscape str) = true.
Proof.
  intros Hdig. induction str as [| c rest IH]; [reflexivity |].
  cbn [Escape.appendEscape]. rewrite appendEscapeChar_json by exact Hdig. exact IH.
Qed.

Lemma appendEscape_inj (s1 : string) : forall s2,
  (forall m n, 0 <= m < 10 -> 0 <= n < 10 -> map10 m = map10 n -> m = n) ->
  appendEscape s1 = appendEscape s2 -> s1 = s2.
Proof.
  induction s1 as [| c1 r1 IH]; intros s2 Hinj H; destruct s2 as [| c2 r2].
  - reflexivity.
  - cbn [Escape.appendEscape] in H. symmetry in H.
    apply app_eq_nil in H. destruct H as (H & _).
    destruct (appendEscapeChar_nonempty c2 H).
  - cbn [Escape.appendEscape] in H.
    apply app_eq_nil in H. destruct H as (H & _).
    destruct (appendEscapeChar_nonempty c1 H).
  - cbn [Escape.appendEscape] in H.
    apply (f_equal (readToken 10 map10)) in H.
    rewrite !appendEscapeChar_read in H by exact Hinj.
    injection H as Hc Hr. rewrite Hc, (IH r2 Hinj Hr). reflexivity.
Qed.

End BuilderEscaper.

(** X18.  What either escaper emits can stand between the quotes of a JSON
    string: no character below 0x20, no bare quote or backslash, and after
    a backslash a short escape or [u] and four hexadecimal digits.  This
    needs the digit tables to give hexadecimal digits, and says nothing of
    which character an escape denotes. *)
Theorem escapers_emit_json_text (map16 map10 : Z -> ascii) (str : string) :
  (forall k, 0 <= k <= 15 -> isHexDigit (map16 k) = true) ->
  (forall k, 0 <= k <= 9 -> isHexDigit (map10 k) = true) ->
  jsonBody (Escape.writeEscapeValue char_is_signed map16 str) = true
  /\ jsonBody (Escape.appendEscape char_is_signed map10 str) = true.
Proof.
  intros H16 H10. split.
  - apply writeEscapeValue_json. exact H16.
  - apply appendEscape_json. exact H10.
Qed.

(** X19.  Neither escaper loses anything: when the digit table sends its
    digits to different characters, two strings with the same escaped text
    are the same string. *)
Theorem escapers_lose_nothing (map16 map10 : Z -> ascii) (s1 s2 : string) :
  (forall m n, 0 <= m < 16 -> 0 <= n < 16 -> map16 m = map16 n -> m = n) ->
  (forall m n, 0 <= m < 10 -> 0 <= n < 10 -> map10 m = map10 n -> m = n) ->
  (Escape.writeEscapeValue char_is_signed map16 s1
   = Escape.writeEscapeValue char_is_signed map16 s2 -> s1 = s2)
  /\ (Escape.appendEscape char_is_signed map10 s1
      = Escape.appendEscape char_is_signed map10 s2 -> s1 = s2).
Proof.
  intros H16 H10. split; intro H.
  - exact (writeEscapeValue_inj map16 s1 s2 H16 H).
  - exact (appendEscape_inj map10 s1 s2 H10 H).
Qed.

End EscapeTextFacts.

Lemma hexChar_inj (m n : Z) :
  0 <= m < 16 -> 0 <= n < 16 -> Render.hexChar m = Render.hexChar n -> m = n.
Proof.
  intros Hm Hn.
  assert (Hcases : forall k, 0 <= k < 16 ->
            k = 0 \/ k = 1 \/ k = 2 \/ k = 3 \/ k = 4 \/ k = 5 \/ k = 6 \/ k = 7
            \/ k = 8 \/ k = 9 \/ k = 10 \/ k = 11 \/ k = 12 \/ k = 13 \/ k = 14
            \/ k = 15) by (intros; lia).
  destruct (Hcases m Hm) as [-> | [-> | [-> | [-> | [-> | [-> | [-> | [-> | [-> | [->
    | [-> | [-> | [-> | [-> | [-> | ->]]]]]]]]]]]]]]];
  destruct (Hcases n Hn) as [-> | [-> | [-> | [-> | [-> | [-> | [-> | [-> | [-> | [->
    | [-> | [-> | [-> | [-> | [-> | ->]]]]]]]]]]]]]]];
  intro H; first [reflexivity | discriminate H].
Qed.

Lemma digitChar_inj (m n : Z) :
  0 <= m < 10 -> 0 <= n < 10 -> Render.digitChar m = Render.digitChar n -> m = n.
Proof.
  intros Hm Hn.
  assert (Hcases : forall k, 0 <= k < 10 ->
            k = 0 \/ k = 1 \/ k = 2 \/ k = 3 \/ k = 4 \/ k = 5 \/ k = 6 \/ k = 7
            \/ k = 8 \/ k = 9) by (intros; lia).
  destruct (Hcases m Hm) as [-> | [-> | [-> | [-> | [-> | [-> | [-> | [-> | [-> | ->]]]]]]]]];
  destruct (Hcases n Hn) as [-> | [-> | [-> | [-> | [-> | [-> | [-> | [-> | [-> | ->]]]]]]]]];
  intro H; first [reflexivity | discriminate H].
Qed.

Lemma hexChar_hex (k : Z) : 0 <= k <= 15 -> EscapeForms.isHexDigit (Render.hexChar k) = true.
Proof.
  intros Hk.
  assert (Hcases : k = 0 \/ k = 1 \/ k = 2 \/ k = 3 \/ k = 4 \/ k = 5 \/ k = 6 \/ k = 7
            \/ k = 8 \/ k = 9 \/ k = 10 \/ k = 11 \/ k = 12 \/ k = 13 \/ k = 14
            \/ k = 15) by lia.
  destruct Hcases as [-> | [-> | [-> | [-> | [-> | [-> | [-> | [-> | [-> | [->
    | [-> | [-> | [-> | [-> | [-> | ->]]]]]]]]]]]]]]]; reflexivity.
Qed.

Lemma digitChar_hex (k : Z) : 0 <= k <= 9 -> EscapeForms.isHexDigit (Render.digitChar k) = true.
Proof.
  intros Hk.
  assert (Hcases : k = 0 \/ k = 1 \/ k = 2 \/ k = 3 \/ k = 4 \/ k = 5 \/ k = 6 \/ k = 7
            \/ k = 8 \/ k = 9) by lia.
  destruct Hcases as [-> | [-> | [-> | [-> | [-> | [-> | [-> | [-> | [-> | ->]]]]]]]]];
    reflexivity.
Qed.

Lemma escapers_emit_json_text_witness :
  EscapeForms.jsonBody
    (Escape.writeEscapeValue true Render.hexChar
       (String "a" (String QUOTE (String "001" (String "255" EmptyString))))) = true
  /\ EscapeForms.jsonBody
       (Escape.appendEscape true Render.digitChar
          (String "a" (String QUOTE (String "001" (String "255" EmptyString))))) = true.
Proof.
  apply (escapers_emit_json_text true Render.hexChar Render.digitChar).
  - exact hexChar_hex.
  - exact digitChar_hex.
Defined.

Lemma escapers_lose_nothing_witness :
  (Escape.writeEscapeValue false Render.hexChar (String "001" EmptyString)
   = Escape.writeEscapeValue false Render.hexChar (String "001" EmptyString)
   -> String "001" EmptyString = String "001" EmptyString)
  /\ (Escape.appendEscape false Render.digitChar (String "001" EmptyString)
      = Escape.appendEscape false Render.digitChar (String "001" EmptyString)
      -> String "001" EmptyString = String "001" EmptyString).
Proof.
  apply (escapers_lose_nothing false Render.hexChar Render.digitChar).
  - exact hexChar_inj.
  - exact digitChar_inj.
Defined.

(** With [char] signed, the stream escaper writes a byte from 0x80 up as a
    [\u00] escape. *)
Example writeEscapeValue_high_byte :
  Escape.writeEscapeValue true Render.hexChar (String "233" EmptyString)
  = [BACKSLASH; "u"; "0"; "0"; "e"; "9"]%char
  /\ Escape.writeEscapeValue false Render.hexChar (String "233" EmptyString)
     = ["233"]%char.
Proof. split; reflexivity. Qed.

(* --------------------------------------------------------------------- *)
(** ** The two ways of appending, and the size of a message               *)
(* --------------------------------------------------------------------- *)

Section QueuePathFacts.

Import Queue QueueForms.

Variable sizeof_BuilderMsg : Z.
Variable OUTPUT_BUFFER_DATA_SIZE : Z.
Variable MEMORY_CHUNK_SIZE_MB : Z.
Variable chunkBytes : Z -> Z.

Local Abbreviation builderRotate :=
  (Queue.builderRotate sizeof_BuilderMsg OUTPUT_BUFFER_DATA_SIZE MEMORY_CHUNK_SIZE_MB chunkBytes).
Local Abbreviation builderShift :=
  (Queue.builderShift sizeof_BuilderMsg OUTPUT_BUFFER_DATA_SIZE MEMORY_CHUNK_SIZE_MB chunkBytes).
Local Abbreviation builderBegin :=
  (Queue.builderBegin sizeof_BuilderMsg OUTPUT_BUFFER_DATA_SIZE MEMORY_CHUNK_SIZE_MB chunkBytes).
Local Abbreviation builderCommit := (Queue.builderCommit sizeof_BuilderMsg).
Local Abbreviation append :=
  (Queue.append sizeof_BuilderMsg OUTPUT_BUFFER_DATA_SIZE MEMORY_CHUNK_SIZE_MB chunkBytes).
Local Abbreviation appendEach :=
  (Queue.appendEach sizeof_BuilderMsg OUTPUT_BUFFER_DATA_SIZE MEMORY_CHUNK_SIZE_MB chunkBytes).
Local Abbreviation appendStr :=
  (Queue.appendStr sizeof_BuilderMsg OUTPUT_BUFFER_DATA_SIZE MEMORY_CHUNK_SIZE_MB chunkBytes).

Ltac builder_simpl :=
  cbn [older lastBuilderQueue buffersAllocated msg messageSize messagePosition
       unconfirmedSize flushBuffer scnType commitScn lwnScn lwnIdx id
       memoryChunksWriteBufferMax notifications
       setQueues setLast setMsg setMessageSize setMessagePosition
       setUnconfirmedSize setLwnIdx setId setNotifications
       builderShiftFast flush
       q_id q_size q_start q_data q_msgs setSize setStart setByte setMsgAt].

(** While the bytes fit in the node, [append] called on each character
    stores them one after the other and only moves [messagePosition]. *)
Lemma appendEach_within (str : list Z) : forall b,
  0 <= q_size (lastBuilderQueue b) ->
  0 <= messagePosition b ->
  q_size (lastBuilderQueue b) + messagePosition b + Z.of_nat (List.length str)
  < OUTPUT_BUFFER_DATA_SIZE ->
  OUTPUT_BUFFER_DATA_SIZE <= 18446744073709551616 ->
  appendEach str b
  = Ok (setMessagePosition (messagePosition b + Z.of_nat (List.length str))
          (setLast (storeBytes (q_size (lastBuilderQueue b) + messagePosition b) str
                      (lastBuilderQueue b)) b)).
Proof.
  induction str as [| c rest IH]; intros b Hq Hp Hfit Hout.
  - destruct b. cbn [Queue.appendEach List.length Z.of_nat storeBytes]. builder_simpl.
    rewrite Z.add_0_r. reflexivity.
  - cbn [List.length] in Hfit. rewrite Nat2Z.inj_succ in Hfit.
    cbn [Queue.appendEach]. unfold Queue.append, Queue.builderShift. cbv zeta.
    builder_simpl.
    rewrite (wrap64_small (messagePosition b + 1)) by lia.
    rewrite (wrap64_small (q_size (lastBuilderQueue b) + messagePosition b)) by lia.
    rewrite (wrap64_small (q_size (lastBuilderQueue b) + (messagePosition b + 1))) by lia.
    destruct (Z.geb_spec (q_size (lastBuilderQueue b) + (messagePosition b + 1))
                OUTPUT_BUFFER_DATA_SIZE) as [Hge | _]; [lia |].
    rewrite IH; builder_simpl; try lia.
    cbn [List.length storeBytes]. rewrite Nat2Z.inj_succ.
    destruct b. builder_simpl.
    replace (q_size lastBuilderQueue0 + (messagePosition0 + 1))
      with (q_size lastBuilderQueue0 + messagePosition0 + 1) by lia.
    replace (messagePosition0 + 1 + Z.of_nat (List.length rest))
      with (messagePosition0 + Z.succ (Z.of_nat (List.length rest))) by lia.
    reflexivity.
Qed.

(** X20.  [append(str, size)] does what [append(char)] called on each
    character does, whether it takes the [memcpy] branch or not: the same
    bytes at the same places and the same [messagePosition].  The sizes
    are taken in range, so that the 64-bit sums do not wrap. *)
Theorem appendStr_is_append_each (str : list Z) (b : Builder) :
  0 <= q_size (lastBuilderQueue b) ->
  0 <= messagePosition b ->
  q_size (lastBuilderQueue b) + messagePosition b + Z.of_nat (List.length str)
  < 18446744073709551616 ->
  OUTPUT_BUFFER_DATA_SIZE <= 18446744073709551616 ->
  appendStr str b = appendEach str b.
Proof.
  intros Hq Hp Hrange Hout. unfold Queue.appendStr. cbv zeta.
  rewrite (wrap64_small (q_size (lastBuilderQueue b) + messagePosition b)) by lia.
  rewrite (wrap64_small (q_size (lastBuilderQueue b) + messagePosition b
                         + Z.of_nat (List.length str))) by lia.
  destruct (Z.ltb_spec (q_size (lastBuilderQueue b) + messagePosition b
                        + Z.of_nat (List.length str)) OUTPUT_BUFFER_DATA_SIZE)
    as [Hfit | _]; [| reflexivity].
  rewrite appendEach_within by assumption.
  builder_simpl. rewrite wrap64_small by lia. reflexivity.
Qed.

(** *** The size a commit records *)

Lemma find_updated (qid : Z) (f : BuilderQueue -> BuilderQueue) (l : list BuilderQueue)
    (q : BuilderQueue) :
  (forall x, q_id (f x) = q_id x) ->
  find (fun x => q_id x =? qid) l = Some q ->
  find (fun x => q_id x =? qid) (map (fun x => if q_id x =? qid then f x else x) l)
  = Some (f q).
Proof.
  intros Hid. induction l as [| x xs IH]; [discriminate |].
  cbn [find map]. destruct (q_id x =? qid) eqn:E.
  - intro H. injection H as <-. rewrite Hid, E. reflexivity.
  - rewrite E. exact IH.
Qed.

Lemma find_last_added (qid : Z) (l : list BuilderQueue) (x q : BuilderQueue) :
  find (fun y => q_id y =? qid) l = Some q ->
  find (fun y => q_id y =? qid) (l ++ [x]) = Some q.
Proof.
  induction l as [| y ys IH]; [discriminate |].
  cbn [find app]. destruct (q_id y =? qid); [trivial | exact IH].
Qed.

Lemma find_none_added (qid : Z) (l : list BuilderQueue) (x : BuilderQueue) :
  find (fun y => q_id y =? qid) l = None ->
  find (fun y => q_id y =? qid) (l ++ [x])
  = if q_id x =? qid then Some x else None.
Proof.
  induction l as [| y ys IH]; [reflexivity |].
  cbn [find app]. destruct (q_id y =? qid); [discriminate | exact IH].
Qed.

(** A write through [msg] reaches the node [findQueue] gives. *)
Lemma findQueue_writeMsg (f : BuilderMsg -> BuilderMsg) (b : Builder) (qid off : Z)
    (q : BuilderQueue) :
  msg b = Some (qid, off) ->
  findQueue b qid = Some q ->
  findQueue (writeMsg f b) qid = Some (setMsgAt off f q).
Proof.
  unfold writeMsg, updateQueue, findQueue. intros -> Hq.
  destruct (q_id (lastBuilderQueue b) =? qid) eqn:E.
  - injection Hq as <-. builder_simpl. rewrite E. reflexivity.
  - builder_simpl. rewrite E. apply find_updated; [reflexivity | exact Hq].
Qed.

Lemma builderRotate_counts (copy : bool) (b b' : Builder) :
  builderRotate copy b = Ok b' ->
  wrap64 (messageSize b' + messagePosition b') = wrap64 (messageSize b + messagePosition b)
  /\ (placed b -> placed b').
Proof.
  unfold Queue.builderRotate.
  destruct (messageSize b >? _); [discriminate |].
  destruct (msg b) as [[mq moff] |] eqn:Em.
  - destruct (copy && _); cbv zeta; intro H; injection H as <-.
    + rewrite writeMsg_messageSize, writeMsg_messagePosition. builder_simpl.
      split; [reflexivity |]. intros _. unfold placed.
      eexists. exists 0. eexists. rewrite writeMsg_msg. builder_simpl.
      split; [reflexivity |].
      unfold findQueue. rewrite writeMsg_last_id. builder_simpl.
      unfold Queue.copyMessage at 1. cbn [q_id]. rewrite Z.eqb_refl. reflexivity.
    + builder_simpl. split; [unfold wrap64; lia |].
      intros (qid & off & q & Hm & Hq). rewrite Em in Hm. injection Hm as <- <-.
      unfold placed. exists mq, moff.
      unfold findQueue in *. builder_simpl. rewrite Em.
      destruct (wrap64 (q_id (lastBuilderQueue b) + 1) =? mq).
      * eexists. split; reflexivity.
      * destruct (q_id (lastBuilderQueue b) =? mq) eqn:E.
        -- destruct (find (fun y => q_id y =? mq) (older b)) as [q0 |] eqn:F.
           ++ exists q0. split; [reflexivity |]. apply find_last_added. exact F.
           ++ eexists. split; [reflexivity |].
              rewrite find_none_added by exact F. builder_simpl. rewrite E. reflexivity.
        -- exists q. split; [reflexivity |]. apply find_last_added. exact Hq.
  - cbv zeta. intro H. injection H as <-. builder_simpl.
    split; [unfold wrap64; lia |].
    intros (qid & off & q & Hm & _). rewrite Em in Hm. discriminate.
Qed.

Lemma append_counts (c : Z) (b b' : Builder) :
  append c b = Ok b' ->
  wrap64 (messageSize b' + messagePosition b')
  = wrap64 (messageSize b + messagePosition b + 1)
  /\ (placed b -> placed b').
Proof.
  unfold Queue.append, Queue.builderShift. cbv zeta. builder_simpl.
  set (b1 := setMessagePosition (wrap64 (messagePosition b + 1))
               (setLast (setByte (wrap64 (q_size (lastBuilderQueue b) + messagePosition b)) c
                           (lastBuilderQueue b)) b)).
  assert (Hsum : wrap64 (messageSize b1 + messagePosition b1)
                 = wrap64 (messageSize b + messagePosition b + 1))
    by (subst b1; builder_simpl; unfold wrap64; lia).
  assert (Hplaced : placed b -> placed b1).
  { intros (qid & off & q & Hm & Hq). subst b1. unfold placed. exists qid, off.
    unfold findQueue in *. builder_simpl. rewrite Hm.
    destruct (q_id (lastBuilderQueue b) =? qid).
    - eexists. split; reflexivity.
    - exists q. split; [reflexivity | exact Hq]. }
  destruct (_ >=? _).
  - intro H. destruct (builderRotate_counts true b1 b' H) as (Hs & Hp).
    split; [rewrite Hs; exact Hsum | intro Hb; exact (Hp (Hplaced Hb))].
  - intro H. injection H as <-. split; assumption.
Qed.

Lemma appendEach_counts (str : list Z) : forall b b',
  appendEach str b = Ok b' ->
  wrap64 (messageSize b' + messagePosition b')
  = wrap64 (messageSize b + messagePosition b + Z.of_nat (List.length str))
  /\ (placed b -> placed b').
Proof.
  induction str as [| c rest IH]; intros b b' H.
  - injection H as <-. cbn [List.length Z.of_nat]. rewrite Z.add_0_r.
    split; [reflexivity | trivial].
  - cbn [Queue.appendEach] in H.
    destruct (append c b) as [b1 |] eqn:E1; [| discriminate].
    destruct (append_counts c b b1 E1) as (Hs1 & Hp1).
    destruct (IH b1 b' H) as (Hs & Hp).
    split; [| intro Hb; exact (Hp (Hp1 Hb))].
    rewrite Hs. cbn [List.length]. rewrite Nat2Z.inj_succ.
    unfold wrap64 in *. lia.
Qed.

Lemma builderBegin_counts (scn sequence obj flags : Z) (b b' : Builder) :
  builderBegin scn sequence obj flags b = Ok b' ->
  wrap64 (messageSize b' + messagePosition b') = wrap64 sizeof_BuilderMsg
  /\ placed b'.
Proof.
  unfold Queue.builderBegin. cbv zeta. builder_simpl.
  set (b0 := setMessagePosition 0 (setMessageSize 0 b)).
  intros H.
  assert (Hr : exists b1,
             (if wrap64 (wrap64 (q_size (lastBuilderQueue b) + 0) + sizeof_BuilderMsg)
                 >=? OUTPUT_BUFFER_DATA_SIZE
              then builderRotate true b0 else Ok b0) = Ok b1
             /\ wrap64 (messageSize b1 + messagePosition b1) = 0).
  { destruct (_ >=? _).
    - destruct (builderRotate true b0) as [b1 |] eqn:E1; [| discriminate].
      exists b1. split; [reflexivity |].
      destruct (builderRotate_counts true b0 b1 E1) as (-> & _). reflexivity.
    - exists b0. split; reflexivity. }
  destruct Hr as (b1 & E1 & Hs1). rewrite E1 in H.
  injection H as <-. builder_simpl.
  rewrite writeMsg_messageSize, writeMsg_messagePosition. builder_simpl.
  split; [unfold wrap64 in *; lia |]. unfold placed.
  eexists. eexists. eexists. builder_simpl. rewrite writeMsg_msg. builder_simpl.
  split; [reflexivity |].
  unfold findQueue. builder_simpl. rewrite writeMsg_last_id. builder_simpl.
  rewrite Z.eqb_refl. reflexivity.
Qed.

Lemma msgAt_writeMsg (f : BuilderMsg -> BuilderMsg) (b : Builder) (qid off : Z)
    (q : BuilderQueue) :
  msg b = Some (qid, off) ->
  findQueue b qid = Some q ->
  msgAt (writeMsg f b) qid off
  = Some (f (match q_msgs q off with Some m => m | None => uninitMsg end)).
Proof.
  intros Hm Hq. unfold msgAt. rewrite (findQueue_writeMsg f b qid off q Hm Hq).
  cbn [setMsgAt q_msgs]. rewrite Z.eqb_refl. reflexivity.
Qed.

Lemma findQueue_frame (b b' : Builder) (qid : Z) :
  older b' = older b ->
  lastBuilderQueue b' = lastBuilderQueue b ->
  findQueue b' qid = findQueue b qid.
Proof. unfold findQueue. intros -> ->. reflexivity. Qed.

Lemma msgAt_frame (b b' : Builder) (qid off : Z) :
  older b' = older b ->
  q_id (lastBuilderQueue b') = q_id (lastBuilderQueue b) ->
  q_msgs (lastBuilderQueue b') = q_msgs (lastBuilderQueue b) ->
  msgAt b' qid off = msgAt b qid off.
Proof.
  unfold msgAt, findQueue. intros -> -> Hmsgs.
  destruct (q_id (lastBuilderQueue b) =? qid); [rewrite Hmsgs |]; reflexivity.
Qed.

(** X21.  A message begun with [builderBegin] and filled by [append] is
    committed with the number of its payload bytes in the [size] field of
    its header, whatever rotations took place in between; without payload
    [builderCommit] throws RedoLogException 50058. *)
Theorem committed_size_is_payload
    (scn sequence obj flags : Z) (payload : list Z) (b0 b1 b2 : Builder) :
  0 <= sizeof_BuilderMsg < 18446744073709551616 ->
  Z.of_nat (List.length payload) < 18446744073709551616 ->
  builderBegin scn sequence obj flags b0 = Ok b1 ->
  appendEach payload b1 = Ok b2 ->
  match builderCommit b2 with
  | Throw e => e = emptyCommit /\ payload = []
  | Ok b3 =>
      payload <> []
      /\ exists qid off m,
           msg b2 = Some (qid, off)
           /\ msgAt b3 qid off = Some m
           /\ m_size m = Z.of_nat (List.length payload)
  end.
Proof.
  intros Hsz Hlen Hbegin Happ.
  destruct (builderBegin_counts scn sequence obj flags b0 b1 Hbegin) as (Hs1 & Hp1).
  destruct (appendEach_counts payload b1 b2 Happ) as (Hs2 & Hp2). specialize (Hp2 Hp1).
  assert (Hw : wrap64 (messageSize b2 + messagePosition b2)
               = wrap64 (sizeof_BuilderMsg + Z.of_nat (List.length payload)))
    by (unfold wrap64 in *; lia).
  destruct Hp2 as (qid & off & q & Hm & Hq).
  unfold Queue.builderCommit. cbv zeta. builder_simpl.
  destruct (Z.eqb_spec (wrap64 (messageSize b2 + messagePosition b2)) sizeof_BuilderMsg)
    as [E | NE].
  - split; [reflexivity |]. destruct payload as [| c rest]; [reflexivity |].
    cbn [List.length] in *. rewrite Nat2Z.inj_succ in *. unfold wrap64 in *. lia.
  - assert (Hne : payload <> []).
    { intros ->. cbn [List.length Z.of_nat] in Hw. unfold wrap64 in *. lia. }
    rewrite !writeMsg_messageSize, !writeMsg_messagePosition, !writeMsg_unconfirmedSize.
    builder_simpl.
    set (S := wrap64 (wrap64 (messageSize b2 + messagePosition b2) - sizeof_BuilderMsg)).
    assert (HS : S = Z.of_nat (List.length payload))
      by (subst S; unfold wrap64 in *; lia).
    match goal with
    | |- context [writeMsg (withQueueId ?x) ?y] => set (bB := writeMsg (withQueueId x) y)
    end.
    match goal with
    | |- context [writeMsg (withSize S) ?y] => set (bC := writeMsg (withSize S) y)
    end.
    assert (HmA : msg (setMessageSize (wrap64 (messageSize b2 + messagePosition b2)) b2)
                  = Some (qid, off)) by exact Hm.
    assert (HqA : findQueue (setMessageSize (wrap64 (messageSize b2 + messagePosition b2)) b2)
                    qid = Some q) by exact Hq.
    pose proof (findQueue_writeMsg (withQueueId (q_id (lastBuilderQueue b2))) _ qid off q
                  HmA HqA) as HqB.
    fold bB in HqB.
    assert (HmB : msg bB = Some (qid, off)) by (subst bB; rewrite writeMsg_msg; exact Hm).
    match type of HqB with _ = Some ?x => set (qB := x) in HqB end.
    assert (HC : msgAt bC qid off
                 = Some (withSize S (match q_msgs qB off with
                                     | Some m => m
                                     | None => uninitMsg
                                     end))).
    { subst bC. apply msgAt_writeMsg.
      - builder_simpl. exact HmB.
      - rewrite <- HqB. apply findQueue_frame; reflexivity. }
    assert (Hframe : forall b3,
              older b3 = older bC ->
              q_id (lastBuilderQueue b3) = q_id (lastBuilderQueue bC) ->
              q_msgs (lastBuilderQueue b3) = q_msgs (lastBuilderQueue bC) ->
              payload <> []
              /\ exists qid0 off0 m,
                   msg b2 = Some (qid0, off0)
                   /\ msgAt b3 qid0 off0 = Some m
                   /\ m_size m = Z.of_nat (List.length payload)).
    { intros b3 Ho Hi Hmsgs. split; [exact Hne |].
      exists qid, off. eexists. split; [exact Hm | split].
      - rewrite (msgAt_frame bC b3 qid off Ho Hi Hmsgs). exact HC.
      - exact HS. }
    destruct (_ || _); apply Hframe; builder_simpl;
      solve [reflexivity
            | destruct (q_start (lastBuilderQueue bC) =? BUFFER_START_UNDEFINED);
              reflexivity].
Qed.

(** *** Every byte goes inside the data area *)

Hypothesis sizeof_fits : 0 <= sizeof_BuilderMsg < OUTPUT_BUFFER_DATA_SIZE.
Hypothesis dataSize_aligned : OUTPUT_BUFFER_DATA_SIZE mod 8 = 0.
Hypothesis dataSize_range : OUTPUT_BUFFER_DATA_SIZE < 9223372036854775808.

Local Abbreviation writeBufferLimit := (Queue.writeBufferLimit MEMORY_CHUNK_SIZE_MB).

Lemma writeBufferLimit_range (b : Builder) :
  0 <= writeBufferLimit b < 18446744073709551616.
Proof. unfold Queue.writeBufferLimit, wrap64. lia. Qed.

Lemma builderRotate_inside (copy : bool) (b b' : Builder) (limit : Z) :
  limit + OUTPUT_BUFFER_DATA_SIZE < 18446744073709551616 ->
  writeBufferLimit b = limit ->
  0 <= messagePosition b <= OUTPUT_BUFFER_DATA_SIZE ->
  0 <= messageSize b ->
  builderRotate copy b = Ok b' ->
  inProgress OUTPUT_BUFFER_DATA_SIZE limit b'
  /\ writeBufferLimit b' = limit.
Proof.
  intros Hlimit HL Hmp Hms. unfold Queue.builderRotate.
  destruct (Z.gtb_spec (messageSize b) (Queue.writeBufferLimit MEMORY_CHUNK_SIZE_MB b))
    as [| Hle]; [discriminate |].
  rewrite HL in Hle.
  assert (Hsum : wrap64 (messageSize b + messagePosition b)
                 = messageSize b + messagePosition b) by (apply wrap64_small; lia).
  destruct (msg b) as [[mq moff] |].
  - destruct copy; cbn [andb].
    + unfold Queue.fitsOneBuffer. rewrite Hsum.
      destruct (Z.ltb_spec (messageSize b + messagePosition b) OUTPUT_BUFFER_DATA_SIZE)
        as [Hfit | Hno]; cbv zeta; intro H; injection H as <-.
      * unfold inProgress, Queue.writeBufferLimit in *.
        rewrite writeMsg_last_size, writeMsg_messagePosition, writeMsg_messageSize,
          writeMsg_memoryChunksWriteBufferMax.
        builder_simpl. unfold Queue.copyMessage. cbn [q_size].
        repeat split; first [lia | exact HL].
      * unfold inProgress, Queue.writeBufferLimit in *. builder_simpl.
        rewrite ?Hsum. repeat split; first [lia | exact HL].
    + cbv zeta. intro H. injection H as <-.
      unfold inProgress, Queue.writeBufferLimit in *. builder_simpl.
      rewrite ?Hsum. repeat split; first [lia | exact HL].
  - cbv zeta. intro H. injection H as <-.
    unfold inProgress, Queue.writeBufferLimit in *. builder_simpl.
    rewrite ?Hsum. repeat split; first [lia | exact HL].
Qed.

Lemma append_inside (c : Z) (b b' : Builder) (limit : Z) :
  limit + OUTPUT_BUFFER_DATA_SIZE < 18446744073709551616 ->
  writeBufferLimit b = limit ->
  inProgress OUTPUT_BUFFER_DATA_SIZE limit b ->
  append c b = Ok b' ->
  inProgress OUTPUT_BUFFER_DATA_SIZE limit b' /\ writeBufferLimit b' = limit.
Proof.
  intros Hlimit HL (Hq & Hq8 & Hmp & Hin & Hms).
  pose proof (writeBufferLimit_range b) as HLr. rewrite HL in HLr.
  unfold Queue.append, Queue.builderShift. cbv zeta. builder_simpl.
  rewrite (wrap64_small (messagePosition b + 1)) by lia.
  rewrite (wrap64_small (q_size (lastBuilderQueue b) + (messagePosition b + 1))) by lia.
  destruct (Z.geb_spec (q_size (lastBuilderQueue b) + (messagePosition b + 1))
              OUTPUT_BUFFER_DATA_SIZE) as [Hfull | Hroom].
  - intro H. apply (builderRotate_inside true _ b' limit Hlimit) in H.
    + exact H.
    + exact HL.
    + builder_simpl. lia.
    + builder_simpl. lia.
  - intro H. injection H as <-. split; [| exact HL].
    unfold inProgress. builder_simpl. repeat split; lia.
Qed.

Lemma appendEach_inside (str : list Z) (limit : Z) : forall b b',
  limit + OUTPUT_BUFFER_DATA_SIZE < 18446744073709551616 ->
  writeBufferLimit b = limit ->
  inProgress OUTPUT_BUFFER_DATA_SIZE limit b ->
  appendEach str b = Ok b' ->
  inProgress OUTPUT_BUFFER_DATA_SIZE limit b' /\ writeBufferLimit b' = limit.
Proof.
  induction str as [| c rest IH]; intros b b' Hlimit HL Hin H.
  - injection H as <-. split; assumption.
  - cbn [Queue.appendEach] in H.
    destruct (append c b) as [b1 |] eqn:E1; [| discriminate].
    destruct (append_inside c b b1 limit Hlimit HL Hin E1) as (Hin1 & HL1).
    exact (IH b1 b' Hlimit HL1 Hin1 H).
Qed.

Lemma builderBegin_inside (scn sequence obj flags : Z) (b b' : Builder) (limit : Z) :
  limit + OUTPUT_BUFFER_DATA_SIZE < 18446744073709551616 ->
  writeBufferLimit b = limit ->
  between OUTPUT_BUFFER_DATA_SIZE b ->
  builderBegin scn sequence obj flags b = Ok b' ->
  inProgress OUTPUT_BUFFER_DATA_SIZE limit b' /\ writeBufferLimit b' = limit.
Proof.
  intros Hlimit HL ((Hq0 & Hq1) & Hq8).
  pose proof (writeBufferLimit_range b) as HLr. rewrite HL in HLr.
  unfold Queue.builderBegin. cbv zeta. builder_simpl.
  set (b0 := setMessagePosition 0 (setMessageSize 0 b)).
  rewrite Z.add_0_r, (wrap64_small (q_size (lastBuilderQueue b))) by lia.
  rewrite (wrap64_small (q_size (lastBuilderQueue b) + sizeof_BuilderMsg)) by lia.
  intros H.
  assert (Hr : exists b1,
             (if q_size (lastBuilderQueue b) + sizeof_BuilderMsg >=? OUTPUT_BUFFER_DATA_SIZE
              then builderRotate true b0 else Ok b0) = Ok b1
             /\ 0 <= q_size (lastBuilderQueue b1)
             /\ q_size (lastBuilderQueue b1) mod 8 = 0
             /\ q_size (lastBuilderQueue b1) + sizeof_BuilderMsg < OUTPUT_BUFFER_DATA_SIZE
             /\ messagePosition b1 = 0
             /\ messageSize b1 = 0
             /\ writeBufferLimit b1 = limit).
  { destruct (Z.geb_spec (q_size (lastBuilderQueue b) + sizeof_BuilderMsg)
                OUTPUT_BUFFER_DATA_SIZE) as [Hfull | Hroom].
    - destruct (builderRotate true b0) as [b1 |] eqn:E1; [| discriminate].
      exists b1. split; [reflexivity |].
      pose proof E1 as E2. unfold Queue.builderRotate in E2.
      destruct (messageSize b0 >? Queue.writeBufferLimit MEMORY_CHUNK_SIZE_MB b0);
        [discriminate |].
      destruct (msg b0) as [[mq moff] |];
        [destruct (true && Queue.fitsOneBuffer OUTPUT_BUFFER_DATA_SIZE b0) |];
        cbv zeta in E2; injection E2 as <-; subst b0;
        unfold Queue.writeBufferLimit in *;
        rewrite ?writeMsg_last_size, ?writeMsg_messagePosition, ?writeMsg_messageSize,
          ?writeMsg_memoryChunksWriteBufferMax;
        builder_simpl; try (unfold Queue.copyMessage; cbn [q_size]);
        repeat split; first [lia | exact HL | reflexivity].
    - exists b0. split; [reflexivity |]. subst b0. unfold Queue.writeBufferLimit in *.
      builder_simpl. repeat split; first [lia | exact HL]. }
  destruct Hr as (b1 & E1 & H0 & H8 & Hroom & Hp1 & Hs1 & HL1). rewrite E1 in H.
  injection H as <-. unfold inProgress, Queue.writeBufferLimit in *. builder_simpl.
  rewrite writeMsg_last_size, writeMsg_messagePosition, writeMsg_messageSize,
    writeMsg_memoryChunksWriteBufferMax.
  builder_simpl. rewrite Hp1, Hs1. rewrite (wrap64_small (0 + sizeof_BuilderMsg)) by lia.
  repeat split; first [lia | exact HL1].
Qed.

Lemma builderCommit_between (b b' : Builder) (limit : Z) :
  inProgress OUTPUT_BUFFER_DATA_SIZE limit b ->
  builderCommit b = Ok b' ->
  between OUTPUT_BUFFER_DATA_SIZE b'.
Proof.
  intros (Hq & Hq8 & Hmp & Hin & Hms).
  pose proof (padding_aligns chunkBytes (messagePosition b)) as Hp.
  assert (Hpad : 0 <= padding (messagePosition b) <= 7).
  { unfold padding.
    assert (E : forall x, Z.land x 7 = x mod 8)
      by (intro x; change 7 with (Z.ones 3); rewrite Z.land_ones by lia; reflexivity).
    rewrite (E (8 - Z.land (messagePosition b) 7)). lia. }
  assert (Hnew : wrap64 (q_size (lastBuilderQueue b)
                         + wrap64 (messagePosition b + padding (messagePosition b)))
                 = q_size (lastBuilderQueue b) + messagePosition b
                   + padding (messagePosition b)).
  { rewrite (wrap64_small (messagePosition b + _)) by lia. rewrite wrap64_small; lia. }
  assert (Hbound : (0 <= q_size (lastBuilderQueue b) + messagePosition b
                         + padding (messagePosition b) <= OUTPUT_BUFFER_DATA_SIZE)
                   /\ (q_size (lastBuilderQueue b) + messagePosition b
                       + padding (messagePosition b)) mod 8 = 0) by lia.
  intro H.
  assert (Hsize : q_size (lastBuilderQueue b')
                  = wrap64 (q_size (lastBuilderQueue b)
                            + wrap64 (messagePosition b + padding (messagePosition b)))).
  { revert H. unfold Queue.builderCommit. cbv zeta.
    destruct (messageSize _ =? sizeof_BuilderMsg); [discriminate |].
    intro H.
    match type of H with
    | (if ?c then Ok ?x else Ok ?y) = Ok b' =>
        assert (Hb : b' = x \/ b' = y) by (destruct c; injection H as <-; tauto)
    end.
    clear H.
    destruct Hb as [-> | ->];
      repeat (progress (builder_simpl;
                        rewrite ?writeMsg_last_size, ?writeMsg_messagePosition,
                          ?writeMsg_last_start));
      match goal with
      | |- context [if ?c then setStart _ _ else _] => destruct c
      end; builder_simpl; reflexivity. }
  unfold between. rewrite Hsize, Hnew. exact Hbound.
Qed.

(** X27.  No byte of a message goes outside the data area of a node.
    Started between two messages (the last node filled up to a multiple of
    8, at most [OUTPUT_BUFFER_DATA_SIZE]), after [builderBegin] and any
    number of [append] calls the place of the next byte,
    [lastBuilderQueue->size + messagePosition], is below
    [OUTPUT_BUFFER_DATA_SIZE], and [builderCommit] leaves the queue between
    two messages again.  The header is taken to fit in a node, the size of
    the data area to be a multiple of 8 below 2^63, and the write buffer
    limit plus one data area to be below 2^64. *)
Theorem message_bytes_stay_inside
    (scn sequence obj flags : Z) (payload : list Z) (b0 b1 b2 : Builder) :
  writeBufferLimit b0 + OUTPUT_BUFFER_DATA_SIZE < 18446744073709551616 ->
  between OUTPUT_BUFFER_DATA_SIZE b0 ->
  builderBegin scn sequence obj flags b0 = Ok b1 ->
  appendEach payload b1 = Ok b2 ->
  0 <= q_size (lastBuilderQueue b2) + messagePosition b2 < OUTPUT_BUFFER_DATA_SIZE
  /\ forall b3, builderCommit b2 = Ok b3 -> between OUTPUT_BUFFER_DATA_SIZE b3.
Proof.
  intros Hlimit Hbetween Hbegin Happ.
  pose proof (writeBufferLimit_range b0) as HLr.
  destruct (builderBegin_inside scn sequence obj flags b0 b1 (writeBufferLimit b0)
              Hlimit eq_refl Hbetween Hbegin) as (Hin1 & HL1).
  destruct (appendEach_inside payload (writeBufferLimit b0) b1 b2 Hlimit HL1 Hin1 Happ)
    as (Hin2 & _).
  split.
  - destruct Hin2 as (Hq & _ & Hmp & Hin & _). lia.
  - intros b3 Hc.
    exact (builderCommit_between b2 b3 (writeBufferLimit b0) Hin2 Hc).
Qed.

End QueuePathFacts.

Lemma appendStr_is_append_each_witness :
  Queue.appendStr 88 1048536 1 (fun _ => 0) [104; 105] (Queue.emptyBuilder 1048576)
  = Queue.appendEach 88 1048536 1 (fun _ => 0) [104; 105] (Queue.emptyBuilder 1048576).
Proof.
  apply (appendStr_is_append_each 88 1048536 1 (fun _ => 0) [104; 105]
           (Queue.emptyBuilder 1048576)); cbn; lia.
Defined.

Lemma committed_size_is_payload_witness :
  match Queue.builderCommit 88
          (Queue.stateAfter [Queue.OpBegin 7 1 42 0; Queue.OpAppend 104; Queue.OpAppend 105])
  with
  | Throw e => e = Queue.emptyCommit /\ [104; 105] = []
  | Ok b3 =>
      [104; 105] <> []
      /\ exists qid off m,
           Queue.msg (Queue.stateAfter
                        [Queue.OpBegin 7 1 42 0; Queue.OpAppend 104; Queue.OpAppend 105])
           = Some (qid, off)
           /\ QueueForms.msgAt b3 qid off = Some m
           /\ Queue.m_size m = Z.of_nat (List.length [104; 105])
  end.
Proof.
  apply (committed_size_is_payload 88 1048536 1 (fun _ => 0) 7 1 42 0 [104; 105]
           (Queue.emptyBuilder 1048576) (Queue.stateAfter [Queue.OpBegin 7 1 42 0])
           (Queue.stateAfter [Queue.OpBegin 7 1 42 0; Queue.OpAppend 104; Queue.OpAppend 105])).
  - lia.
  - cbn. lia.
  - vm_compute. reflexivity.
  - vm_compute. reflexivity.
Defined.

Lemma message_bytes_stay_inside_witness :
  0 <= Queue.q_size (Queue.lastBuilderQueue
                       (Queue.stateAfter
                          [Queue.OpBegin 7 1 42 0; Queue.OpAppend 104; Queue.OpAppend 105]))
       + Queue.messagePosition
           (Queue.stateAfter
              [Queue.OpBegin 7 1 42 0; Queue.OpAppend 104; Queue.OpAppend 105])
    < 1048536
  /\ forall b3,
       Queue.builderCommit 88
         (Queue.stateAfter
            [Queue.OpBegin 7 1 42 0; Queue.OpAppend 104; Queue.OpAppend 105]) = Ok b3 ->
       QueueForms.between 1048536 b3.
Proof.
  apply (message_bytes_stay_inside 88 1048536 1 (fun _ => 0)
           ltac:(lia) ltac:(reflexivity) ltac:(lia) 7 1 42 0 [104; 105]
           (Queue.emptyBuilder 1048576) (Queue.stateAfter [Queue.OpBegin 7 1 42 0])
           (Queue.stateAfter [Queue.OpBegin 7 1 42 0; Queue.OpAppend 104; Queue.OpAppend 105])).
  - vm_compute. reflexivity.
  - vm_compute. repeat split; discriminate.
  - vm_compute. reflexivity.
  - vm_compute. reflexivity.
Defined.

(** A message that crosses the end of a node of 128 bytes: the 60 bytes of
    payload are split between two nodes and the header still records 60. *)
Example committed_size_across_nodes :
  match Queue.run 88 128 1 (fun _ => 0)
          (Queue.OpBegin 7 1 42 0 :: map Queue.OpAppend (repeat 120 60) ++ [Queue.OpCommit])
          (Queue.emptyBuilder 1048576)
  with
  | Ok b => (map Queue.q_size (Queue.older b),
             option_map Queue.m_size (QueueForms.msgAt b 0 0))
  | Throw _ => ([], None)
  end = ([128], Some 60).
Proof. vm_compute. reflexivity. Qed.

(* --------------------------------------------------------------------- *)
(** ** A reload that goes through, and the next poll                      *)
(* --------------------------------------------------------------------- *)

Section ReloadSuccessFacts.

Import Json Reload ReloadForms.
Local Open Scope reload_scope.

Variable K : Constants.
Variable env : Env.

Lemma emits_here (P : MetaCall -> bool) (st : State) :
  errors st = errors st
  /\ configFileChange st = configFileChange st
  /\ configFileBuffer st = configFileBuffer st
  /\ exists new, calls st = calls st ++ new /\ forallb P new = true.
Proof.
  repeat split. exists []. split; [now rewrite app_nil_r | reflexivity].
Qed.

Lemma emits_ret {A : Type} (P : MetaCall -> bool) (a : A) : emits P (ret a).
Proof. intros st r st' H. injection H as _ <-. apply emits_here. Qed.

Lemma emits_throw {A : Type} (P : MetaCall -> bool) (e : Exception) : emits P (@throw A e).
Proof. intros st r st' H. injection H as _ <-. apply emits_here. Qed.

Lemma emits_lift {A : Type} (P : MetaCall -> bool) (x : Result A) : emits P (lift x).
Proof. intros st r st' H. injection H as _ <-. apply emits_here. Qed.

Lemma emits_info (P : MetaCall -> bool) (text : string) : emits P (info text).
Proof.
  intros st r st' H. injection H as _ <-.
  cbn [errors configFileChange configFileBuffer calls].
  repeat split. exists []. split; [now rewrite app_nil_r | reflexivity].
Qed.

Lemma emits_metaCall (P : MetaCall -> bool) (c : MetaCall) :
  P c = true -> emits P (metaCall c).
Proof.
  intros Hc st r st' H. injection H as _ <-.
  cbn [errors configFileChange configFileBuffer calls].
  repeat split. exists [c]. split; [reflexivity |]. cbn. now rewrite Hc.
Qed.

Lemma emits_mbind {A B : Type} (P : MetaCall -> bool) (m : M A) (k : A -> M B) :
  emits P m -> (forall a, emits P (k a)) -> emits P (mbind m k).
Proof.
  intros Hm Hk st r st' H. unfold mbind in H.
  destruct (m st) as [[a | e] st1] eqn:E1.
  - destruct (Hm _ _ _ E1) as (He1 & Hc1 & Hb1 & new1 & Hn1 & Hs1).
    destruct (Hk a _ _ _ H) as (He2 & Hc2 & Hb2 & new2 & Hn2 & Hs2).
    split; [congruence | split; [congruence | split; [congruence |]]].
    exists (new1 ++ new2). split.
    + rewrite Hn2, Hn1, app_assoc. reflexivity.
    + rewrite forallb_app, Hs1, Hs2. reflexivity.
  - injection H as <- <-. exact (Hm _ _ _ E1).
Qed.

Lemma emits_when (P : MetaCall -> bool) (c : bool) (m : M unit) :
  emits P m -> emits P (when c m).
Proof. destruct c; [trivial | intros _; apply emits_ret]. Qed.

Lemma emits_failing (P : MetaCall -> bool) (r : option Exception) : emits P (failing r).
Proof. destruct r; [apply emits_throw | apply emits_ret]. Qed.

Ltac emitted :=
  repeat first
    [ apply emits_ret
    | apply emits_throw
    | apply emits_lift
    | apply emits_info
    | apply emits_failing
    | apply emits_metaCall; reflexivity
    | apply emits_when
    | apply emits_mbind; [| intro]
    | match goal with
      | |- emits _ (if ?c then _ else _) => destruct c
      | |- emits _ (match ?x with _ => _ end) => destruct x
      end ].

Lemma emits_tableElements (separator : string) (items : list Value) :
  forall users, emits elementCall (tableElements K separator users items).
Proof.
  induction items as [| item rest IH]; intro users; cbn [tableElements].
  - emitted.
  - apply emits_mbind; [| intro; apply IH].
    unfold tableElement. emitted.
Qed.

(** [mbind] that returns: both parts returned. *)
Lemma mbind_returns {A B : Type} (m : M A) (k : A -> M B) (st st' : State) (b : B) :
  mbind m k st = (Ok b, st') ->
  exists a st1, m st = (Ok a, st1) /\ k a st1 = (Ok b, st').
Proof.
  unfold mbind. destruct (m st) as [[a | e] st1]; [| discriminate].
  intro H. exists a, st1. split; [reflexivity | exact H].
Qed.

Lemma lift_state {A : Type} (x : Result A) (st st' : State) (r : Result A) :
  lift x st = (r, st') -> st' = st /\ r = x.
Proof. intro H. injection H as <- <-. split; reflexivity. Qed.

Lemma guard_returns (c : bool) (e : Exception) (st st' : State) (u : unit) :
  when c (throw e) st = (Ok u, st') -> c = false /\ st' = st.
Proof.
  destruct c; cbn [when]; [discriminate |].
  intro H. injection H as _ <-. split; reflexivity.
Qed.

Lemma checkFields_state (v : Value) (names : list string) (st st' : State) (u : unit) :
  checkFields env v names st = (Ok u, st') -> st' = st.
Proof.
  unfold checkFields, when. destruct (checkTags env).
  - intro H. apply lift_state in H. tauto.
  - intro H. injection H as _ <-. reflexivity.
Qed.

(** One turn of the loop over "source" that returns: [resetElements],
    then calls on elements only. *)
Lemma sourceElement_returns (item : Value) (st st' : State) (u : unit) :
  sourceElement K env item st = (Ok u, st') ->
  errors st' = errors st
  /\ configFileChange st' = configFileChange st
  /\ configFileBuffer st' = configFileBuffer st
  /\ exists els, calls st' = calls st ++ ResetElements :: els
                 /\ forallb elementCall els = true.
Proof.
  unfold sourceElement. intro H.
  apply mbind_returns in H. destruct H as (sourceJson & s1 & H1 & H).
  apply lift_state in H1. destruct H1 as (-> & _).
  apply mbind_returns in H. destruct H as (u1 & s2 & H2 & H).
  apply checkFields_state in H2. subst s2.
  apply mbind_returns in H. destruct H as (u2 & s3 & H3 & H).
  injection H3 as _ <-.
  assert (Hrest : emits elementCall
            (debug <-- debugSection K env sourceJson ;;
             users <-- (match debug with
                        | Some (debugOwner, debugTable) =>
                            metaCall (AddElement debugOwner debugTable (DEBUG_TABLE K)) ;;;
                            ret [debugOwner]
                        | None => ret []
                        end) ;;
             when (adaptiveSchema env) (metaCall (AddElement ".*" ".*" 0)) ;;;
             filterSection K env sourceJson users)).
  { unfold debugSection, filterSection, checkFields, checkUsers.
    emitted; apply emits_tableElements. }
  destruct (Hrest _ _ _ H) as (He & Hc & Hb & els & Hels & Hall).
  cbn [errors configFileChange configFileBuffer calls] in He, Hc, Hb, Hels.
  repeat (split; [assumption |]).
  exists els. split; [| exact Hall].
  rewrite Hels, <- app_assoc. reflexivity.
Qed.

Lemma readFilters_returns (st st' : State) (u : unit) :
  readFilters K env st = (Ok u, st') ->
  errors st' = errors st
  /\ configFileChange st' = configFileChange st
  /\ configFileBuffer st' = configFileBuffer st
  /\ exists els, calls st' = calls st ++ ResetElements :: els
                 /\ forallb elementCall els = true.
Proof.
  unfold readFilters. destruct (document env) as [doc |]; [| discriminate].
  intro H.
  apply mbind_returns in H. destruct H as (u1 & s1 & H1 & H).
  apply checkFields_state in H1. subst s1.
  apply mbind_returns in H. destruct H as (version & s2 & H2 & H).
  apply lift_state in H2. destruct H2 as (-> & _).
  apply mbind_returns in H. destruct H as (u3 & s3 & H3 & H).
  apply guard_returns in H3. destruct H3 as (_ & ->).
  apply mbind_returns in H. destruct H as (sourceArrayJson & s4 & H4 & H).
  apply lift_state in H4. destruct H4 as (-> & _).
  apply mbind_returns in H. destruct H as (u5 & s5 & H5 & H).
  apply guard_returns in H5. destruct H5 as (Hone & ->).
  apply negb_false_iff, Z.eqb_eq in Hone.
  destruct sourceArrayJson as [| item [| item2 rest]]; cbn [List.length] in Hone; try lia.
  cbn [sourceElements] in H.
  apply mbind_returns in H. destruct H as (u6 & s6 & H6 & H).
  injection H as _ <-.
  exact (sourceElement_returns item st s6 u6 H6).
Qed.

(** X22.  When the [try] block of [trackConfigFile] returns, the file was
    opened and read whole, no error line was written, the buffer is
    released, and the metadata has received [resetElements], then calls on
    elements only, then [commitElements], [purgeMetadata], the touching of
    the tables, [buildMaps] and [resetTouched], in this order. *)
Theorem reload_commits_after_staging (st st1 : State) (mtime size : Z) (u : unit) :
  statResult env = Some (mtime, size) ->
  (mtime =? configFileChange st) = false ->
  (info "config file changed, reloading" ;;; reload K env size) st = (Ok u, st1) ->
  trackConfigFile K env st = Ok (setChange mtime st1)
  /\ errors st1 = errors st
  /\ configFileBuffer st1 = false
  /\ (exists els, calls st1 = calls st ++ ResetElements :: els ++ applied
                  /\ forallb elementCall els = true)
  /\ openOk env = true
  /\ 0 <> size /\ size <= CONFIG_FILE_MAX_SIZE K
  /\ bytesRead env = size.
Proof.
  intros Hstat Hchanged Hrun.
  split; [unfold trackConfigFile; rewrite Hstat, Hchanged, Hrun; reflexivity |].
  apply mbind_returns in Hrun. destruct Hrun as (u0 & s0 & H0 & H).
  injection H0 as _ <-. unfold reload in H.
  apply mbind_returns in H. destruct H as (u1 & s1 & H1 & H).
  apply guard_returns in H1. destruct H1 as (Hopen & ->).
  apply mbind_returns in H. destruct H as (u2 & s2 & H2 & H).
  apply guard_returns in H2. destruct H2 as (Hsize & ->).
  apply mbind_returns in H. destruct H as (u3 & s3 & H3 & H).
  injection H3 as _ <-.
  apply mbind_returns in H. destruct H as (u4 & s4 & H4 & H).
  apply guard_returns in H4. destruct H4 as (Hread & ->).
  apply mbind_returns in H. destruct H as (u5 & s5 & H5 & H).
  injection H as _ <-.
  unfold updateConfigFile in H5.
  apply mbind_returns in H5. destruct H5 as (u6 & s6 & H6 & H5).
  destruct (readFilters_returns _ _ _ H6) as (He & _ & _ & els & Hels & Hall).
  unfold applyFilters, mbind, info, metaCall in H5. cbn in H5.
  injection H5 as _ <-.
  cbn [errors configFileChange configFileBuffer calls] in *.
  apply orb_false_iff in Hsize. destruct Hsize as (Hmax & Hzero).
  split; [exact He | split; [reflexivity | split; [| split; [| split; [| split]]]]].
  - exists els. split; [| exact Hall].
    rewrite Hels. unfold applied. rewrite <- !app_assoc. reflexivity.
  - apply negb_false_iff in Hopen. exact Hopen.
  - apply Z.eqb_neq in Hzero. lia.
  - destruct (Z.gtb_spec size (CONFIG_FILE_MAX_SIZE K)); [discriminate | lia].
  - apply negb_false_iff, Z.eqb_eq in Hread. exact Hread.
Qed.

(** X23.  [trackConfigFile] handles a change of the file once: when it
    returns, whether the reload went through or its error was logged,
    [configFileChange] is the modification time of the file, and a second
    call on the same file returns at once and leaves everything as it is. *)
Theorem trackConfigFile_handles_change_once (st st' : State) :
  trackConfigFile K env st = Ok st' ->
  trackConfigFile K env st' = Ok st'
  /\ exists mtime size, statResult env = Some (mtime, size)
                        /\ configFileChange st' = mtime.
Proof.
  unfold trackConfigFile. destruct (statResult env) as [[mtime size] |]; [| discriminate].
  destruct (Z.eqb_spec mtime (configFileChange st)) as [E | NE].
  - intro H. injection H as <-. rewrite <- E, Z.eqb_refl.
    split; [reflexivity | exists mtime, size; split; reflexivity].
  - destruct ((info "config file changed, reloading" ;;; reload K env size) st)
      as [[u | e] s1].
    + intro H. injection H as <-. cbn [setChange configFileChange].
      rewrite Z.eqb_refl. split; [reflexivity | exists mtime, size; split; reflexivity].
    + destruct (caught e); [| discriminate].
      intro H. injection H as <-. cbn [setChange configFileChange].
      rewrite Z.eqb_refl. split; [reflexivity | exists mtime, size; split; reflexivity].
Qed.

End ReloadSuccessFacts.

Lemma reload_commits_after_staging_witness :
  Reload.trackConfigFile Reload.sampleConstants ReloadForms.editedFile Reload.running
  = Ok (Reload.mkState 1700000100 false []
          ["config file changed, reloading"%string;
           "scanning objects which match the configuration file"%string]
          [Reload.ResetElements; Reload.CommitElements;
           Reload.ResetElements; Reload.AddElement "APP" "ORDERS" 0;
           Reload.ParseKey "ID" ",";
           Reload.CommitElements; Reload.PurgeMetadata; Reload.TouchTables;
           Reload.BuildMaps; Reload.ResetTouched]).
Proof.
  refine (proj1 (reload_commits_after_staging Reload.sampleConstants ReloadForms.editedFile
                   Reload.running
                   (Reload.mkState 1700000000 false []
                      ["config file changed, reloading"%string;
                       "scanning objects which match the configuration file"%string]
                      [Reload.ResetElements; Reload.CommitElements;
                       Reload.ResetElements; Reload.AddElement "APP" "ORDERS" 0;
                       Reload.ParseKey "ID" ",";
                       Reload.CommitElements; Reload.PurgeMetadata; Reload.TouchTables;
                       Reload.BuildMaps; Reload.ResetTouched])
                   1700000100 64 tt _ _ _)); vm_compute; reflexivity.
Defined.

Lemma trackConfigFile_handles_change_once_witness :
  Reload.trackConfigFile Reload.sampleConstants ReloadForms.editedFile ReloadForms.reloaded
  = Ok ReloadForms.reloaded
  /\ exists mtime size,
       Reload.statResult ReloadForms.editedFile = Some (mtime, size)
       /\ Reload.configFileChange ReloadForms.reloaded = mtime.
Proof.
  apply (trackConfigFile_handles_change_once Reload.sampleConstants ReloadForms.editedFile
           Reload.running ReloadForms.reloaded).
  vm_compute. reflexivity.
Defined.

(* --------------------------------------------------------------------- *)
(** ** The path mappings of the reader                                     *)
(* --------------------------------------------------------------------- *)

Section PathMappingFacts.

Import Json PathMapping.

Variable MAX_PATH_LENGTH : Z.

Lemma elementS_returns (item : Value) (s : string) :
  elementS MAX_PATH_LENGTH item = Ok s ->
  item = JString s /\ Z.of_nat (String.length s) <= MAX_PATH_LENGTH.
Proof.
  unfold elementS. destruct item; try discriminate.
  destruct (Z.gtb_spec (Z.of_nat (String.length s0)) MAX_PATH_LENGTH) as [| Hle];
    [discriminate |].
  intro H. injection H as <-. split; [reflexivity | lia].
Qed.

Lemma skipn_nth {A : Type} (d : A) (l : list A) : forall n,
  (n < List.length l)%nat -> skipn n l = nth n l d :: skipn (S n) l.
Proof.
  induction l as [| x xs IH]; intros n Hn; [cbn in Hn; lia |].
  destruct n as [| n]; [reflexivity |].
  cbn [skipn nth]. apply IH. cbn in Hn. lia.
Qed.

Lemma mappingLoop_reads (items : list Value) (count : nat) : forall k mappings result,
  (k * 2 + count * 2 <= List.length items)%nat ->
  mappingLoop MAX_PATH_LENGTH items count k mappings = Ok result ->
  exists new,
    result = mappings ++ new
    /\ flatten new = firstn (count * 2) (skipn (k * 2) items)
    /\ Forall (fun p => Z.of_nat (String.length (fst p)) <= MAX_PATH_LENGTH
                        /\ Z.of_nat (String.length (snd p)) <= MAX_PATH_LENGTH) new.
Proof.
  induction count as [| n IH]; intros k mappings result Hlen H.
  - injection H as <-. exists []. rewrite app_nil_r. repeat split. constructor.
  - cbn [mappingLoop] in H.
    destruct (elementS MAX_PATH_LENGTH (nth (k * 2) items JNull)) as [s |] eqn:Es;
      [| discriminate].
    destruct (elementS MAX_PATH_LENGTH (nth (k * 2 + 1) items JNull)) as [t |] eqn:Et;
      [| discriminate].
    cbn [bind] in H.
    destruct (elementS_returns _ _ Es) as (Hs & Ls).
    destruct (elementS_returns _ _ Et) as (Ht & Lt).
    destruct (IH (S k) (mappings ++ [(s, t)]) result) as (new & Hres & Hflat & Hall);
      [lia | exact H |].
    exists ((s, t) :: new). split; [| split].
    + rewrite Hres, <- app_assoc. reflexivity.
    + unfold flatten in *. cbn [flat_map fst snd app]. rewrite Hflat.
      rewrite (skipn_nth JNull items (k * 2)) by lia.
      rewrite (skipn_nth JNull items (S (k * 2))) by lia.
      replace (S (k * 2)) with (k * 2 + 1)%nat by lia.
      rewrite Hs, Ht.
      replace (S n * 2)%nat with (S (S (n * 2))) by lia.
      cbn [firstn]. replace (S (k * 2 + 1)) with (S k * 2)%nat by lia. reflexivity.
    + constructor; [split; assumption | exact Hall].
Qed.

(** X24.  When [mainProcessMapping] returns, the calls of
    [addPathMapping] it made, read as source and target in turn, are the
    elements of "path-mapping" in their order, each used once and none
    longer than [MAX_PATH_LENGTH]; without the key it makes no call. *)
Theorem mainProcessMapping_pairs (readerJson : Value) (mappings : list (string * string)) :
  mainProcessMapping MAX_PATH_LENGTH readerJson = Ok mappings ->
  (if HasMember readerJson "path-mapping"
   then getJsonFieldA readerJson "path-mapping" = Ok (flatten mappings)
   else mappings = [])
  /\ Forall (fun p => Z.of_nat (String.length (fst p)) <= MAX_PATH_LENGTH
                      /\ Z.of_nat (String.length (snd p)) <= MAX_PATH_LENGTH) mappings.
Proof.
  unfold mainProcessMapping.
  destruct (HasMember readerJson "path-mapping").
  - destruct (getJsonFieldA readerJson "path-mapping") as [items |]; [| discriminate].
    cbn [bind].
    destruct (Z.eqb_spec (Z.of_nat (List.length items) mod 2) 0) as [Heven | _];
      [| discriminate].
    cbn [negb]. intro H.
    assert (Hhalf : (Nat.div (List.length items) 2 * 2 = List.length items)%nat).
    { pose proof (Nat.div_mod_eq (List.length items) 2) as Hd.
      assert (Hm : (List.length items mod 2 = 0)%nat).
      { apply Nat2Z.inj. rewrite Nat2Z.inj_mod. exact Heven. }
      lia. }
    assert (Hle : (0 * 2 + Nat.div (List.length items) 2 * 2 <= List.length items)%nat)
      by (rewrite Hhalf; lia).
    destruct (mappingLoop_reads items _ 0 [] mappings Hle H)
      as (new & -> & Hflat & Hall).
    cbn [app]. split; [| exact Hall].
    rewrite Hflat, Hhalf. cbn [Nat.mul skipn]. rewrite firstn_all. reflexivity.
  - intro H. injection H as <-. split; [reflexivity | constructor].
Qed.

(** An array "path-mapping" with an odd number of elements is refused
    with ConfigurationException 30001 before any element is read. *)
Lemma mainProcessMapping_odd (readerJson : Value) (items : list Value) :
  HasMember readerJson "path-mapping" = true ->
  getJsonFieldA readerJson "path-mapping" = Ok items ->
  Z.of_nat (List.length items) mod 2 = 1 ->
  mainProcessMapping MAX_PATH_LENGTH readerJson = Throw oddMapping.
Proof.
  intros Hm Ha Hodd. unfold mainProcessMapping. rewrite Hm, Ha. cbn [bind].
  rewrite Hodd. reflexivity.
Qed.

End PathMappingFacts.

Lemma mainProcessMapping_pairs_witness :
  (if Json.HasMember PathMapping.twoMappings "path-mapping"
   then Json.getJsonFieldA PathMapping.twoMappings "path-mapping"
        = Ok (PathMapping.flatten
                [("/db/fra"%string, "/opt/fra"%string);
                 ("/db/redo"%string, "/opt/redo"%string)])
   else [("/db/fra"%string, "/opt/fra"%string); ("/db/redo"%string, "/opt/redo"%string)]
        = [])
  /\ Forall (fun p => Z.of_nat (String.length (fst p)) <= 2048
                      /\ Z.of_nat (String.length (snd p)) <= 2048)
       [("/db/fra"%string, "/opt/fra"%string); ("/db/redo"%string, "/opt/redo"%string)].
Proof.
  apply (mainProcessMapping_pairs 2048 PathMapping.twoMappings).
  vm_compute. reflexivity.
Defined.

(* --------------------------------------------------------------------- *)
(** ** Marking the columns of a row and releasing them                    *)
(* --------------------------------------------------------------------- *)

Section ValuesFacts.

Import Values.

Lemma below_pow2_bits (x n : Z) :
  0 <= x -> 0 <= n ->
  (forall i, n <= i -> Z.testbit x i = false) ->
  x < 2 ^ n.
Proof.
  intros Hx Hn Hbits.
  destruct (Z.eq_dec x 0) as [-> | Hnz]; [apply Z.pow_pos_nonneg; lia |].
  apply Z.log2_lt_pow2; [lia |].
  destruct (Z.lt_ge_cases (Z.log2 x) n) as [Hlt | Hge]; [exact Hlt |].
  pose proof (Z.bit_log2 x ltac:(lia)) as Hb.
  rewrite (Hbits (Z.log2 x) Hge) in Hb. discriminate.
Qed.

Lemma bits_above (x n i : Z) :
  0 <= x < 2 ^ n -> n <= i -> Z.testbit x i = false.
Proof.
  intros Hx Hi.
  destruct (Z.eq_dec x 0) as [-> | Hnz]; [apply Z.bits_0 |].
  apply Z.bits_above_log2; [lia |].
  assert (Z.log2 x < n) by (apply Z.log2_lt_pow2; lia). lia.
Qed.

Lemma word_zero (w j : Z) :
  0 <= j -> 0 <= w < 2 ^ j ->
  (forall i, 0 <= i < j -> Z.testbit w i = false) ->
  w = 0.
Proof.
  intros Hj Hw Hbits. apply Z.bits_inj'. intros i Hi. rewrite Z.bits_0.
  destruct (Z.lt_ge_cases i j) as [Hlt | Hge].
  - apply Hbits. lia.
  - exact (bits_above w j i Hw Hge).
Qed.

Lemma land_pow2_test (w j : Z) :
  0 <= j -> (Z.land w (2 ^ j) =? 0) = negb (Z.testbit w j).
Proof.
  intros Hj. destruct (Z.testbit w j) eqn:Eb; cbn [negb].
  - apply Z.eqb_neq. intro H0.
    assert (Ht : Z.testbit (Z.land w (2 ^ j)) j = true)
      by (rewrite Z.land_spec, Eb, Z.pow2_bits_true by lia; reflexivity).
    rewrite H0, Z.bits_0 in Ht. discriminate.
  - apply Z.eqb_eq. apply Z.bits_inj'. intros i Hi.
    rewrite Z.land_spec, Z.bits_0, Z.pow2_bits_eqb by lia.
    destruct (Z.eqb_spec j i) as [<- | _]; [rewrite Eb; reflexivity | apply andb_false_r].
Qed.

Lemma wrap64_bits (x i : Z) :
  0 <= i -> Z.testbit (wrap64 x) i = (i <? 64) && Z.testbit x i.
Proof.
  intros Hi. unfold wrap64. change 18446744073709551616 with (2 ^ 64).
  destruct (Z.ltb_spec i 64).
  - rewrite Z.mod_pow2_bits_low by lia. reflexivity.
  - rewrite Z.mod_pow2_bits_high by lia. reflexivity.
Qed.

Lemma clear_bit_bits (w j i : Z) :
  0 <= j -> 0 <= i ->
  Z.testbit (Z.land w (wrap64 (Z.lnot (2 ^ j)))) i
  = Z.testbit w i && ((i <? 64) && negb (j =? i)).
Proof.
  intros Hj Hi.
  rewrite Z.land_spec, wrap64_bits, Z.lnot_spec, Z.pow2_bits_eqb by lia. reflexivity.
Qed.

Lemma clear_bit_range (w j : Z) :
  0 <= w -> 0 <= j ->
  0 <= Z.land w (wrap64 (Z.lnot (2 ^ j))) < 18446744073709551616.
Proof.
  intros Hw Hj.
  assert (H0 : 0 <= Z.land w (wrap64 (Z.lnot (2 ^ j))))
    by (apply Z.land_nonneg; left; exact Hw).
  split; [exact H0 |].
  change 18446744073709551616 with (2 ^ 64). apply below_pow2_bits; [exact H0 | lia |].
  intros i Hi. rewrite clear_bit_bits by lia.
  destruct (Z.ltb_spec i 64); [lia |]. apply andb_false_r.
Qed.

Lemma mask_value (j : Z) : 0 <= j < 64 -> wrap64 (2 ^ j) = 2 ^ j.
Proof.
  intros Hj. apply wrap64_small. split; [apply Z.pow_nonneg; lia |].
  change 18446744073709551616 with (2 ^ 64). apply Z.pow_lt_mono_r; lia.
Qed.

Lemma mask_next (j : Z) : 0 <= j < 64 -> wrap64 (Z.shiftl (2 ^ j) 1) = wrap64 (2 ^ (j + 1)).
Proof.
  intros Hj. rewrite Z.shiftl_mul_pow2 by lia. rewrite Z.pow_add_r by lia. reflexivity.
Qed.

Lemma releaseMasks_step (n : nat) (base mask column : Z) (v : Values) :
  releaseMasks (S n) base mask column v
  = if mask =? 0 then v
    else if valuesSet v base <? mask then v
    else if Z.land (valuesSet v base) mask =? 0
         then releaseMasks n base (wrap64 (Z.shiftl mask 1)) (column + 1) v
         else releaseMasks n base (wrap64 (Z.shiftl mask 1)) (column + 1)
                (clearColumn base mask column v).
Proof. reflexivity. Qed.

(** The inner loop clears the word of [base] and the values of the columns
    it held. *)
Lemma releaseMasks_spec (base col0 : Z) (n : nat) : forall j v,
  0 <= j <= 64 -> Z.to_nat (64 - j) = n ->
  0 <= valuesSet v base < 18446744073709551616 ->
  (forall i, 0 <= i < j -> Z.testbit (valuesSet v base) i = false) ->
  valuesSet (releaseMasks (S n) base (wrap64 (2 ^ j)) (col0 + j) v) base = 0
  /\ (forall b, b <> base ->
        valuesSet (releaseMasks (S n) base (wrap64 (2 ^ j)) (col0 + j) v) b = valuesSet v b)
  /\ (forall c t,
        values (releaseMasks (S n) base (wrap64 (2 ^ j)) (col0 + j) v) c t
        = if (col0 + j <=? c) && (c <? col0 + 64) && Z.testbit (valuesSet v base) (c - col0)
          then 0 else values v c t)
  /\ valuesMax (releaseMasks (S n) base (wrap64 (2 ^ j)) (col0 + j) v) = valuesMax v
  /\ mergesMax (releaseMasks (S n) base (wrap64 (2 ^ j)) (col0 + j) v) = mergesMax v
  /\ untouched v (releaseMasks (S n) base (wrap64 (2 ^ j)) (col0 + j) v).
Proof.
  induction n as [| m IH]; intros j v Hj Hn Hw Hlow.
  - assert (j = 64) by lia. subst j.
    change (wrap64 (2 ^ 64)) with 0. cbn [releaseMasks Z.eqb].
    split; [apply (word_zero _ 64); [lia | exact Hw | exact Hlow] |].
    split; [reflexivity |]. split; [| repeat split].
    intros c t. destruct (Z.leb_spec (col0 + 64) c), (Z.ltb_spec c (col0 + 64));
      try lia; reflexivity.
  - assert (Hj' : 0 <= j < 64) by lia.
    rewrite (releaseMasks_step (S m)). rewrite (mask_value j), mask_next by lia.
    assert (Hpos : 0 < 2 ^ j) by (apply Z.pow_pos_nonneg; lia).
    destruct (Z.eqb_spec (2 ^ j) 0) as [E | _]; [lia |].
    replace (col0 + j + 1) with (col0 + (j + 1)) by lia.
    destruct (Z.ltb_spec (valuesSet v base) (2 ^ j)) as [Hsmall | Hbig].
    + assert (Hz : valuesSet v base = 0)
        by (apply (word_zero _ j); [lia | lia | exact Hlow]).
      split; [exact Hz |]. split; [reflexivity |]. split; [| repeat split].
      intros c t. rewrite Hz, Z.bits_0, andb_false_r. reflexivity.
    + rewrite land_pow2_test by lia.
      destruct (Z.testbit (valuesSet v base) j) eqn:Ebit; cbn [negb].
      * set (v1 := clearColumn base (2 ^ j) (col0 + j) v).
        assert (Hw1 : valuesSet v1 base = Z.land (valuesSet v base) (wrap64 (Z.lnot (2 ^ j))))
          by (subst v1; cbn [clearColumn valuesSet]; unfold setWord; rewrite Z.eqb_refl;
              reflexivity).
        destruct (IH (j + 1) v1) as (H1 & H2 & H3 & H4 & H5 & H6).
        -- lia.
        -- lia.
        -- rewrite Hw1. apply clear_bit_range; lia.
        -- intros i Hi. rewrite Hw1, clear_bit_bits by lia.
           destruct (Z.eqb_spec j i) as [<- | Hne].
           ++ rewrite !andb_false_r. reflexivity.
           ++ rewrite Hlow by lia. reflexivity.
        -- split; [exact H1 |]. split; [| split; [| split; [| split]]].
           ++ intros b Hb. rewrite (H2 b Hb). subst v1. cbn [clearColumn valuesSet].
              unfold setWord. destruct (Z.eqb_spec b base); [contradiction | reflexivity].
           ++ intros c t. rewrite H3, Hw1.
              destruct (Z.eq_dec c (col0 + j)) as [-> | Hc].
              ** replace (col0 + j - col0) with j by lia. rewrite Ebit.
                 destruct (Z.leb_spec (col0 + (j + 1)) (col0 + j)); [lia |].
                 destruct (Z.leb_spec (col0 + j) (col0 + j)); [| lia].
                 destruct (Z.ltb_spec (col0 + j) (col0 + 64)); [| lia].
                 cbn [andb]. subst v1. cbn [clearColumn values]. unfold setCell.
                 rewrite Z.eqb_refl. destruct t; reflexivity.
              ** assert (Hv1 : values v1 c t = values v c t).
                 { subst v1. cbn [clearColumn values]. unfold setCell.
                   destruct (Z.eqb_spec c (col0 + j)); [contradiction | reflexivity]. }
                 rewrite Hv1.
                 destruct (Z.leb_spec (col0 + (j + 1)) c), (Z.leb_spec (col0 + j) c),
                   (Z.ltb_spec c (col0 + 64)); try lia; cbn [andb]; try reflexivity.
                 rewrite clear_bit_bits by lia.
                 destruct (Z.ltb_spec (c - col0) 64); [| lia].
                 destruct (Z.eqb_spec j (c - col0)); [lia |].
                 cbn [andb negb]. rewrite andb_true_r. reflexivity.
           ++ rewrite H4. reflexivity.
           ++ rewrite H5. reflexivity.
           ++ unfold untouched in *. subst v1. cbn [clearColumn valuesMerge sizes sizesPart
                valuesPart dmlLines] in H6. exact H6.
      * destruct (IH (j + 1) v) as (H1 & H2 & H3 & H4 & H5 & H6).
        -- lia.
        -- lia.
        -- exact Hw.
        -- intros i Hi. destruct (Z.eq_dec i j) as [-> | Hne]; [exact Ebit | apply Hlow; lia].
        -- split; [exact H1 |]. split; [exact H2 |].
           split; [| split; [exact H4 | split; [exact H5 | exact H6]]].
           intros c t. rewrite H3.
           destruct (Z.eq_dec c (col0 + j)) as [-> | Hc].
           ++ replace (col0 + j - col0) with j by lia. rewrite Ebit.
              destruct (Z.leb_spec (col0 + (j + 1)) (col0 + j)); [lia |].
              rewrite !andb_false_r. reflexivity.
           ++ destruct (Z.leb_spec (col0 + (j + 1)) c), (Z.leb_spec (col0 + j) c);
                try lia; reflexivity.
Qed.

Lemma column_base (c : Z) : Z.shiftr c 6 = c / 64.
Proof. rewrite Z.shiftr_div_pow2 by lia. reflexivity. Qed.

Lemma column_bit (c : Z) : Z.land c 63 = c mod 64.
Proof. change 63 with (Z.ones 6). rewrite Z.land_ones by lia. reflexivity. Qed.

Lemma untouched_trans (v1 v2 v3 : Values) :
  untouched v1 v2 -> untouched v2 v3 -> untouched v1 v3.
Proof.
  unfold untouched. intros (A1 & A2 & A3 & A4 & A5) (B1 & B2 & B3 & B4 & B5).
  repeat split; congruence.
Qed.

(** One turn of the outer loop. *)
Lemma releaseWord_spec (base : Z) (v : Values) :
  0 <= base < 288230376151711744 ->
  0 <= valuesSet v base < 18446744073709551616 ->
  valuesSet (releaseMasks 65 base 1 (wrap64 (Z.shiftl base 6)) v) base = 0
  /\ (forall b, b <> base ->
        valuesSet (releaseMasks 65 base 1 (wrap64 (Z.shiftl base 6)) v) b = valuesSet v b)
  /\ (forall c t,
        values (releaseMasks 65 base 1 (wrap64 (Z.shiftl base 6)) v) c t
        = if (64 * base <=? c) && (c <? 64 * base + 64)
             && Z.testbit (valuesSet v base) (c - 64 * base)
          then 0 else values v c t)
  /\ valuesMax (releaseMasks 65 base 1 (wrap64 (Z.shiftl base 6)) v) = valuesMax v
  /\ mergesMax (releaseMasks 65 base 1 (wrap64 (Z.shiftl base 6)) v) = mergesMax v
  /\ untouched v (releaseMasks 65 base 1 (wrap64 (Z.shiftl base 6)) v).
Proof.
  intros Hb Hw.
  assert (Hcol : wrap64 (Z.shiftl base 6) = 64 * base).
  { rewrite Z.shiftl_mul_pow2 by lia. change (2 ^ 6) with 64.
    rewrite wrap64_small by lia. lia. }
  rewrite Hcol. change 65%nat with (S 64).
  pose proof (releaseMasks_spec base (64 * base) 64 0 v ltac:(lia) eq_refl Hw
                ltac:(intros; lia)) as H.
  change (wrap64 (2 ^ 0)) with 1 in H. rewrite Z.add_0_r in H. exact H.
Qed.

Lemma releaseBases_spec (count : nat) : forall base v,
  0 <= base -> base + Z.of_nat count <= 288230376151711744 ->
  (forall b, 0 <= valuesSet v b < 18446744073709551616) ->
  (forall b, valuesSet (releaseBases base v count) b
             = if (base <=? b) && (b <? base + Z.of_nat count) then 0 else valuesSet v b)
  /\ (forall c t,
        values (releaseBases base v count) c t
        = if (64 * base <=? c) && (c <? 64 * (base + Z.of_nat count)) && marked v c
          then 0 else values v c t)
  /\ valuesMax (releaseBases base v count) = valuesMax v
  /\ mergesMax (releaseBases base v count) = mergesMax v
  /\ untouched v (releaseBases base v count).
Proof.
  induction count as [| n IH]; intros base v Hb Hmax Hw.
  - cbn [releaseBases Z.of_nat]. split; [| split; [| repeat split]].
    + intro b. destruct (Z.leb_spec base b), (Z.ltb_spec b (base + 0)); try lia; reflexivity.
    + intros c t.
      destruct (Z.leb_spec (64 * base) c), (Z.ltb_spec c (64 * (base + 0)));
        try lia; reflexivity.
  - rewrite Nat2Z.inj_succ in *. cbn [releaseBases].
    destruct (releaseWord_spec base v ltac:(lia) (Hw base)) as (W1 & W2 & W3 & W4 & W5 & W6).
    set (v1 := releaseMasks 65 base 1 (wrap64 (Z.shiftl base 6)) v) in *.
    clearbody v1.
    assert (Hw1 : forall b, 0 <= valuesSet v1 b < 18446744073709551616).
    { intro b. destruct (Z.eq_dec b base) as [-> | Hne]; [rewrite W1; lia |].
      rewrite (W2 b Hne). apply Hw. }
    destruct (IH (base + 1) v1 ltac:(lia) ltac:(lia) Hw1) as (R1 & R2 & R3 & R4 & R5).
    split; [| split; [| split; [congruence | split; [congruence |]]]].
    + intro b. rewrite R1.
      destruct (Z.eq_dec b base) as [-> | Hne].
      * rewrite W1.
        destruct (Z.leb_spec (base + 1) base), (Z.leb_spec base base),
          (Z.ltb_spec base (base + Z.succ (Z.of_nat n))); try lia; reflexivity.
      * rewrite (W2 b Hne).
        destruct (Z.leb_spec (base + 1) b), (Z.leb_spec base b),
          (Z.ltb_spec b (base + 1 + Z.of_nat n)),
          (Z.ltb_spec b (base + Z.succ (Z.of_nat n))); try lia; reflexivity.
    + intros c t. rewrite R2, W3.
      destruct (Z.leb_spec (64 * (base + 1)) c) as [Hhi | Hlo].
      * assert (Hbase : Z.shiftr c 6 <> base) by (rewrite column_base; lia).
        unfold marked. rewrite (W2 _ Hbase).
        destruct (Z.leb_spec (64 * base) c), (Z.ltb_spec c (64 * base + 64)),
          (Z.ltb_spec c (64 * (base + 1 + Z.of_nat n))),
          (Z.ltb_spec c (64 * (base + Z.succ (Z.of_nat n)))); try lia; reflexivity.
      * cbn [andb].
        destruct (Z.leb_spec (64 * base) c) as [Hin | Hout]; cbn [andb]; [| reflexivity].
        destruct (Z.ltb_spec c (64 * base + 64)); [| lia].
        destruct (Z.ltb_spec c (64 * (base + Z.succ (Z.of_nat n)))); [| lia].
        cbn [andb]. unfold marked. rewrite column_base, column_bit.
        replace (c / 64) with base by lia.
        replace (c mod 64) with (c - 64 * base) by lia. reflexivity.
    + exact (untouched_trans v v1 _ W6 R5).
Qed.

Lemma word_has_bit (w : Z) :
  0 <= w < 18446744073709551616 -> w <> 0 ->
  exists j, 0 <= j < 64 /\ Z.testbit w j = true.
Proof.
  intros Hw Hnz. exists (Z.log2 w).
  split; [| apply Z.bit_log2; lia].
  split; [apply Z.log2_nonneg |].
  apply Z.log2_lt_pow2; [lia |]. change (2 ^ 64) with 18446744073709551616. lia.
Qed.

(** In a well-formed state the words above [valuesMax >> 6] are 0. *)
Lemma words_above_max (v : Values) (base : Z) :
  wellFormed v -> Z.shiftr (valuesMax v) 6 < base -> valuesSet v base = 0.
Proof.
  intros (Hw & Hmax & Hmark) Hb.
  destruct (Z.eq_dec (valuesSet v base) 0) as [E | NE]; [exact E | exfalso].
  destruct (word_has_bit _ (Hw base) NE) as (j & Hj & Hbit).
  rewrite column_base in Hb.
  assert (Hpos : 0 <= base) by lia.
  assert (Hlt : 64 * base + j < valuesMax v).
  { apply Hmark; [lia |]. unfold marked. rewrite column_base, column_bit.
    replace ((64 * base + j) / 64) with base by lia.
    replace ((64 * base + j) mod 64) with j by lia. exact Hbit. }
  lia.
Qed.

(** X25.  [valuesRelease] undoes every mark: afterwards no column is
    marked, [valuesMax] and [mergesMax] are 0, the four value pointers of
    every column that was marked are null, and those of the other columns,
    the sizes, the parts and [valuesMerge] are what they were. *)
Theorem valuesRelease_clears (v : Values) :
  wellFormed v ->
  (forall base, 0 <= base -> valuesSet (valuesRelease v) base = 0)
  /\ valuesMax (valuesRelease v) = 0
  /\ mergesMax (valuesRelease v) = 0
  /\ (forall column type, 0 <= column ->
        values (valuesRelease v) column type
        = if marked v column then 0 else values v column type)
  /\ untouched v (valuesRelease v)
  /\ wellFormed (valuesRelease v).
Proof.
  intros Hwf. pose proof Hwf as (Hw & Hmax & Hmark).
  unfold valuesRelease. cbv zeta.
  set (baseMax := Z.shiftr (valuesMax v) 6).
  assert (HbaseMax : 0 <= baseMax < 288230376151711744)
    by (subst baseMax; rewrite column_base; lia).
  destruct (releaseBases_spec (Z.to_nat (baseMax + 1)) 0 v ltac:(lia)
              ltac:(rewrite Z2Nat.id by lia; lia) Hw) as (R1 & R2 & R3 & R4 & R5).
  rewrite Z2Nat.id in R1, R2 by lia.
  set (v1 := releaseBases 0 v (Z.to_nat (baseMax + 1))) in *.
  clearbody v1.
  cbn [valuesSet valuesMax mergesMax values].
  assert (Hzero : forall base, 0 <= base -> valuesSet v1 base = 0).
  { intros base Hb. rewrite R1.
    destruct (Z.leb_spec 0 base); [| lia].
    destruct (Z.ltb_spec base (0 + (baseMax + 1))); [reflexivity |].
    cbn [andb]. apply words_above_max; [exact Hwf | fold baseMax; lia]. }
  split; [exact Hzero |]. split; [reflexivity |]. split; [reflexivity |].
  split; [| split].
  - intros column type Hc. rewrite R2.
    destruct (Z.leb_spec (64 * 0) column); [| lia].
    destruct (Z.ltb_spec column (64 * (0 + (baseMax + 1)))); [reflexivity |].
    cbn [andb]. destruct (marked v column) eqn:Em; [| reflexivity].
    exfalso. pose proof (Hmark column Hc Em) as Hlt.
    subst baseMax. rewrite column_base in *. lia.
  - unfold untouched in *. cbn [valuesMerge sizes sizesPart valuesPart dmlLines]. exact R5.
  - unfold wellFormed. cbn [valuesSet valuesMax]. split; [| split; [lia |]].
    + intro base. rewrite R1. destruct (_ && _); [lia | apply Hw].
    + intros column Hc Hm. unfold marked in Hm. cbn [valuesSet] in Hm.
      rewrite Hzero in Hm by (rewrite column_base; apply Z.div_pos; lia).
      rewrite Z.bits_0 in Hm. discriminate.
Qed.

Section ValueSetFacts.

Variable FB_P : Z.
Variable FB_N : Z.
Variable traceDml : bool.

Local Abbreviation valueSet := (Values.valueSet FB_P FB_N traceDml).

Lemma valueSet_words (type : VALUE_TYPE) (column data size fb : Z) (dump : bool) (v : Values) :
  valuesSet (valueSet type column data size fb dump v)
  = (if Z.land (valuesSet v (Z.shiftr column 6)) (wrap64 (Z.shiftl 1 (Z.land column 63))) =? 0
     then setWord (valuesSet v) (Z.shiftr column 6)
            (Z.lor (valuesSet v (Z.shiftr column 6))
                   (wrap64 (Z.shiftl 1 (Z.land column 63))))
     else valuesSet v)
  /\ valuesMax (valueSet type column data size fb dump v)
     = (if column >=? valuesMax v then column + 1 else valuesMax v).
Proof.
  unfold Values.valueSet. cbv zeta.
  repeat match goal with
         | |- context [if Z.land fb _ =? ?k then _ else _] => destruct (Z.land fb _ =? k)
         end; split; reflexivity.
Qed.

Lemma valueSet_bits (type : VALUE_TYPE) (column data size fb : Z) (dump : bool) (v : Values)
    (b i : Z) :
  0 <= column -> 0 <= i ->
  Z.testbit (valuesSet (valueSet type column data size fb dump v) b) i
  = Z.testbit (valuesSet v b) i
    || ((b =? Z.shiftr column 6) && (i =? Z.land column 63)).
Proof.
  intros Hc Hi.
  destruct (valueSet_words type column data size fb dump v) as (-> & _).
  assert (Hk : 0 <= Z.land column 63 < 64) by (rewrite column_bit; lia).
  rewrite Z.shiftl_mul_pow2, Z.mul_1_l, mask_value by lia.
  rewrite land_pow2_test by lia.
  destruct (Z.testbit (valuesSet v (Z.shiftr column 6)) (Z.land column 63)) eqn:Ebit;
    cbn [negb].
  - destruct (Z.eqb_spec b (Z.shiftr column 6)) as [-> | _]; [| now rewrite orb_false_r].
    destruct (Z.eqb_spec i (Z.land column 63)) as [-> | _]; [| now rewrite orb_false_r].
    rewrite Ebit. reflexivity.
  - unfold setWord. destruct (Z.eqb_spec b (Z.shiftr column 6)) as [-> | _].
    + rewrite Z.lor_spec, Z.pow2_bits_eqb by lia. cbn [andb].
      rewrite (Z.eqb_sym i). reflexivity.
    + rewrite orb_false_r. reflexivity.
Qed.

Lemma valueSet_max (type : VALUE_TYPE) (column data size fb : Z) (dump : bool) (v : Values) :
  valuesMax (valueSet type column data size fb dump v) = Z.max (valuesMax v) (column + 1).
Proof.
  destruct (valueSet_words type column data size fb dump v) as (_ & ->).
  destruct (Z.geb_spec column (valuesMax v)); lia.
Qed.

Lemma valueSet_self (type : VALUE_TYPE) (column data size fb : Z) (dump : bool) (v : Values) :
  0 <= column ->
  marked (valueSet type column data size fb dump v) column = true.
Proof.
  intros Hc. assert (Hk : 0 <= Z.land column 63 < 64) by (rewrite column_bit; lia).
  unfold marked. rewrite valueSet_bits by lia. rewrite !Z.eqb_refl. apply orb_true_r.
Qed.

Lemma valueSet_other (type : VALUE_TYPE) (column data size fb : Z) (dump : bool) (v : Values)
    (c : Z) :
  0 <= column -> 0 <= c -> c <> column ->
  marked (valueSet type column data size fb dump v) c = marked v c.
Proof.
  intros Hc Hc0 Hne. unfold marked.
  rewrite valueSet_bits by (try rewrite column_bit; lia).
  destruct (Z.eqb_spec (Z.shiftr c 6) (Z.shiftr column 6)) as [Eb | _];
    [| apply orb_false_r].
  destruct (Z.eqb_spec (Z.land c 63) (Z.land column 63)) as [Ek | _];
    [| apply orb_false_r].
  exfalso. rewrite !column_base in Eb. rewrite !column_bit in Ek. lia.
Qed.

Lemma valueSet_well_formed (type : VALUE_TYPE) (column data size fb : Z) (dump : bool)
    (v : Values) :
  wellFormed v ->
  0 <= column < 65536 ->
  wellFormed (valueSet type column data size fb dump v).
Proof.
  intros (Hw & Hmax & Hmark) Hc.
  assert (Hk : 0 <= Z.land column 63 < 64) by (rewrite column_bit; lia).
  unfold wellFormed. rewrite valueSet_max. split; [| split; [lia |]].
  - intro b.
    assert (H0 : 0 <= valuesSet (valueSet type column data size fb dump v) b).
    { destruct (valueSet_words type column data size fb dump v) as (-> & _).
      destruct (_ =? 0); [| apply Hw].
      unfold setWord. destruct (b =? _); [| apply Hw].
      apply Z.lor_nonneg. split; [apply Hw | unfold wrap64; lia]. }
    split; [exact H0 |].
    change 18446744073709551616 with (2 ^ 64). apply below_pow2_bits; [exact H0 | lia |].
    intros i Hi. rewrite valueSet_bits by lia.
    rewrite (bits_above (valuesSet v b) 64 i (Hw b) Hi).
    destruct (Z.eqb_spec i (Z.land column 63)); [lia |]. rewrite andb_false_r. reflexivity.
  - intros c Hc0 Hm. destruct (Z.eq_dec c column) as [-> | Hne]; [lia |].
    rewrite valueSet_other in Hm by lia. pose proof (Hmark c Hc0 Hm). lia.
Qed.

Lemma released_well_formed : wellFormed released.
Proof.
  unfold wellFormed, released, marked. cbn [valuesSet valuesMax].
  split; [intros; lia | split; [lia |]].
  intros column _ H. rewrite Z.bits_0 in H. discriminate.
Qed.

(** X26.  [valueSet] marks its column and no other, keeps every marked
    column below [valuesMax], which becomes the larger of its old value
    and [column + 1], and, for a value that is not a part of a row piece
    ([fb] without [FB_P] and [FB_N]), stores the pointer and the size in
    [values] and [sizes]. *)
Theorem valueSet_marks (type : VALUE_TYPE) (column data size fb : Z) (dump : bool)
    (v : Values) :
  wellFormed v ->
  0 <= column < 65536 ->
  wellFormed (valueSet type column data size fb dump v)
  /\ marked (valueSet type column data size fb dump v) column = true
  /\ (forall c, 0 <= c -> c <> column ->
        marked (valueSet type column data size fb dump v) c = marked v c)
  /\ valuesMax (valueSet type column data size fb dump v)
     = Z.max (valuesMax v) (column + 1)
  /\ (Z.land fb (Z.lor FB_P FB_N) = 0 ->
      values (valueSet type column data size fb dump v) column type = data
      /\ sizes (valueSet type column data size fb dump v) column type = size).
Proof.
  intros Hwf Hc.
  split; [exact (valueSet_well_formed type column data size fb dump v Hwf Hc) |].
  split; [apply valueSet_self; lia |].
  split; [intros c Hc0 Hne; apply valueSet_other; lia |].
  split; [apply valueSet_max |].
  intros Hkind. unfold Values.valueSet. cbv zeta. rewrite Hkind. cbn [Z.eqb values sizes].
  unfold setCell. rewrite Z.eqb_refl. destruct type; split; reflexivity.
Qed.

End ValueSetFacts.

End ValuesFacts.

Lemma valuesRelease_clears_witness :
  (forall base, 0 <= base ->
     Values.valuesSet
       (Values.valuesRelease
          (Values.valueSet 1 2 false Values.AFTER 70 4096 12 0 false Values.released)) base
     = 0)
  /\ Values.valuesMax
       (Values.valuesRelease
          (Values.valueSet 1 2 false Values.AFTER 70 4096 12 0 false Values.released)) = 0
  /\ Values.mergesMax
       (Values.valuesRelease
          (Values.valueSet 1 2 false Values.AFTER 70 4096 12 0 false Values.released)) = 0
  /\ (forall column type, 0 <= column ->
        Values.values
          (Values.valuesRelease
             (Values.valueSet 1 2 false Values.AFTER 70 4096 12 0 false Values.released))
          column type
        = if Values.marked
               (Values.valueSet 1 2 false Values.AFTER 70 4096 12 0 false Values.released)
               column
          then 0
          else Values.values
                 (Values.valueSet 1 2 false Values.AFTER 70 4096 12 0 false Values.released)
                 column type)
  /\ Values.untouched
       (Values.valueSet 1 2 false Values.AFTER 70 4096 12 0 false Values.released)
       (Values.valuesRelease
          (Values.valueSet 1 2 false Values.AFTER 70 4096 12 0 false Values.released))
  /\ Values.wellFormed
       (Values.valuesRelease
          (Values.valueSet 1 2 false Values.AFTER 70 4096 12 0 false Values.released)).
Proof.
  apply (valuesRelease_clears
           (Values.valueSet 1 2 false Values.AFTER 70 4096 12 0 false Values.released)).
  apply (valueSet_well_formed 1 2 false Values.AFTER 70 4096 12 0 false Values.released).
  - exact released_well_formed.
  - lia.
Defined.

Lemma valueSet_marks_witness :
  Values.wellFormed (Values.valueSet 1 2 false Values.AFTER 70 4096 12 0 false Values.released)
  /\ Values.marked
       (Values.valueSet 1 2 false Values.AFTER 70 4096 12 0 false Values.released) 70 = true
  /\ (forall c, 0 <= c -> c <> 70 ->
        Values.marked
          (Values.valueSet 1 2 false Values.AFTER 70 4096 12 0 false Values.released) c
        = Values.marked Values.released c)
  /\ Values.valuesMax
       (Values.valueSet 1 2 false Values.AFTER 70 4096 12 0 false Values.released)
     = Z.max (Values.valuesMax Values.released) (70 + 1)
  /\ (Z.land 0 (Z.lor 1 2) = 0 ->
      Values.values
        (Values.valueSet 1 2 false Values.AFTER 70 4096 12 0 false Values.released)
        70 Values.AFTER = 4096
      /\ Values.sizes
           (Values.valueSet 1 2 false Values.AFTER 70 4096 12 0 false Values.released)
           70 Values.AFTER = 12).
Proof.
  apply (valueSet_marks 1 2 false Values.AFTER 70 4096 12 0 false Values.released).
  - exact released_well_formed.
  - lia.
Defined.

(** Column 70 set and released: word 1 holds bit 6, then nothing. *)
Example valueSet_then_release :
  (Values.valuesSet
     (Values.valueSet 1 2 false Values.AFTER 70 4096 12 0 false Values.released) 1,
   Values.valuesMax
     (Values.valueSet 1 2 false Values.AFTER 70 4096 12 0 false Values.released),
   Values.valuesSet
     (Values.valuesRelease
        (Values.valueSet 1 2 false Values.AFTER 70 4096 12 0 false Values.released)) 1,
   Values.values
     (Values.valuesRelease
        (Values.valueSet 1 2 false Values.AFTER 70 4096 12 0 false Values.released))
     70 Values.AFTER)
  = (64, 71, 0, 0).
Proof. vm_compute. reflexivity. Qed.
